(* ===== verification/_CoqProject ===== *)
-Q . S2P
Prelude.v
F64.v
GoDuration.v
NetAddr.v
Text.v
BTree.v
Serve.v
ServeFacts.v
Envknob.v
Prefs.v
SysPolicy.v
RevertGuard.v
Routes.v
Gates.v
ExitNodeArg.v
Profiles.v
EngineConfig.v
Edits.v
Conffile.v
Backend.v
BackendFacts.v
Lifecycle.v
World.v
Contracts.v
CheckPrefs.v
Interleavings.v
ServeControl.v
LocalApi.v
Auth.v
Server.v
ServerFacts.v
Captive.v
CaptiveFacts.v
HostNet.v
HostGates.v
HostReap.v
NotifyStream.v
Proxy.v
ProxyFacts.v
PortmapWire.v
PortmapDisco.v
PortmapClient.v
PortmapFacts.v
