(* ===== verification/Prelude.v ===== *)
(** * tailscaled-rs: a verification library for the daemon's own logic *)
From Stdlib Require Import ZArith Lia Ascii String List.
From stdpp Require Import base list strings option.
#[global] Open Scope Z_scope.

(** ** Results: Rust's [Result<T, E>] as a value and a monad *)

Inductive result (E A : Type) : Type :=
| Ok (a : A)
| Err (e : E).
Arguments Ok {E A} a.
Arguments Err {E A} e.

#[global] Instance result_ret E : MRet (result E) := fun A a => Ok a.
#[global] Instance result_bind E : MBind (result E) :=
  fun A B f m => match m with Ok a => f a | Err e => Err e end.
#[global] Instance result_fmap E : FMap (result E) :=
  fun A B f m => match m with Ok a => Ok (f a) | Err e => Err e end.

(** [opt.ok_or(e)]. *)
Definition ok_or {E A} (e : E) (o : option A) : result E A :=
  match o with Some a => Ok a | None => Err e end.

(** [if c { return Err(e) }]. *)
Definition guard_err {E} (c : bool) (e : E) : result E unit :=
  if c then Err e else Ok tt.

Definition is_ok {E A} (r : result E A) : bool :=
  match r with Ok _ => true | Err _ => false end.

(** ** Machine integers *)

Definition u64_modulus : Z := 2 ^ 64.
Definition i64_min : Z := - 2 ^ 63.
Definition i64_max : Z := 2 ^ 63 - 1.

(** Two's complement reading of a 64-bit word ([x as i64]). *)
Definition as_i64 (x : Z) : Z := (x + 2 ^ 63) mod 2 ^ 64 - 2 ^ 63.
(** The 64-bit word of an integer ([x as u64]). *)
Definition as_u64 (x : Z) : Z := x mod 2 ^ 64.

(** ** Bytes and byte strings *)

(** A Rust [&str] or [&[u8]] as the list of its bytes. *)
Abbreviation bytes := (list ascii).
Definition bs (s : string) : bytes := String.list_ascii_of_string s.

Definition byte_val (c : ascii) : Z := Z.of_N (N_of_ascii c).
Definition byte_of_Z (z : Z) : ascii := ascii_of_N (Z.to_N (z mod 256)).

(** [u8::is_ascii_digit]. *)
Definition is_ascii_digit (c : ascii) : bool :=
  (48 <=? byte_val c) && (byte_val c <=? 57).
(** [c - b'0'] for a digit, and its inverse [b'0' + d]. *)
Definition digit_val (c : ascii) : Z := byte_val c - 48.
Definition digit_char (d : Z) : ascii := byte_of_Z (48 + d).

Lemma byte_val_range c : 0 <= byte_val c < 256.
Proof.
  unfold byte_val. pose proof (N_ascii_bounded c). lia.
Qed.

Lemma byte_val_of_Z z : byte_val (byte_of_Z z) = z mod 256.
Proof.
  unfold byte_val, byte_of_Z. pose proof (Z.mod_pos_bound z 256 eq_refl).
  rewrite N_ascii_embedding by lia. lia.
Qed.

Lemma byte_of_Z_val c : byte_of_Z (byte_val c) = c.
Proof.
  unfold byte_of_Z. pose proof (byte_val_range c).
  rewrite Z.mod_small by lia. unfold byte_val.
  rewrite N2Z.id. apply ascii_N_embedding.
Qed.

Lemma byte_val_inj c d : byte_val c = byte_val d -> c = d.
Proof. intros H. rewrite <- (byte_of_Z_val c), <- (byte_of_Z_val d), H. done. Qed.

Lemma digit_char_val d : 0 <= d < 10 -> byte_val (digit_char d) = 48 + d.
Proof. intros H. unfold digit_char. rewrite byte_val_of_Z. apply Z.mod_small; lia. Qed.

Lemma digit_char_digit d : 0 <= d < 10 -> is_ascii_digit (digit_char d) = true.
Proof. intros H. unfold is_ascii_digit. rewrite digit_char_val; lia. Qed.

Lemma digit_val_char d : 0 <= d < 10 -> digit_val (digit_char d) = d.
Proof. intros H. unfold digit_val. rewrite digit_char_val; lia. Qed.

(** ** Strings *)

Lemma string_compare_refl k : String.compare k k = Eq.
Proof.
  induction k as [|a k IH]; [done|]. simpl. unfold Ascii.compare. by rewrite N.compare_refl.
Qed.

(** ** Inversion of the result monad *)

Lemma bind_ok {E A B} (m : result E A) (f : A -> result E B) b :
  m ≫= f = Ok b <-> exists a, m = Ok a /\ f a = Ok b.
Proof.
  destruct m; simpl; split.
  - eauto.
  - by intros (? & [= ->] & ?).
  - done.
  - by intros (? & ? & ?).
Qed.

Lemma ok_or_ok {E A} (e : E) (o : option A) a :
  ok_or e o = Ok a <-> o = Some a.
Proof. destruct o; naive_solver. Qed.

Lemma guard_err_ok {E} c (e : E) u : guard_err c e = Ok u <-> c = false.
Proof. destruct c, u; simpl; naive_solver. Qed.

Ltac inv_ok :=
  repeat match goal with
  | H : _ ≫= _ = Ok _ |- _ => apply bind_ok in H; destruct H as (? & ? & ?)
  | H : ok_or _ _ = Ok _ |- _ => apply ok_or_ok in H
  | H : guard_err _ _ = Ok _ |- _ => apply guard_err_ok in H
  | H : Ok _ = Ok _ |- _ => injection H as H; try subst
  | H : Err _ = Ok _ |- _ => discriminate H
  | H : Ok _ = Err _ |- _ => discriminate H
  end.
