(* ===== verification/F64.v ===== *)
(** * Rust's [f64], on the kernel's executable IEEE-754 model

    Conversions, multiplication and division of binary64 as the standard
    library's [SpecFloat] computes them (no axioms), and the fact the duration
    parser rests on: a product of integers below [2^53] is exact. *)
From Stdlib Require Import ZArith Lia SpecFloat.
From stdpp Require Import base tactics.
From S2P Require Import Prelude.

(** ** IEEE-754 binary64, as Rust's [f64] computes *)

Definition f64 : Type := spec_float.
Definition f64_prec : Z := 53.
Definition f64_emax : Z := 1024.

(** [x as f64] for a [u64]: round to nearest, ties to even. *)
Definition f64_of_u64 (x : Z) : f64 := binary_normalize f64_prec f64_emax x 0 false.
Definition f64_mul (x y : f64) : f64 := SFmul f64_prec f64_emax x y.
Definition f64_div (x y : f64) : f64 := SFdiv f64_prec f64_emax x y.

(** [x as u64]: truncation toward zero, saturating; NaN is 0. *)
Definition u64_of_f64 (x : f64) : Z :=
  match x with
  | S754_finite false m e =>
      Z.min (2 ^ 64 - 1) (if 0 <=? e then Zpos m * 2 ^ e else Zpos m / 2 ^ (- e))
  | S754_infinity false => 2 ^ 64 - 1
  | _ => 0
  end.


(** ** Exactness on integers below [2^53] *)

Lemma digits2_log2 p : Zpos (digits2_pos p) = Z.log2 (Zpos p) + 1.
Proof.
  assert (H : digits2_pos p = Pos.size p) by (induction p; simpl; congruence).
  rewrite H. destruct p; simpl; lia.
Qed.

(** A right shift that only drops zero bits is exact. *)
Lemma shr_1_even m : 0 <= m ->
  shr_1 (Build_shr_record (2 * m) false false) = Build_shr_record m false false.
Proof. destruct m as [|p|p]; simpl; [done|done|lia]. Qed.

Lemma iter_shr_1_exact n : forall m, 0 <= m ->
  iter_pos shr_1 n (Build_shr_record (m * 2 ^ Zpos n) false false)
  = Build_shr_record m false false.
Proof.
  induction n as [n IH|n IH|]; intros m Hm; cbn [iter_pos].
  - replace (m * 2 ^ Zpos n~1) with (2 * (m * 2 ^ Zpos n * 2 ^ Zpos n)).
    + rewrite shr_1_even by lia. rewrite IH by lia. by apply IH.
    + replace (Zpos n~1) with (Zpos n + Zpos n + 1) by lia. rewrite !Z.pow_add_r by lia. lia.
  - replace (m * 2 ^ Zpos n~0) with (m * 2 ^ Zpos n * 2 ^ Zpos n).
    + rewrite IH by lia. by apply IH.
    + replace (Zpos n~0) with (Zpos n + Zpos n) by lia. rewrite !Z.pow_add_r by lia. lia.
  - replace (m * 2 ^ 1) with (2 * m) by lia. by apply shr_1_even.
Qed.

Lemma shr_exact m e n : 0 <= m -> 0 <= n ->
  shr (Build_shr_record (m * 2 ^ n) false false) e n
  = (Build_shr_record m false false, e + n).
Proof.
  intros Hm Hn. destruct n as [|n|n]; [|by cbn [shr]; rewrite iter_shr_1_exact|lia].
  cbn [shr]. by rewrite Z.mul_1_r, Z.add_0_r.
Qed.

Lemma fexp_small d : 1 <= d -> fexp f64_prec f64_emax d = d - 53.
Proof. unfold fexp, emin, f64_prec, f64_emax. lia. Qed.

(** The canonical float of a positive integer of at most 53 bits. *)
Definition is_int_float (x : f64) (p : positive) : Prop :=
  exists m, Zpos m = Zpos p * 2 ^ (53 - (Z.log2 (Zpos p) + 1)) /\
            x = S754_finite false m (Z.log2 (Zpos p) + 1 - 53).

(** Rounding [p * 2^k * 2^-k] yields exactly [p]. *)
Lemma binary_round_aux_int p k mx :
  Zpos p < 2 ^ 53 -> 0 <= k -> 53 - (Z.log2 (Zpos p) + 1) <= k ->
  Zpos mx = Zpos p * 2 ^ k ->
  is_int_float (binary_round_aux f64_prec f64_emax false (Zpos mx) (- k) loc_Exact) p.
Proof.
  intros Hp Hk Hlow Hmx. set (d := Z.log2 (Zpos p) + 1) in *.
  assert (Hd : 1 <= d <= 53).
  { pose proof (Z.log2_nonneg (Zpos p)). pose proof (Z.log2_lt_pow2 (Zpos p) 53). lia. }
  set (m := Zpos p * 2 ^ (53 - d)).
  assert (Hm : 0 < m) by (unfold m; nia).
  assert (Hlog : Z.log2 m + 1 = 53).
  { unfold m. rewrite Z.log2_mul_pow2 by lia. lia. }
  assert (Hsplit : Zpos mx = m * 2 ^ (d - 53 + k)).
  { rewrite Hmx. unfold m. rewrite <- Z.mul_assoc, <- Z.pow_add_r by lia.
    do 2 f_equal. lia. }
  unfold binary_round_aux, shr_fexp. cbn [Zdigits2 shr_record_of_loc].
  rewrite digits2_log2.
  replace (Z.log2 (Zpos mx) + 1 + - k) with d
    by (rewrite Hmx, Z.log2_mul_pow2 by lia; lia).
  rewrite fexp_small by lia. rewrite Hsplit.
  replace (d - 53 - - k) with (d - 53 + k) by lia.
  rewrite shr_exact by lia. cbn [shr_m loc_of_shr_record round_nearest_even].
  destruct m as [|m'|m'] eqn:Em; try lia.
  cbn [Zdigits2]. rewrite digits2_log2, Hlog.
  replace (53 + (- k + (d - 53 + k))) with d by lia.
  rewrite fexp_small by lia.
  replace (d - 53 - (- k + (d - 53 + k))) with 0 by lia. cbn [shr shr_m].
  rewrite (proj2 (Z.leb_le _ _)) by (unfold f64_emax, f64_prec; lia).
  exists m'. split; [by rewrite <- Em | f_equal; unfold d; lia].
Qed.

Lemma f64_of_u64_int p : Zpos p < 2 ^ 53 -> is_int_float (f64_of_u64 (Zpos p)) p.
Proof.
  intros Hp. unfold f64_of_u64, binary_normalize, binary_round.
  assert (Hd : 1 <= Z.log2 (Zpos p) + 1 <= 53).
  { pose proof (Z.log2_nonneg (Zpos p)). pose proof (Z.log2_lt_pow2 (Zpos p) 53). lia. }
  rewrite Z.add_0_r, digits2_log2, fexp_small by lia.
  set (d := Z.log2 (Zpos p) + 1) in *.
  destruct (d - 53) as [|n|n] eqn:E; try lia; unfold shl_align; rewrite Z.sub_0_r.
  - apply (binary_round_aux_int p 0); lia.
  - replace (Zneg n) with (- Zpos n) by lia. apply binary_round_aux_int; try lia.
    clear. induction n using Pos.peano_ind; [cbn [Pos.iter]; lia|].
    rewrite Pos.iter_succ, Pos2Z.inj_xO, IHn, Pos2Z.inj_succ, Z.pow_succ_r by lia. lia.
Qed.

Lemma f64_mul_int x y p q :
  is_int_float x p -> is_int_float y q -> Zpos p * Zpos q < 2 ^ 53 ->
  is_int_float (f64_mul x y) (p * q).
Proof.
  intros (mx & Hmx & ->) (my & Hmy & ->) Hpq. unfold f64_mul, SFmul. cbn [xorb].
  pose proof (Z.log2_nonneg (Zpos p)). pose proof (Z.log2_nonneg (Zpos q)).
  assert (Z.log2 (Zpos p) < 53) by (apply Z.log2_lt_pow2; nia).
  assert (Z.log2 (Zpos q) < 53) by (apply Z.log2_lt_pow2; nia).
  assert (Z.log2 (Zpos p) <= Z.log2 (Zpos (p * q))) by (apply Z.log2_le_mono; nia).
  set (a := Z.log2 (Zpos p) + 1) in *. set (b := Z.log2 (Zpos q) + 1) in *.
  replace (a - 53 + (b - 53)) with (- (53 - a + (53 - b))) by lia.
  apply binary_round_aux_int; try lia.
  rewrite !Pos2Z.inj_mul, Hmx, Hmy, Z.pow_add_r by lia. lia.
Qed.

Lemma u64_of_int_float x p : is_int_float x p -> Zpos p < 2 ^ 53 -> u64_of_f64 x = Zpos p.
Proof.
  intros (m & Hm & ->) Hp. unfold u64_of_f64.
  pose proof (Z.log2_nonneg (Zpos p)). assert (Z.log2 (Zpos p) < 53) by (apply Z.log2_lt_pow2; lia).
  destruct (Z.leb_spec 0 (Z.log2 (Zpos p) + 1 - 53)).
  - replace (Z.log2 (Zpos p) + 1 - 53) with 0 by lia.
    replace (53 - _) with 0 in Hm by lia. lia.
  - replace (- (Z.log2 (Zpos p) + 1 - 53)) with (53 - (Z.log2 (Zpos p) + 1)) by lia.
    rewrite Hm, Z.div_mul by lia. lia.
Qed.

(** The integer product computed in floating point is the integer product. *)
Lemma f64_mul_u64_exact p q : Zpos p * Zpos q < 2 ^ 53 ->
  u64_of_f64 (f64_mul (f64_of_u64 (Zpos p)) (f64_of_u64 (Zpos q))) = Zpos p * Zpos q.
Proof.
  intros H. apply (u64_of_int_float _ (p * q)); [|lia].
  apply f64_mul_int; [apply f64_of_u64_int; nia | apply f64_of_u64_int; nia | done].
Qed.
