(* ===== verification/GoDuration.v ===== *)
(** * Go's [time.Duration] grammar: [src/goduration.rs]

    The parser [parse_go_duration] (Go's [time.ParseDuration]) and the
    formatter [format_go_duration] (Go's [Duration.String]) over [i64]
    nanoseconds, with the [f64] arithmetic of the fractional part written with
    the kernel's executable IEEE-754 model, and the theorem that formatting and
    parsing round-trip on every [i64]. *)
From Stdlib Require Import ZArith Lia Ascii String List Zpow_facts.
From stdpp Require Import base list strings option.
From S2P Require Import Prelude F64.

(** ** Parsing *)

(** The messages of [parse_go_duration], before they are quoted into text. *)
Inductive duration_error : Type :=
| InvalidDuration (orig : bytes)
| MissingUnit (orig : bytes)
| UnknownUnit (unit_name orig : bytes).

Definition two63 : Z := 2 ^ 63.

(** The scan of [leading_int] from an accumulated [value]. *)
Fixpoint leading_int_from (value : Z) (s : bytes) : option (Z * bytes) :=
  match s with
  | [] => Some (value, [])
  | c :: rest =>
      if negb (is_ascii_digit c) then Some (value, s)
      else if two63 / 10 <? value then None
      else
        let value' := value * 10 + digit_val c in
        if two63 <? value' then None else leading_int_from value' rest
  end.

Definition leading_int (s : bytes) : option (Z * bytes) := leading_int_from 0 s.

(** The scan of [leading_fraction]: digits past an overflow are consumed, not
    accumulated. *)
Fixpoint leading_fraction_from (value : Z) (scale : f64) (overflow : bool)
    (s : bytes) : Z * f64 * bytes :=
  match s with
  | [] => (value, scale, [])
  | c :: rest =>
      if negb (is_ascii_digit c) then (value, scale, s)
      else if overflow then leading_fraction_from value scale true rest
      else if (two63 - 1) / 10 <? value then leading_fraction_from value scale true rest
      else
        let next := value * 10 + digit_val c in
        if two63 <? next then leading_fraction_from value scale true rest
        else leading_fraction_from next (f64_mul scale (f64_of_u64 10)) false rest
  end.

Definition leading_fraction (s : bytes) : Z * f64 * bytes :=
  leading_fraction_from 0 (f64_of_u64 1) false s.

(** [c == b'.' || c.is_ascii_digit()]: what starts a number. *)
Definition starts_number (c : ascii) : bool :=
  Ascii.eqb c "."%char || is_ascii_digit c.

(** The unit name: the bytes before the next digit or dot, and the rest. *)
Fixpoint split_unit (s : bytes) : bytes * bytes :=
  match s with
  | [] => ([], [])
  | c :: rest =>
      if starts_number c then ([], s)
      else let '(u, r) := split_unit rest in (c :: u, r)
  end.

(** U+00B5 (micro sign) and U+03BC (Greek mu), each followed by [s]. *)
Definition micro_sign_s : bytes := ["194"; "181"; "s"]%char.
Definition greek_mu_s : bytes := ["206"; "188"; "s"]%char.

Definition unit_of_name (name : bytes) : option Z :=
  if decide (name = bs "ns") then Some 1
  else if decide (name = bs "us" \/ name = micro_sign_s \/ name = greek_mu_s)
  then Some 1000
  else if decide (name = bs "ms") then Some 1000000
  else if decide (name = bs "s") then Some 1000000000
  else if decide (name = bs "m") then Some (60 * 1000000000)
  else if decide (name = bs "h") then Some (3600 * 1000000000)
  else None.

(** [if s.as_bytes().first() == Some(b'.')]: the optional fraction, as
    [(frac, scale, had_frac, rest)]. *)
Definition parse_fraction (s : bytes) : Z * f64 * bool * bytes :=
  match s with
  | c :: s' =>
      if Ascii.eqb c "."%char then
        let '(f, sc, rest) := leading_fraction s' in
        (f, sc, negb (Nat.eqb (length s') (length rest)), rest)
      else (0, f64_of_u64 1, false, s)
  | [] => (0, f64_of_u64 1, false, s)
  end.

(** The value of one [number unit] group, from its integer part [v]. *)
Definition segment_value (orig : bytes) (v frac : Z) (scale : f64) (unit : Z)
    : result duration_error Z :=
  if two63 / unit <? v then Err (InvalidDuration orig)
  else
    let v := v * unit in
    if 0 <? frac then
      let v := as_u64 (v + u64_of_f64
        (f64_mul (f64_of_u64 frac) (f64_div (f64_of_u64 unit) scale))) in
      if two63 <? v then Err (InvalidDuration orig) else Ok v
    else Ok v.

(** One turn of the loop of [parse_go_duration] on a non-empty rest: the value
    of the group it consumes and what is left. *)
Definition parse_segment (orig s : bytes) : result duration_error (Z * bytes) :=
  match s with
  | [] => Err (InvalidDuration orig)
  | first :: _ =>
      if negb (starts_number first) then Err (InvalidDuration orig)
      else
        '(v, s1) ← ok_or (InvalidDuration orig) (leading_int s);
        let had_int := negb (Nat.eqb (length s) (length s1)) in
        let '(frac, scale, had_frac, s2) := parse_fraction s1 in
        if negb had_int && negb had_frac then Err (InvalidDuration orig)
        else
          let '(unit_name, s3) := split_unit s2 in
          match unit_name with
          | [] => Err (MissingUnit orig)
          | _ =>
              match unit_of_name unit_name with
              | None => Err (UnknownUnit unit_name orig)
              | Some unit =>
                  v' ← segment_value orig v frac scale unit;
                  Ok (v', s3)
              end
          end
  end.

(** [while !s.is_empty() { .. }] with the running [total]; [None] only when
    the fuel runs out. *)
Fixpoint parse_loop (fuel : nat) (orig s : bytes) (total : Z)
    : option (result duration_error Z) :=
  match s, fuel with
  | [], _ => Some (Ok total)
  | _ :: _, O => None
  | _ :: _, S fuel' =>
      match parse_segment orig s with
      | Err e => Some (Err e)
      | Ok (v, rest) =>
          if 2 ^ 64 <=? total + v then Some (Err (InvalidDuration orig))
          else if two63 <? total + v then Some (Err (InvalidDuration orig))
          else parse_loop fuel' orig rest (total + v)
      end
  end.

(** The leading sign: [(neg, rest)]. *)
Definition parse_sign (s : bytes) : bool * bytes :=
  match s with
  | c :: rest =>
      if Ascii.eqb c "-"%char then (true, rest)
      else if Ascii.eqb c "+"%char then (false, rest)
      else (false, s)
  | [] => (false, s)
  end.

(** [parse_go_duration] with an explicit loop bound. *)
Definition parse_go_duration_fuel (fuel : nat) (input : bytes)
    : option (result duration_error Z) :=
  let '(neg, s) := parse_sign input in
  if decide (s = bs "0") then Some (Ok 0)
  else match s with
  | [] => Some (Err (InvalidDuration input))
  | _ =>
      r ← parse_loop fuel input s 0;
      Some (
        total ← r;
        if (neg : bool) then Ok (as_i64 (- as_i64 total))
        else if two63 - 1 <? total then Err (InvalidDuration input)
        else Ok (as_i64 total))
  end.

(** Each turn consumes a byte, so the input's length bounds the loop; the
    [None] branch is unreachable ([parse_go_duration_total]). *)
Definition parse_go_duration (input : bytes) : result duration_error Z :=
  match parse_go_duration_fuel (length input) input with
  | Some r => r
  | None => Err (InvalidDuration input)
  end.

(** ** Formatting *)

Definition SECOND : Z := 1000000000.
Definition MICROSECOND : Z := 1000.
Definition MILLISECOND : Z := 1000000.

(** [buf.push(c)]. *)
Definition push (buf : bytes) (c : ascii) : bytes := buf ++ [c].

(** The loop of [fmt_frac]: [(buf, printing, v)] after [prec] digits. *)
Fixpoint fmt_frac_loop (prec : nat) (printing : bool) (buf : bytes) (v : Z)
    : bytes * bool * Z :=
  match prec with
  | O => (buf, printing, v)
  | S prec' =>
      let digit := v mod 10 in
      let printing' := printing || negb (digit =? 0) in
      let buf' := if printing' then push buf (digit_char digit) else buf in
      fmt_frac_loop prec' printing' buf' (v / 10)
  end.

Definition fmt_frac (buf : bytes) (v : Z) (prec : nat) : bytes * Z :=
  let '(buf', printing, v') := fmt_frac_loop prec false buf v in
  ((if printing then push buf' "."%char else buf'), v').

(** [while v > 0 { .. }] of [fmt_int]. *)
Fixpoint fmt_int_loop (fuel : nat) (buf : bytes) (v : Z) : bytes :=
  match fuel with
  | O => buf
  | S fuel' =>
      if 0 <? v then fmt_int_loop fuel' (push buf (digit_char (v mod 10))) (v / 10)
      else buf
  end.

(** A [u64] has at most 20 decimal digits. *)
Definition fmt_int (buf : bytes) (v : Z) : bytes :=
  if v =? 0 then push buf "0"%char else fmt_int_loop 20 buf v.

(** The sub-second branch: the unit prefix and the precision. *)
Definition fmt_subsecond (u : Z) : bytes :=
  let buf := push [] "s"%char in
  let '(buf, prec) :=
    if u <? MICROSECOND then (push buf "n"%char, 0%nat)
    else if u <? MILLISECOND then
      (push (push buf "181"%char) "194"%char, 3%nat)
    else (push buf "m"%char, 6%nat) in
  let '(buf, u) := fmt_frac buf u prec in
  fmt_int buf u.

(** The branch of a second or more. *)
Definition fmt_seconds (u : Z) : bytes :=
  let buf := push [] "s"%char in
  let '(buf, u) := fmt_frac buf u 9 in
  let buf := fmt_int buf (u mod 60) in
  let u := u / 60 in
  if 0 <? u then
    let buf := push buf "m"%char in
    let buf := fmt_int buf (u mod 60) in
    let u := u / 60 in
    if 0 <? u then fmt_int (push buf "h"%char) u else buf
  else buf.

Definition format_go_duration (d : Z) : bytes :=
  let neg := d <? 0 in
  let u := as_u64 d in
  let u := if neg then as_u64 (- u) else u in
  if (u <? SECOND) && (u =? 0) then bs "0s"
  else
    let buf := if u <? SECOND then fmt_subsecond u else fmt_seconds u in
    let buf := if neg then push buf "-"%char else buf in
    rev buf.

(** ** Termination: the input's length bounds the loop *)

Lemma leading_int_from_length value s v rest :
  leading_int_from value s = Some (v, rest) -> (length rest <= length s)%nat.
Proof.
  revert value. induction s as [|c s IH]; intros value; simpl; [intros [= _ <-]; simpl; lia|].
  repeat case_match; try done;
    intros H'; [injection H' as _ <-; simpl; lia | apply IH in H'; lia].
Qed.

Lemma leading_fraction_from_length s : forall value scale overflow v sc rest,
  leading_fraction_from value scale overflow s = (v, sc, rest) ->
  (length rest <= length s)%nat.
Proof.
  induction s as [|c s IH]; intros value scale overflow v sc rest; simpl;
    [intros [= _ _ <-]; simpl; lia|].
  repeat case_match; intros H'; try (apply IH in H'; simpl; lia).
  injection H' as _ _ <-. simpl. lia.
Qed.

Lemma parse_fraction_length s f sc h rest :
  parse_fraction s = (f, sc, h, rest) -> (length rest <= length s)%nat.
Proof.
  destruct s as [|c s]; simpl; [intros [= _ _ _ <-]; simpl; lia|].
  case_match; [|intros [= _ _ _ <-]; simpl; lia]. destruct (leading_fraction s) as [[f' sc'] r'] eqn:E.
  intros [= _ _ _ <-]. apply leading_fraction_from_length in E. lia.
Qed.

Lemma split_unit_app s u r : split_unit s = (u, r) -> s = u ++ r.
Proof.
  revert u r. induction s as [|c s IH]; intros u r; simpl; [by intros [= <- <-]|].
  case_match; [by intros [= <- <-]|].
  destruct (split_unit s) as [u' r'] eqn:E. intros [= <- <-]. simpl. f_equal. by apply IH.
Qed.

(** A group that parses consumed at least its unit. *)
Lemma parse_segment_length orig s v rest :
  parse_segment orig s = Ok (v, rest) -> (length rest < length s)%nat.
Proof.
  unfold parse_segment. destruct s as [|c s0] eqn:Es; [done|]. rewrite <- Es. clear Es.
  case_match; [done|]. intros H0. apply bind_ok in H0 as ([v1 s1] & H1 & H2).
  apply ok_or_ok in H1. apply leading_int_from_length in H1.
  destruct (parse_fraction s1) as [[[f sc] h] s2] eqn:E2.
  apply parse_fraction_length in E2. case_match; [done|].
  destruct (split_unit s2) as [u s3] eqn:E3. apply split_unit_app in E3 as ->.
  rewrite length_app in E2. destruct u as [|u0 u]; [done|].
  destruct (unit_of_name _); [|done].
  apply bind_ok in H2 as (v' & _ & [= _ <-]). simpl in *. lia.
Qed.

Lemma parse_loop_enough_fuel fuel orig s total :
  (length s <= fuel)%nat -> parse_loop fuel orig s total <> None.
Proof.
  revert s total. induction fuel as [|fuel IH]; intros s total; destruct s as [|c s];
    cbn [parse_loop]; intros Hlen; try done; [simpl in Hlen; lia|].
  destruct (parse_segment orig (c :: s)) as [[v rest]|e] eqn:E; [|done].
  apply parse_segment_length in E. repeat case_match; try done.
  apply IH. simpl in *. lia.
Qed.

Lemma parse_sign_length s neg rest : parse_sign s = (neg, rest) -> (length rest <= length s)%nat.
Proof. destruct s as [|c s]; simpl; [|repeat case_match]; intros [= _ <-]; simpl; lia. Qed.

(** ** Decimal digits *)

Definition dval (acc : Z) (l : bytes) : Z :=
  fold_left (fun a c => a * 10 + digit_val c) l acc.

Definition all_digits (l : bytes) : Prop := Forall (fun c => is_ascii_digit c = true) l.

(** What follows a number: nothing, or a byte that is not a digit. *)
Definition no_digit_head (s : bytes) : Prop :=
  match s with [] => True | c :: _ => is_ascii_digit c = false end.

Lemma digit_val_range c : is_ascii_digit c = true -> 0 <= digit_val c < 10.
Proof. unfold is_ascii_digit, digit_val. lia. Qed.

Lemma dval_app acc l1 l2 : dval acc (l1 ++ l2) = dval (dval acc l1) l2.
Proof. apply fold_left_app. Qed.

Lemma dval_bounds l : forall acc, all_digits l -> 0 <= acc ->
  acc * 10 ^ Z.of_nat (length l) <= dval acc l < (acc + 1) * 10 ^ Z.of_nat (length l).
Proof.
  induction l as [|c l IH]; intros acc Hl Hacc; simpl dval; [simpl; lia|].
  inversion Hl as [|? ? Hc Hl']; subst. pose proof (digit_val_range _ Hc).
  specialize (IH (acc * 10 + digit_val c) Hl' ltac:(lia)). simpl length.
  rewrite Nat2Z.inj_succ, Z.pow_succ_r by lia.
  assert (0 < 10 ^ Z.of_nat (length l)) by lia. nia.
Qed.

Lemma dval_ge l acc : all_digits l -> 0 <= acc -> acc <= dval acc l.
Proof. intros Hl Ha. pose proof (dval_bounds l acc Hl Ha). nia. Qed.

Lemma leading_int_from_digits l : forall acc rest,
  all_digits l -> 0 <= acc -> dval acc l <= two63 -> no_digit_head rest ->
  leading_int_from acc (l ++ rest) = Some (dval acc l, rest).
Proof.
  induction l as [|c l IH]; intros acc rest Hl Hacc Hv Hr.
  - simpl. destruct rest as [|c rest]; [done|]. simpl. simpl in Hr. by rewrite Hr.
  - inversion Hl as [|? ? Hc Hl']; subst. pose proof (digit_val_range _ Hc).
    simpl in Hv |- *. rewrite Hc. simpl.
    pose proof (dval_ge l (acc * 10 + digit_val c) Hl' ltac:(lia)).
    rewrite (proj2 (Z.ltb_ge _ _)) by (unfold two63 in *; apply Z.div_le_lower_bound; lia).
    rewrite (proj2 (Z.ltb_ge _ _)) by lia. apply IH; auto; lia.
Qed.

(** The float scale after [n] accumulated fraction digits. *)
Fixpoint scale_after (n : nat) (scale : f64) : f64 :=
  match n with
  | O => scale
  | S n' => scale_after n' (f64_mul scale (f64_of_u64 10))
  end.

Lemma leading_fraction_from_digits l : forall acc scale rest,
  all_digits l -> 0 <= acc -> dval acc l <= 10 ^ 17 -> no_digit_head rest ->
  leading_fraction_from acc scale false (l ++ rest)
  = (dval acc l, scale_after (length l) scale, rest).
Proof.
  induction l as [|c l IH]; intros acc scale rest Hl Hacc Hv Hr.
  - simpl. destruct rest as [|c rest]; [done|]. simpl. simpl in Hr. by rewrite Hr.
  - inversion Hl as [|? ? Hc Hl']; subst. pose proof (digit_val_range _ Hc).
    simpl in Hv |- *. rewrite Hc. simpl.
    pose proof (dval_ge l (acc * 10 + digit_val c) Hl' ltac:(lia)).
    assert (Htop : 10 ^ 17 < two63 / 10) by (vm_compute; reflexivity).
    rewrite (proj2 (Z.ltb_ge _ _)) by (change ((two63 - 1) / 10) with (two63 / 10); lia).
    rewrite (proj2 (Z.ltb_ge _ _)) by (change two63 with (2 ^ 63); lia).
    apply IH; auto; lia.
Qed.

(** ** What the formatter writes *)

Lemma as_u64_small x : 0 <= x < 2 ^ 64 -> as_u64 x = x.
Proof. intros. by apply Z.mod_small. Qed.

(** [rev] of what the digit loops push: most significant digit first. *)
Lemma fmt_int_loop_spec fuel : forall buf v,
  0 <= v < 10 ^ Z.of_nat fuel ->
  exists l, fmt_int_loop fuel buf v = buf ++ rev l /\ all_digits l /\
    dval 0 l = v /\ (0 < v -> l <> []).
Proof.
  induction fuel as [|fuel IH]; intros buf v Hv; cbn [fmt_int_loop].
  - exists []. rewrite app_nil_r. repeat split; [constructor| simpl in *; lia | simpl in *; lia].
  - destruct (Z.ltb_spec 0 v) as [Hp|Hp].
    + rewrite Nat2Z.inj_succ, Z.pow_succ_r in Hv by lia.
      pose proof (Z.mod_pos_bound v 10 eq_refl) as Hm.
      destruct (IH (push buf (digit_char (v mod 10))) (v / 10)) as (l & -> & Hl & Hd & _).
      { split; [apply Z.div_pos; lia | apply Z.div_lt_upper_bound; lia]. }
      exists (l ++ [digit_char (v mod 10)]). repeat split.
      * unfold push. by rewrite rev_app_distr, <- app_assoc.
      * apply Forall_app; split; [done|]. constructor; [by apply digit_char_digit|constructor].
      * rewrite dval_app, Hd. simpl. rewrite digit_val_char by done.
        pose proof (Z.div_mod v 10 ltac:(lia)). lia.
      * by destruct l.
    + exists []. rewrite app_nil_r. repeat split; [constructor| simpl in *; lia | lia].
Qed.

Lemma fmt_int_spec buf v : 0 <= v < 2 ^ 64 ->
  exists l, fmt_int buf v = buf ++ rev l /\ all_digits l /\ dval 0 l = v /\ l <> [].
Proof.
  intros Hv. unfold fmt_int. destruct (Z.eqb_spec v 0) as [->|Hne].
  - exists ["0"%char]. repeat split; [|done]. constructor; [done|constructor].
  - destruct (fmt_int_loop_spec 20 buf v) as (l & H1 & H2 & H3 & H4).
    { split; [lia|]. eapply Z.lt_trans; [apply Hv | vm_compute; reflexivity]. }
    exists l. repeat split; auto. apply H4. lia.
Qed.

(** The digit loop of the fraction writes [l], the fraction without its
    trailing zeros (all of its [n] digits once printing has begun). *)
Lemma fmt_frac_loop_spec n : forall p buf v, 0 <= v ->
  exists l, fmt_frac_loop n p buf v
    = (buf ++ rev l, p || negb (Nat.eqb (length l) 0), v / 10 ^ Z.of_nat n) /\
    all_digits l /\ (length l <= n)%nat /\ (p = true -> length l = n) /\
    dval 0 l * 10 ^ Z.of_nat (n - length l) = v mod 10 ^ Z.of_nat n.
Proof.
  induction n as [|n IH]; intros p buf v Hv; cbn [fmt_frac_loop].
  - exists []. rewrite app_nil_r, Z.div_1_r, Z.mod_1_r. simpl. rewrite orb_false_r.
    repeat split; [constructor|lia].
  - pose proof (Z.mod_pos_bound v 10 eq_refl) as Hm.
    set (p' := p || negb (v mod 10 =? 0)).
    destruct (IH p' (if p' then push buf (digit_char (v mod 10)) else buf) (v / 10))
      as (l & -> & Hl & Hlen & Hfull & Hd); [apply Z.div_pos; lia|].
    assert (Hdiv : v / 10 / 10 ^ Z.of_nat n = v / 10 ^ Z.of_nat (S n)).
    { rewrite Z.div_div, <- Z.pow_succ_r by lia. do 2 f_equal. lia. }
    assert (Hmod : v mod 10 ^ Z.of_nat (S n) = v mod 10 + 10 * ((v / 10) mod 10 ^ Z.of_nat n)).
    { rewrite Nat2Z.inj_succ, Z.pow_succ_r by lia. apply Z.rem_mul_r; lia. }
    rewrite Hdiv, Hmod. destruct p' eqn:Ep'.
    + specialize (Hfull eq_refl). exists (l ++ [digit_char (v mod 10)]).
      rewrite length_app, dval_app. cbn [length]. rewrite Hfull in *. repeat split.
      * unfold push. rewrite rev_app_distr. simpl. rewrite <- app_assoc. simpl.
        replace (n + 1 =? 0)%nat with false by (symmetry; apply Nat.eqb_neq; lia).
        by rewrite orb_true_r.
      * apply Forall_app; split; [done|]. constructor; [by apply digit_char_digit|constructor].
      * lia.
      * lia.
      * replace (S n - (n + 1))%nat with 0%nat by lia. simpl dval.
        rewrite digit_val_char by done.
        rewrite Nat.sub_diag in Hd. simpl in Hd. simpl. lia.
    + unfold p' in Ep'. apply orb_false_elim in Ep' as [-> E0].
      apply negb_false_iff, Z.eqb_eq in E0. rewrite E0.
      exists l. repeat split; auto; try done.
      replace (S n - length l)%nat with (S (n - length l)) by lia.
      rewrite Nat2Z.inj_succ, Z.pow_succ_r by lia. lia.
Qed.

(** The fraction as text: nothing, or a dot and its digits. *)
Definition frac_text (l : bytes) : bytes := match l with [] => [] | _ => "."%char :: l end.

Lemma fmt_frac_spec buf v prec : 0 <= v ->
  exists l, fmt_frac buf v prec = (buf ++ rev (frac_text l), v / 10 ^ Z.of_nat prec) /\
    all_digits l /\ (length l <= prec)%nat /\
    dval 0 l * 10 ^ Z.of_nat (prec - length l) = v mod 10 ^ Z.of_nat prec.
Proof.
  intros Hv. unfold fmt_frac.
  destruct (fmt_frac_loop_spec prec false buf v Hv) as (l & -> & Hl & Hlen & _ & Hd).
  exists l. repeat split; auto. simpl. destruct l as [|c l]; [done|].
  simpl. unfold push. by rewrite <- app_assoc.
Qed.

(** ** The parser on one group of formatter output *)

(** A unit name: a non-empty run of bytes none of which starts a number. *)
Definition unit_text (u : bytes) : Prop :=
  u <> [] /\ Forall (fun c => starts_number c = false) u.

(** What follows a group: the end, or the next number. *)
Definition number_or_end (s : bytes) : Prop :=
  match s with [] => True | c :: _ => starts_number c = true end.

Lemma split_unit_spec u rest : unit_text u -> number_or_end rest ->
  split_unit (u ++ rest) = (u, rest).
Proof.
  intros [_ Hu] Hr. induction Hu as [|c u Hc Hu IH]; simpl.
  - destruct rest as [|c rest]; [done|]. simpl. simpl in Hr. by rewrite Hr.
  - by rewrite Hc, IH.
Qed.

Lemma starts_number_not_digit c : starts_number c = false -> is_ascii_digit c = false.
Proof. unfold starts_number. by intros [_ ?]%orb_false_elim. Qed.

Lemma unit_text_head u rest : unit_text u -> no_digit_head (u ++ rest).
Proof.
  intros [Hne Hu]. destruct Hu as [|c u Hc Hu]; [done|].
  by apply starts_number_not_digit.
Qed.

Lemma parse_fraction_spec lf u rest :
  all_digits lf -> (length lf <= 9)%nat -> unit_text u ->
  parse_fraction (frac_text lf ++ u ++ rest)
  = (dval 0 lf, scale_after (length lf) (f64_of_u64 1),
     negb (Nat.eqb (length lf) 0), u ++ rest).
Proof.
  intros Hl Hlen Hu. destruct lf as [|d lf].
  - simpl. destruct Hu as [Hne Hu]. destruct Hu as [|c u Hc Hu]; [done|]. simpl.
    unfold starts_number in Hc. apply orb_false_elim in Hc as [-> _]. done.
  - cbn [frac_text app parse_fraction]. rewrite Ascii.eqb_refl.
    unfold leading_fraction.
    replace (d :: lf ++ u ++ rest) with ((d :: lf) ++ u ++ rest) by done.
    rewrite leading_fraction_from_digits; [|done|lia| |by apply unit_text_head].
    + rewrite (proj2 (Nat.eqb_neq _ (length (u ++ rest)))); [done|].
      rewrite length_app. simpl. lia.
    + pose proof (dval_bounds _ 0 Hl ltac:(lia)).
      assert (10 ^ Z.of_nat (length (d :: lf)) <= 10 ^ 9) by (apply Z.pow_le_mono_r; lia).
      lia.
Qed.

(** The float quotient [unit / scale] is the exact power of ten it stands for,
    for the three precisions the formatter uses. *)
Lemma unit_scale_exact (p k : nat) : p ∈ [3; 6; 9]%nat -> (k <= p)%nat ->
  f64_div (f64_of_u64 (10 ^ Z.of_nat p)) (scale_after k (f64_of_u64 1))
  = f64_of_u64 (10 ^ Z.of_nat (p - k)).
Proof.
  intros Hp Hk. rewrite !elem_of_cons, elem_of_nil in Hp.
  destruct Hp as [->|[->|[->|[]]]];
    do 10 (destruct k as [|k]; [vm_compute; reflexivity|try lia]).
Qed.

Lemma segment_value_spec orig v lf p unit :
  all_digits lf -> (length lf <= p)%nat -> 0 <= v -> 0 < unit ->
  (lf <> [] -> p ∈ [3; 6; 9]%nat /\ unit = 10 ^ Z.of_nat p) ->
  v * unit + dval 0 lf * 10 ^ Z.of_nat (p - length lf) <= two63 ->
  segment_value orig v (dval 0 lf) (scale_after (length lf) (f64_of_u64 1)) unit
  = Ok (v * unit + dval 0 lf * 10 ^ Z.of_nat (p - length lf)).
Proof.
  intros Hl Hlen Hv Hunit Hp Htot. pose proof (dval_bounds lf 0 Hl ltac:(lia)) as Hd.
  unfold segment_value.
  rewrite (proj2 (Z.ltb_ge _ _)) by (apply Z.div_le_lower_bound; nia).
  destruct (Z.ltb_spec 0 (dval 0 lf)) as [Hpos|Hz].
  2:{ replace (dval 0 lf) with 0 by lia. f_equal. lia. }
  assert (Hne : lf <> []) by (intros ->; simpl in Hpos; lia).
  destruct (Hp Hne) as [Hin ->]. rewrite unit_scale_exact by done.
  set (t := 10 ^ Z.of_nat (p - length lf)) in *.
  assert (Hsmall : dval 0 lf * t < 2 ^ 53).
  { assert (10 ^ Z.of_nat (length lf) * t = 10 ^ Z.of_nat p).
    { unfold t. rewrite <- Z.pow_add_r by lia. f_equal. lia. }
    assert (10 ^ Z.of_nat p <= 10 ^ 9).
    { apply Z.pow_le_mono_r; [lia|]. rewrite !elem_of_cons, elem_of_nil in Hin. lia. }
    assert (10 ^ 9 < 2 ^ 53) by (vm_compute; reflexivity). nia. }
  assert (0 < t) by (unfold t; lia).
  destruct (dval 0 lf) as [|f|f]; try lia. destruct t as [|t'|t']; try lia.
  rewrite f64_mul_u64_exact by done. unfold two63 in *.
  rewrite as_u64_small by (split; [nia|lia]). by rewrite (proj2 (Z.ltb_ge _ _)) by lia.
Qed.

Definition seg_text (li lf u : bytes) : bytes := li ++ frac_text lf ++ u.

Lemma parse_segment_spec orig li lf u p unit rest :
  all_digits li -> li <> [] -> all_digits lf -> (length lf <= p)%nat -> (p <= 9)%nat ->
  unit_text u -> unit_of_name u = Some unit -> 0 < unit -> number_or_end rest ->
  (lf <> [] -> p ∈ [3; 6; 9]%nat /\ unit = 10 ^ Z.of_nat p) ->
  dval 0 li * unit + dval 0 lf * 10 ^ Z.of_nat (p - length lf) <= two63 ->
  parse_segment orig (seg_text li lf u ++ rest)
  = Ok (dval 0 li * unit + dval 0 lf * 10 ^ Z.of_nat (p - length lf), rest).
Proof.
  intros Hli Hne Hlf Hlen Hp9 Hu Hname Hunit Hrest Hp Htot.
  pose proof (dval_bounds li 0 Hli ltac:(lia)) as Hdi.
  pose proof (dval_bounds lf 0 Hlf ltac:(lia)) as Hdf.
  assert (0 < 10 ^ Z.of_nat (p - length lf)) by lia.
  unfold seg_text. rewrite <- !app_assoc.
  set (tail := frac_text lf ++ u ++ rest).
  assert (Htail : no_digit_head tail).
  { unfold tail. destruct lf; [by apply (unit_text_head u rest)|done]. }
  assert (Hint : leading_int (li ++ tail) = Some (dval 0 li, tail)).
  { apply leading_int_from_digits; auto; nia. }
  destruct li as [|d li]; [done|]. unfold parse_segment.
  replace ((d :: li) ++ tail) with (d :: li ++ tail) in * by done. rewrite Hint.
  inversion Hli as [|? ? Hd Hli']; subst.
  unfold starts_number. rewrite Hd, orb_true_r. cbn [negb ok_or mbind result_bind].
  unfold tail. rewrite parse_fraction_spec by (auto; lia).
  set (hi := negb (Nat.eqb _ _)).
  assert (Hhi : hi = true).
  { unfold hi. apply negb_true_iff, Nat.eqb_neq. simpl. rewrite length_app.
    unfold tail. lia. }
  rewrite Hhi. cbn [negb andb]. rewrite split_unit_spec by done.
  destruct Hu as [Hun _]. destruct u as [|u0 u]; [done|]. rewrite Hname.
  rewrite (segment_value_spec _ _ _ p) by (auto; lia). done.
Qed.

(** ** The round trip *)

(** The loop's result on [s] from [total], with any sufficient fuel. *)
Definition parses (orig s : bytes) (total : Z) (r : result duration_error Z) : Prop :=
  forall fuel, (length s <= fuel)%nat -> parse_loop fuel orig s total = Some r.

Lemma parses_nil orig total : parses orig [] total (Ok total).
Proof. intros [|fuel] _; done. Qed.

Lemma parses_step orig s total v rest r :
  parse_segment orig s = Ok (v, rest) -> total + v <= two63 ->
  parses orig rest (total + v) r -> parses orig s total r.
Proof.
  intros Hs Ht Hr fuel Hlen. destruct s as [|c s]; [done|].
  destruct fuel as [|fuel]; [simpl in Hlen; lia|].
  cbn [parse_loop]. rewrite Hs. unfold two63 in *.
  rewrite (proj2 (Z.leb_gt _ _)), (proj2 (Z.ltb_ge _ _)) by lia.
  apply Hr. apply parse_segment_length in Hs. simpl in *. lia.
Qed.

Definition digit_head (s : bytes) : Prop :=
  match s with [] => False | c :: _ => is_ascii_digit c = true end.

Lemma digit_head_number s : digit_head s -> number_or_end s.
Proof. destruct s as [|c s]; [done|]. simpl. unfold starts_number. intros ->. apply orb_true_r. Qed.

Lemma digit_head_seg li lf u rest : all_digits li -> li <> [] ->
  digit_head (seg_text li lf u ++ rest).
Proof. intros Hl Hne. destruct Hl; done. Qed.

(** What the round trip needs of the text [s] of a magnitude [u]: from any
    total it adds [u], and it starts with a digit. *)
Definition denotes (s : bytes) (u : Z) : Prop :=
  digit_head s /\
  forall orig total, 0 <= total -> total + u <= two63 -> parses orig s total (Ok (total + u)).

(** One more group in front of a text, or alone. *)
Lemma denotes_seg li lf u p unit rest w :
  all_digits li -> li <> [] -> all_digits lf -> (length lf <= p <= 9)%nat ->
  unit_text u -> unit_of_name u = Some unit -> 0 < unit -> 0 <= w ->
  (lf <> [] -> p ∈ [3; 6; 9]%nat /\ unit = 10 ^ Z.of_nat p) ->
  (rest = [] /\ w = 0 \/ denotes rest w) ->
  denotes (seg_text li lf u ++ rest)
    (dval 0 li * unit + dval 0 lf * 10 ^ Z.of_nat (p - length lf) + w).
Proof.
  intros Hli Hne Hlf Hlen Hu Hname Hunit Hw Hp Hrest.
  split; [by apply digit_head_seg|]. intros orig total Ht Htot.
  pose proof (dval_bounds li 0 Hli ltac:(lia)). pose proof (dval_bounds lf 0 Hlf ltac:(lia)).
  assert (0 < 10 ^ Z.of_nat (p - length lf)) by lia.
  assert (0 <= dval 0 li * unit + dval 0 lf * 10 ^ Z.of_nat (p - length lf)) by nia.
  eapply parses_step.
  - apply (parse_segment_spec orig li lf u p unit); auto; try lia.
    destruct Hrest as [[-> _]|[Hh _]]; [done|by apply digit_head_number].
  - lia.
  - set (g := dval 0 li * unit + _) in *.
    replace (total + (g + w)) with (total + g + w) by lia.
    destruct Hrest as [[-> ->]|[_ Hr]]; [|apply Hr; lia].
    rewrite Z.add_0_r. apply parses_nil.
Qed.

Lemma unit_text_s : unit_text (bs "s"). Proof. split; [done|]. by repeat constructor. Qed.
Lemma unit_text_m : unit_text (bs "m"). Proof. split; [done|]. by repeat constructor. Qed.
Lemma unit_text_h : unit_text (bs "h"). Proof. split; [done|]. by repeat constructor. Qed.
Lemma unit_text_ns : unit_text (bs "ns"). Proof. split; [done|]. by repeat constructor. Qed.
Lemma unit_text_us : unit_text micro_sign_s. Proof. split; [done|]. by repeat constructor. Qed.
Lemma unit_text_ms : unit_text (bs "ms"). Proof. split; [done|]. by repeat constructor. Qed.

Create HintDb duration.
#[export] Hint Resolve unit_text_s unit_text_m unit_text_h unit_text_ns unit_text_us
  unit_text_ms : duration.

(** [fmt_frac] then [fmt_int] on a buffer holding a unit write one group. *)
Lemma fmt_group_denotes u p unit v rest w buf n :
  rev buf = u ++ rest -> 0 <= v -> 0 <= n < 2 ^ 64 -> (p <= 9)%nat -> unit_text u ->
  unit_of_name u = Some unit -> unit = 10 ^ Z.of_nat p -> (p <> 0%nat -> p ∈ [3; 6; 9]%nat) ->
  0 <= w -> (rest = [] /\ w = 0 \/ denotes rest w) ->
  exists buf', fmt_frac buf v p = (buf', v / unit) /\
    denotes (rev (fmt_int buf' n)) (n * unit + v mod unit + w).
Proof.
  intros Hbuf Hv Hn Hp Hu Hname Hunit Hin Hw Hrest.
  destruct (fmt_frac_spec buf v p Hv) as (lf & -> & Hlf & Hlen & Hd).
  eexists. split; [by rewrite Hunit|].
  destruct (fmt_int_spec (buf ++ rev (frac_text lf)) _ Hn) as (li & -> & Hli & Hdi & Hne).
  rewrite !rev_app_distr, !rev_involutive, Hbuf, (app_assoc (frac_text lf)), (app_assoc li).
  change (li ++ frac_text lf ++ u) with (seg_text li lf u).
  replace (n * unit + v mod unit) with
    (dval 0 li * unit + dval 0 lf * 10 ^ Z.of_nat (p - length lf)).
  2:{ rewrite Hd, Hdi, Hunit. done. }
  apply denotes_seg; auto; try lia.
  intros Hlne. split; [|done]. apply Hin. destruct lf; [done|]. simpl in Hlen. lia.
Qed.

(** [fmt_int] on a buffer holding a unit of minutes or hours. *)
Lemma fmt_int_group_denotes u unit v rest w buf :
  rev buf = u ++ rest -> 0 <= v < 2 ^ 64 -> unit_text u ->
  unit_of_name u = Some unit -> 0 < unit -> 0 <= w -> denotes rest w ->
  denotes (rev (fmt_int buf v)) (v * unit + w).
Proof.
  intros Hbuf Hv Hu Hname Hunit Hw Hrest.
  destruct (fmt_int_spec buf v Hv) as (li & -> & Hli & Hdi & Hne).
  rewrite rev_app_distr, rev_involutive, Hbuf.
  pose proof (denotes_seg li [] u 0 unit rest w) as H. unfold seg_text in H. simpl in H.
  rewrite <- app_assoc in H. rewrite Z.add_0_r, Hdi in H. apply H; auto; [constructor | lia | done].
Qed.

(** The side conditions of the group lemmas at a concrete unit. *)
Ltac group_side :=
  first [ done | lia | solve [auto with duration] | by intros []
        | intros _; rewrite !elem_of_cons; tauto ].

Lemma fmt_subsecond_denotes u : 0 < u < SECOND -> denotes (rev (fmt_subsecond u)) u.
Proof.
  intros Hu. unfold fmt_subsecond, SECOND, MICROSECOND, MILLISECOND in *.
  assert (Hsplit : forall unit, 0 < unit -> u / unit * unit + u mod unit + 0 = u).
  { intros unit ?. pose proof (Z.div_mod u unit ltac:(lia)). lia. }
  assert (Hn : forall unit, 0 < unit -> 0 <= u / unit < 2 ^ 64).
  { intros unit ?. split; [apply Z.div_pos; lia|]. apply Z.div_lt_upper_bound; nia. }
  repeat case_match; simplify_eq.
  - destruct (fmt_group_denotes (bs "ns") 0 1 u [] 0 (push (push [] "s"%char) "n"%char) (u / 1))
      as (buf' & E & H'); [(apply Hn; lia) || group_side..|]. rewrite Hsplit in H' by lia. congruence.
  - destruct (fmt_group_denotes micro_sign_s 3 1000 u [] 0
      (push (push (push [] "s"%char) "181"%char) "194"%char) (u / 1000))
      as (buf' & E & H'); [(apply Hn; lia) || group_side..|]. rewrite Hsplit in H' by lia. congruence.
  - destruct (fmt_group_denotes (bs "ms") 6 1000000 u [] 0
      (push (push [] "s"%char) "m"%char) (u / 1000000))
      as (buf' & E & H'); [(apply Hn; lia) || group_side..|]. rewrite Hsplit in H' by lia. congruence.
Qed.

Lemma fmt_seconds_denotes u : SECOND <= u <= two63 -> denotes (rev (fmt_seconds u)) u.
Proof.
  intros Hu. unfold fmt_seconds, SECOND, two63 in *.
  set (s := u / 1000000000).
  assert (Hs : 0 <= s < 2 ^ 64).
  { split; [apply Z.div_pos; lia | apply Z.div_lt_upper_bound; lia]. }
  pose proof (Z.div_mod u 1000000000 ltac:(lia)) as Du. fold s in Du.
  pose proof (Z.mod_pos_bound s 60 eq_refl). pose proof (Z.mod_pos_bound u 1000000000 eq_refl).
  pose proof (Z.div_mod s 60 ltac:(lia)) as Ds.
  destruct (fmt_group_denotes (bs "s") 9 1000000000 u [] 0 (push [] "s"%char) (s mod 60))
    as (buf & E & Hsec); [group_side..|]. rewrite E. fold s.
  set (m := s / 60) in *. set (wsec := s mod 60 * 1000000000 + u mod 1000000000 + 0) in *.
  assert (0 <= m < 2 ^ 64).
  { unfold m. split; [apply Z.div_pos; lia | apply Z.div_lt_upper_bound; lia]. }
  assert (0 <= wsec) by lia.
  destruct (Z.ltb_spec 0 m); [|replace u with wsec by lia; done].
  pose proof (Z.mod_pos_bound m 60 eq_refl). pose proof (Z.div_mod m 60 ltac:(lia)) as Dm.
  assert (Hmin : denotes (rev (fmt_int (push (fmt_int buf (s mod 60)) "m"%char) (m mod 60)))
                   (m mod 60 * (60 * 1000000000) + wsec)).
  { eapply (fmt_int_group_denotes (bs "m")); eauto; [|group_side..].
    unfold push. by rewrite rev_app_distr. }
  set (h := m / 60) in *.
  assert (0 <= h < 2 ^ 64).
  { unfold h. split; [apply Z.div_pos; lia | apply Z.div_lt_upper_bound; lia]. }
  set (wmin := m mod 60 * (60 * 1000000000) + wsec) in *.
  destruct (Z.ltb_spec 0 h); [|replace u with wmin by lia; done].
  replace u with (h * (3600 * 1000000000) + wmin) by lia.
  eapply (fmt_int_group_denotes (bs "h")); eauto; [|group_side..].
  unfold push. by rewrite rev_app_distr.
Qed.

Lemma as_i64_small x : - 2 ^ 63 <= x < 2 ^ 63 -> as_i64 x = x.
Proof. intros. unfold as_i64. rewrite Z.mod_small; lia. Qed.

Lemma as_i64_neg_magnitude total : 0 <= total <= 2 ^ 63 ->
  as_i64 (- as_i64 total) = - total.
Proof.
  intros H. destruct (Z.eq_dec total (2 ^ 63)) as [->|]; [vm_compute; reflexivity|].
  rewrite (as_i64_small total) by lia. apply as_i64_small. lia.
Qed.

Lemma parse_sign_digit s : digit_head s -> parse_sign s = (false, s).
Proof.
  destruct s as [|c s]; [done|]. simpl. intros Hc.
  destruct (Ascii.eqb_spec c "-"%char) as [->|]; [done|].
  by destruct (Ascii.eqb_spec c "+"%char) as [->|].
Qed.

Lemma denotes_not_zero_text s u : 0 <= u <= two63 -> denotes s u -> s <> bs "0".
Proof.
  intros Hu [_ H] ->. specialize (H [] 0 ltac:(lia) ltac:(lia) 1%nat ltac:(simpl; lia)).
  discriminate H.
Qed.

(** The parser on a signed text whose magnitude denotes [u]. *)
Lemma parse_signed_denotes s u (neg : bool) : 0 <= u <= two63 -> denotes s u ->
  (neg = false -> u < two63) ->
  parse_go_duration (if neg then "-"%char :: s else s) = Ok (if neg then - u else u).
Proof.
  intros Hu Hs Hneg. pose proof (denotes_not_zero_text s u Hu Hs) as Hz.
  destruct Hs as [Hh Hp]. unfold parse_go_duration, parse_go_duration_fuel.
  set (input := if neg then _ else _).
  assert (Hsign : parse_sign input = (neg, s)).
  { unfold input. destruct neg; [done|]. by apply parse_sign_digit. }
  rewrite Hsign. rewrite decide_False by done.
  destruct s as [|c s'] eqn:Es; [done|]. rewrite <- Es in *. clear Es.
  rewrite (Hp input 0) by (try lia; apply parse_sign_length in Hsign; lia).
  cbn [mbind option_bind result_bind]. rewrite Z.add_0_l. unfold two63 in *.
  destruct neg; [by rewrite as_i64_neg_magnitude|]. specialize (Hneg eq_refl).
  rewrite (proj2 (Z.ltb_ge _ _)) by lia. by rewrite as_i64_small by lia.
Qed.

Lemma format_go_duration_text d : i64_min <= d <= i64_max -> d <> 0 ->
  exists s, format_go_duration d = (if d <? 0 then "-"%char :: s else s) /\ denotes s (Z.abs d).
Proof.
  unfold i64_min, i64_max. intros Hd Hne. unfold format_go_duration.
  assert (Hmag : (if d <? 0 then as_u64 (- as_u64 d) else as_u64 d) = Z.abs d).
  { unfold as_u64. destruct (Z.ltb_spec d 0) as [Hn|Hn]; [|rewrite Z.mod_small; lia].
    rewrite <- (Z.sub_0_l (d mod _)), Zminus_mod_idemp_r, Z.mod_small; lia. }
  rewrite Hmag. rewrite (proj2 (Z.eqb_neq _ _)), andb_false_r by lia.
  set (buf := if _ <? SECOND then _ else _). exists (rev buf). split.
  - destruct (d <? 0); [|done]. unfold push. by rewrite rev_app_distr.
  - unfold buf. destruct (Z.ltb_spec (Z.abs d) SECOND).
    + apply fmt_subsecond_denotes. lia.
    + apply fmt_seconds_denotes. unfold two63. lia.
Qed.

Lemma parse_loop_fuel_irrel f1 f2 orig s total :
  (length s <= f1)%nat -> (length s <= f2)%nat ->
  parse_loop f1 orig s total = parse_loop f2 orig s total.
Proof.
  revert f2 s total. induction f1 as [|f1 IH]; intros f2 s total; destruct s as [|c s];
    destruct f2 as [|f2]; cbn [parse_loop]; intros H1 H2; try done; try (simpl in *; lia).
  destruct (parse_segment orig (c :: s)) as [[v rest]|e] eqn:E; [|done].
  apply parse_segment_length in E. repeat case_match; try done. apply IH; simpl in *; lia.
Qed.

(** ** Bounds *)

Lemma leading_int_from_nonneg s : forall acc v rest,
  0 <= acc -> leading_int_from acc s = Some (v, rest) -> 0 <= v.
Proof.
  induction s as [|c s IH]; intros acc v rest Hacc; simpl; [naive_solver|].
  destruct (is_ascii_digit c) eqn:Hc; simpl; [|naive_solver].
  apply digit_val_range in Hc. repeat case_match; try done. apply IH. lia.
Qed.

Lemma unit_of_name_pos name u : unit_of_name name = Some u -> 0 < u.
Proof. unfold unit_of_name. repeat case_decide; naive_solver. Qed.

Lemma parse_segment_nonneg orig s v rest :
  parse_segment orig s = Ok (v, rest) -> 0 <= v.
Proof.
  unfold parse_segment. destruct s as [|c s0] eqn:Es; [done|]. rewrite <- Es. clear Es.
  case_match; [done|]. intros H0. apply bind_ok in H0 as ([v1 s1] & H1 & H2).
  apply ok_or_ok, leading_int_from_nonneg in H1; [|lia].
  destruct (parse_fraction s1) as [[[f sc] h] s2]. case_match; [done|].
  destruct (split_unit s2) as [u s3]. destruct u as [|u0 u]; [done|].
  destruct (unit_of_name _) as [unit|] eqn:Eu; [|done]. apply unit_of_name_pos in Eu.
  apply bind_ok in H2 as (v' & Hv & [= <- _]). unfold segment_value in Hv.
  repeat case_match; try done; injection Hv as <-; [|nia].
  unfold as_u64. apply Z.mod_pos_bound. lia.
Qed.

Lemma parse_loop_range fuel : forall orig s total t,
  0 <= total <= two63 -> parse_loop fuel orig s total = Some (Ok t) -> 0 <= t <= two63.
Proof.
  induction fuel as [|fuel IH]; intros orig s total t Ht; destruct s as [|c s];
    cbn [parse_loop]; try done; try (intros [= <-]; exact Ht).
  destruct (parse_segment orig (c :: s)) as [[v rest]|e] eqn:E; [|done].
  apply parse_segment_nonneg in E. destruct (Z.leb_spec (2 ^ 64) (total + v)); [done|].
  destruct (Z.ltb_spec two63 (total + v)); [done|]. apply IH. lia.
Qed.

(** ** The properties *)

(** C23: formatting then parsing is the identity: for every [i64] count of
    nanoseconds, [parse_go_duration] reads back exactly the text
    [format_go_duration] writes, through the [f64] arithmetic of the fraction. *)
Theorem format_parse_roundtrip (d : Z) :
  i64_min <= d <= i64_max -> parse_go_duration (format_go_duration d) = Ok d.
Proof.
  intros Hd. destruct (Z.eq_dec d 0) as [->|Hne]; [vm_compute; reflexivity|].
  destruct (format_go_duration_text d Hd Hne) as (s & -> & Hs).
  unfold i64_min, i64_max in Hd.
  rewrite (parse_signed_denotes s (Z.abs d) (d <? 0)); [|unfold two63; lia|done|unfold two63; lia].
  f_equal. destruct (Z.ltb_spec d 0); lia.
Qed.

Lemma format_parse_roundtrip_witness :
  i64_min <= -5400000000001 <= i64_max /\
  parse_go_duration (format_go_duration (-5400000000001)) = Ok (-5400000000001).
Proof.
  assert (H : i64_min <= -5400000000001 <= i64_max) by (unfold i64_min, i64_max; lia).
  split; [exact H | exact (format_parse_roundtrip _ H)].
Defined.

(** The parser's loop terminates within the input's length: every fuel of
    at least that many turns gives the same answer, the one
    [parse_go_duration] returns. *)
Theorem parse_go_duration_total (fuel : nat) (input : bytes) :
  (length input <= fuel)%nat ->
  parse_go_duration_fuel fuel input = Some (parse_go_duration input).
Proof.
  intros Hfuel. unfold parse_go_duration, parse_go_duration_fuel.
  destruct (parse_sign input) as [neg s] eqn:Es. apply parse_sign_length in Es.
  case_decide; [done|]. destruct s as [|c s'] eqn:E; [done|]. rewrite <- E in *. clear E.
  rewrite (parse_loop_fuel_irrel fuel (length input)) by lia.
  pose proof (parse_loop_enough_fuel (length input) input s 0 Es).
  by destruct (parse_loop (length input) input s 0).
Qed.

Lemma parse_go_duration_total_witness :
  parse_go_duration_fuel 7 (bs "2h45m1s") = Some (Ok 9901000000000).
Proof. exact (parse_go_duration_total 7 (bs "2h45m1s") ltac:(vm_compute; lia)). Defined.

(** A parsed duration is an [i64]: it is the sign of the input applied to
    a magnitude of at most [2^63], so no wrap-around is ever observable (the
    one magnitude [2^63] is accepted only with a minus sign, as [i64::MIN]). *)
Theorem parse_go_duration_range (input : bytes) (d : Z) :
  parse_go_duration input = Ok d ->
  i64_min <= d <= i64_max /\
  exists total, 0 <= total <= two63 /\ d = (if fst (parse_sign input) then - total else total).
Proof.
  unfold parse_go_duration, parse_go_duration_fuel, i64_min, i64_max.
  destruct (parse_sign input) as [neg s] eqn:Es. cbn [fst]. case_decide.
  { intros [= <-]. split; [lia|]. exists 0. unfold two63. destruct neg; lia. }
  destruct s as [|c s'] eqn:E; [done|]. rewrite <- E in *. clear E.
  destruct (parse_loop _ input s 0) as [r|] eqn:El; [|done].
  cbn [mbind option_bind]. intros H'. apply bind_ok in H' as (total & -> & Ht).
  apply parse_loop_range in El; [|unfold two63; lia]. unfold two63 in *. destruct neg.
  - injection Ht as <-. rewrite as_i64_neg_magnitude by lia. split; [lia|]. eauto.
  - destruct (Z.ltb_spec (2 ^ 63 - 1) total); [done|]. injection Ht as <-.
    rewrite as_i64_small by lia. split; [lia|]. eauto.
Qed.

Lemma parse_go_duration_range_witness :
  i64_min <= -9223372036854775808 <= i64_max /\
  exists total, 0 <= total <= two63 /\ -9223372036854775808 = - total.
Proof. exact (parse_go_duration_range (bs "-9223372036854775808ns") _ eq_refl). Defined.
