(* ===== verification/NetAddr.v ===== *)
(** * IP addresses and their text, as Rust's [std::net] reads and writes them

    [IpAddr] as an integer per family, the text parser of [core::net] (dotted
    quads without leading zeros; IPv6 groups with one [::] and an optional
    embedded IPv4 tail) and the [Display] rendering (IPv6 with its longest run
    of zero groups compressed).  The components use them for policy values,
    gateway addresses and captive-portal endpoints. *)
From Stdlib Require Import ZArith Lia Ascii String List.
From stdpp Require Import base list strings option.
From S2P Require Import Prelude.

(** An [Ipv4Addr] is its 32 bits, an [Ipv6Addr] its 128 bits, big-endian. *)
Inductive IpAddr : Type :=
| V4 (bits : Z)
| V6 (bits : Z).

#[global] Instance IpAddr_eq_dec : EqDecision IpAddr.
Proof. solve_decision. Defined.

Definition ip_wf (a : IpAddr) : Prop :=
  match a with V4 b => 0 <= b < 2 ^ 32 | V6 b => 0 <= b < 2 ^ 128 end.

Definition is_ipv4 (a : IpAddr) : bool := match a with V4 _ => true | V6 _ => false end.

(** Big-endian digits of [z] in base [base], [n] of them. *)
Fixpoint be_digits (base : Z) (n : nat) (z : Z) : list Z :=
  match n with
  | O => []
  | S n' => be_digits base n' (z / base) ++ [z mod base]
  end.
Definition be_value (base : Z) (l : list Z) : Z :=
  fold_left (fun acc d => acc * base + d) l 0.

(** [octets()] and [segments()]. *)
Definition octets4 (b : Z) : list Z := be_digits 256 4 b.
Definition octets16 (b : Z) : list Z := be_digits 256 16 b.
Definition segments (b : Z) : list Z := be_digits 65536 8 b.

Definition ipv4 (a b c d : Z) : Z := be_value 256 [a; b; c; d].

(** ** Parsing *)

Definition hex_val (c : ascii) : option Z :=
  let v := byte_val c in
  if (48 <=? v) && (v <=? 57) then Some (v - 48)
  else if (97 <=? v) && (v <=? 102) then Some (v - 87)
  else if (65 <=? v) && (v <=? 70) then Some (v - 55)
  else None.

(** [char::to_digit(radix)]. *)
Definition to_digit (radix : Z) (c : ascii) : option Z :=
  match hex_val c with
  | Some d => if d <? radix then Some d else None
  | None => None
  end.

(** The digit loop of [read_number]: value, count and rest; [None] past
    [max_digits]. *)
Fixpoint read_digits (radix : Z) (max_digits : nat) (acc : Z) (count : nat) (s : bytes)
    : option (Z * nat * bytes) :=
  match s with
  | [] => Some (acc, count, [])
  | c :: rest =>
      match to_digit radix c with
      | None => Some (acc, count, s)
      | Some d =>
          if Nat.leb max_digits count then None
          else read_digits radix max_digits (acc * radix + d) (S count) rest
      end
  end.

Definition read_number (radix limit : Z) (max_digits : nat) (allow_zero_prefix : bool)
    (s : bytes) : option (Z * bytes) :=
  let leading_zero := match s with c :: _ => Ascii.eqb c "0"%char | [] => false end in
  match read_digits radix max_digits 0 0 s with
  | None => None
  | Some (v, count, rest) =>
      if Nat.eqb count 0 then None
      else if negb allow_zero_prefix && leading_zero && Nat.ltb 1 count then None
      else if limit <=? v then None
      else Some (v, rest)
  end.

Definition read_given_char (c : ascii) (s : bytes) : option bytes :=
  match s with
  | d :: rest => if Ascii.eqb c d then Some rest else None
  | [] => None
  end.

(** [read_separator]: the separator is read before every part but the first. *)
Definition read_separator {A} (sep : ascii) (i : nat) (p : bytes -> option (A * bytes))
    (s : bytes) : option (A * bytes) :=
  match i with
  | O => p s
  | S _ => s' ← read_given_char sep s; p s'
  end.

Definition read_octet (s : bytes) : option (Z * bytes) := read_number 10 256 3 false s.

Definition read_ipv4_addr (s : bytes) : option (Z * bytes) :=
  '(a, s) ← read_separator "." 0 read_octet s;
  '(b, s) ← read_separator "." 1 read_octet s;
  '(c, s) ← read_separator "." 2 read_octet s;
  '(d, s) ← read_separator "." 3 read_octet s;
  Some (ipv4 a b c d, s).

(** [read_groups] over the [remaining] groups of [limit], the [i]-th next:
    the groups read, whether the last two were an embedded IPv4, the rest. *)
Fixpoint read_groups (remaining i : nat) (s : bytes) : list Z * bool * bytes :=
  match remaining with
  | O => ([], false, s)
  | S remaining' =>
      let embedded :=
        match remaining' with
        | O => None
        | S _ => read_separator ":" i read_ipv4_addr s
        end in
      match embedded with
      | Some (v4, s') => ([v4 / 65536; v4 mod 65536], true, s')
      | None =>
          match read_separator ":" i (read_number 16 65536 4 true) s with
          | None => ([], false, s)
          | Some (g, s') =>
              let '(gs, v4, s'') := read_groups remaining' (S i) s' in (g :: gs, v4, s'')
          end
      end
  end.

Definition read_ipv6_addr (s : bytes) : option (Z * bytes) :=
  let '(head, head_ipv4, s) := read_groups 8 0 s in
  if Nat.eqb (length head) 8 then Some (be_value 65536 head, s)
  else if (head_ipv4 : bool) then None
  else
    s ← read_given_char ":" s;
    s ← read_given_char ":" s;
    let '(tail, _, s) := read_groups (8 - (length head + 1)) 0 s in
    Some (be_value 65536
            (head ++ repeat 0 (8 - length head - length tail) ++ tail), s).

(** [s.parse::<IpAddr>()]: IPv4 first, then IPv6, and the whole text. *)
Definition parse_ip (s : string) : option IpAddr :=
  let whole (r : option (IpAddr * bytes)) :=
    match r with Some (a, []) => Some a | _ => None end in
  match read_ipv4_addr (bs s) with
  | Some (b, rest) => whole (Some (V4 b, rest))
  | None => whole ((fun '(b, rest) => (V6 b, rest)) <$> read_ipv6_addr (bs s))
  end.

(** ** Display *)

Definition hex_char (d : Z) : ascii :=
  if d <? 10 then digit_char d else byte_of_Z (87 + d).

(** [v] in base [radix], most significant digit first, no leading zero. *)
Fixpoint show_nat_fuel (radix : Z) (fuel : nat) (v : Z) : bytes :=
  match fuel with
  | O => []
  | S f =>
      if v <? radix then [hex_char v]
      else show_nat_fuel radix f (v / radix) ++ [hex_char (v mod radix)]
  end.
(** Decimal of a value below [10^20], hexadecimal of one below [16^20]. *)
Definition show_dec (v : Z) : bytes := show_nat_fuel 10 20 v.
Definition show_hex (v : Z) : bytes := show_nat_fuel 16 20 v.

Fixpoint join_bytes (sep : bytes) (l : list bytes) : bytes :=
  match l with
  | [] => []
  | [x] => x
  | x :: l' => x ++ sep ++ join_bytes sep l'
  end.

Definition show_ipv4 (b : Z) : bytes := join_bytes (bs ".") (map show_dec (octets4 b)).

(** The first longest run of zero groups: [(start, length)]. *)
Fixpoint zero_run_from (i cur_start cur_len best_start best_len : nat) (l : list Z)
    : nat * nat :=
  match l with
  | [] => (best_start, best_len)
  | g :: l' =>
      if g =? 0 then
        let cs := if Nat.eqb cur_len 0 then i else cur_start in
        let cl := S cur_len in
        if Nat.ltb best_len cl then zero_run_from (S i) cs cl cs cl l'
        else zero_run_from (S i) cs cl best_start best_len l'
      else zero_run_from (S i) 0 0 best_start best_len l'
  end.

Definition show_groups (l : list Z) : bytes := join_bytes (bs ":") (map show_hex l).

Definition show_ipv6 (b : Z) : bytes :=
  let segs := segments b in
  if decide (b / 2 ^ 32 = 65535) then bs "::ffff:" ++ show_ipv4 (b mod 2 ^ 32)
  else
    let '(start, len) := zero_run_from 0 0 0 0 0 segs in
    if Nat.ltb 1 len then
      show_groups (take start segs) ++ bs "::" ++ show_groups (drop (start + len) segs)
    else show_groups segs.

Definition show_ip (a : IpAddr) : string :=
  String.string_of_list_ascii
    (match a with V4 b => show_ipv4 b | V6 b => show_ipv6 b end).

(** ** Evaluated examples *)

Example parse_v4_ok : parse_ip "100.64.0.7" = Some (V4 (ipv4 100 64 0 7)).
Proof. vm_compute. reflexivity. Qed.
Example parse_v4_leading_zero : parse_ip "100.064.0.7" = None.
Proof. vm_compute. reflexivity. Qed.
Example parse_v6_compressed :
  (show_ip <$> parse_ip "FD7A:115C:A1E0:0:0:0:0:1") = Some "fd7a:115c:a1e0::1"%string.
Proof. vm_compute. reflexivity. Qed.
Example parse_v6_embedded :
  (show_ip <$> parse_ip "::ffff:1.2.3.4") = Some "::ffff:1.2.3.4"%string.
Proof. vm_compute. reflexivity. Qed.
Example parse_v6_any : (show_ip <$> parse_ip "::") = Some "::"%string.
Proof. vm_compute. reflexivity. Qed.
Example parse_v6_two_gaps : parse_ip "1::2::3" = None.
Proof. vm_compute. reflexivity. Qed.

(** ** Big-endian digits *)

Lemma length_be_digits base n z : length (be_digits base n z) = n.
Proof. revert z. induction n as [|n IH]; intros z; simpl; [done|]. rewrite length_app, IH. simpl. lia. Qed.

Lemma be_value_app base l d : be_value base (l ++ [d]) = be_value base l * base + d.
Proof. unfold be_value. by rewrite fold_left_app. Qed.

Lemma be_value_digits base n z : 1 < base ->
  be_value base (be_digits base n z) = z mod base ^ Z.of_nat n.
Proof.
  intros Hb. revert z. induction n as [|n IH]; intros z; cbn [be_digits].
  - by rewrite Z.mod_1_r.
  - rewrite be_value_app, IH, Nat2Z.inj_succ, Z.pow_succ_r by lia.
    rewrite Z.rem_mul_r by lia. lia.
Qed.

Lemma be_digits_range base n z d : 1 < base -> d ∈ be_digits base n z -> 0 <= d < base.
Proof.
  intros Hb. revert z. induction n as [|n IH]; intros z; cbn [be_digits];
    [by intros ?%not_elem_of_nil|].
  rewrite elem_of_app, list_elem_of_singleton. intros [H| ->]; [by eapply IH|].
  by apply Z.mod_pos_bound; lia.
Qed.
