(* ===== verification/Text.v ===== *)
(** * Text as [core::str] handles it

    A Rust [&str] is the list of its UTF-8 bytes.  The helpers of [core::str]
    the components use: case folding, character boundaries, trimming by
    Unicode whitespace, splitting, lines and the integer parsers. *)
From Stdlib Require Import ZArith Lia Ascii String List.
From stdpp Require Import base list strings option.
From S2P Require Import Prelude NetAddr.

(** ** Characters *)

Definition to_ascii_lowercase (c : ascii) : ascii :=
  if (65 <=? byte_val c) && (byte_val c <=? 90) then byte_of_Z (byte_val c + 32) else c.

Definition eq_ignore_ascii_case (a b : bytes) : bool :=
  bool_decide (map to_ascii_lowercase a = map to_ascii_lowercase b).

(** [s.strip_suffix('.').unwrap_or(s)]. *)
Definition strip_dot (s : bytes) : bytes :=
  match list.last s with
  | Some c => if Ascii.eqb c "." then removelast s else s
  | None => s
  end.

(** [is_char_boundary]: not inside a multi-byte sequence. *)
Definition is_char_boundary (s : bytes) (i : nat) : bool :=
  match s !! i with
  | Some c => negb ((128 <=? byte_val c) && (byte_val c <=? 191))
  | None => Nat.eqb i (length s)
  end.

Definition get_prefix (s : bytes) (i : nat) : option bytes :=
  if is_char_boundary s i then Some (take i s) else None.
Definition get_suffix (s : bytes) (i : nat) : option bytes :=
  if is_char_boundary s i then Some (drop i s) else None.

(** The length in bytes of the character a lead byte starts. *)
Definition char_len (lead : ascii) : nat :=
  let v := byte_val lead in
  if v <? 128 then 1 else if v <? 224 then 2 else if v <? 240 then 3 else 4.

(** [std::str::from_utf8] accepts exactly the well-formed sequences. *)
Definition continuation (c : ascii) : bool := (128 <=? byte_val c) && (byte_val c <=? 191).
Definition between (lo hi : Z) (c : ascii) : bool := (lo <=? byte_val c) && (byte_val c <=? hi).

Fixpoint is_utf8_fuel (fuel : nat) (s : bytes) : bool :=
  match fuel with
  | O => match s with [] => true | _ => false end
  | S f =>
      match s with
      | [] => true
      | a :: s1 =>
          if between 0 127 a then is_utf8_fuel f s1
          else
            match s1 with
            | [] => false
            | b :: s2 =>
                if between 194 223 a then continuation b && is_utf8_fuel f s2
                else
                  match s2 with
                  | [] => false
                  | c :: s3 =>
                      if between 224 239 a then
                        continuation c
                        && (if byte_val a =? 224 then between 160 191 b
                            else if byte_val a =? 237 then between 128 159 b
                            else continuation b)
                        && is_utf8_fuel f s3
                      else
                        match s3 with
                        | [] => false
                        | d :: s4 =>
                            between 240 244 a && continuation c && continuation d
                            && (if byte_val a =? 240 then between 144 191 b
                                else if byte_val a =? 244 then between 128 143 b
                                else continuation b)
                            && is_utf8_fuel f s4
                        end
                  end
            end
      end
  end.
Definition is_utf8 (s : bytes) : bool := is_utf8_fuel (length s) s.

(** ** Trimming *)

(** The UTF-8 encodings of [char::is_whitespace]. *)
Definition WHITESPACE : list (list Z) :=
  map (fun c => [c]) [9; 10; 11; 12; 13; 32]
  ++ [[194; 133]; [194; 160]; [225; 154; 128]]
  ++ map (fun c => [226; 128; c]) [128; 129; 130; 131; 132; 133; 134; 135; 136; 137; 138; 168; 169; 175]
  ++ [[226; 129; 159]; [227; 128; 128]].

Fixpoint strip_bytes (p : list Z) (s : bytes) : option bytes :=
  match p, s with
  | [], _ => Some s
  | b :: p', c :: s' => if byte_val c =? b then strip_bytes p' s' else None
  | _ :: _, [] => None
  end.

(** The text after one leading whitespace character, if there is one. *)
Definition strip_ws (encodings : list (list Z)) (s : bytes) : option bytes :=
  head (omap (fun p => strip_bytes p s) encodings).

Fixpoint trim_start_fuel (encodings : list (list Z)) (fuel : nat) (s : bytes) : bytes :=
  match fuel with
  | O => s
  | S f => match strip_ws encodings s with Some s' => trim_start_fuel encodings f s' | None => s end
  end.

(** [str::trim]; every turn consumes a byte, so the length is fuel enough. *)
Definition trim (s : bytes) : bytes :=
  let s := trim_start_fuel WHITESPACE (length s) s in
  rev (trim_start_fuel (map (@rev Z) WHITESPACE) (length s) (rev s)).

(** No whitespace encoding starts with [c], read from either end. *)
Definition no_ws_head (encodings : list (list Z)) (c : ascii) : bool :=
  forallb (fun p => match p with [] => false | b :: _ => negb (byte_val c =? b) end) encodings.

Lemma strip_ws_none encodings c s :
  no_ws_head encodings c = true -> strip_ws encodings (c :: s) = None.
Proof.
  unfold strip_ws, no_ws_head. induction encodings as [|p encodings IH]; [done|].
  cbn [forallb omap list_omap]. intros [Hp H]%andb_true_iff. destruct p as [|b p]; [done|].
  cbn [strip_bytes]. apply negb_true_iff in Hp. rewrite Hp. by apply IH.
Qed.

Lemma trim_start_id encodings fuel s :
  match s with [] => True | c :: _ => no_ws_head encodings c = true end ->
  encodings = WHITESPACE \/ encodings = map (@rev Z) WHITESPACE ->
  trim_start_fuel encodings fuel s = s.
Proof.
  intros Hs He. destruct fuel as [|fuel]; [done|]. cbn [trim_start_fuel].
  destruct s as [|c s]; [by destruct He; subst|]. by rewrite strip_ws_none.
Qed.

Lemma strip_bytes_suffix p s s' : strip_bytes p s = Some s' -> exists k, s = k ++ s'.
Proof.
  revert s. induction p as [|b p IH]; intros s; cbn; [intros [= ->]; by exists []|].
  destruct s as [|c s]; [done|]. destruct (_ =? _); [|done]. intros H. destruct (IH _ H) as [k ->].
  by exists (c :: k).
Qed.

Lemma strip_ws_suffix enc s s' : strip_ws enc s = Some s' -> exists k, s = k ++ s'.
Proof.
  unfold strip_ws. induction enc as [|p enc IH]; [done|]. cbn [omap list_omap].
  destruct (strip_bytes p s) as [r|] eqn:E; [|exact IH].
  cbn [head]. intros [= <-]. by eapply strip_bytes_suffix.
Qed.

Lemma trim_start_suffix enc fuel s : exists k, s = k ++ trim_start_fuel enc fuel s.
Proof.
  revert s. induction fuel as [|f IH]; intros s; cbn; [by exists []|].
  destruct (strip_ws enc s) as [s'|] eqn:E; [|by exists []].
  destruct (strip_ws_suffix _ _ _ E) as [k ->]. destruct (IH s') as [k' Hk].
  exists (k ++ k'). by rewrite <- app_assoc, <- Hk.
Qed.

Lemma trim_infix s : exists a b, s = a ++ trim s ++ b.
Proof.
  unfold trim. set (t := trim_start_fuel WHITESPACE (length s) s).
  destruct (trim_start_suffix WHITESPACE (length s) s) as [a Ha]. fold t in Ha.
  destruct (trim_start_suffix (map (@rev Z) WHITESPACE) (length t) (rev t)) as [b Hb].
  set (u := trim_start_fuel _ _ (rev t)) in *. clearbody u. exists a, (rev b).
  apply (f_equal (@rev ascii)) in Hb. rewrite rev_involutive, rev_app_distr in Hb. by rewrite <- Hb.
Qed.

(** ** Splitting *)

Fixpoint starts_with (p s : bytes) : bool :=
  match p, s with
  | [], _ => true
  | a :: p', b :: s' => Ascii.eqb a b && starts_with p' s'
  | _ :: _, [] => false
  end.
Definition ends_with (p s : bytes) : bool := starts_with (rev p) (rev s).

(** [slice.windows(n).any(|w| w == needle)]. *)
Fixpoint contains_bytes (needle s : bytes) : bool :=
  starts_with needle s || match s with [] => false | _ :: s' => contains_bytes needle s' end.

(** [s.split_once(c)]: around the first [c]. *)
Fixpoint split_once (c : ascii) (s : bytes) : option (bytes * bytes) :=
  match s with
  | [] => None
  | d :: s' =>
      if Ascii.eqb c d then Some ([], s')
      else '(k, v) ← split_once c s'; Some (d :: k, v)
  end.
(** [s.rsplit_once(c)]: around the last. *)
Definition rsplit_once (c : ascii) (s : bytes) : option (bytes * bytes) :=
  '(v, k) ← split_once c (rev s); Some (rev k, rev v).

(** [s.split(c)]. *)
Fixpoint split_on (c : ascii) (s : bytes) : list bytes :=
  match s with
  | [] => [[]]
  | d :: s' =>
      if Ascii.eqb c d then [] :: split_on c s'
      else match split_on c s' with
           | [] => [[d]]
           | part :: parts => (d :: part) :: parts
           end
  end.

Definition LF : ascii := "010"%char.
Definition CR : ascii := "013"%char.

Definition strip_cr (s : bytes) : bytes :=
  match rev s with c :: r => if Ascii.eqb c CR then rev r else s | [] => s end.

(** [s.lines()]: a final line feed ends the last line and starts none; a
    carriage return is dropped only before a line feed. *)
Fixpoint lines_of (parts : list bytes) : list bytes :=
  match parts with
  | [] => []
  | [last] => if bool_decide (last = []) then [] else [last]
  | part :: parts' => strip_cr part :: lines_of parts'
  end.
Definition lines (s : bytes) : list bytes := lines_of (split_on LF s).

(** [s.split_whitespace()]: the maximal runs of non-whitespace. *)
Fixpoint split_ws_fuel (fuel : nat) (word s : bytes) : list bytes :=
  let flush := match word with [] => [] | _ => [rev word] end in
  match fuel, s with
  | S f, c :: s' =>
      match strip_ws WHITESPACE s with
      | Some rest => flush ++ split_ws_fuel f [] rest
      | None => split_ws_fuel f (c :: word) s'
      end
  | _, _ => flush
  end.
Definition split_whitespace (s : bytes) : list bytes := split_ws_fuel (length s) [] s.

Lemma split_once_spec c s k v : split_once c s = Some (k, v) -> s = k ++ c :: v /\ ~ In c k.
Proof.
  revert k v. induction s as [|d s IH]; intros k v; cbn [split_once]; [done|].
  destruct (Ascii.eqb_spec c d) as [->|Hne]; [intros [= <- <-]; split; [done|by intros []]|].
  destruct (split_once c s) as [[k' v']|]; cbn; [|done]. intros [= <- <-].
  destruct (IH _ _ eq_refl) as [-> H]. split; [done|]. by intros [<-|?].
Qed.

Lemma split_once_first c k v : ~ In c k -> split_once c (k ++ c :: v) = Some (k, v).
Proof.
  induction k as [|d k IH]; intros H; cbn [app split_once]; [by rewrite Ascii.eqb_refl|].
  destruct (Ascii.eqb_spec c d) as [->|_]; [by destruct H; left|].
  rewrite IH by (intros ?; apply H; by right). done.
Qed.

Lemma rsplit_once_iff c s k v : rsplit_once c s = Some (k, v) <-> s = k ++ c :: v /\ ~ In c v.
Proof.
  unfold rsplit_once. split.
  - destruct (split_once c (rev s)) as [[a b]|] eqn:E; cbn; [|done]. intros [= <- <-].
    apply split_once_spec in E as [E Hn]. split; [|by rewrite <- in_rev].
    by rewrite <- (rev_involutive s), E, rev_app_distr; cbn; rewrite <- app_assoc.
  - intros [-> Hn]. rewrite rev_app_distr. cbn [rev]. rewrite <- app_assoc. cbn [app].
    rewrite split_once_first by (by rewrite <- in_rev). cbn. by rewrite !rev_involutive.
Qed.

Lemma starts_with_iff p s : starts_with p s = true <-> exists t, s = p ++ t.
Proof.
  revert s. induction p as [|a p IH]; intros [|b s]; cbn [starts_with].
  - split; [by exists []|done].
  - split; [by exists (b :: s)|done].
  - split; [done|]. by intros (t & ?).
  - rewrite andb_true_iff, Ascii.eqb_eq, IH. split.
    + intros [-> (t & ->)]. by exists t.
    + intros (t & [= -> ->]). eauto.
Qed.

Lemma ends_with_iff p s : ends_with p s = true <-> exists t, s = t ++ p.
Proof.
  unfold ends_with. rewrite starts_with_iff. split; intros (t & H).
  - exists (rev t). by rewrite <- (rev_involutive s), H, rev_app_distr, rev_involutive.
  - exists (rev t). by rewrite H, rev_app_distr.
Qed.

Lemma split_on_cut c l s : ~ In c l -> split_on c (l ++ c :: s) = l :: split_on c s.
Proof.
  intros H. induction l as [|d l IH]; cbn [app split_on].
  - by rewrite Ascii.eqb_refl.
  - destruct (Ascii.eqb_spec c d) as [->|_]; [by destruct H; left|].
    rewrite IH by (intros Hin; apply H; by right). done.
Qed.

Lemma split_on_nonempty c s : split_on c s <> [].
Proof. destruct s as [|d s]; cbn; [done|]. destruct (Ascii.eqb c d); [done|]. by destruct (split_on c s). Qed.

Lemma lines_cut l s : ~ In LF l -> lines (l ++ LF :: s) = strip_cr l :: lines s.
Proof.
  intros Hl. unfold lines. rewrite split_on_cut by done. pose proof (split_on_nonempty LF s).
  by destruct (split_on LF s) as [|p ps].
Qed.

Lemma strip_cr_snoc l : strip_cr (l ++ [CR]) = l.
Proof. unfold strip_cr. rewrite rev_app_distr. cbn [rev app]. rewrite Ascii.eqb_refl. apply rev_involutive. Qed.

(** ** Integers *)

Fixpoint radix_value (radix acc : Z) (s : bytes) : option Z :=
  match s with
  | [] => Some acc
  | c :: s' => d ← to_digit radix c; radix_value radix (acc * radix + d) s'
  end.

(** [uN::from_str_radix]: an optional plus, then digits, below [limit]. *)
Definition from_str_radix (radix limit : Z) (s : bytes) : option Z :=
  let digits := match s with c :: s' => if Ascii.eqb c "+" then s' else s | [] => s end in
  match digits with
  | [] => None
  | _ => v ← radix_value radix 0 digits; if v <? limit then Some v else None
  end.

Definition parse_u16 (s : bytes) : option Z := from_str_radix 10 (2 ^ 16) s.

Example lines_crlf : lines (bs "a" ++ [CR; LF] ++ bs "b") = [bs "a"; bs "b"].
Proof. reflexivity. Qed.
Example words : split_whitespace (bs " ens18  0003 ") = [bs "ens18"; bs "0003"].
Proof. vm_compute. reflexivity. Qed.

(** ** Words *)

(** A printable ASCII character starts no whitespace. *)
Definition printable (c : ascii) : bool := (33 <=? byte_val c) && (byte_val c <=? 126).

Lemma printable_no_ws c : printable c = true -> no_ws_head WHITESPACE c = true.
Proof.
  unfold printable, no_ws_head, WHITESPACE. intros H. apply forallb_forall. intros p Hp.
  assert (Hb : exists b p', p = b :: p' /\ (b <= 32 \/ 127 <= b)).
  { repeat rewrite in_app_iff in Hp. repeat rewrite in_map_iff in Hp. cbn [In] in Hp.
    destruct Hp as [(c' & <- & Hc)|[Hp|[(c' & <- & Hc)|Hp]]]; [exists c', []; split; [done|lia]| | |];
      [|exists 226, [128; c']; split; [done|lia]|];
      repeat destruct Hp as [<-|Hp]; try done; do 2 eexists; (split; [done|lia]). }
  destruct Hb as (b & p' & -> & Hb). apply negb_true_iff, Z.eqb_neq. lia.
Qed.

Lemma strip_bytes_length p s s' : strip_bytes p s = Some s' -> length s = (length p + length s')%nat.
Proof.
  revert s. induction p as [|b p IH]; intros [|c s]; cbn; try done; [by intros [= <-]|by intros [= <-]|].
  destruct (byte_val c =? b); [|done]. intros ->%IH. done.
Qed.

Lemma strip_ws_shorter s s' : strip_ws WHITESPACE s = Some s' -> (length s' < length s)%nat.
Proof.
  unfold strip_ws. intros H.
  assert (He : Forall (fun p => p <> []) WHITESPACE) by (by repeat constructor).
  revert H. induction He as [|p l Hp He IH]; [done|]. cbn [omap list_omap].
  destruct (strip_bytes p s) as [r|] eqn:E; cbn [head]; [|done].
  intros [= ->]. apply strip_bytes_length in E. destruct p; [done|]. cbn in E. lia.
Qed.

(** Any fuel past the length gives the same words. *)
Lemma split_ws_fuel_enough n s : (length s <= n)%nat -> forall f g word,
  (length s <= f)%nat -> (length s <= g)%nat -> split_ws_fuel f word s = split_ws_fuel g word s.
Proof.
  revert s. induction n as [|n IH]; intros [|c s] Hn f g word Hf Hg; cbn in Hn; try lia;
    try (by destruct f, g).
  cbn in Hf, Hg. destruct f as [|f], g as [|g]; [lia..|]. cbn [split_ws_fuel].
  destruct (strip_ws WHITESPACE (c :: s)) as [rest|] eqn:E; [|by apply IH; lia].
  apply strip_ws_shorter in E. cbn in E. f_equal. apply IH; lia.
Qed.

Lemma split_ws_word w : forall f word s, Forall (fun c => printable c = true) w -> (length (w ++ s) <= f)%nat ->
  split_ws_fuel f word (w ++ s) = split_ws_fuel (length s) (rev w ++ word) s.
Proof.
  induction w as [|c w IH]; intros f word s Hw Hf; cbn [app rev].
  - by eapply split_ws_fuel_enough.
  - inversion Hw as [|? ? Hc Hw']; subst. cbn in Hf. destruct f as [|f]; [lia|]. cbn [split_ws_fuel].
    rewrite strip_ws_none by (by apply printable_no_ws). rewrite IH by (done || lia).
    by rewrite <- app_assoc.
Qed.

(** Words of printable characters, each followed by some spaces. *)
Definition SPACE : ascii := " "%char.

Lemma split_ws_spaces k : forall s, split_whitespace (repeat SPACE k ++ s) = split_whitespace s.
Proof.
  unfold split_whitespace. induction k as [|k IH]; intros s; [done|]. cbn [repeat app length split_ws_fuel].
  assert (strip_ws WHITESPACE (SPACE :: repeat SPACE k ++ s) = Some (repeat SPACE k ++ s)) as -> by done.
  cbn [app]. apply IH.
Qed.

Lemma split_whitespace_word w k s : w <> [] -> Forall (fun c => printable c = true) w ->
  split_whitespace (w ++ repeat SPACE (S k) ++ s) = w :: split_whitespace s.
Proof.
  intros Hne Hw. unfold split_whitespace at 1. rewrite split_ws_word by done.
  cbn [repeat app length split_ws_fuel].
  assert (strip_ws WHITESPACE (SPACE :: repeat SPACE k ++ s) = Some (repeat SPACE k ++ s)) as -> by done.
  assert (Hr : match rev w ++ [] with [] => [] | _ => [rev (rev w ++ [])] end = [w]).
  { rewrite app_nil_r, rev_involutive. destruct (rev w) eqn:E; [|done].
    apply (f_equal (@rev ascii)) in E. rewrite rev_involutive in E. done. }
  rewrite Hr. cbn [app]. f_equal. apply split_ws_spaces.
Qed.

Lemma split_whitespace_last w : w <> [] -> Forall (fun c => printable c = true) w -> split_whitespace w = [w].
Proof.
  intros Hne Hw. unfold split_whitespace. rewrite <- (app_nil_r w) at 2. rewrite split_ws_word by (done || (rewrite app_nil_r; done)).
  cbn. rewrite app_nil_r, rev_involutive. destruct (rev w) eqn:E; [|done].
  apply (f_equal (@rev ascii)) in E. rewrite rev_involutive in E. done.
Qed.
