(* ===== verification/BTree.v ===== *)
(** * [BTreeMap<String, V>]: an association list kept in key order

    Keys are compared as Rust compares [str]: byte by byte, a prefix first.
    Iteration is the list itself, so what a component reports "in port order"
    or "first" is what the source does. *)
From Stdlib Require Import ZArith Lia Ascii String List Sorted.
From stdpp Require Import base list strings option.
From S2P Require Import Prelude.

(** [Ord for str]. *)
Fixpoint bytes_cmp (a b : bytes) : comparison :=
  match a, b with
  | [], [] => Eq
  | [], _ :: _ => Lt
  | _ :: _, [] => Gt
  | c :: a', d :: b' =>
      match byte_val c ?= byte_val d with
      | Eq => bytes_cmp a' b'
      | lt_or_gt => lt_or_gt
      end
  end.

Lemma bytes_cmp_eq a b : bytes_cmp a b = Eq <-> a = b.
Proof.
  revert b. induction a as [|c a IH]; intros [|d b]; cbn [bytes_cmp]; try done.
  destruct (Z.compare_spec (byte_val c) (byte_val d)) as [H|H|H].
  - apply byte_val_inj in H as ->. rewrite IH. split; [by intros ->|by intros [= ->]].
  - split; [done|]. intros [= -> ->]. lia.
  - split; [done|]. intros [= -> ->]. lia.
Qed.

Lemma bytes_cmp_antisym a b : bytes_cmp b a = CompOpp (bytes_cmp a b).
Proof.
  revert b. induction a as [|c a IH]; intros [|d b]; cbn [bytes_cmp]; try done.
  rewrite (Z.compare_antisym (byte_val c) (byte_val d)).
  destruct (byte_val c ?= byte_val d); cbn; [apply IH|done|done].
Qed.

Lemma bytes_cmp_lt_trans a b c : bytes_cmp a b = Lt -> bytes_cmp b c = Lt -> bytes_cmp a c = Lt.
Proof.
  revert b c. induction a as [|x a IH]; intros [|y b] [|z c]; cbn [bytes_cmp]; try done.
  destruct (Z.compare_spec (byte_val x) (byte_val y)) as [H|H|H]; [..|done];
    destruct (Z.compare_spec (byte_val y) (byte_val z)) as [H'|H'|H']; try done; intros Ha Hb.
  - rewrite H, H', Z.compare_refl. by eapply IH.
  - rewrite H. apply Z.compare_lt_iff in H' as ->. done.
  - rewrite <- H'. apply Z.compare_lt_iff in H as ->. done.
  - assert (byte_val x < byte_val z) as ->%Z.compare_lt_iff by lia. done.
Qed.

(** ** Operations *)

Section BTree.
Context {A : Type}.
Implicit Types (m : list (bytes * A)) (k : bytes) (v : A).

Fixpoint bt_get k m : option A :=
  match m with
  | [] => None
  | (k', v) :: m' => if bool_decide (k = k') then Some v else bt_get k m'
  end.

Fixpoint bt_insert k v m : list (bytes * A) :=
  match m with
  | [] => [(k, v)]
  | (k', v') :: m' =>
      match bytes_cmp k k' with
      | Lt => (k, v) :: m
      | Eq => (k, v) :: m'
      | Gt => (k', v') :: bt_insert k v m'
      end
  end.

Definition bt_retain (keep : bytes -> bool) m : list (bytes * A) :=
  List.filter (fun kv => keep (fst kv)) m.

Definition key_lt (a b : bytes * A) : Prop := bytes_cmp (fst a) (fst b) = Lt.
Definition bt_wf m : Prop := StronglySorted key_lt m.

Lemma bt_get_In k v m : bt_get k m = Some v -> In (k, v) m.
Proof.
  induction m as [|[k' v'] m IH]; cbn [bt_get]; [done|].
  case_bool_decide as E; [intros [= ->]; left; by subst|intros H; right; by apply IH].
Qed.

Lemma bt_insert_In k v m k' v' :
  In (k', v') (bt_insert k v m) -> (k', v') = (k, v) \/ In (k', v') m.
Proof.
  induction m as [|[k0 v0] m IH]; cbn [bt_insert]; [intros [H|[]]; by left|].
  destruct (bytes_cmp k k0); cbn [In]; naive_solver.
Qed.

Lemma bt_insert_wf k v m : bt_wf m -> bt_wf (bt_insert k v m).
Proof.
  unfold bt_wf. induction 1 as [|[k0 v0] m Hm IH Hf]; cbn [bt_insert]; [by repeat constructor|].
  destruct (bytes_cmp k k0) eqn:E.
  - apply bytes_cmp_eq in E as ->. by constructor.
  - constructor; [by constructor|]. constructor; [done|].
    eapply List.Forall_impl; [|exact Hf]. intros [k1 v1] H. by eapply bytes_cmp_lt_trans.
  - constructor; [done|]. apply List.Forall_forall. intros [k1 v1] [[= -> ->]|H]%bt_insert_In.
    + unfold key_lt; cbn. by rewrite bytes_cmp_antisym, E.
    + rewrite List.Forall_forall in Hf. by apply Hf.
Qed.

Lemma bt_retain_wf keep m : bt_wf m -> bt_wf (bt_retain keep m).
Proof.
  unfold bt_wf, bt_retain. induction 1 as [|kv m Hm IH Hf]; cbn [List.filter]; [constructor|].
  destruct (keep (fst kv)); [|done]. constructor; [done|].
  rewrite List.Forall_forall in *. intros x [H _]%filter_In. by apply Hf.
Qed.

(** In a map each key has one entry. *)
Lemma bt_wf_unique k v v' m : bt_wf m -> In (k, v) m -> In (k, v') m -> v = v'.
Proof.
  induction 1 as [|[k0 v0] m Hm IH Hf]; [done|].
  assert (Hn : forall w, ~ In (k0, w) m).
  { intros w Hw. rewrite List.Forall_forall in Hf. specialize (Hf _ Hw). unfold key_lt in Hf; cbn in Hf.
    assert (bytes_cmp k0 k0 = Eq) by by apply bytes_cmp_eq. congruence. }
  intros [H|H] [H'|H']; [congruence|..|by apply IH]; simplify_eq; by apply Hn in H || by apply Hn in H'.
Qed.

Lemma bt_get_iff k v m : bt_wf m -> bt_get k m = Some v <-> In (k, v) m.
Proof.
  intros Hw. split; [apply bt_get_In|]. intros H. destruct (bt_get k m) as [v'|] eqn:E.
  - apply bt_get_In in E. f_equal. by eapply bt_wf_unique.
  - exfalso. clear Hw. induction m as [|[k0 v0] m IH]; [done|]. cbn [bt_get] in E.
    case_bool_decide; [done|]. destruct H as [H|H]; [congruence|by apply IH].
Qed.

Lemma bt_get_insert k v m : bt_get k (bt_insert k v m) = Some v.
Proof.
  induction m as [|[k0 v0] m IH]; cbn [bt_insert bt_get]; [by rewrite bool_decide_true|].
  destruct (bytes_cmp k k0) eqn:E; cbn [bt_get]; [by rewrite bool_decide_true..|].
  rewrite bool_decide_false; [done|]. intros ->. assert (bytes_cmp k0 k0 = Eq) by by apply bytes_cmp_eq.
  congruence.
Qed.

Lemma bt_get_insert_ne k k' v m : k' <> k -> bt_get k' (bt_insert k v m) = bt_get k' m.
Proof.
  intros Hn. induction m as [|[k0 v0] m IH]; cbn [bt_insert bt_get];
    [by rewrite bool_decide_false by congruence|].
  destruct (bytes_cmp k k0) eqn:E; cbn [bt_get].
  - apply bytes_cmp_eq in E as ->. by rewrite !bool_decide_false by congruence.
  - by rewrite bool_decide_false by congruence.
  - by rewrite IH.
Qed.

Lemma bt_retain_In keep m k v : In (k, v) (bt_retain keep m) <-> In (k, v) m /\ keep k = true.
Proof. unfold bt_retain. by rewrite filter_In. Qed.

(** Members of an insertion: the new entry, and the others of other keys. *)
Lemma bt_insert_iff k v m k' v' : bt_wf m ->
  In (k', v') (bt_insert k v m) <-> (k' = k /\ v' = v) \/ (k' <> k /\ In (k', v') m).
Proof.
  intros Hw. pose proof (bt_insert_wf k v m Hw) as Hi. rewrite <- !bt_get_iff by done.
  destruct (decide (k' = k)) as [->|Hn].
  - rewrite bt_get_insert. naive_solver.
  - rewrite bt_get_insert_ne by done. naive_solver.
Qed.
End BTree.
