(* ===== verification/Serve.v ===== *)
(** * The serve configuration: [src/ipn/serve.rs]

    The persisted configuration, which lane serves each port (the daemon's own
    accept loops, the engine's serve runtime, Funnel), the check an update has
    to pass, and the Funnel switches.  The engine's own check of a
    configuration, [ServeState::serve_plan], is a parameter. *)
From Stdlib Require Import ZArith Lia Ascii String List.
From stdpp Require Import base gmap list sets sorting strings option.
From S2P Require Import Prelude NetAddr Text BTree.

(** ** The configuration, as [localapi.rs] types it *)

Record RedirectSpec : Type := mkRedirectSpec { rd_to : bytes; rd_status : Z }.

Inductive WebMount : Type :=
| MountProxy (to : bytes)
| MountText (body : bytes)
| MountRedirect (to : bytes) (status : Z).

Record TcpPortHandler : Type := mkTcpPortHandler {
  https : bool;
  http : bool;
  tcp_forward : bytes;
  terminate_tls : bytes;
  proxy_protocol : Z;
  text : option bytes;
  redirect : option RedirectSpec;
  mounts : list (bytes * WebMount)
}.

Definition TcpPortHandler_default : TcpPortHandler :=
  mkTcpPortHandler false false [] [] 0 None None [].

Record HttpHandler : Type := mkHttpHandler {
  hh_path : bytes;
  hh_proxy : bytes;
  hh_text : bytes;
  hh_redirect : bytes
}.

Definition HttpHandler_default : HttpHandler := mkHttpHandler [] [] [] [].

Record ServeConfig : Type := mkServeConfig {
  sc_tcp : list (bytes * TcpPortHandler);
  sc_allow_funnel : list (bytes * bool);
  sc_web : list (bytes * list (bytes * HttpHandler))
}.

Definition ServeConfig_default : ServeConfig := mkServeConfig [] [] [].

(** The maps of a configuration are [BTreeMap]s. *)
Definition serve_wf (cfg : ServeConfig) : Prop :=
  bt_wf (sc_tcp cfg) /\ bt_wf (sc_allow_funnel cfg) /\ bt_wf (sc_web cfg).

Definition nonempty {A} (l : list A) : bool := match l with [] => false | _ => true end.

(** ** Which shapes are served *)

Definition is_web_serve (h : TcpPortHandler) : bool :=
  ((https h || http h) && nonempty (tcp_forward h))
  || bool_decide (is_Some (text h)) || bool_decide (is_Some (redirect h)) || nonempty (mounts h).

Definition port_suffix (port_str : bytes) : bytes := ":"%char :: port_str.

Definition port_is_web_serve (cfg : ServeConfig) (port_str : bytes) (h : TcpPortHandler) : bool :=
  if is_web_serve h then true
  else if https h || http h
  then existsb (fun kv => ends_with (port_suffix port_str) (fst kv)) (sc_web cfg)
  else false.

Definition web_proxy_backend (cfg : ServeConfig) (port : Z) : option bytes :=
  let port_str := show_dec port in
  let from_web :=
    '(_, handlers) ← List.find (fun kv => ends_with (port_suffix port_str) (fst kv)) (sc_web cfg);
    root ← bt_get (bs "/") handlers;
    if nonempty (hh_proxy root) then Some (hh_proxy root) else None in
  match bt_get port_str (sc_tcp cfg) with
  | Some h => if is_web_serve h && nonempty (tcp_forward h) then Some (tcp_forward h) else from_web
  | None => from_web
  end.

Definition is_plain_tcp_forward (h : TcpPortHandler) : bool :=
  nonempty (tcp_forward h) && negb (https h) && negb (http h) && negb (nonempty (terminate_tls h)).

Inductive ServeType : Type := Https | Http | Tcp | TlsTerminatedTcp | Unknown.

#[global] Instance ServeType_eq_dec : EqDecision ServeType.
Proof. solve_decision. Defined.

Definition serve_type (h : TcpPortHandler) : ServeType :=
  if http h then Http
  else if https h then Https
  else if nonempty (terminate_tls h) then TlsTerminatedTcp
  else if nonempty (tcp_forward h) then Tcp
  else if bool_decide (is_Some (text h)) || bool_decide (is_Some (redirect h)) || nonempty (mounts h)
  then Https
  else Unknown.

(** ** The engine's configuration *)

Record EnginePort : Type := mkEnginePort {
  ep_https : bool;
  ep_http : bool;
  ep_tcp_forward : bytes;
  ep_terminate_tls : bytes;
  ep_proxy_protocol : Z
}.

(** [tailscale::ServeState], as far as the daemon fills it in: never a Funnel
    entry. *)
Record EngineState : Type := mkEngineState {
  es_tcp : gmap Z EnginePort;
  es_web : gmap (bytes * Z) (list (bytes * HttpHandler))
}.

Definition EngineState_default : EngineState := mkEngineState ∅ ∅.

(** What the daemon relies on of the engine: its error type, which can carry a
    message of the daemon's own, and its check of a configuration. *)
Class ServeEngine : Type := {
  ServeConfigError : Type;
  ServeConfigError_eq_dec :: EqDecision ServeConfigError;
  Invalid : bytes -> ServeConfigError;
  serve_plan : EngineState -> option ServeConfigError
}.

(** [str::chars().any(char::is_control)]: C0, DEL, and C1 in two bytes. *)
Fixpoint has_control (s : bytes) : bool :=
  match s with
  | [] => false
  | c :: s' =>
      between 0 31 c || between 127 127 c
      || (between 194 194 c && match s' with d :: _ => between 128 159 d | [] => false end)
      || has_control s'
  end.

Section Engine.
Context `{ServeEngine}.

Definition check_redirect_target (to : bytes) : result ServeConfigError unit :=
  guard_err (has_control to) (Invalid (bs "serve redirect target must not contain control characters")).

Definition engine_http_handler (h : HttpHandler) : result ServeConfigError HttpHandler :=
  _ ← if nonempty (hh_redirect h) then check_redirect_target (hh_redirect h) else Ok tt;
  Ok h.

Definition legacy_redirect (to : bytes) (status : Z) : result ServeConfigError HttpHandler :=
  _ ← guard_err (negb ((300 <=? status) && (status <=? 399)))
        (Invalid (bs "serve redirect status " ++ show_dec status ++ bs " is not in 300..=399"));
  _ ← check_redirect_target to;
  Ok (mkHttpHandler [] [] [] (show_dec status ++ ":"%char :: to)).

Definition proxy_handler (to : bytes) : HttpHandler := mkHttpHandler [] to [] [].
Definition text_handler (body : bytes) : HttpHandler := mkHttpHandler [] [] body [].

Definition mount_handler (m : WebMount) : result ServeConfigError HttpHandler :=
  match m with
  | MountProxy to => Ok (proxy_handler to)
  | MountText body => Ok (text_handler body)
  | MountRedirect to status => legacy_redirect to status
  end.

(** A map of handlers, in key order, with the first error. *)
Fixpoint collect_handlers {A} (f : A -> result ServeConfigError HttpHandler) (l : list (bytes * A))
    : result ServeConfigError (list (bytes * HttpHandler)) :=
  match l with
  | [] => Ok []
  | (mount, m) :: l' =>
      handler ← f m;
      handlers ← collect_handlers f l';
      Ok ((mount, handler) :: handlers)
  end.

Definition legacy_web_handlers (h : TcpPortHandler)
    : result ServeConfigError (list (bytes * HttpHandler)) :=
  if nonempty (mounts h) then collect_handlers mount_handler (mounts h)
  else
    match text h, redirect h with
    | Some body, _ => Ok [(bs "/", text_handler body)]
    | None, Some r => handler ← legacy_redirect (rd_to r) (rd_status r); Ok [(bs "/", handler)]
    | None, None =>
        if (https h || http h) && nonempty (tcp_forward h)
        then Ok [(bs "/", proxy_handler (tcp_forward h))] else Ok []
    end.

Definition host_port (host : bytes) (port : Z) : bytes := host ++ port_suffix (show_dec port).

Definition engine_port (cfg : ServeConfig) (host : bytes) (port : Z) (h : TcpPortHandler)
    : result ServeConfigError (option EngineState) :=
  if is_plain_tcp_forward h then Ok None
  else if nonempty (terminate_tls h) && negb (https h) && negb (http h) then
    Ok (Some (mkEngineState
      {[ port := mkEnginePort false false (tcp_forward h) (terminate_tls h) (proxy_protocol h) ]} ∅))
  else if negb (https h || http h || is_web_serve h) then Ok None
  else
    let is_https := https h || negb (http h) in
    let tcp := {[ port := mkEnginePort is_https (http h && negb (https h)) [] [] 0 ]} in
    handlers ← match bt_get (host_port host port) (sc_web cfg) with
               | Some wsc => collect_handlers engine_http_handler wsc
               | None => legacy_web_handlers h
               end;
    Ok (Some (mkEngineState tcp (if nonempty handlers then {[ (host, port) := handlers ]} else ∅))).

Record EngineServe : Type := mkEngineServe {
  state : EngineState;
  refused : list (Z * ServeConfigError)
}.

(** [name.trim_end_matches('.')]. *)
Fixpoint drop_dots (s : bytes) : bytes :=
  match s with c :: s' => if Ascii.eqb c "." then drop_dots s' else s | [] => [] end.
Definition trim_end_dots (s : bytes) : bytes := rev (drop_dots (rev s)).

(** One port on its own, checked as the engine will check it. *)
Definition checked_port (cfg : ServeConfig) (host : bytes) (port : Z) (h : TcpPortHandler)
    : result ServeConfigError (option EngineState) :=
  one ← engine_port cfg host port h;
  match one with
  | Some one => match serve_plan one with Some e => Err e | None => Ok (Some one) end
  | None => Ok None
  end.

Definition add_port (cfg : ServeConfig) (host : bytes) (out : EngineServe)
    (kv : bytes * TcpPortHandler) : EngineServe :=
  match parse_u16 (fst kv) with
  | None => out
  | Some port =>
      match checked_port cfg host port (snd kv) with
      | Ok (Some one) =>
          mkEngineServe (mkEngineState (es_tcp one ∪ es_tcp (state out)) (es_web one ∪ es_web (state out)))
            (refused out)
      | Ok None => out
      | Err e => mkEngineServe (state out) (refused out ++ [(port, e)])
      end
  end.

Definition build_web_serve_state (cfg : ServeConfig) (name : bytes) : EngineServe :=
  fold_left (add_port cfg (trim_end_dots name)) (sc_tcp cfg) (mkEngineServe EngineState_default []).
End Engine.

(** ** Updates *)

(** The conflict an update is refused for: what it wants, the port, and what
    the port already serves. *)
Record Conflict : Type := mkConflict {
  wanted : ServeType;
  conflict_port : Z;
  already : ServeType
}.

Fixpoint first_conflict (incoming_type : ServeType) (port : Z) (existing : list (bytes * TcpPortHandler))
    : option Conflict :=
  match existing with
  | [] => None
  | (k, h) :: existing' =>
      if bool_decide (parse_u16 k = Some port) && negb (bool_decide (incoming_type = serve_type h))
      then Some (mkConflict incoming_type port (serve_type h))
      else first_conflict incoming_type port existing'
  end.

Fixpoint validate_ports (existing incoming : list (bytes * TcpPortHandler)) : result Conflict unit :=
  match incoming with
  | [] => Ok tt
  | (port_str, h) :: incoming' =>
      match parse_u16 port_str with
      | None => validate_ports existing incoming'
      | Some port =>
          match first_conflict (serve_type h) port existing with
          | Some c => Err c
          | None => validate_ports existing incoming'
          end
      end
  end.

Definition validate_serve_config_update (existing incoming : ServeConfig) : result Conflict unit :=
  validate_ports (sc_tcp existing) (sc_tcp incoming).

Definition set_tcp_forward (cfg : ServeConfig) (port : Z) (forward_to : bytes) : ServeConfig :=
  mkServeConfig
    (bt_insert (show_dec port) (mkTcpPortHandler false false forward_to [] 0 None None []) (sc_tcp cfg))
    (sc_allow_funnel cfg) (sc_web cfg).

(** ** Funnel *)

Definition funnel_host_port (host : bytes) (port : Z) : bytes :=
  trim_end_dots host ++ port_suffix (show_dec port).

Definition set_funnel (cfg : ServeConfig) (host : bytes) (port : Z) (on : bool) : ServeConfig :=
  mkServeConfig (sc_tcp cfg)
    (if on then bt_insert (funnel_host_port host port) true (sc_allow_funnel cfg)
     else bt_retain (fun hp => negb (ends_with (port_suffix (show_dec port)) hp)) (sc_allow_funnel cfg))
    (sc_web cfg).

(** The host and port an entry arms, if it is on and names a port. *)
Definition funnel_entry (kv : bytes * bool) : option (bytes * Z) :=
  let '(hp, on) := kv in
  if negb on then None
  else
    '(h, p) ← rsplit_once ":" hp;
    port ← parse_u16 p;
    if port =? 0 then None else Some (h, port).

Definition funnel_host_ports (cfg : ServeConfig) : list (bytes * Z) :=
  omap funnel_entry (sc_allow_funnel cfg).

Definition funnel_ports (cfg : ServeConfig) : gset Z :=
  list_to_set (omap (fun kv => snd <$> funnel_entry kv) (sc_allow_funnel cfg)).

Definition is_loopback (a : IpAddr) : bool :=
  match a with V4 b => b / 2 ^ 24 =? 127 | V6 b => b =? 1 end.

Definition backend_is_nonloopback (backend : bytes) : bool :=
  let parse s := parse_ip (String.string_of_list_ascii s) in
  match parse backend with
  | Some ip => negb (is_loopback ip)
  | None =>
      let host :=
        match backend with
        | c :: rest =>
            if Ascii.eqb c "[" then head (split_on "]" rest)
            else match rsplit_once ":" backend with Some (h, _) => Some h | None => Some backend end
        | [] => Some backend
        end in
      let host := default backend host in
      if eq_ignore_ascii_case host (bs "localhost") then false
      else match parse host with Some ip => negb (is_loopback ip) | None => true end
  end.

Definition ports_ascending (s : gset Z) : list Z := merge_sort Z.le (elements s).

Definition funnel_nonloopback_backends (cfg : ServeConfig) : list (Z * bytes) :=
  omap (fun port => backend ← web_proxy_backend cfg port;
                    if backend_is_nonloopback backend then Some (port, backend) else None)
    (ports_ascending (funnel_ports cfg)).

(** ** The lanes [spawn_serve] arms *)

Definition has_web (cfg : ServeConfig) : bool :=
  existsb (fun kv => https (snd kv) || http (snd kv) || nonempty (terminate_tls (snd kv)) || is_web_serve (snd kv))
    (sc_tcp cfg).

(** The daemon's own accept loops: port and dial target. *)
Definition forward_loops (cfg : ServeConfig) : list (Z * bytes) :=
  omap (fun kv => port ← parse_u16 (fst kv);
                  if is_plain_tcp_forward (snd kv) then Some (port, tcp_forward (snd kv)) else None)
    (sc_tcp cfg).

(** The public listeners asked of the engine: port and backend. *)
Definition funnel_loops (cfg : ServeConfig) : list (Z * bytes) :=
  omap (fun port => backend ← web_proxy_backend cfg port; Some (port, backend))
    (ports_ascending (funnel_ports cfg)).

Example nonloopback_examples :
  map (fun s => backend_is_nonloopback (bs s))
    ["127.0.0.1:3000"; "localhost:80"; "[::1]:443"; "::1"; "10.0.0.5:80"; "db.internal:5432"; "3030"]%string
  = [false; false; false; false; true; true; true].
Proof. vm_compute. reflexivity. Qed.
