(* ===== verification/ServeFacts.v ===== *)
(** * Facts about the serve configuration

    Ports in text, the Funnel switches, which lane serves a port, what is
    refused, and what an update may change. *)
From Stdlib Require Import ZArith Lia Ascii String List.
From stdpp Require Import base gmap list sets sorting strings option.
From S2P Require Import Prelude NetAddr Text BTree Serve.

(** ** Ports in text *)

Lemma hex_char_decimal d : 0 <= d < 10 -> to_digit 10 (hex_char d) = Some d /\ is_ascii_digit (hex_char d) = true.
Proof.
  intros H. assert (d = 0 \/ d = 1 \/ d = 2 \/ d = 3 \/ d = 4 \/ d = 5 \/ d = 6 \/ d = 7 \/ d = 8 \/ d = 9)
    as Hd by lia.
  by repeat destruct Hd as [->|Hd]; [..|subst].
Qed.

Lemma radix_value_snoc radix acc a c :
  radix_value radix acc (a ++ [c]) = v ← radix_value radix acc a; d ← to_digit radix c; Some (v * radix + d).
Proof.
  revert acc. induction a as [|x a IH]; intros acc; cbn [app radix_value].
  - cbn. by destruct (to_digit radix c).
  - cbn. destruct (to_digit radix x) as [d|]; cbn; [apply IH|done].
Qed.

Lemma show_digits fuel v : 0 <= v < 10 ^ Z.of_nat fuel ->
  Forall (fun c => is_ascii_digit c = true) (show_nat_fuel 10 fuel v) /\
  ((0 < fuel)%nat -> show_nat_fuel 10 fuel v <> [] /\ radix_value 10 0 (show_nat_fuel 10 fuel v) = Some v).
Proof.
  revert v. induction fuel as [|fuel IH]; intros v Hv; [by split; [constructor|lia]|].
  cbn [show_nat_fuel]. destruct (Z.ltb_spec v 10) as [Hlt|Hge].
  - destruct (hex_char_decimal v) as [Hd Hc]; [lia|]. split; [by repeat constructor|].
    intros _. split; [done|]. cbn [radix_value]. by rewrite Hd.
  - rewrite Nat2Z.inj_succ, Z.pow_succ_r in Hv by lia.
    assert (Hq : 0 <= v / 10 < 10 ^ Z.of_nat fuel)
      by (split; [apply Z.div_pos; lia|apply Z.div_lt_upper_bound; lia]).
    destruct (IH (v / 10) Hq) as [Hf Hr].
    destruct (hex_char_decimal (v mod 10)) as [Hd Hc]; [by apply Z.mod_pos_bound|].
    split; [by apply Forall_app_2; [|repeat constructor]|]. intros _.
    destruct fuel as [|fuel]; [cbn in Hv; lia|]. destruct Hr as [_ Hr]; [lia|].
    split; [by destruct (show_nat_fuel 10 (S fuel) (v / 10))|].
    rewrite radix_value_snoc, Hr. cbn. rewrite Hd. cbn. f_equal. rewrite (Z.div_mod v 10) at 3 by lia. lia.
Qed.

Lemma digit_not c d : is_ascii_digit c = true -> is_ascii_digit d = false -> c <> d.
Proof. intros Hc Hd ->. congruence. Qed.

Lemma show_dec_no_colon v : 0 <= v < 10 ^ 20 -> ~ In ":"%char (show_dec v).
Proof.
  intros H Hin. destruct (show_digits 20 v H) as [Hf _]. unfold show_dec in Hin.
  rewrite Forall_forall in Hf. apply Hf in Hin. done.
Qed.

Lemma parse_show_port p : 0 <= p < 2 ^ 16 -> parse_u16 (show_dec p) = Some p.
Proof.
  intros H. destruct (show_digits 20 p) as [Hf Hr]; [lia|]. destruct Hr as [Hne Hr]; [lia|].
  unfold parse_u16, from_str_radix, show_dec. destruct (show_nat_fuel 10 20 p) as [|c s]; [done|].
  assert (Ascii.eqb c "+" = false) as ->.
  { apply Ascii.eqb_neq. apply Forall_inv in Hf. intros ->. done. }
  rewrite Hr. cbv beta iota delta [mbind option_bind].
  by rewrite (proj2 (Z.ltb_lt p (2 ^ 16)) (proj2 H)).
Qed.

(** ** Splitting at the last colon *)

(** ** Funnel *)

Lemma funnel_ports_iff cfg p :
  p ∈ funnel_ports cfg <->
  p <> 0 /\ exists hp h q, In (hp, true) (sc_allow_funnel cfg) /\ rsplit_once ":" hp = Some (h, q) /\
    parse_u16 q = Some p.
Proof.
  unfold funnel_ports. rewrite elem_of_list_to_set, list_elem_of_omap. split.
  - intros ([hp on] & Hin & He). apply list_elem_of_In in Hin. unfold funnel_entry in He.
    destruct on; cbn in He; [|done].
    destruct (rsplit_once ":" hp) as [[h q]|] eqn:Eh; cbn in He; [|done].
    destruct (parse_u16 q) as [port|] eqn:Eq; cbn in He; [|done].
    destruct (Z.eqb_spec port 0); cbn in He; [done|]. injection He as <-. split; [done|]. by exists hp, h, q.
  - intros (Hp & hp & h & q & Hin & Eh & Eq). exists (hp, true). split; [by apply list_elem_of_In|].
    cbn. rewrite Eh. cbn. rewrite Eq. cbn. by rewrite (proj2 (Z.eqb_neq p 0) Hp).
Qed.

(** Every armed entry spells its port as the daemon writes ports. *)
Definition canonical_funnel (cfg : ServeConfig) : Prop :=
  forall hp h q v, In (hp, true) (sc_allow_funnel cfg) -> rsplit_once ":" hp = Some (h, q) ->
    parse_u16 q = Some v -> q = show_dec v.

Lemma funnel_key_split host p : 0 <= p < 2 ^ 16 ->
  rsplit_once ":" (funnel_host_port host p) = Some (trim_end_dots host, show_dec p).
Proof. intros H. apply rsplit_once_iff. split; [done|]. apply show_dec_no_colon. lia. Qed.

(** A key ends in [:p] exactly when its text after the last colon is [p]. *)
Lemma port_suffix_split hp h q p : 0 <= p < 2 ^ 16 -> rsplit_once ":" hp = Some (h, q) ->
  ends_with (port_suffix (show_dec p)) hp = true <-> q = show_dec p.
Proof.
  intros Hp Hs. rewrite ends_with_iff. split.
  - intros (t & ->). assert (rsplit_once ":" (t ++ port_suffix (show_dec p)) = Some (t, show_dec p)) as E
      by (apply rsplit_once_iff; split; [done|apply show_dec_no_colon; lia]).
    congruence.
  - intros ->. apply rsplit_once_iff in Hs as [-> _]. by exists h.
Qed.

(** Switching Funnel on or off for a port does exactly that.  On a
    configuration whose entries spell their ports as the daemon writes them,
    and for any host name and any port but 0, "on" publishes the port beside those
    already public, and "off" unpublishes it whatever host name it was
    published under, leaving every other public port public; both leave the
    configuration in that form and touch no served port and no web handler. *)
Theorem set_funnel_exact (cfg : ServeConfig) (host : bytes) (port : Z) (on : bool) :
  bt_wf (sc_allow_funnel cfg) -> canonical_funnel cfg -> 0 < port < 2 ^ 16 ->
  let cfg' := set_funnel cfg host port on in
  funnel_ports cfg' = (if on then {[ port ]} ∪ funnel_ports cfg else funnel_ports cfg ∖ {[ port ]}) /\
  canonical_funnel cfg' /\ bt_wf (sc_allow_funnel cfg') /\
  sc_tcp cfg' = sc_tcp cfg /\ sc_web cfg' = sc_web cfg.
Proof.
  intros Hw Hc Hp. cbn zeta. assert (Hp' : 0 <= port < 2 ^ 16) by lia.
  destruct on; cbn [set_funnel].
  - set (key := funnel_host_port host port).
    assert (Hk : rsplit_once ":" key = Some (trim_end_dots host, show_dec port)) by by apply funnel_key_split.
    assert (Hin : forall hp, In (hp, true) (bt_insert key true (sc_allow_funnel cfg)) <->
                        hp = key \/ (hp <> key /\ In (hp, true) (sc_allow_funnel cfg))).
    { intros hp. rewrite bt_insert_iff by done. tauto. }
    split_and!; [| |by apply bt_insert_wf|done|done].
    + apply set_eq. intros p. rewrite elem_of_union, elem_of_singleton, !funnel_ports_iff.
      unfold set_funnel; cbn [sc_allow_funnel]. split.
      * intros (Hp0 & hp & h & q & [->|[_ H]]%Hin & E1 & E2); [left|right; eauto 10].
        rewrite Hk in E1. injection E1 as <- <-. rewrite parse_show_port in E2 by done. congruence.
      * intros [->|(Hp0 & hp & h & q & H & E1 & E2)].
        -- split; [lia|]. exists key, (trim_end_dots host), (show_dec port).
           split_and!; [apply Hin; by left|done|by apply parse_show_port].
        -- split; [done|]. destruct (decide (hp = key)) as [->|Hn].
           ++ exists key, h, q. split_and!; [apply Hin; by left|done|done].
           ++ exists hp, h, q. split_and!; [apply Hin; by right|done|done].
    + intros hp h q v [->|[_ H]]%Hin E1 E2; [|by eapply Hc].
      rewrite Hk in E1. injection E1 as <- <-. rewrite parse_show_port in E2 by done. congruence.
  - assert (Hin : forall hp, In (hp, true) (bt_retain (fun hp => negb (ends_with (port_suffix (show_dec port)) hp))
                          (sc_allow_funnel cfg)) <->
                        In (hp, true) (sc_allow_funnel cfg) /\ ends_with (port_suffix (show_dec port)) hp = false).
    { intros hp. by rewrite bt_retain_In, negb_true_iff. }
    split_and!; [| |by apply bt_retain_wf|done|done].
    + apply set_eq. intros p. rewrite elem_of_difference, elem_of_singleton, !funnel_ports_iff.
      unfold set_funnel; cbn [sc_allow_funnel]. split.
      * intros (Hp0 & hp & h & q & [H Hf]%Hin & E1 & E2). split; [split; [done|by exists hp, h, q]|].
        intros ->. pose proof (Hc _ _ _ _ H E1 E2) as ->.
        assert (ends_with (port_suffix (show_dec port)) hp = true) by by eapply port_suffix_split.
        congruence.
      * intros ((Hp0 & hp & h & q & H & E1 & E2) & Hne). split; [done|]. exists hp, h, q.
        split_and!; [apply Hin; split; [done|]|done|done].
        apply not_true_iff_false. intros Hs. eapply port_suffix_split in Hs; [|done|done].
        subst q. rewrite parse_show_port in E2 by done. congruence.
    + intros hp h q v [H _]%Hin. by eapply Hc.
Qed.

Lemma set_funnel_exact_witness :
  let cfg := mkServeConfig [] [(bs "old.ts.net:443", true); (bs "old.ts.net:8443", true)] [] in
  funnel_ports (set_funnel cfg (bs "new.ts.net.") 443 false) = funnel_ports cfg ∖ {[ 443 ]} /\
  443 ∈ funnel_ports cfg.
Proof.
  cbn zeta. set (cfg := mkServeConfig _ _ _). assert (Hc : canonical_funnel cfg).
  { intros hp h q v [H|[H|[]]]; injection H as <-; intros E1; vm_compute in E1; injection E1 as <- <-;
      intros E2; vm_compute in E2; by injection E2 as <-. }
  split; [|by vm_compute].
  apply (set_funnel_exact cfg (bs "new.ts.net.") 443 false); [|exact Hc|lia].
  repeat constructor.
Defined.

(** An entry that spells its port another way arms it, but survives "off". *)
Lemma funnel_off_misses_alias :
  let cfg := mkServeConfig [] [(bs "node.ts.net:0443", true)] [] in
  443 ∈ funnel_ports cfg /\ 443 ∈ funnel_ports (set_funnel cfg (bs "node.ts.net") 443 false).
Proof. by vm_compute. Qed.

(** ** What serves a port *)

Section Lanes.
Context `{ServeEngine}.
Implicit Types (cfg : ServeConfig) (host : bytes) (p : Z) (h : TcpPortHandler).

(** What the engine does on a port it is given. *)
Definition engine_serve_type (ep : EnginePort) : ServeType :=
  if ep_http ep then Http else if ep_https ep then Https else TlsTerminatedTcp.

(** A handler that does not ask for both HTTP and HTTPS. *)
Definition unambiguous h : Prop := https h && http h = false.

Lemma engine_port_shape cfg host p h one :
  engine_port cfg host p h = Ok (Some one) ->
  is_plain_tcp_forward h = false /\
  (exists ep, es_tcp one = {[ p := ep ]} /\ (unambiguous h -> engine_serve_type ep = serve_type h)) /\
  (forall key hs, es_web one !! key = Some hs -> key = (host, p)).
Proof.
  unfold engine_port, unambiguous. destruct (is_plain_tcp_forward h) eqn:Ef; [done|].
  destruct (nonempty (terminate_tls h) && negb (https h) && negb (http h)) eqn:Et.
  - intros [= <-]. apply andb_true_iff in Et as [[Ht Hs]%andb_true_iff Hh].
    apply negb_true_iff in Hs, Hh. split; [done|]. split; [|cbn; by intros key hs ?%lookup_empty_Some].
    eexists. split; [done|]. intros _. unfold serve_type. by rewrite Hh, Hs, Ht.
  - destruct (negb (https h || http h || is_web_serve h)) eqn:Ew; [done|].
    intros Hb. apply bind_ok in Hb as (hs & _ & [= <-]). split; [done|]. split.
    + eexists. split; [done|]. intros Hu. unfold engine_serve_type, serve_type. cbn.
      unfold is_plain_tcp_forward in Ef. unfold is_web_serve in Ew.
      destruct (http h), (https h), (nonempty (terminate_tls h)), (nonempty (tcp_forward h)); try done; cbn in *;
        by destruct (bool_decide _ || bool_decide _ || _).
    + cbn. intros key hs'. destruct (nonempty hs); [|by intros ?%lookup_empty_Some].
      by intros [<- _]%lookup_singleton_Some.
Qed.

Lemma engine_port_none cfg host p h : engine_port cfg host p h = Ok None ->
  is_plain_tcp_forward h = true \/ serve_type h = Unknown.
Proof.
  unfold engine_port. destruct (is_plain_tcp_forward h) eqn:Ef; [by left|].
  destruct (nonempty (terminate_tls h) && negb (https h) && negb (http h)) eqn:Et; [done|].
  destruct (negb (https h || http h || is_web_serve h)) eqn:Ew.
  - intros _. right. unfold is_plain_tcp_forward in Ef. unfold is_web_serve in Ew. unfold serve_type.
    destruct (http h), (https h), (nonempty (terminate_tls h)), (nonempty (tcp_forward h)); try done; cbn in *;
      by destruct (bool_decide _ || bool_decide _ || _).
  - intros Hb. by apply bind_ok in Hb as (hs & _ & ?).
Qed.

Lemma plain_is_tcp h : is_plain_tcp_forward h = true -> serve_type h = Tcp.
Proof.
  unfold is_plain_tcp_forward, serve_type.
  by destruct (http h), (https h), (nonempty (terminate_tls h)), (nonempty (tcp_forward h)).
Qed.

(** What runs on a port for a handler: the daemon's own loop, or the
    engine when it does not refuse the port. *)
Definition runs_as cfg host p h : option ServeType :=
  if is_plain_tcp_forward h then Some Tcp
  else match checked_port cfg host p h with
       | Ok (Some one) => engine_serve_type <$> es_tcp one !! p
       | _ => None
       end.

Lemma checked_port_some cfg host p h one : checked_port cfg host p h = Ok (Some one) ->
  engine_port cfg host p h = Ok (Some one) /\ serve_plan one = None.
Proof.
  unfold checked_port. intros Hb. apply bind_ok in Hb as ([st|] & He & Hb); [|done].
  destruct (serve_plan st) eqn:Hs; [done|]. by injection Hb as <-.
Qed.

Lemma checked_port_none cfg host p h : checked_port cfg host p h = Ok None ->
  is_plain_tcp_forward h = true \/ serve_type h = Unknown.
Proof.
  unfold checked_port. intros Hb. apply bind_ok in Hb as ([st|] & He & Hb); [|by eapply engine_port_none].
  by destruct (serve_plan st).
Qed.

Lemma runs_as_classified cfg host p h t : unambiguous h -> runs_as cfg host p h = Some t -> t = serve_type h.
Proof.
  intros Hu. unfold runs_as. destruct (is_plain_tcp_forward h) eqn:Ef.
  - intros [= <-]. symmetry. by apply plain_is_tcp.
  - destruct (checked_port cfg host p h) as [[one|]|] eqn:Ec; [|done..].
    apply checked_port_some in Ec as [Ec _]. apply engine_port_shape in Ec as (_ & (ep & -> & Ht) & _).
    rewrite lookup_singleton_eq. cbn. intros [= <-]. by apply Ht.
Qed.

(** *** The check of an update *)

Lemma first_conflict_none t p existing :
  first_conflict t p existing = None <->
  forall k h, In (k, h) existing -> parse_u16 k = Some p -> t = serve_type h.
Proof.
  induction existing as [|[k h] existing IH]; cbn [first_conflict]; [split; [by intros _ ? ? []|done]|].
  case_bool_decide as Ek; case_bool_decide as Et; cbn [andb negb].
  - rewrite IH. split; [|naive_solver]. intros Hall k' h' [[= <- <-]|Hin]; [done|by apply Hall].
  - split; [done|]. intros Hall. destruct Et. apply (Hall k h); [by left|done].
  - rewrite IH. split; [|naive_solver]. intros Hall k' h' [[= <- <-]|Hin]; [done|by apply Hall].
  - rewrite IH. split; [|naive_solver]. intros Hall k' h' [[= <- <-]|Hin]; [done|by apply Hall].
Qed.

Lemma first_conflict_some t p existing c : first_conflict t p existing = Some c ->
  wanted c = t /\ conflict_port c = p /\ t <> already c /\
  exists k h, In (k, h) existing /\ parse_u16 k = Some p /\ serve_type h = already c.
Proof.
  induction existing as [|[k h] existing IH]; cbn [first_conflict]; [done|].
  case_bool_decide as Ek; case_bool_decide as Et; cbn [andb negb].
  2: { intros [= <-]. cbn. split_and!; [done..|]. exists k, h. split_and!; [by left|done..]. }
  all: intros (? & ? & ? & k' & h' & ? & ? & ?)%IH; split_and!; [done..|];
    exists k', h'; split_and!; [by right|done..].
Qed.

Lemma validate_ports_spec existing incoming :
  match validate_ports existing incoming with
  | Ok _ => forall k h k' h' p, In (k, h) incoming -> In (k', h') existing ->
      parse_u16 k = Some p -> parse_u16 k' = Some p -> serve_type h = serve_type h'
  | Err c => wanted c <> already c /\ exists k h k' h', In (k, h) incoming /\ In (k', h') existing /\
      parse_u16 k = Some (conflict_port c) /\ parse_u16 k' = Some (conflict_port c) /\
      serve_type h = wanted c /\ serve_type h' = already c
  end.
Proof.
  induction incoming as [|[k h] incoming IH]; cbn [validate_ports]; [by intros ? ? ? ? ? []|].
  destruct (parse_u16 k) as [p|] eqn:Ek; [destruct (first_conflict (serve_type h) p existing) as [c|] eqn:Ec|].
  - apply first_conflict_some in Ec as (Hw & Hp & Hne & k' & h' & Hin & Hk' & Ht). subst p.
    split; [congruence|]. exists k, h, k', h'. split_and!; [by left|done..].
  - destruct (validate_ports existing incoming) as [u|c].
    + intros k1 h1 k' h' p1 [[= <- <-]|Hin] Hin' E1 E2; [|by eapply IH].
      rewrite Ek in E1. injection E1 as <-. by eapply first_conflict_none.
    + destruct IH as (Hne & k1 & h1 & k' & h' & ? & ?). split; [done|]. exists k1, h1, k', h'.
      split; [by right|done].
  - destruct (validate_ports existing incoming) as [u|c].
    + intros k1 h1 k' h' p1 [[= <- <-]|Hin] Hin' E1 E2; [congruence|by eapply IH].
    + destruct IH as (Hne & k1 & h1 & k' & h' & ? & ?). split; [done|]. exists k1, h1, k', h'.
      split; [by right|done].
Qed.

(** *** The engine's share, port by port *)

Lemma none_union {A} (x : option A) : None ∪ x = x.
Proof. by destruct x. Qed.

(** [st] holds for port [p] what [one] does. *)
Definition same_at (st one : EngineState) p : Prop :=
  es_tcp st !! p = es_tcp one !! p /\ forall host', es_web st !! (host', p) = es_web one !! (host', p).

Lemma checked_port_elsewhere cfg host q h one p : checked_port cfg host q h = Ok (Some one) -> p <> q ->
  same_at one EngineState_default p.
Proof.
  intros (He & _)%checked_port_some Hn. apply engine_port_shape in He as (_ & (ep & Ht & _) & Hw).
  split; [by rewrite Ht, lookup_singleton_ne|]. intros host'. cbn. rewrite lookup_empty.
  destruct (es_web one !! (host', p)) eqn:E; [|done]. apply Hw in E. congruence.
Qed.

Lemma add_port_elsewhere cfg host out kv p : parse_u16 (fst kv) <> Some p ->
  same_at (state (add_port cfg host out kv)) (state out) p.
Proof.
  intros Hn. unfold add_port. destruct (parse_u16 (fst kv)) as [q|] eqn:Eq; [|done].
  destruct (checked_port cfg host q (snd kv)) as [[one|]|] eqn:Ec; [|done..].
  destruct (checked_port_elsewhere _ _ _ _ _ p Ec) as [Ht Hw]; [congruence|]. cbn in *. split; cbn.
  - by rewrite lookup_union, Ht, lookup_empty, none_union.
  - intros host'. by rewrite lookup_union, Hw, lookup_empty, none_union.
Qed.

Lemma add_port_here cfg host out k h p one :
  parse_u16 k = Some p -> checked_port cfg host p h = Ok (Some one) ->
  (forall host', es_web (state out) !! (host', p) = None \/
                 es_web (state out) !! (host', p) = es_web one !! (host', p)) ->
  same_at (state (add_port cfg host out (k, h))) one p.
Proof.
  intros Hk Hc Hw. unfold add_port; cbn [fst snd]. rewrite Hk, Hc. split; cbn.
  - apply checked_port_some in Hc as (He & _). apply engine_port_shape in He as (_ & (ep & -> & _) & _).
    by rewrite lookup_union, lookup_singleton_eq, union_Some_l.
  - intros host'. rewrite lookup_union.
    destruct (es_web one !! (host', p)) eqn:E; [by rewrite union_Some_l|].
    rewrite none_union. destruct (Hw host') as [->| ->]; [done|exact E].
Qed.

Lemma fold_untouched cfg host l out p :
  (forall k h, In (k, h) l -> parse_u16 k <> Some p) ->
  same_at (state (fold_left (add_port cfg host) l out)) (state out) p.
Proof.
  revert out. induction l as [|[k h] l IH]; intros out Hl; cbn [fold_left]; [done|].
  destruct (IH (add_port cfg host out (k, h))) as [Ht Hw]; [intros k' h' Hin; apply (Hl k' h'); by right|].
  destruct (add_port_elsewhere cfg host out (k, h) p) as [Ht' Hw']; [apply (Hl k h); by left|].
  split; [by rewrite Ht|]. intros host'. by rewrite Hw.
Qed.

(** The one entry of a port decides what the engine is given for it. *)
Lemma fold_sole_entry cfg host l out k h p one :
  parse_u16 k = Some p -> checked_port cfg host p h = Ok (Some one) ->
  (forall k' h', In (k', h') l -> parse_u16 k' = Some p -> k' = k /\ h' = h) ->
  (In (k, h) l /\ same_at (state out) EngineState_default p) \/ same_at (state out) one p ->
  same_at (state (fold_left (add_port cfg host) l out)) one p.
Proof.
  intros Hk Hc. revert out. induction l as [|[k' h'] l IH]; intros out Hl Hs; cbn [fold_left];
    [by destruct Hs as [[[] _]|]|].
  apply IH; [intros k1 h1 Hin; apply (Hl k1 h1); by right|].
  destruct (decide (parse_u16 k' = Some p)) as [Hk'|Hk'].
  - right. destruct (Hl k' h') as [-> ->]; [by left|done|]. apply add_port_here; [done..|].
    intros host'. destruct Hs as [[_ [_ Hw]]|[_ Hw]]; [left|right]; rewrite Hw; [|done]. apply lookup_empty.
  - destruct (add_port_elsewhere cfg host out (k', h') p Hk') as [Ht Hw].
    destruct Hs as [[[[= -> ->]|Hin] [Ht' Hw']]|[Ht' Hw']]; [done|left|right].
    + split; [done|]. split; [by rewrite Ht|]. intros host'. by rewrite Hw.
    + split; [by rewrite Ht|]. intros host'. by rewrite Hw.
Qed.

Lemma add_port_refused cfg host out k h p e :
  In (p, e) (refused (add_port cfg host out (k, h))) <->
  In (p, e) (refused out) \/ (parse_u16 k = Some p /\ checked_port cfg host p h = Err e).
Proof.
  unfold add_port; cbn [fst snd]. destruct (parse_u16 k) as [q|] eqn:Eq; cycle 1.
  { split; [by left|]. by intros [?|[? _]]. }
  assert (Hsole : forall r, checked_port cfg host q h = r -> (forall e', r <> Err e') ->
            ~ (Some q = Some p /\ checked_port cfg host p h = Err e)).
  { intros r <- Hne [[= ->] He]. by apply (Hne e). }
  destruct (checked_port cfg host q h) as [[one|]|e'] eqn:Ec; cbn [refused].
  - specialize (Hsole _ eq_refl). split; [by left|]. intros [?|Hx]; [done|]. by destruct Hsole.
  - specialize (Hsole _ eq_refl). split; [by left|]. intros [?|Hx]; [done|]. by destruct Hsole.
  - rewrite in_app_iff. cbn [In]. split.
    + intros [?|[[= <- <-]|[]]]; [by left|by right].
    + intros [?|[[= ->] He]]; [by left|]. right. left. congruence.
Qed.

Lemma fold_refused cfg host l out p e :
  In (p, e) (refused (fold_left (add_port cfg host) l out)) <->
  In (p, e) (refused out) \/
  exists k h, In (k, h) l /\ parse_u16 k = Some p /\ checked_port cfg host p h = Err e.
Proof.
  revert out. induction l as [|[k h] l IH]; intros out; cbn [fold_left].
  - split; [by left|]. by intros [?|(k & h & [] & _)].
  - rewrite IH, add_port_refused. split.
    + intros [[?|?]|(k' & h' & ? & ?)]; [by left|right..].
      * exists k, h. split; [by left|done].
      * exists k', h'. split; [by right|done].
    + intros [?|(k' & h' & [[= <- <-]|?] & ?)]; [by left; left|by left; right|].
      right. by exists k', h'.
Qed.

Lemma fold_armed cfg host l out p :
  is_Some (es_tcp (state (fold_left (add_port cfg host) l out)) !! p) <->
  is_Some (es_tcp (state out) !! p) \/
  exists k h one, In (k, h) l /\ parse_u16 k = Some p /\ checked_port cfg host p h = Ok (Some one).
Proof.
  revert out. induction l as [|[k h] l IH]; intros out; cbn [fold_left].
  { split; [by left|]. by intros [?|(k & h & one & [] & _)]. }
  assert (Hadd : is_Some (es_tcp (state (add_port cfg host out (k, h))) !! p) <->
            is_Some (es_tcp (state out) !! p) \/
            exists one, parse_u16 k = Some p /\ checked_port cfg host p h = Ok (Some one)).
  { destruct (decide (parse_u16 k = Some p)) as [Hk|Hk].
    - unfold add_port; cbn [fst snd]. rewrite Hk.
      destruct (checked_port cfg host p h) as [[one|]|e'] eqn:Ec; cbn [state es_tcp];
        [|by split; [left|intros [?|(? & _ & ?)]]..].
      pose proof (checked_port_some _ _ _ _ _ Ec) as [He _].
      apply engine_port_shape in He as (_ & (ep & Ht & _) & _).
      rewrite lookup_union, Ht, lookup_singleton_eq, union_Some_l. split; [|by eexists].
      intros _. right. by exists one.
    - destruct (add_port_elsewhere cfg host out (k, h) p Hk) as [-> _].
      split; [by left|]. by intros [?|(? & ? & _)]. }
  rewrite IH, Hadd. split.
  - intros [[?|(one & ?)]|(k' & h' & one & ? & ?)]; [by left|right..].
    + exists k, h, one. split; [by left|done].
    + exists k', h', one. split; [by right|done].
  - intros [?|(k' & h' & one & [[= <- <-]|?] & ?)]; [by left; left|left; right; by exists one|].
    right. by exists k', h', one.
Qed.

(** What the engine is given for a port is one entry's own plan. *)
Lemma fold_from cfg host l out p ep :
  es_tcp (state (fold_left (add_port cfg host) l out)) !! p = Some ep ->
  es_tcp (state out) !! p = Some ep \/
  exists k h one, In (k, h) l /\ parse_u16 k = Some p /\ checked_port cfg host p h = Ok (Some one) /\
    es_tcp one !! p = Some ep.
Proof.
  revert out. induction l as [|[k h] l IH]; intros out; cbn [fold_left]; [by left|].
  intros [H1|(k' & h' & one & ? & ?)]%IH; [|right; exists k', h', one; by split; [right|]].
  destruct (decide (parse_u16 k = Some p)) as [Hk|Hk].
  - unfold add_port in H1; cbn [fst snd] in H1. rewrite Hk in H1.
    destruct (checked_port cfg host p h) as [[one|]|e'] eqn:Ec; cbn [state es_tcp] in H1; [|by left..].
    rewrite lookup_union_Some_raw in H1. destruct H1 as [H1|[_ H1]]; [|by left].
    right. exists k, h, one. split_and!; [by left|done..].
  - destruct (add_port_elsewhere cfg host out (k, h) p Hk) as [E _]. rewrite E in H1. by left.
Qed.
End Lanes.

(** ** Properties *)

(** An engine that serves HTTPS proxies and TLS-terminated forwards, and
    refuses plain HTTP. *)
#[local] Instance example_engine : ServeEngine := {
  ServeConfigError := bytes;
  ServeConfigError_eq_dec := _;
  Invalid m := m;
  serve_plan st :=
    if bool_decide (map_Forall (fun _ ep => ep_http ep = false) (es_tcp st)) then None else Some (bs "plain HTTP")
}.

(** C30: An update of the serve configuration is accepted exactly when no port
    changes what kind of serve it is, whichever spellings of the port number
    the two configurations use; a refusal names a port both serve and the two
    kinds it cannot be at once; and the check judges what really runs: after an accepted
    update a port that ran before and runs now, as a daemon loop or in the
    engine, runs as the same kind, for handlers that do not ask for HTTP and
    HTTPS at once. *)
Theorem update_accepted_iff `{ServeEngine} (existing incoming : ServeConfig) (host : bytes) :
  (validate_serve_config_update existing incoming = Ok tt <->
    forall k h k' h' p, In (k, h) (sc_tcp incoming) -> In (k', h') (sc_tcp existing) ->
      parse_u16 k = Some p -> parse_u16 k' = Some p -> serve_type h = serve_type h') /\
  (forall c, validate_serve_config_update existing incoming = Err c ->
    wanted c <> already c /\ exists k h k' h', In (k, h) (sc_tcp incoming) /\ In (k', h') (sc_tcp existing) /\
      parse_u16 k = Some (conflict_port c) /\ parse_u16 k' = Some (conflict_port c) /\
      serve_type h = wanted c /\ serve_type h' = already c) /\
  (validate_serve_config_update existing incoming = Ok tt ->
    forall k h k' h' p t t', In (k, h) (sc_tcp incoming) -> In (k', h') (sc_tcp existing) ->
      parse_u16 k = Some p -> parse_u16 k' = Some p -> unambiguous h -> unambiguous h' ->
      runs_as existing host p h' = Some t -> runs_as incoming host p h = Some t' -> t' = t).
Proof.
  unfold validate_serve_config_update. pose proof (validate_ports_spec (sc_tcp existing) (sc_tcp incoming)) as Hs.
  destruct (validate_ports (sc_tcp existing) (sc_tcp incoming)) as [[]|c].
  - split_and!; [split; [|done]; intros _; exact Hs|done|].
    intros _ k h k' h' p t t' Hin Hin' E E' Hu Hu' Ht Ht'.
    apply runs_as_classified in Ht as ->, Ht' as ->; [|done..]. by eapply Hs.
  - split_and!; [|by intros c' [= <-]|done]. split; [done|]. intros Hall.
    destruct Hs as (Hne & k & h & k' & h' & Hin & Hin' & E & E' & Et & Et').
    destruct Hne. rewrite <- Et, <- Et'. by eapply Hall.
Qed.

Lemma update_accepted_iff_witness :
  let existing := mkServeConfig [(bs "0443", mkTcpPortHandler true false [] [] 0 None None [])] [] [] in
  let incoming := set_tcp_forward ServeConfig_default 443 (bs "127.0.0.1:80") in
  exists c, validate_serve_config_update existing incoming = Err c /\ wanted c <> already c.
Proof.
  cbn zeta. eexists. split; [vm_compute; reflexivity|].
  refine (proj1 (proj1 (proj2 (update_accepted_iff
    (mkServeConfig [(bs "0443", mkTcpPortHandler true false [] [] 0 None None [])] [] [])
    (set_tcp_forward ServeConfig_default 443 (bs "127.0.0.1:80")) (bs "node.ts.net"))) _ _)).
  vm_compute. reflexivity.
Defined.

(** C31: No served port is dropped quietly and none is served unchecked.  Each
    entry of the configuration that names a port either is a plain forward
    and has its accept loop, or names no servable shape, or is refused and
    listed with the reason its own check gave, or is armed in the engine; and
    when it is the port's only entry, what the engine is given for the port
    is exactly what passed that check, whatever becomes of the other ports.
    Conversely everything given to the engine and every refusal comes from an
    entry of the configuration. *)
Theorem no_port_dropped_quietly `{ServeEngine} (cfg : ServeConfig) (name : bytes) :
  let host := trim_end_dots name in
  let out := build_web_serve_state cfg name in
  (forall k h p, In (k, h) (sc_tcp cfg) -> parse_u16 k = Some p ->
    (is_plain_tcp_forward h = true /\ In (p, tcp_forward h) (forward_loops cfg)) \/
    serve_type h = Unknown \/
    (exists e, checked_port cfg host p h = Err e /\ In (p, e) (refused out)) \/
    (exists one, engine_port cfg host p h = Ok (Some one) /\ serve_plan one = None /\
      is_Some (es_tcp (state out) !! p) /\
      ((forall k' h', In (k', h') (sc_tcp cfg) -> parse_u16 k' = Some p -> k' = k /\ h' = h) ->
       same_at (state out) one p))) /\
  (forall p ep, es_tcp (state out) !! p = Some ep ->
    exists k h one, In (k, h) (sc_tcp cfg) /\ parse_u16 k = Some p /\
      engine_port cfg host p h = Ok (Some one) /\ serve_plan one = None /\ es_tcp one !! p = Some ep) /\
  (forall p e, In (p, e) (refused out) ->
    exists k h, In (k, h) (sc_tcp cfg) /\ parse_u16 k = Some p /\ checked_port cfg host p h = Err e).
Proof.
  cbn zeta. unfold build_web_serve_state. set (host := trim_end_dots name).
  set (start := mkEngineServe EngineState_default []). split_and!.
  - intros k h p Hin Hk. destruct (is_plain_tcp_forward h) eqn:Ef.
    { left. split; [done|]. apply list_elem_of_In, list_elem_of_omap. exists (k, h).
      split; [by apply list_elem_of_In|]. cbn. rewrite Hk. cbn. by rewrite Ef. }
    right. destruct (checked_port cfg host p h) as [[one|]|e] eqn:Ec.
    + right. right. pose proof (checked_port_some _ _ _ _ _ Ec) as [He Hp].
      exists one. split_and!; [done|done| |].
      * apply fold_armed. right. by exists k, h, one.
      * intros Hsole. by eapply fold_sole_entry; [exact Hk|exact Ec|exact Hsole|left].
    + left. apply checked_port_none in Ec as [?|?]; [congruence|done].
    + right. left. exists e. split; [done|]. apply fold_refused. right. by exists k, h.
  - intros p ep Hp. apply fold_from in Hp as [Hp|(k & h & one & Hin & Hk & Hc & Ho)].
    + cbn in Hp. by rewrite lookup_empty in Hp.
    + apply checked_port_some in Hc as [He Hs]. by exists k, h, one.
  - intros p e Hp. apply fold_refused in Hp as [[]|Hp]. exact Hp.
Qed.

Lemma no_port_dropped_quietly_witness :
  let web := mkTcpPortHandler true false [] [] 0 None None [] in
  let plain := mkTcpPortHandler false true (bs "127.0.0.1:80") [] 0 None None [] in
  let cfg := mkServeConfig [(bs "443", web); (bs "80", plain)] []
               [(bs "n.ts.net:443", [(bs "/", mkHttpHandler [] (bs "127.0.0.1:3000") [] [])])] in
  map fst (refused (build_web_serve_state cfg (bs "n.ts.net."))) = [80] /\
  exists k h, In (k, h) (sc_tcp cfg) /\ parse_u16 k = Some 80.
Proof.
  cbn zeta. set (cfg := mkServeConfig _ _ _). split; [by vm_compute|].
  destruct (proj2 (proj2 (no_port_dropped_quietly cfg (bs "n.ts.net."))) 80 (@Invalid example_engine (bs "plain HTTP"))) as (k & h & Hin & Hk & _).
  - left. by vm_compute.
  - by exists k, h.
Defined.

(** A handler asking for both is classified as HTTP but handed to the engine
    as HTTPS. *)
Lemma both_flags_misclassified :
  let h := mkTcpPortHandler true true (bs "127.0.0.1:80") [] 0 None None [] in
  serve_type h = Http /\ runs_as ServeConfig_default (bs "n.ts.net") 443 h = Some Https.
Proof. by vm_compute. Qed.
