(* ===== verification/Envknob.v ===== *)
(** * The administrative environment file: [src/envknob.rs]

    The [KEY=value] scan with Go's quoted strings, and the choice of the file
    to apply.  The file contents are a [&str]; a value is bytes, since an
    escape can write any byte. *)
From Stdlib Require Import ZArith Lia Ascii String List.
From stdpp Require Import base list strings option.
From S2P Require Import Prelude NetAddr Text.

Definition NUL : ascii := "000"%char.
Definition QUOTE : ascii := ascii_of_N 34.
Definition BACKSLASH : ascii := ascii_of_N 92.
Definition EQUALS : ascii := "="%char.

(** ** Go's quoted strings *)

(** [s.get(i..j)]. *)
Definition str_get (s : bytes) (i j : nat) : option bytes :=
  if Nat.leb j (length s) && is_char_boundary s i && is_char_boundary s j
  then Some (take (j - i) (drop i s)) else None.

Definition is_ascii_hexdigit (c : ascii) : bool :=
  match hex_val c with Some _ => true | None => false end.
Definition is_octal_digit (c : ascii) : bool := is_ascii_digit c && (byte_val c <? 56).

(** [char::from_u32] and [char::encode_utf8]. *)
Definition is_char (v : Z) : bool :=
  (0 <=? v) && (v <? 0x110000) && negb ((0xd800 <=? v) && (v <=? 0xdfff)).
Definition encode_utf8 (v : Z) : bytes :=
  map byte_of_Z
    (if v <? 0x80 then [v]
     else if v <? 0x800 then [192 + v / 64; 128 + v mod 64]
     else if v <? 0x10000 then [224 + v / 4096; 128 + v / 64 mod 64; 128 + v mod 64]
     else [240 + v / 2 ^ 18; 128 + v / 4096 mod 64; 128 + v / 64 mod 64; 128 + v mod 64]).

Definition one_byte_escape (c : ascii) : option ascii :=
  match byte_val c with
  | 97 => Some (byte_of_Z 7)
  | 98 => Some (byte_of_Z 8)
  | 102 => Some (byte_of_Z 12)
  | 110 => Some (byte_of_Z 10)
  | 114 => Some (byte_of_Z 13)
  | 116 => Some (byte_of_Z 9)
  | 118 => Some (byte_of_Z 11)
  | 92 => Some BACKSLASH
  | 34 => Some QUOTE
  | _ => None
  end.

(** How many digits a hexadecimal escape takes. *)
Definition hex_escape_len (c : ascii) : option nat :=
  match byte_val c with
  | 120 => Some 2%nat
  | 117 => Some 4%nat
  | 85 => Some 8%nat
  | _ => None
  end.

(** The bytes one character of the literal stands for, and its length. *)
Definition unquote_char (s : bytes) : option (bytes * nat) :=
  match s with
  | [] => None
  | c :: rest =>
      if Ascii.eqb c QUOTE then None
      else if negb (Ascii.eqb c BACKSLASH) then Some (take (char_len c) s, char_len c)
      else
        match rest with
        | [] => None
        | e :: _ =>
            match one_byte_escape e with
            | Some v => Some ([v], 2%nat)
            | None =>
                match hex_escape_len e with
                | Some n =>
                    digits ← str_get s 2 (2 + n);
                    if negb (forallb is_ascii_hexdigit digits) then None
                    else
                      v ← from_str_radix 16 (2 ^ 32) digits;
                      if Nat.eqb n 2 then Some ([byte_of_Z v], (2 + n)%nat)
                      else if is_char v then Some (encode_utf8 v, (2 + n)%nat) else None
                | None =>
                    if is_octal_digit e then
                      digits ← str_get s 1 4;
                      if negb (forallb is_octal_digit digits) then None
                      else
                        v ← from_str_radix 8 (2 ^ 32) digits;
                        if 255 <? v then None else Some ([byte_of_Z v], 4%nat)
                    else None
                end
            end
        end
  end.

(** Every turn consumes a byte, so the length is fuel enough. *)
Fixpoint unquote_loop (fuel : nat) (out rest : bytes) : option bytes :=
  match rest with
  | [] => Some out
  | _ :: _ =>
      match fuel with
      | O => None
      | S f =>
          '(v, consumed) ← unquote_char rest;
          unquote_loop f (out ++ v) (drop consumed rest)
      end
  end.

Definition unquote_go_string (s : bytes) : option bytes :=
  if Nat.ltb (length s) 2 || negb (bool_decide (list.last s = Some QUOTE)) then None
  else
    let inner := take (length s - 2) (drop 1 s) in
    if existsb (Ascii.eqb LF) inner then None else unquote_loop (length inner) [] inner.

(** ** The scan *)

Record Assignment : Type := mkAssignment { as_key : bytes; as_value : bytes }.

Inductive ParseErrorKind : Type := InvalidValue | NulByte.
Record ParseError : Type := mkParseError { pe_line_number : nat; pe_line : bytes; pe_kind : ParseErrorKind }.

Record ParsedEnv : Type := mkParsedEnv {
  assignments : list Assignment;
  skipped : list ParseError;
  refusal : option ParseError
}.

(** One line: nothing to set, an assignment, a line to skip, or a refusal. *)
Inductive LineOutcome : Type :=
| Nothing
| Assigns (a : Assignment)
| SkipsNul
| Refuses.

Definition has_nul (b : bytes) : bool := existsb (Ascii.eqb NUL) b.

Definition scan_line (line : bytes) : LineOutcome :=
  match line with
  | [] => Nothing
  | c :: _ =>
      if Ascii.eqb c "#" then Nothing
      else
        match split_once EQUALS line with
        | None => Nothing
        | Some (key, value) =>
            let key := trim key in
            if bool_decide (key = []) then Nothing
            else
              let value := trim value in
              let unquoted := match value with
                              | q :: _ => if Ascii.eqb q QUOTE then unquote_go_string value else Some value
                              | [] => Some value
                              end in
              match unquoted with
              | None => Refuses
              | Some value =>
                  if has_nul key || has_nul value then SkipsNul
                  else Assigns (mkAssignment key value)
              end
        end
  end.

Definition assign (a : Assignment) (p : ParsedEnv) : ParsedEnv :=
  mkParsedEnv (a :: assignments p) (skipped p) (refusal p).
Definition skip (e : ParseError) (p : ParsedEnv) : ParsedEnv :=
  mkParsedEnv (assignments p) (e :: skipped p) (refusal p).

(** The lines from the [i]-th on; a refusal ends the scan. *)
Fixpoint scan_lines (i : nat) (ls : list bytes) : ParsedEnv :=
  match ls with
  | [] => mkParsedEnv [] [] None
  | raw :: ls' =>
      let line := trim raw in
      match scan_line line with
      | Nothing => scan_lines (S i) ls'
      | Assigns a => assign a (scan_lines (S i) ls')
      | SkipsNul => skip (mkParseError (i + 1) line NulByte) (scan_lines (S i) ls')
      | Refuses => mkParsedEnv [] [] (Some (mkParseError (i + 1) line InvalidValue))
      end
  end.

Definition parse_key_value_env (contents : bytes) : ParsedEnv := scan_lines 0 (lines contents).

(** ** Which file *)

Inductive ReadOutcome : Type :=
| Contents (text : bytes)
| NotFound
| Unreadable.

Inductive Problem : Type :=
| SkippedLine (path : string) (e : ParseError)
| RefusedLine (path : string) (e : ParseError)
| ExplicitUnreadable (path : string)
| FileUnreadable (path : string).

Record DiskConfig : Type := mkDiskConfig {
  dc_path : option string;
  dc_assignments : list Assignment;
  dc_problems : list Problem
}.

Definition scan_file (path : string) (contents : bytes) : DiskConfig :=
  let parsed := parse_key_value_env contents in
  mkDiskConfig (Some path) (assignments parsed)
    (map (SkippedLine path) (skipped parsed)
     ++ match refusal parsed with Some e => [RefusedLine path e] | None => [] end).

Definition MACOS_ENV_FILE : string := "/etc/tailnetd/tailnetd-env.txt".
Definition platform_env_files (os : string) : list string :=
  if String.eqb os "macos" then [MACOS_ENV_FILE] else [].

(** [explicit_env_file]: an empty [TS_DEBUG_ENV_FILE] names no file. *)
Definition explicit_env_file (value : option string) : option string :=
  match value with Some name => if String.eqb name "" then None else Some name | None => None end.

Fixpoint first_file (read : string -> ReadOutcome) (files : list string) (problems : list Problem)
    : DiskConfig :=
  match files with
  | [] => mkDiskConfig None [] problems
  | path :: files' =>
      match read path with
      | Contents text =>
          let config := scan_file path text in
          mkDiskConfig (dc_path config) (dc_assignments config) (problems ++ dc_problems config)
      | NotFound => first_file read files' problems
      | Unreadable => first_file read files' (problems ++ [FileUnreadable path])
      end
  end.

Definition load_disk_config (read : string -> ReadOutcome) (explicit : option string)
    (files : list string) : DiskConfig :=
  match explicit with
  | Some path =>
      match read path with
      | Contents text => scan_file path text
      | NotFound | Unreadable => mkDiskConfig (Some path) [] [ExplicitUnreadable path]
      end
  | None => first_file read files []
  end.

Definition apply_disk_config (read : string -> ReadOutcome) (os : string) (debug_env_file : option string)
    : DiskConfig :=
  load_disk_config read (explicit_env_file debug_env_file) (platform_env_files os).

Example quoted_value :
  parse_key_value_env (bs "# knobs" ++ [LF] ++ bs "A = " ++ [QUOTE] ++ bs "x\ty\x41\u00e9" ++ [QUOTE; LF] ++ bs "B=1")
  = mkParsedEnv [ mkAssignment (bs "A") (bs "x" ++ [byte_of_Z 9] ++ bs "yA" ++ map byte_of_Z [195; 169]);
                  mkAssignment (bs "B") (bs "1") ] [] None.
Proof. vm_compute. reflexivity. Qed.

(** ** Lemmas: text *)

Lemma has_nul_false b : has_nul b = false <-> ~ In NUL b.
Proof.
  unfold has_nul. rewrite <- not_true_iff_false, existsb_exists. split.
  - intros H Hin. apply H. exists NUL. split; [done|apply Ascii.eqb_refl].
  - intros H (x & Hx & E). apply Ascii.eqb_eq in E as <-. by apply H.
Qed.

(** ** Lemmas: the scan *)

Definition settable (a : Assignment) : Prop :=
  as_key a <> [] /\ ~ In EQUALS (as_key a) /\ ~ In NUL (as_key a) /\ ~ In NUL (as_value a).

Lemma scan_line_settable line a : scan_line line = Assigns a -> settable a.
Proof.
  unfold scan_line. destruct line as [|c line]; [done|]. destruct (Ascii.eqb c "#"); [done|].
  destruct (split_once EQUALS (c :: line)) as [[key value]|] eqn:Es; [|done].
  case_bool_decide as Hk; [done|]. set (v := match trim value with [] => _ | _ :: _ => _ end).
  destruct v as [v'|]; [|done]. destruct (has_nul (trim key) || has_nul v') eqn:En; [done|].
  intros [= <-]. apply orb_false_iff in En as [En1 En2].
  destruct (split_once_spec _ _ _ _ Es) as [_ Hno]. unfold settable. cbn. split_and!; try done.
  - destruct (trim_infix key) as (x & y & E). intros Hin. apply Hno. rewrite E. apply in_app_iff. right.
    apply in_app_iff. by left.
  - by apply has_nul_false.
  - by apply has_nul_false.
Qed.

Lemma scan_lines_facts i ls :
  let p := scan_lines i ls in
  Forall settable (assignments p) /\
  (forall e, refusal p = Some e ->
     exists j raw, pe_line_number e = (i + j + 1)%nat /\ ls !! j = Some raw /\
       pe_line e = trim raw /\ pe_kind e = InvalidValue /\
       scan_lines i (take j ls) = mkParsedEnv (assignments p) (skipped p) None).
Proof.
  revert i. induction ls as [|raw ls IH]; intros i; cbn [scan_lines]; [by split|].
  destruct (IH (S i)) as [Ha Hr]. clear IH. cbv zeta in *.
  assert (Hlift : forall f : ParsedEnv -> ParsedEnv,
    (forall l, scan_lines i (raw :: l) = f (scan_lines (S i) l)) ->
    (forall x y z, refusal (f (mkParsedEnv x y z)) = z) ->
    (forall q, f (mkParsedEnv (assignments q) (skipped q) None)
       = mkParsedEnv (assignments (f q)) (skipped (f q)) None) ->
    forall e, refusal (f (scan_lines (S i) ls)) = Some e ->
     exists j raw', pe_line_number e = (i + j + 1)%nat /\ (raw :: ls) !! j = Some raw' /\
       pe_line e = trim raw' /\ pe_kind e = InvalidValue /\
       scan_lines i (take j (raw :: ls)) = mkParsedEnv (assignments (f (scan_lines (S i) ls)))
                                            (skipped (f (scan_lines (S i) ls))) None).
  { intros f Hf Hz Hq e He. destruct (scan_lines (S i) ls) as [x y z] eqn:Es. rewrite Hz in He. subst z.
    destruct (Hr e eq_refl) as (j & raw' & Hj & Hl & Hp & Hk & Ht). exists (S j), raw'.
    split_and!; [lia|done|done|done|]. cbn [take]. rewrite Hf, Ht. apply Hq. }
  destruct (scan_line (trim raw)) as [|a| |] eqn:E.
  - split; [done|]. apply (Hlift id); [|done|done]. intros l. cbn [scan_lines]. by rewrite E.
  - split; [constructor; [by eapply scan_line_settable|done]|].
    apply (Hlift (assign a)); [|done|done]. intros l. cbn [scan_lines]. by rewrite E.
  - split; [done|]. apply (Hlift (skip (mkParseError (i + 1) (trim raw) NulByte))); [|done|done].
    intros l. cbn [scan_lines]. by rewrite E.
  - split; [constructor|]. intros e [= <-]. exists 0%nat, raw. split_and!; try done. cbn. lia.
Qed.

(** Nothing the scan hands to [set_var] can make it panic, and a refusal
    cuts the file exactly there: every assignment has a non-empty key without
    an equals sign and no NUL on either side, whatever the file holds, and
    when a quoted value is malformed, the error names that line by number and
    text, what is applied is what the lines above it alone would apply, and
    nothing below it is. *)
Theorem scan_is_settable_and_cut (contents : bytes) :
  let p := parse_key_value_env contents in
  Forall settable (assignments p) /\
  forall e, refusal p = Some e ->
    exists raw, lines contents !! (pe_line_number e - 1)%nat = Some raw /\
      (1 <= pe_line_number e)%nat /\ pe_line e = trim raw /\
      scan_lines 0 (take (pe_line_number e - 1) (lines contents))
      = mkParsedEnv (assignments p) (skipped p) None.
Proof.
  cbv zeta. unfold parse_key_value_env. destruct (scan_lines_facts 0 (lines contents)) as [Ha Hr].
  split; [done|]. intros e He. destruct (Hr e He) as (j & raw & Hj & Hl & Hp & _ & Ht).
  exists raw. rewrite Hj. replace (0 + j + 1 - 1)%nat with j by lia. split_and!; [done|lia|done|done].
Qed.

(** ** Writing a file that sets given values *)

Definition hex_escape (c : ascii) : bytes :=
  [BACKSLASH; "x"%char; hex_char (byte_val c / 16); hex_char (byte_val c mod 16)].
Definition quote (v : bytes) : bytes := QUOTE :: flat_map hex_escape v ++ [QUOTE].
Definition render_line (a : Assignment) : bytes := as_key a ++ EQUALS :: quote (as_value a).
Definition render (l : list Assignment) : bytes := flat_map (fun a => render_line a ++ [LF]) l.

Definition graphic (c : ascii) : bool := between 33 126 c.
Definition writable (a : Assignment) : Prop :=
  (exists c k, as_key a = c :: k /\ c <> "#"%char) /\
  forallb (fun c => graphic c && negb (Ascii.eqb EQUALS c)) (as_key a) = true /\
  ~ In NUL (as_value a).

Ltac each_byte c := destruct c as [[] [] [] [] [] [] [] []]; vm_compute; auto.

Lemma graphic_no_ws c : graphic c = true ->
  no_ws_head WHITESPACE c = true /\ no_ws_head (map (@rev Z) WHITESPACE) c = true.
Proof. each_byte c. Qed.

(** Text between two graphic bytes is its own trim. *)
Lemma trim_graphic s : match s with [] => True | c :: _ => graphic c = true end ->
  match rev s with [] => True | c :: _ => graphic c = true end -> trim s = s.
Proof.
  intros Hh Hl. unfold trim. rewrite (trim_start_id WHITESPACE); [| |by left].
  - rewrite trim_start_id; [apply rev_involutive| |by right].
    destruct (rev s); [done|]. by apply graphic_no_ws.
  - destruct s; [done|]. by apply graphic_no_ws.
Qed.

Lemma escape_byte c : let h := hex_char (byte_val c / 16) in let l := hex_char (byte_val c mod 16) in
  from_str_radix 16 (2 ^ 32) [h; l] = Some (byte_val c) /\
  forallb is_ascii_hexdigit [h; l] = true /\ is_char_boundary [h] 0 = true /\
  existsb (Ascii.eqb LF) (hex_escape c) = false.
Proof. each_byte c. Qed.

(** Where an escape ends, a character starts. *)
Definition boundary_head (s : bytes) : bool := is_char_boundary s 0.

Lemma unquote_escape c rest : boundary_head rest = true ->
  unquote_char (hex_escape c ++ rest) = Some ([c], 4%nat).
Proof.
  intros Hb. destruct (escape_byte c) as (Hv & Hd & Hh & _). unfold hex_escape. cbn [app].
  unfold unquote_char. cbn [Ascii.eqb]. change (Ascii.eqb BACKSLASH QUOTE) with false.
  change (Ascii.eqb BACKSLASH BACKSLASH) with true. cbn [negb].
  change (one_byte_escape "x") with (@None ascii). change (hex_escape_len "x") with (Some 2%nat). cbv iota beta.
  set (h := hex_char (byte_val c / 16)) in *. set (l := hex_char (byte_val c mod 16)) in *. clearbody h l.
  assert (Hg : str_get (BACKSLASH :: "x"%char :: h :: l :: rest) 2 (2 + 2) = Some [h; l]).
  { unfold str_get, is_char_boundary in *. cbn [length Nat.add Nat.leb lookup list_lookup drop take Nat.sub].
    cbn in Hh. rewrite Hh. unfold boundary_head, is_char_boundary in Hb.
    destruct rest; cbn in *; by rewrite ?Hb. }
  rewrite Hg. cbn [mbind option_bind]. rewrite Hd, Hv. cbn [negb Nat.eqb mbind option_bind Nat.add].
  by rewrite byte_of_Z_val.
Qed.

Lemma escapes_boundary v : boundary_head (flat_map hex_escape v) = true.
Proof. by destruct v. Qed.

Lemma unquote_escapes v fuel out : (4 * length v <= fuel)%nat ->
  unquote_loop fuel out (flat_map hex_escape v) = Some (out ++ v).
Proof.
  revert fuel out. induction v as [|c v IH]; intros fuel out Hf.
  - destruct fuel; cbn; by rewrite app_nil_r.
  - cbn [length] in Hf. destruct fuel as [|f]; [lia|]. cbn [flat_map].
    pose proof (unquote_escape c _ (escapes_boundary v)) as Hu.
    unfold hex_escape at 1. cbn [app unquote_loop].
    change (BACKSLASH :: "x"%char :: hex_char (byte_val c / 16) :: hex_char (byte_val c mod 16)
              :: flat_map hex_escape v) with (hex_escape c ++ flat_map hex_escape v).
    rewrite Hu. cbn [mbind option_bind]. change (drop 4 (hex_escape c ++ ?r)) with r.
    rewrite IH by lia. by rewrite <- app_assoc.
Qed.

Lemma escapes_length v : length (flat_map hex_escape v) = (4 * length v)%nat.
Proof. induction v as [|c v IH]; [done|]. cbn [flat_map]. rewrite length_app, IH. cbn. lia. Qed.

Lemma escapes_no_lf v : existsb (Ascii.eqb LF) (flat_map hex_escape v) = false.
Proof.
  induction v as [|c v IH]; [done|]. cbn [flat_map]. rewrite existsb_app, IH, orb_false_r.
  apply escape_byte.
Qed.

Lemma unquote_quote v : unquote_go_string (quote v) = Some v.
Proof.
  unfold unquote_go_string, quote. cbn [length]. rewrite length_app, escapes_length. cbn [length].
  replace (Nat.ltb _ 2) with false by (symmetry; apply Nat.ltb_ge; lia).
  rewrite app_comm_cons, last_snoc. rewrite bool_decide_true by done. cbn [negb orb drop app].
  replace (S (4 * length v + 1) - 2)%nat with (length (flat_map hex_escape v))
    by (rewrite escapes_length; lia).
  rewrite drop_0, take_app_length. rewrite escapes_no_lf, unquote_escapes by (rewrite escapes_length; lia).
  reflexivity.
Qed.

Lemma key_bytes k : forallb (fun c => graphic c && negb (Ascii.eqb EQUALS c)) k = true ->
  Forall (fun c => graphic c = true /\ c <> EQUALS) k.
Proof.
  rewrite forallb_forall, List.Forall_forall. intros H c Hc. specialize (H c Hc).
  apply andb_true_iff in H as [H1 H2]. split; [done|]. intros ->. by rewrite Ascii.eqb_refl in H2.
Qed.

Lemma quote_graphic v : Forall (fun c => graphic c = true) (quote v).
Proof.
  unfold quote. constructor; [done|]. apply Forall_app. split; [|by constructor].
  induction v as [|c v IH]; [constructor|]. cbn [flat_map]. apply Forall_app. split; [|done].
  assert (H : forallb graphic (hex_escape c) = true) by each_byte c.
  rewrite forallb_forall in H. apply List.Forall_forall. exact H.
Qed.

Lemma forall_rev_head (P : ascii -> Prop) (s : bytes) : Forall P s -> match rev s with [] => True | c :: _ => P c end.
Proof.
  intros H. apply List.Forall_rev in H. by destruct H.
Qed.

Lemma graphic_trim s : Forall (fun c => graphic c = true) s -> trim s = s.
Proof.
  intros H. apply trim_graphic; [by destruct H|]. exact (forall_rev_head (fun c => graphic c = true) s H).
Qed.

Lemma scan_rendered a : writable a -> trim (render_line a) = render_line a /\
  scan_line (render_line a) = Assigns a /\ ~ In LF (render_line a) /\
  strip_cr (render_line a) = render_line a.
Proof.
  intros ((c & k & Hk & Hne) & Hall & Hv). apply key_bytes in Hall as Hkey.
  assert (Hkg : Forall (fun c => graphic c = true) (as_key a))
    by (eapply List.Forall_impl; [|exact Hkey]; by intros ? []).
  assert (Hg : Forall (fun c => graphic c = true) (render_line a)).
  { apply Forall_app. split; [done|]. constructor; [done|]. apply quote_graphic. }
  split_and!.
  - by apply graphic_trim.
  - unfold scan_line, render_line. rewrite Hk. cbn [app].
    destruct (Ascii.eqb_spec c "#"); [done|]. rewrite app_comm_cons, <- Hk.
    rewrite split_once_first.
    2: { intros Hin. rewrite List.Forall_forall in Hkey. by destruct (Hkey _ Hin). }
    rewrite !graphic_trim by (done || apply quote_graphic).
    rewrite bool_decide_false by (by rewrite Hk). unfold quote at 1. cbv beta iota.
    change (Ascii.eqb QUOTE QUOTE) with true. cbv iota.
    change (QUOTE :: flat_map hex_escape (as_value a) ++ [QUOTE]) with (quote (as_value a)).
    rewrite unquote_quote. rewrite (proj2 (has_nul_false (as_value a))) by done.
    rewrite (proj2 (has_nul_false (as_key a))); [by destruct a|].
    intros Hin. rewrite List.Forall_forall in Hkg. by specialize (Hkg _ Hin).
  - intros Hin. rewrite List.Forall_forall in Hg. by specialize (Hg _ Hin).
  - unfold strip_cr. pose proof (forall_rev_head (fun c => graphic c = true) _ Hg) as Hr.
    destruct (rev (render_line a)) as [|d r]; [done|]. destruct (Ascii.eqb_spec d CR) as [->|]; [|done].
    done.
Qed.

Lemma scan_lines_rendered i l : Forall writable l ->
  scan_lines i (map render_line l) = mkParsedEnv l [] None.
Proof.
  intros H. revert i. induction H as [|a l Ha Hl IH]; intros i; [done|]. cbn [map scan_lines].
  destruct (scan_rendered a Ha) as (Ht & Hs & _). by rewrite Ht, Hs, IH.
Qed.

Lemma lines_render l : Forall writable l -> lines (render l) = map render_line l.
Proof.
  intros H. induction H as [|a l Ha Hl IH]; [done|]. unfold render in *. cbn [flat_map map].
  rewrite <- app_assoc. cbn [app]. destruct (scan_rendered a Ha) as (_ & _ & Hn & Hc).
  by rewrite lines_cut, Hc, IH.
Qed.

(** C24: the file format can carry every setting there is: for any list of
    assignments whose keys are printable words and whose values are any bytes
    at all but NUL, newlines, quotes and invalid UTF-8 included, the file that
    writes each value with hexadecimal escapes between quotes is read back as
    exactly those assignments, in order, with nothing skipped or refused. *)
Theorem rendered_file_reads_back (l : list Assignment) :
  Forall writable l -> parse_key_value_env (render l) = mkParsedEnv l [] None.
Proof.
  intros H. unfold parse_key_value_env. rewrite lines_render by done. by apply scan_lines_rendered.
Qed.

Lemma rendered_file_reads_back_witness :
  let l := [ mkAssignment (bs "TS_DISABLE_PORTMAPPER") (bs "1");
             mkAssignment (bs "TS_NOTE") ([LF; QUOTE; BACKSLASH; CR] ++ map byte_of_Z [255; 128]) ] in
  parse_key_value_env (render l) = mkParsedEnv l [] None.
Proof.
  apply rendered_file_reads_back.
  repeat (constructor; [split_and!; [by eexists _, _|reflexivity|]|]); [..|constructor];
    vm_compute; intuition congruence.
Defined.
