(* ===== verification/Prefs.v ===== *)
(** * Persisted intent: [src/prefs.rs] and the option structs of [src/ipn/mod.rs]

    [Prefs] (the on-disk record the lifecycle reconciles against), its default,
    [up --reset], and the two edit requests [UpOptions] and [SetOptions] with
    the merges [begin_up] and [begin_set] apply to the prefs. *)
From Stdlib Require Import ZArith Lia Ascii String List.
From stdpp Require Import base list strings option.
From coqutil Require Datatypes.RecordSettersUsingExistingGetters.
Import coqutil.Datatypes.RecordSettersUsingExistingGetters.RecordSetNotations1.
From S2P Require Import Prelude.

Record Prefs : Type := mkPrefs {
  want_running : bool;
  logged_out : bool;
  control_url : option string;
  hostname : option string;
  ephemeral : bool;
  accept_routes : bool;
  accept_dns : bool;
  shields_up : bool;
  exit_node : option string;
  advertise_exit_node : bool;
  advertise_routes : list string;
  advertise_tags : list string;
  ssh_enabled : bool;
  advertise_app_connector : bool;
  auto_update_apply : option bool;
  auto_update_check : bool;
  operator_user : option string;
  node_nickname : option string;
  posture_checking : bool;
  run_web_client : bool;
  exit_node_allow_lan_access : bool;
  taildrop_dir : option string;
  tun_enabled : bool;
  tun_name : option string;
  tun_mtu : option Z;
  has_logged_in : bool
}.

#[global] Instance Prefs_eq_dec : EqDecision Prefs.
Proof. solve_decision. Defined.

(** [impl Default for Prefs]. *)
Definition Prefs_default : Prefs := {|
  want_running := false;
  logged_out := false;
  control_url := None;
  hostname := None;
  ephemeral := false;
  accept_routes := false;
  accept_dns := true;
  shields_up := false;
  exit_node := None;
  advertise_exit_node := false;
  advertise_routes := [];
  advertise_tags := [];
  ssh_enabled := false;
  advertise_app_connector := false;
  auto_update_apply := None;
  auto_update_check := true;
  operator_user := None;
  node_nickname := None;
  posture_checking := false;
  run_web_client := false;
  exit_node_allow_lan_access := false;
  taildrop_dir := None;
  tun_enabled := false;
  tun_name := None;
  tun_mtu := None;
  has_logged_in := false
|}.

(** [Prefs::reset_up_managed_to_default]: the mutation behind [up --reset]. *)
Definition reset_up_managed_to_default (p : Prefs) : Prefs :=
  let d := Prefs_default in
  p <| control_url := control_url d |>
    <| hostname := hostname d |>
    <| accept_routes := accept_routes d |>
    <| accept_dns := accept_dns d |>
    <| shields_up := shields_up d |>
    <| exit_node := exit_node d |>
    <| advertise_exit_node := advertise_exit_node d |>
    <| advertise_routes := advertise_routes d |>
    <| advertise_tags := advertise_tags d |>
    <| ssh_enabled := ssh_enabled d |>
    <| operator_user := operator_user d |>
    <| exit_node_allow_lan_access := exit_node_allow_lan_access d |>
    <| advertise_app_connector := advertise_app_connector d |>
    <| posture_checking := posture_checking d |>
    <| tun_enabled := tun_enabled d |>
    <| tun_name := tun_name d |>
    <| tun_mtu := tun_mtu d |>.

(** ** The edit requests *)

(** What [tnet up] names; [None] is "not mentioned", and the double options
    of the exit node and the operator carry a clear as [Some None]. *)
Record UpOptions : Type := mkUpOptions {
  up_hostname : option string;
  up_control_url : option string;
  up_tun : option bool;
  up_tun_name : option string;
  up_tun_mtu : option Z;
  up_exit_node : option (option string);
  up_advertise_exit_node : option bool;
  up_advertise_routes : option (list string);
  up_advertise_tags : option (list string);
  up_accept_routes : option bool;
  up_accept_dns : option bool;
  up_shields_up : option bool;
  up_ssh : option bool;
  up_operator : option (option string);
  up_exit_node_allow_lan_access : option bool;
  up_advertise_connector : option bool;
  up_report_posture : option bool;
  up_reset : bool;
  up_force_reauth : bool;
  up_ephemeral : option bool
}.

Definition UpOptions_default : UpOptions :=
  mkUpOptions None None None None None None None None None None None None None
    None None None None false false None.

Definition is_some {A} (o : option A) : bool := match o with Some _ => true | None => false end.
Definition is_none {A} (o : option A) : bool := negb (is_some o).

Definition mentions_any_pref (o : UpOptions) : bool :=
  is_some (up_hostname o)
  || is_some (up_control_url o)
  || is_some (up_tun o)
  || is_some (up_tun_name o)
  || is_some (up_tun_mtu o)
  || is_some (up_exit_node o)
  || is_some (up_advertise_exit_node o)
  || is_some (up_advertise_routes o)
  || is_some (up_advertise_tags o)
  || is_some (up_accept_routes o)
  || is_some (up_accept_dns o)
  || is_some (up_ephemeral o)
  || is_some (up_shields_up o)
  || is_some (up_ssh o)
  || is_some (up_operator o)
  || is_some (up_exit_node_allow_lan_access o)
  || is_some (up_advertise_connector o)
  || is_some (up_report_posture o).

(** What [tnet set] names. *)
Record SetOptions : Type := mkSetOptions {
  set_hostname : option string;
  set_accept_routes : option bool;
  set_accept_dns : option bool;
  set_shields_up : option bool;
  set_exit_node : option (option string);
  set_advertise_exit_node : option bool;
  set_advertise_routes : option (list string);
  set_advertise_tags : option (list string);
  set_ssh : option bool;
  set_advertise_connector : option bool;
  set_auto_update : option bool;
  set_update_check : option bool;
  set_operator : option (option string);
  set_nickname : option (option string);
  set_report_posture : option bool;
  set_webclient : option bool;
  set_exit_node_allow_lan_access : option bool
}.

Definition SetOptions_default : SetOptions :=
  mkSetOptions None None None None None None None None None None None None None
    None None None None.

(** [SetOptions::is_empty]. *)
Definition set_is_empty (o : SetOptions) : bool :=
  is_none (set_hostname o)
  && is_none (set_accept_routes o)
  && is_none (set_accept_dns o)
  && is_none (set_shields_up o)
  && is_none (set_exit_node o)
  && is_none (set_advertise_exit_node o)
  && is_none (set_advertise_routes o)
  && is_none (set_advertise_tags o)
  && is_none (set_ssh o)
  && is_none (set_advertise_connector o)
  && is_none (set_auto_update o)
  && is_none (set_update_check o)
  && is_none (set_operator o)
  && is_none (set_nickname o)
  && is_none (set_report_posture o)
  && is_none (set_webclient o)
  && is_none (set_exit_node_allow_lan_access o).

(** [SetOptions::needs_rebuild]. *)
Definition needs_rebuild (o : SetOptions) : bool :=
  is_some (set_shields_up o)
  || is_some (set_ssh o)
  || is_some (set_advertise_tags o)
  || is_some (set_advertise_connector o)
  || is_some (set_auto_update o).

(** ** Merging a request into the prefs *)

(** [if let Some(v) = named { pref = v }]. *)
Definition named_or {A} (named : option A) (current : A) : A := default current named.
(** [if named.is_some() { pref = named }] on an optional pref. *)
Definition some_or {A} (named current : option A) : option A :=
  match named with Some _ => named | None => current end.

(** The override block of [begin_up_gated], field by field, after the
    optional [--reset]. *)
Definition apply_up_overrides (o : UpOptions) (p : Prefs) : Prefs :=
  p <| hostname := some_or (up_hostname o) (hostname p) |>
    <| control_url := some_or (up_control_url o) (control_url p) |>
    <| tun_enabled := named_or (up_tun o) (tun_enabled p) |>
    <| tun_name := some_or (up_tun_name o) (tun_name p) |>
    <| tun_mtu := some_or (up_tun_mtu o) (tun_mtu p) |>
    <| exit_node := named_or (up_exit_node o) (exit_node p) |>
    <| advertise_exit_node := named_or (up_advertise_exit_node o) (advertise_exit_node p) |>
    <| advertise_routes := named_or (up_advertise_routes o) (advertise_routes p) |>
    <| advertise_tags := named_or (up_advertise_tags o) (advertise_tags p) |>
    <| accept_routes := named_or (up_accept_routes o) (accept_routes p) |>
    <| accept_dns := named_or (up_accept_dns o) (accept_dns p) |>
    <| ephemeral := named_or (up_ephemeral o) (ephemeral p) |>
    <| shields_up := named_or (up_shields_up o) (shields_up p) |>
    <| ssh_enabled := named_or (up_ssh o) (ssh_enabled p) |>
    <| operator_user := named_or (up_operator o) (operator_user p) |>
    <| exit_node_allow_lan_access :=
         named_or (up_exit_node_allow_lan_access o) (exit_node_allow_lan_access p) |>
    <| advertise_app_connector :=
         named_or (up_advertise_connector o) (advertise_app_connector p) |>
    <| posture_checking := named_or (up_report_posture o) (posture_checking p) |>.

(** [if opts.reset { .. }], the overrides, then the connect intent. *)
Definition merge_up (o : UpOptions) (p : Prefs) : Prefs :=
  let p := if up_reset o then reset_up_managed_to_default p else p in
  apply_up_overrides o p <| want_running := true |> <| logged_out := false |>.

(** The override block of [begin_set_gated]. *)
Definition apply_set_overrides (o : SetOptions) (p : Prefs) : Prefs :=
  p <| hostname := some_or (set_hostname o) (hostname p) |>
    <| accept_routes := named_or (set_accept_routes o) (accept_routes p) |>
    <| accept_dns := named_or (set_accept_dns o) (accept_dns p) |>
    <| shields_up := named_or (set_shields_up o) (shields_up p) |>
    <| exit_node := named_or (set_exit_node o) (exit_node p) |>
    <| advertise_exit_node := named_or (set_advertise_exit_node o) (advertise_exit_node p) |>
    <| advertise_routes := named_or (set_advertise_routes o) (advertise_routes p) |>
    <| advertise_tags := named_or (set_advertise_tags o) (advertise_tags p) |>
    <| ssh_enabled := named_or (set_ssh o) (ssh_enabled p) |>
    <| advertise_app_connector :=
         named_or (set_advertise_connector o) (advertise_app_connector p) |>
    <| auto_update_apply := some_or (set_auto_update o) (auto_update_apply p) |>
    <| auto_update_check := named_or (set_update_check o) (auto_update_check p) |>
    <| operator_user := named_or (set_operator o) (operator_user p) |>
    <| node_nickname := named_or (set_nickname o) (node_nickname p) |>
    <| posture_checking := named_or (set_report_posture o) (posture_checking p) |>
    <| run_web_client := named_or (set_webclient o) (run_web_client p) |>
    <| exit_node_allow_lan_access :=
         named_or (set_exit_node_allow_lan_access o) (exit_node_allow_lan_access p) |>.

Lemma is_some_spec {A} (o : option A) : is_some o = true <-> o <> None.
Proof. destruct o; naive_solver. Qed.

Lemma is_none_eq {A} (o : option A) : is_none o = true <-> o = None.
Proof. destruct o; naive_solver. Qed.

(** An empty [set] request changes no pref. *)
Lemma apply_set_overrides_empty o p : set_is_empty o = true -> apply_set_overrides o p = p.
Proof.
  unfold set_is_empty. rewrite !andb_true_iff, !is_none_eq.
  intros H. destruct o; simpl in *; destruct_and!; subst. by destruct p.
Qed.

(** Prefs with the same fields are the same prefs. *)
Lemma Prefs_ext (p q : Prefs) :
  want_running p = want_running q ->
  logged_out p = logged_out q ->
  control_url p = control_url q ->
  hostname p = hostname q ->
  ephemeral p = ephemeral q ->
  accept_routes p = accept_routes q ->
  accept_dns p = accept_dns q ->
  shields_up p = shields_up q ->
  exit_node p = exit_node q ->
  advertise_exit_node p = advertise_exit_node q ->
  advertise_routes p = advertise_routes q ->
  advertise_tags p = advertise_tags q ->
  ssh_enabled p = ssh_enabled q ->
  advertise_app_connector p = advertise_app_connector q ->
  auto_update_apply p = auto_update_apply q ->
  auto_update_check p = auto_update_check q ->
  operator_user p = operator_user q ->
  node_nickname p = node_nickname q ->
  posture_checking p = posture_checking q ->
  run_web_client p = run_web_client q ->
  exit_node_allow_lan_access p = exit_node_allow_lan_access q ->
  taildrop_dir p = taildrop_dir q ->
  tun_enabled p = tun_enabled q ->
  tun_name p = tun_name q ->
  tun_mtu p = tun_mtu q ->
  has_logged_in p = has_logged_in q ->
  p = q.
Proof. destruct p, q. simpl. intros. by f_equal. Qed.
