(* ===== verification/SysPolicy.v ===== *)
(** * The system policy and its reconcile: [src/ipn/syspolicy.rs]

    The registered settings (a key, a rendered value), the lookups by type, and
    [apply_to_prefs], the step that forces the administrator's policy over the
    persisted prefs at every reconcile point. *)
From Stdlib Require Import ZArith Lia Ascii String List.
From stdpp Require Import base list strings option.
From coqutil Require Datatypes.RecordSettersUsingExistingGetters.
Import coqutil.Datatypes.RecordSettersUsingExistingGetters.RecordSetNotations1.
From S2P Require Import Prelude GoDuration NetAddr Prefs.

(** [localapi::PolicySetting]. *)
Record PolicySetting : Type := mkPolicySetting {
  ps_key : string;
  ps_origin : string;
  ps_value : option string;
  ps_error : option string
}.

(** ** The registered store *)


(** [BTreeMap::insert]: sorted by key, a later value replacing an earlier. *)
Fixpoint btree_insert (s : PolicySetting) (m : list PolicySetting) : list PolicySetting :=
  match m with
  | [] => [s]
  | x :: m' =>
      match String.compare (ps_key s) (ps_key x) with
      | Lt => s :: m
      | Eq => s :: m'
      | Gt => x :: btree_insert s m'
      end
  end.


(** [merge]: the sources in registration order, the last one winning a key. *)
Definition merge (sources : list (list PolicySetting)) : list PolicySetting :=
  fold_left (fun m source => fold_left (fun m s => btree_insert s m) source m) sources [].

Inductive ValueType : Type :=
| TBoolean | TString | TStringList | TPreferenceOption | TVisibility | TDuration.

#[global] Instance ValueType_eq_dec : EqDecision ValueType.
Proof. solve_decision. Defined.

Definition PKEY_ENCRYPT_STATE := "EncryptState".
Definition PKEY_HARDWARE_ATTESTATION := "HardwareAttestation".
Definition PKEY_ALLOW_TAILSCALED_RESTART := "AllowTailscaledRestart".
Definition PKEY_ALWAYS_ON := "AlwaysOn.Enabled".
Definition PKEY_ALWAYS_ON_OVERRIDE_WITH_REASON := "AlwaysOn.OverrideWithReason".
Definition PKEY_RECONNECT_AFTER := "ReconnectAfter".
Definition PKEY_AUTH_KEY := "AuthKey".
Definition PKEY_EXIT_NODE_ID := "ExitNodeID".
Definition PKEY_EXIT_NODE_IP := "ExitNodeIP".
Definition PKEY_ALLOW_EXIT_NODE_OVERRIDE := "ExitNode.AllowOverride".
Definition PKEY_ALLOWED_SUGGESTED_EXIT_NODES := "AllowedSuggestedExitNodes".

(** [DEFINITIONS]. *)
Definition DEFINITIONS : list (string * ValueType) := [
  (PKEY_ALLOWED_SUGGESTED_EXIT_NODES, TStringList);
  (PKEY_ALLOW_EXIT_NODE_OVERRIDE, TBoolean);
  (PKEY_ALLOW_TAILSCALED_RESTART, TBoolean);
  (PKEY_ALWAYS_ON, TBoolean);
  (PKEY_ALWAYS_ON_OVERRIDE_WITH_REASON, TBoolean);
  ("InstallUpdates", TPreferenceOption);
  (PKEY_AUTH_KEY, TString);
  ("CheckUpdates", TPreferenceOption);
  ("LoginURL", TString);
  ("DeviceSerialNumber", TString);
  ("EnableDNSRegistration", TPreferenceOption);
  ("AllowIncomingConnections", TPreferenceOption);
  ("AdvertiseExitNode", TPreferenceOption);
  ("UnattendedMode", TPreferenceOption);
  ("UseTailscaleDNSSettings", TPreferenceOption);
  ("UseTailscaleSubnets", TPreferenceOption);
  ("ExitNodeAllowLANAccess", TPreferenceOption);
  (PKEY_EXIT_NODE_ID, TString);
  (PKEY_EXIT_NODE_IP, TString);
  ("FlushDNSOnSessionUnlock", TBoolean);
  (PKEY_ENCRYPT_STATE, TBoolean);
  ("Hostname", TString);
  ("LogSCMInteractions", TBoolean);
  ("LogTarget", TString);
  ("MachineCertificateSubject", TString);
  ("PostureChecking", TPreferenceOption);
  (PKEY_RECONNECT_AFTER, TDuration);
  ("Tailnet", TString);
  (PKEY_HARDWARE_ATTESTATION, TBoolean);
  ("AdminConsole", TVisibility);
  ("ApplyUpdates", TVisibility);
  ("ExitNodesPicker", TVisibility);
  ("KeyExpirationNotice", TDuration);
  ("ManagedByCaption", TString);
  ("ManagedByOrganizationName", TString);
  ("ManagedByURL", TString);
  ("NetworkDevices", TVisibility);
  ("PreferencesMenu", TVisibility);
  ("ResetToDefaults", TVisibility);
  ("RunExitNode", TVisibility);
  ("SuggestedExitNode", TVisibility);
  ("TestMenu", TVisibility);
  ("UpdateMenu", TVisibility);
  ("OnboardingFlow", TVisibility)
].

Definition definition_of (key : string) : option (string * ValueType) :=
  List.find (fun d => String.eqb (fst d) key) DEFINITIONS.

(** [matches!(definition_of(key), Some(d) if d.ty == ty)]. *)
Definition has_type (key : string) (ty : ValueType) : bool :=
  match definition_of key with
  | Some d => bool_decide (snd d = ty)
  | None => false
  end.

(** [settings.iter().find(|s| s.key == key)?.value.as_deref()?]. *)
Definition find_value (settings : list PolicySetting) (key : string) : option string :=
  s ← List.find (fun s => String.eqb (ps_key s) key) settings; ps_value s.

(** [str::parse::<bool>()]. *)
Definition parse_bool (s : string) : option bool :=
  if String.eqb s "true" then Some true
  else if String.eqb s "false" then Some false
  else None.

Definition show_bool (b : bool) : string := if b then "true" else "false".

Definition configured_boolean (settings : list PolicySetting) (key : string) : option bool :=
  if negb (has_type key TBoolean) then None
  else v ← find_value settings key; parse_bool v.

Definition boolean_setting (settings : list PolicySetting) (key : string) (dflt : bool) : bool :=
  default dflt (configured_boolean settings key).

Definition configured_string (settings : list PolicySetting) (key : string) : option string :=
  if negb (has_type key TString) then None else find_value settings key.

Inductive PreferenceOption : Type := Always | Never | UserDecides.

#[global] Instance PreferenceOption_eq_dec : EqDecision PreferenceOption.
Proof. solve_decision. Defined.

Definition should_enable (o : PreferenceOption) (current : bool) : bool :=
  match o with Always => true | Never => false | UserDecides => current end.

(** [PreferenceOption::parse]. *)
Definition preference_parse (rendered : string) : PreferenceOption :=
  if String.eqb rendered "always" then Always
  else if String.eqb rendered "never" then Never
  else UserDecides.

Definition configured_preference (settings : list PolicySetting) (key : string)
    : option PreferenceOption :=
  if negb (has_type key TPreferenceOption) then None
  else v ← find_value settings key; Some (preference_parse v).

Definition configured_duration (settings : list PolicySetting) (key : string) : option Z :=
  if negb (has_type key TDuration) then None
  else
    v ← find_value settings key;
    match parse_go_duration (bs v) with Ok d => Some d | Err _ => None end.

(** [reconnect_after_in]: a strictly positive [ReconnectAfter], in nanoseconds. *)
Definition reconnect_after_in (settings : list PolicySetting) : option Z :=
  ns ← configured_duration settings PKEY_RECONNECT_AFTER;
  if 0 <? ns then Some ns else None.

Record AlwaysOnKeys : Type := mkAlwaysOnKeys {
  aok_enabled : option bool;
  aok_override_with_reason : option bool
}.

#[global] Instance AlwaysOnKeys_eq_dec : EqDecision AlwaysOnKeys.
Proof. solve_decision. Defined.

Definition always_on_keys_in (settings : list PolicySetting) : AlwaysOnKeys :=
  mkAlwaysOnKeys (configured_boolean settings PKEY_ALWAYS_ON)
    (configured_boolean settings PKEY_ALWAYS_ON_OVERRIDE_WITH_REASON).

(** ** The preference policies *)

Record PreferencePolicy : Type := mkPreferencePolicy {
  pp_key : string;
  pp_pref : string;
  pp_get : Prefs -> bool;
  pp_set : Prefs -> bool -> Prefs * string
}.

Definition pol_incoming : PreferencePolicy :=
  {| pp_key := "AllowIncomingConnections"; pp_pref := "shields_up";
     pp_get := fun p => negb (shields_up p);
     pp_set := fun p v => let p := p <| shields_up := negb v |> in (p, show_bool (shields_up p)) |}.
Definition pol_lan_access : PreferencePolicy :=
  {| pp_key := "ExitNodeAllowLANAccess"; pp_pref := "exit_node_allow_lan_access";
     pp_get := exit_node_allow_lan_access;
     pp_set := fun p v => (p <| exit_node_allow_lan_access := v |>, show_bool v) |}.
Definition pol_accept_dns : PreferencePolicy :=
  {| pp_key := "UseTailscaleDNSSettings"; pp_pref := "accept_dns";
     pp_get := accept_dns;
     pp_set := fun p v => (p <| accept_dns := v |>, show_bool v) |}.
Definition pol_accept_routes : PreferencePolicy :=
  {| pp_key := "UseTailscaleSubnets"; pp_pref := "accept_routes";
     pp_get := accept_routes;
     pp_set := fun p v => (p <| accept_routes := v |>, show_bool v) |}.
Definition pol_check_updates : PreferencePolicy :=
  {| pp_key := "CheckUpdates"; pp_pref := "auto_update_check";
     pp_get := auto_update_check;
     pp_set := fun p v => (p <| auto_update_check := v |>, show_bool v) |}.
Definition pol_install_updates : PreferencePolicy :=
  {| pp_key := "InstallUpdates"; pp_pref := "auto_update_apply";
     pp_get := fun p => default false (auto_update_apply p);
     pp_set := fun p v => (p <| auto_update_apply := Some v |>, show_bool v) |}.
Definition pol_advertise_exit : PreferencePolicy :=
  {| pp_key := "AdvertiseExitNode"; pp_pref := "advertise_exit_node";
     pp_get := advertise_exit_node;
     pp_set := fun p v => (p <| advertise_exit_node := v |>, show_bool v) |}.

Definition PREFERENCE_POLICIES : list PreferencePolicy :=
  [pol_incoming; pol_lan_access; pol_accept_dns; pol_accept_routes; pol_check_updates; pol_install_updates; pol_advertise_exit].

(** ** What one application did *)

Record PolicyChange : Type := mkPolicyChange {
  pc_key : string;
  pc_pref : string;
  pc_value : string
}.

(** The reasons a setting is refused, before they are rendered. *)
Inductive RefusalReason : Type :=
| ExitNodeIdAuto (id : string)
| ExitNodeIdStable (id : string)
| ExitNodeIpNotAddress (raw : string)
| AlreadyUnattended.

Record PolicyRefusal : Type := mkPolicyRefusal {
  pr_key : string;
  pr_reason : RefusalReason
}.

Record PolicyApplication : Type := mkPolicyApplication {
  pa_changed : list PolicyChange;
  pa_refused : list PolicyRefusal
}.

Definition PolicyApplication_default : PolicyApplication := mkPolicyApplication [] [].

(** [PolicyApplication::is_quiet]. *)
Definition is_quiet (a : PolicyApplication) : bool :=
  match pa_changed a, pa_refused a with [], [] => true | _, _ => false end.

Definition push_change (c : PolicyChange) (a : PolicyApplication) : PolicyApplication :=
  mkPolicyApplication (pa_changed a ++ [c]) (pa_refused a).
Definition push_refusal (r : PolicyRefusal) (a : PolicyApplication) : PolicyApplication :=
  mkPolicyApplication (pa_changed a) (pa_refused a ++ [r]).

Record PolicyOverrides : Type := mkPolicyOverrides {
  ov_always_on : bool;
  ov_exit_node : bool
}.

(** [(!s.is_empty()).then(|| s.to_string())] and [.filter(|s| !s.is_empty())]. *)
Definition non_empty (s : string) : option string :=
  if String.eqb s "" then None else Some s.
Definition filter_non_empty (o : option string) : option string := s ← o; non_empty s.

Definition unwrap_or_default (o : option string) : string := default "" o.

(** ** The reconcile *)

(** The [LoginURL] and [Hostname] arms. *)
Definition apply_login_url (settings : list PolicySetting)
    (st : Prefs * PolicyApplication) : Prefs * PolicyApplication :=
  let '(p, out) := st in
  match configured_string settings "LoginURL" with
  | Some url =>
      let want := non_empty url in
      if bool_decide (control_url p = want) then (p, out)
      else
        let p := p <| control_url := want |> in
        (p, push_change (mkPolicyChange "LoginURL" "control_url"
                           (unwrap_or_default (control_url p))) out)
  | None => (p, out)
  end.

Definition apply_hostname (settings : list PolicySetting)
    (st : Prefs * PolicyApplication) : Prefs * PolicyApplication :=
  let '(p, out) := st in
  match configured_string settings "Hostname" with
  | Some h =>
      let want := non_empty h in
      if bool_decide (hostname p = want) then (p, out)
      else
        let p := p <| hostname := want |> in
        (p, push_change (mkPolicyChange "Hostname" "hostname"
                           (unwrap_or_default (hostname p))) out)
  | None => (p, out)
  end.

Definition apply_exit_node_policy (settings : list PolicySetting)
    (override_exit_node_policy : bool)
    (st : Prefs * PolicyApplication) : Prefs * PolicyApplication :=
  let '(p, out) := st in
  match filter_non_empty (configured_string settings PKEY_EXIT_NODE_ID) with
  | Some id =>
      let reason :=
        if String.prefix "auto:" id then ExitNodeIdAuto id else ExitNodeIdStable id in
      (p, push_refusal (mkPolicyRefusal PKEY_EXIT_NODE_ID reason) out)
  | None =>
      match filter_non_empty (configured_string settings PKEY_EXIT_NODE_IP) with
      | None => (p, out)
      | Some raw =>
          match parse_ip raw with
          | None => (p, push_refusal (mkPolicyRefusal PKEY_EXIT_NODE_IP
                                        (ExitNodeIpNotAddress raw)) out)
          | Some addr =>
              if (override_exit_node_policy : bool) then (p, out)
              else
                let want := show_ip addr in
                if bool_decide (exit_node p = Some want) then (p, out)
                else (p <| exit_node := Some want |>,
                      push_change (mkPolicyChange PKEY_EXIT_NODE_IP "exit_node" want) out)
          end
      end
  end.

Definition apply_always_on (settings : list PolicySetting) (override_always_on : bool)
    (st : Prefs * PolicyApplication) : Prefs * PolicyApplication :=
  let '(p, out) := st in
  if bool_decide (configured_boolean settings PKEY_ALWAYS_ON = Some true)
     && negb override_always_on && negb (want_running p)
  then (p <| want_running := true |>,
        push_change (mkPolicyChange PKEY_ALWAYS_ON "want_running" "true") out)
  else (p, out).

Definition apply_preference (settings : list PolicySetting) (policy : PreferencePolicy)
    (st : Prefs * PolicyApplication) : Prefs * PolicyApplication :=
  let '(p, out) := st in
  match configured_preference settings (pp_key policy) with
  | None => (p, out)
  | Some option =>
      let current := pp_get policy p in
      let wanted := should_enable option current in
      if Bool.eqb wanted current then (p, out)
      else
        let '(p, value) := pp_set policy p wanted in
        (p, push_change (mkPolicyChange (pp_key policy) (pp_pref policy) value) out)
  end.

Definition apply_unattended (settings : list PolicySetting)
    (st : Prefs * PolicyApplication) : Prefs * PolicyApplication :=
  let '(p, out) := st in
  match configured_preference settings "UnattendedMode" with
  | Some _ => (p, push_refusal (mkPolicyRefusal "UnattendedMode" AlreadyUnattended) out)
  | None => (p, out)
  end.

Definition apply_settings_to_prefs (settings : list PolicySetting) (p : Prefs)
    (overrides : PolicyOverrides) : Prefs * PolicyApplication :=
  let st := (p, PolicyApplication_default) in
  let st := apply_login_url settings st in
  let st := apply_hostname settings st in
  let st := apply_exit_node_policy settings (ov_exit_node overrides) st in
  let st := apply_always_on settings (ov_always_on overrides) st in
  let st := fold_left (fun st policy => apply_preference settings policy st)
              PREFERENCE_POLICIES st in
  apply_unattended settings st.

(** ** What the policy pins *)

Definition policy_exit_node_in (settings : list PolicySetting) : option string :=
  match filter_non_empty (configured_string settings PKEY_EXIT_NODE_ID) with
  | Some _ => None
  | None =>
      raw ← filter_non_empty (configured_string settings PKEY_EXIT_NODE_IP);
      show_ip <$> parse_ip raw
  end.

Record ExitNodePolicy : Type := mkExitNodePolicy {
  enp_pinned : option string;
  enp_allow_override : bool
}.

Definition exit_node_policy_in (settings : list PolicySetting) : ExitNodePolicy :=
  mkExitNodePolicy (policy_exit_node_in settings)
    (boolean_setting settings PKEY_ALLOW_EXIT_NODE_OVERRIDE false).

Record ExitNodeKeys : Type := mkExitNodeKeys {
  enk_id : option string;
  enk_ip : option string;
  enk_allow_override : option bool
}.

#[global] Instance ExitNodeKeys_eq_dec : EqDecision ExitNodeKeys.
Proof. solve_decision. Defined.

Definition exit_node_keys_in (settings : list PolicySetting) : ExitNodeKeys :=
  mkExitNodeKeys (configured_string settings PKEY_EXIT_NODE_ID)
    (configured_string settings PKEY_EXIT_NODE_IP)
    (configured_boolean settings PKEY_ALLOW_EXIT_NODE_OVERRIDE).

Definition pinned_prefs_in (settings : list PolicySetting) : list string :=
  (if is_some (configured_string settings "LoginURL") then ["control_url"] else [])
  ++ (if is_some (configured_string settings "Hostname") then ["hostname"] else [])
  ++ (if is_some (policy_exit_node_in settings) then ["exit_node"] else [])
  ++ flat_map (fun policy =>
       match configured_preference settings (pp_key policy) with
       | Some option =>
           if bool_decide (option = UserDecides) then [] else [pp_pref policy]
       | None => []
       end) PREFERENCE_POLICIES.

(** ** The specification of a reconcile: one record, no log *)

(** The value a preference policy leaves in a boolean pref. *)
Definition forced (settings : list PolicySetting) (key : string) (current : bool) : bool :=
  match configured_preference settings key with
  | Some o => should_enable o current
  | None => current
  end.

(** The value a string policy leaves in an optional pref. *)
Definition forced_string (settings : list PolicySetting) (key : string)
    (current : option string) : option string :=
  match configured_string settings key with
  | Some v => non_empty v
  | None => current
  end.

(** What the prefs are after a reconcile, stated field by field. *)
Definition policy_prefs (settings : list PolicySetting) (ov : PolicyOverrides) (p : Prefs)
    : Prefs :=
  p <| control_url := forced_string settings "LoginURL" (control_url p) |>
    <| hostname := forced_string settings "Hostname" (hostname p) |>
    <| exit_node :=
         match policy_exit_node_in settings with
         | Some want => if ov_exit_node ov then exit_node p else Some want
         | None => exit_node p
         end |>
    <| want_running :=
         want_running p
         || bool_decide (configured_boolean settings PKEY_ALWAYS_ON = Some true)
            && negb (ov_always_on ov) |>
    <| shields_up :=
         negb (forced settings "AllowIncomingConnections" (negb (shields_up p))) |>
    <| exit_node_allow_lan_access :=
         forced settings "ExitNodeAllowLANAccess" (exit_node_allow_lan_access p) |>
    <| accept_dns := forced settings "UseTailscaleDNSSettings" (accept_dns p) |>
    <| accept_routes := forced settings "UseTailscaleSubnets" (accept_routes p) |>
    <| auto_update_check := forced settings "CheckUpdates" (auto_update_check p) |>
    <| auto_update_apply :=
         let current := default false (auto_update_apply p) in
         let wanted := forced settings "InstallUpdates" current in
         if Bool.eqb wanted current then auto_update_apply p else Some wanted |>
    <| advertise_exit_node := forced settings "AdvertiseExitNode" (advertise_exit_node p) |>.

(** ** Each arm against its field *)

(** An arm moves the prefs by [f] and logs a change exactly when it did. *)
Definition arm_spec (arm : Prefs * PolicyApplication -> Prefs * PolicyApplication)
    (f : Prefs -> Prefs) : Prop :=
  forall p out,
    fst (arm (p, out)) = f p /\
    (f p = p -> pa_changed (snd (arm (p, out))) = pa_changed out) /\
    (f p <> p -> exists c, pa_changed (snd (arm (p, out))) = pa_changed out ++ [c]).

Ltac arm_quiet :=
  split; [done | split; [done | let H := fresh "H" in intros H; by destruct H]].
Ltac arm_moved :=
  split; [done | split; [ | by intros _; eexists]];
  let H := fresh "H" in intros H; exfalso.

Lemma arm_login_url s : arm_spec (apply_login_url s)
  (fun p => p <| control_url := forced_string s "LoginURL" (control_url p) |>).
Proof.
  intros p out. unfold apply_login_url, forced_string.
  destruct (configured_string s "LoginURL") as [url|]; [case_bool_decide as Hd|].
  - rewrite <- Hd. destruct p. arm_quiet.
  - arm_moved. apply Hd. by rewrite <- H.
  - destruct p. arm_quiet.
Qed.

Lemma arm_hostname s : arm_spec (apply_hostname s)
  (fun p => p <| hostname := forced_string s "Hostname" (hostname p) |>).
Proof.
  intros p out. unfold apply_hostname, forced_string.
  destruct (configured_string s "Hostname") as [url|]; [case_bool_decide as Hd|].
  - rewrite <- Hd. destruct p. arm_quiet.
  - arm_moved. apply Hd. by rewrite <- H.
  - destruct p. arm_quiet.
Qed.

Lemma arm_exit_node s ov : arm_spec (apply_exit_node_policy s ov)
  (fun p => p <| exit_node :=
     match policy_exit_node_in s with
     | Some want => if ov then exit_node p else Some want
     | None => exit_node p
     end |>).
Proof.
  intros p out. unfold apply_exit_node_policy, policy_exit_node_in.
  destruct (filter_non_empty (configured_string s PKEY_EXIT_NODE_ID)); [destruct p; arm_quiet|].
  destruct (filter_non_empty (configured_string s PKEY_EXIT_NODE_IP)) as [raw|];
    [|destruct p; arm_quiet]. simpl.
  destruct (parse_ip raw) as [addr|]; [|destruct p; arm_quiet]. simpl.
  destruct ov; [destruct p; arm_quiet|]. case_bool_decide as Hd.
  - rewrite <- Hd. destruct p. arm_quiet.
  - arm_moved. apply Hd. by rewrite <- H.
Qed.

Lemma arm_always_on s ov : arm_spec (apply_always_on s ov)
  (fun p => p <| want_running :=
     want_running p || bool_decide (configured_boolean s PKEY_ALWAYS_ON = Some true) && negb ov |>).
Proof.
  intros p out. unfold apply_always_on.
  destruct (bool_decide _ && negb ov), (want_running p) eqn:E; simpl.
  1, 3, 4: rewrite <- E; destruct p; arm_quiet.
  arm_moved. rewrite <- H in E. discriminate E.
Qed.

(** The pref move of one preference policy. *)
Definition preference_move (s : list PolicySetting) (pol : PreferencePolicy) (p : Prefs) : Prefs :=
  let wanted := forced s (pp_key pol) (pp_get pol p) in
  if Bool.eqb wanted (pp_get pol p) then p else fst (pp_set pol p wanted).

(** A preference policy reads back what it wrote. *)
Definition preference_lawful (pol : PreferencePolicy) : Prop :=
  forall p v, pp_get pol (fst (pp_set pol p v)) = v.

Lemma preference_policies_lawful : Forall preference_lawful PREFERENCE_POLICIES.
Proof.
  unfold PREFERENCE_POLICIES. repeat apply Forall_cons_2; try apply Forall_nil_2;
    intros p v; [apply negb_involutive|reflexivity..].
Qed.

Lemma arm_preference s pol : preference_lawful pol ->
  arm_spec (apply_preference s pol) (preference_move s pol).
Proof.
  intros Hlaw p out. unfold apply_preference, preference_move, forced.
  destruct (configured_preference s (pp_key pol)) as [o|].
  - destruct (Bool.eqb _ _) eqn:Eb; [arm_quiet|].
    destruct (pp_set pol p _) as [p' v] eqn:Es. simpl.
    arm_moved. subst p'. pose proof (Hlaw p (should_enable o (pp_get pol p))) as Hl.
    rewrite Es in Hl. simpl in Hl. rewrite <- Hl in Eb. by rewrite Bool.eqb_reflx in Eb.
  - rewrite Bool.eqb_reflx. arm_quiet.
Qed.

Lemma arm_unattended s : arm_spec (apply_unattended s) (fun p => p).
Proof. intros p out. unfold apply_unattended. case_match; arm_quiet. Qed.

(** Arms compose; a composite move that changed nothing is compared with the
    start, so each part must be shown to keep the other parts' moves. *)
Lemma arm_fst arm f st : arm_spec arm f -> fst (arm st) = f (fst st).
Proof. destruct st as [p out]. intros H. apply H. Qed.

Lemma arm_grows arm f st : arm_spec arm f ->
  exists l, pa_changed (snd (arm st)) = pa_changed (snd st) ++ l /\
            (l = [] <-> f (fst st) = fst st).
Proof.
  destruct st as [p out]. intros H. destruct (H p out) as (_ & Hq & Hm). simpl.
  destruct (decide (f p = p)) as [E|E].
  - exists []. rewrite Hq by done. by rewrite app_nil_r.
  - destruct (Hm E) as [c Hc]. exists [c]. rewrite Hc. by split; [|split].
Qed.

(** The moves in program order. *)
Definition reconcile_arms (s : list PolicySetting) (ov : PolicyOverrides)
    : list ((Prefs * PolicyApplication -> Prefs * PolicyApplication) * (Prefs -> Prefs)) :=
  [ (apply_login_url s, fun p => p <| control_url := forced_string s "LoginURL" (control_url p) |>);
    (apply_hostname s, fun p => p <| hostname := forced_string s "Hostname" (hostname p) |>);
    (apply_exit_node_policy s (ov_exit_node ov), fun p => p <| exit_node :=
       match policy_exit_node_in s with
       | Some want => if ov_exit_node ov then exit_node p else Some want
       | None => exit_node p
       end |>);
    (apply_always_on s (ov_always_on ov), fun p => p <| want_running :=
       want_running p || bool_decide (configured_boolean s PKEY_ALWAYS_ON = Some true)
                         && negb (ov_always_on ov) |>) ]
  ++ map (fun pol => (apply_preference s pol, preference_move s pol)) PREFERENCE_POLICIES
  ++ [ (apply_unattended s, fun p => p) ].

Definition run_arms {A B} (arms : list ((A -> A) * B)) (st : A) : A :=
  fold_left (fun st arm => fst arm st) arms st.
Definition run_moves {A B} (arms : list (A * (B -> B))) (p : B) : B :=
  fold_left (fun p arm => snd arm p) arms p.

Lemma apply_settings_arms s p ov :
  apply_settings_to_prefs s p ov = run_arms (reconcile_arms s ov) (p, PolicyApplication_default).
Proof. reflexivity. Qed.

Lemma reconcile_arms_spec s ov :
  Forall (fun arm => arm_spec (fst arm) (snd arm)) (reconcile_arms s ov).
Proof.
  unfold reconcile_arms. apply Forall_app; split; [|apply Forall_app; split].
  - repeat apply Forall_cons_2; try apply Forall_nil_2;
      [apply arm_login_url | apply arm_hostname | apply arm_exit_node | apply arm_always_on].
  - apply Forall_map. eapply Forall_impl; [|exact preference_policies_lawful].
    intros pol Hpol. by apply arm_preference.
  - apply Forall_singleton, arm_unattended.
Qed.

Lemma run_arms_cons {A B} (arm : A -> A) (f : B) arms st :
  run_arms ((arm, f) :: arms) st = run_arms arms (arm st).
Proof. reflexivity. Qed.

Lemma run_moves_cons {A B} (arm : A) (f : B -> B) arms p :
  run_moves ((arm, f) :: arms) p = run_moves arms (f p).
Proof. reflexivity. Qed.

Lemma run_arms_fst arms st : Forall (fun arm => arm_spec (fst arm) (snd arm)) arms ->
  fst (run_arms arms st) = run_moves arms (fst st).
Proof.
  intros H. revert st. induction H as [|[arm f] arms Ha H IH]; intros st; [done|].
  rewrite run_arms_cons, run_moves_cons.
  rewrite IH. cbn [fst snd] in *. rewrite (arm_fst arm f) by done. done.
Qed.

(** If every move fixes [p], nothing is logged. *)
Lemma run_arms_quiet arms p out : Forall (fun arm => arm_spec (fst arm) (snd arm)) arms ->
  Forall (fun arm => snd arm p = p) arms ->
  pa_changed (snd (run_arms arms (p, out))) = pa_changed out.
Proof.
  intros H. revert out. induction H as [|[arm f] arms Ha H IH]; intros out Hfix; [done|].
  inversion Hfix as [|? ? Hf Hrest]; subst. cbn [fst snd] in *.
  rewrite run_arms_cons.
  destruct (Ha p out) as (Hfst & Hq & _).
  destruct (arm (p, out)) as [p' out'] eqn:E. cbn [fst snd] in *.
  rewrite Hf in Hfst. subst p'. rewrite IH by done. by apply Hq.
Qed.

Lemma run_arms_silent arms st : Forall (fun arm => arm_spec (fst arm) (snd arm)) arms ->
  pa_changed (snd (run_arms arms st)) = pa_changed (snd st) -> run_moves arms (fst st) = fst st.
Proof.
  intros H. revert st. induction H as [|[arm f] arms Ha H IH]; intros st; [done|].
  rewrite run_arms_cons, run_moves_cons. cbn [fst snd] in *.
  destruct (arm_grows arm f st Ha) as (l & Hl & Hiff).
  assert (Hgrow : forall arms' st', Forall (fun arm => arm_spec (fst arm) (snd arm)) arms' ->
    exists l', pa_changed (snd (run_arms arms' st')) = pa_changed (snd st') ++ l').
  { clear. induction arms' as [|[arm' f'] arms' IH']; intros st' Hs'.
    - exists []. by rewrite app_nil_r.
    - inversion Hs'; subst. destruct (arm_grows arm' f' st') as (l1 & Hl1 & _); [done|].
      destruct (IH' (arm' st')) as (l2 & Hl2); [done|]. exists (l1 ++ l2).
      rewrite run_arms_cons. by rewrite Hl2, Hl1, app_assoc. }
  destruct (Hgrow arms (arm st) H) as (l2 & Hl2). intros Hsame.
  rewrite Hsame, Hl, <- app_assoc in Hl2.
  assert (Hnil : l ++ l2 = []).
  { apply (f_equal length) in Hl2. rewrite length_app in Hl2. apply nil_length_inv. lia. }
  apply app_eq_nil in Hnil as [-> ->]. rewrite app_nil_r in Hl.
  assert (HI : run_moves arms (fst (arm st)) = fst (arm st)) by (apply IH; congruence).
  rewrite (arm_fst arm f) in HI by done. rewrite (proj1 Hiff eq_refl) in *. exact HI.
Qed.

(** ** The refinement and its consequences *)

(** A move whose setter writes its argument plainly is that write. *)
Lemma preference_move_set s pol (f : Prefs -> bool -> Prefs) p :
  (forall v, fst (pp_set pol p v) = f p v) -> f p (pp_get pol p) = p ->
  preference_move s pol p = f p (forced s (pp_key pol) (pp_get pol p)).
Proof.
  intros Hset Hid. unfold preference_move. rewrite Hset.
  destruct (Bool.eqb _ _) eqn:E; [|done]. apply Bool.eqb_prop in E. by rewrite E, Hid.
Qed.

Lemma move_install_updates s p :
  preference_move s pol_install_updates p
  = p <| auto_update_apply :=
         let current := default false (auto_update_apply p) in
         let wanted := forced s "InstallUpdates" current in
         if Bool.eqb wanted current then auto_update_apply p else Some wanted |>.
Proof.
  unfold preference_move, pol_install_updates.
  cbv beta iota zeta delta [pp_key pp_get pp_set fst].
  destruct (Bool.eqb _ _); by destruct p.
Qed.

(** Each of the other moves is its field's write. *)
Ltac plain_move f :=
  intros; etransitivity;
  [apply (preference_move_set _ _ f); [done | match goal with p : Prefs |- _ => by destruct p end]
  | done].

Lemma move_incoming s p : preference_move s pol_incoming p
  = p <| shields_up := negb (forced s "AllowIncomingConnections" (negb (shields_up p))) |>.
Proof.
  etransitivity; [apply (preference_move_set _ _ (fun p v => p <| shields_up := negb v |>));
    [done | by destruct p as [???????[]]] | done].
Qed.
Lemma move_lan_access s p : preference_move s pol_lan_access p
  = p <| exit_node_allow_lan_access :=
         forced s "ExitNodeAllowLANAccess" (exit_node_allow_lan_access p) |>.
Proof. plain_move (fun p v => p <| exit_node_allow_lan_access := v |>). Qed.
Lemma move_accept_dns s p : preference_move s pol_accept_dns p
  = p <| accept_dns := forced s "UseTailscaleDNSSettings" (accept_dns p) |>.
Proof. plain_move (fun p v => p <| accept_dns := v |>). Qed.
Lemma move_accept_routes s p : preference_move s pol_accept_routes p
  = p <| accept_routes := forced s "UseTailscaleSubnets" (accept_routes p) |>.
Proof. plain_move (fun p v => p <| accept_routes := v |>). Qed.
Lemma move_check_updates s p : preference_move s pol_check_updates p
  = p <| auto_update_check := forced s "CheckUpdates" (auto_update_check p) |>.
Proof. plain_move (fun p v => p <| auto_update_check := v |>). Qed.
Lemma move_advertise_exit s p : preference_move s pol_advertise_exit p
  = p <| advertise_exit_node := forced s "AdvertiseExitNode" (advertise_exit_node p) |>.
Proof. plain_move (fun p v => p <| advertise_exit_node := v |>). Qed.

Create Rewrite HintDb policy_moves.
#[export] Hint Rewrite move_incoming move_lan_access move_accept_dns move_accept_routes
  move_check_updates move_install_updates move_advertise_exit : policy_moves.

Lemma run_moves_policy_prefs s ov p :
  run_moves (reconcile_arms s ov) p = policy_prefs s ov p.
Proof.
  unfold reconcile_arms, PREFERENCE_POLICIES. cbn [map app]. rewrite !run_moves_cons.
  autorewrite with policy_moves. unfold run_moves. cbn [fold_left].
  destruct p. reflexivity.
Qed.

Lemma apply_settings_fst s p ov :
  fst (apply_settings_to_prefs s p ov) = policy_prefs s ov p.
Proof.
  rewrite apply_settings_arms, run_arms_fst by apply reconcile_arms_spec.
  apply run_moves_policy_prefs.
Qed.

(** The fields of [policy_prefs], one equation each. *)
Section Fields.
  Context (s : list PolicySetting) (ov : PolicyOverrides) (p : Prefs).
Lemma policy_control_url : control_url (policy_prefs s ov p) =
  forced_string s "LoginURL" (control_url p).
Proof. reflexivity. Qed.
Lemma policy_hostname : hostname (policy_prefs s ov p) =
  forced_string s "Hostname" (hostname p).
Proof. reflexivity. Qed.
Lemma policy_exit_node : exit_node (policy_prefs s ov p) =
  match policy_exit_node_in s with
    | Some want => if ov_exit_node ov then exit_node p else Some want
    | None => exit_node p
    end.
Proof. reflexivity. Qed.
Lemma policy_want_running : want_running (policy_prefs s ov p) =
  want_running p || bool_decide (configured_boolean s PKEY_ALWAYS_ON = Some true)
                      && negb (ov_always_on ov).
Proof. reflexivity. Qed.
Lemma policy_shields_up : shields_up (policy_prefs s ov p) =
  negb (forced s "AllowIncomingConnections" (negb (shields_up p))).
Proof. reflexivity. Qed.
Lemma policy_exit_node_allow_lan_access : exit_node_allow_lan_access (policy_prefs s ov p) =
  forced s "ExitNodeAllowLANAccess" (exit_node_allow_lan_access p).
Proof. reflexivity. Qed.
Lemma policy_accept_dns : accept_dns (policy_prefs s ov p) =
  forced s "UseTailscaleDNSSettings" (accept_dns p).
Proof. reflexivity. Qed.
Lemma policy_accept_routes : accept_routes (policy_prefs s ov p) =
  forced s "UseTailscaleSubnets" (accept_routes p).
Proof. reflexivity. Qed.
Lemma policy_auto_update_check : auto_update_check (policy_prefs s ov p) =
  forced s "CheckUpdates" (auto_update_check p).
Proof. reflexivity. Qed.
Lemma policy_auto_update_apply : auto_update_apply (policy_prefs s ov p) =
  if Bool.eqb (forced s "InstallUpdates" (default false (auto_update_apply p)))
                (default false (auto_update_apply p))
    then auto_update_apply p
    else Some (forced s "InstallUpdates" (default false (auto_update_apply p))).
Proof. reflexivity. Qed.
Lemma policy_advertise_exit_node : advertise_exit_node (policy_prefs s ov p) =
  forced s "AdvertiseExitNode" (advertise_exit_node p).
Proof. reflexivity. Qed.
End Fields.

Create Rewrite HintDb policy_fields.
#[export] Hint Rewrite policy_control_url policy_hostname policy_exit_node policy_want_running policy_shields_up policy_exit_node_allow_lan_access policy_accept_dns policy_accept_routes policy_auto_update_check policy_auto_update_apply policy_advertise_exit_node : policy_fields.

(** If a reconcile leaves the prefs alone, so does each of its moves. *)
Lemma policy_prefs_fix_arms s ov p : policy_prefs s ov p = p ->
  Forall (fun arm => snd arm p = p) (reconcile_arms s ov).
Proof.
  intros H.
  pose proof (f_equal control_url H) as H1.   pose proof (f_equal hostname H) as H2. 
  pose proof (f_equal exit_node H) as H3.   pose proof (f_equal want_running H) as H4. 
  pose proof (f_equal shields_up H) as H5.   pose proof (f_equal exit_node_allow_lan_access H) as H6. 
  pose proof (f_equal accept_dns H) as H7.   pose proof (f_equal accept_routes H) as H8. 
  pose proof (f_equal auto_update_check H) as H9.   pose proof (f_equal auto_update_apply H) as H10. 
  pose proof (f_equal advertise_exit_node H) as H11. 
  clear H. autorewrite with policy_fields in *.
  unfold reconcile_arms, PREFERENCE_POLICIES. cbn [map app].
  repeat apply Forall_cons_2; try apply Forall_nil_2; cbn [snd];
    autorewrite with policy_moves; cbv zeta;
    rewrite ?H1, ?H2, ?H3, ?H4, ?H5, ?H6, ?H7, ?H8, ?H9, ?H10, ?H11; by destruct p.
Qed.

Lemma forced_idem s k b : forced s k (forced s k b) = forced s k b.
Proof. unfold forced. by destruct (configured_preference s k) as [[]|]. Qed.

Lemma forced_string_idem s k o : forced_string s k (forced_string s k o) = forced_string s k o.
Proof. unfold forced_string. by destruct (configured_string s k). Qed.

Lemma install_updates_view s ov p :
  default false (auto_update_apply (policy_prefs s ov p))
  = forced s "InstallUpdates" (default false (auto_update_apply p)).
Proof.
  rewrite policy_auto_update_apply. destruct (Bool.eqb _ _) eqn:E; [|done].
  by apply Bool.eqb_prop in E.
Qed.

Lemma policy_prefs_idem s ov p : policy_prefs s ov (policy_prefs s ov p) = policy_prefs s ov p.
Proof.
  set (q := policy_prefs s ov p).
  assert (H1 : forced_string s "LoginURL" (control_url q) = control_url q) by apply forced_string_idem.
  assert (H2 : forced_string s "Hostname" (hostname q) = hostname q) by apply forced_string_idem.
  assert (H3 : match policy_exit_node_in s with
               | Some want => if ov_exit_node ov then exit_node q else Some want
               | None => exit_node q end = exit_node q).
  { unfold q. autorewrite with policy_fields. repeat case_match; done. }
  assert (H4 : want_running q || bool_decide (configured_boolean s PKEY_ALWAYS_ON = Some true)
                 && negb (ov_always_on ov) = want_running q).
  { unfold q. autorewrite with policy_fields. destruct (want_running p), (_ && _); done. }
  assert (H5 : negb (forced s "AllowIncomingConnections" (negb (shields_up q))) = shields_up q).
  { unfold q. autorewrite with policy_fields. by rewrite negb_involutive, forced_idem. }
  assert (H6 : forced s "ExitNodeAllowLANAccess" (exit_node_allow_lan_access q)
               = exit_node_allow_lan_access q) by apply forced_idem.
  assert (H7 : forced s "UseTailscaleDNSSettings" (accept_dns q) = accept_dns q) by apply forced_idem.
  assert (H8 : forced s "UseTailscaleSubnets" (accept_routes q) = accept_routes q) by apply forced_idem.
  assert (H9 : forced s "CheckUpdates" (auto_update_check q) = auto_update_check q) by apply forced_idem.
  assert (H10 : forced s "InstallUpdates" (default false (auto_update_apply q))
                = default false (auto_update_apply q)).
  { unfold q. rewrite install_updates_view. apply forced_idem. }
  assert (H11 : forced s "AdvertiseExitNode" (advertise_exit_node q) = advertise_exit_node q)
    by apply forced_idem.
  clearbody q. unfold policy_prefs. cbv zeta. rewrite H1, H2, H3, H4, H5, H6, H7, H8, H9, H10, H11.
  rewrite Bool.eqb_reflx. by destruct q.
Qed.

(** ** Pinned prefs *)

(** The value a pinned pref's name denotes. [auto_update_apply] is read as
    the policy reads it, unstated counting as off. *)
Inductive PrefValue : Type := PText (o : option string) | PFlag (b : bool).

Definition pref_view (name : string) (p : Prefs) : option PrefValue :=
  if String.eqb name "control_url" then Some (PText (control_url p))
  else if String.eqb name "hostname" then Some (PText (hostname p))
  else if String.eqb name "exit_node" then Some (PText (exit_node p))
  else if String.eqb name "shields_up" then Some (PFlag (shields_up p))
  else if String.eqb name "exit_node_allow_lan_access" then Some (PFlag (exit_node_allow_lan_access p))
  else if String.eqb name "accept_dns" then Some (PFlag (accept_dns p))
  else if String.eqb name "accept_routes" then Some (PFlag (accept_routes p))
  else if String.eqb name "auto_update_check" then Some (PFlag (auto_update_check p))
  else if String.eqb name "auto_update_apply" then Some (PFlag (default false (auto_update_apply p)))
  else if String.eqb name "advertise_exit_node" then Some (PFlag (advertise_exit_node p))
  else None.

(** A preference that is stated and not left to the user. *)
Definition pins (s : list PolicySetting) (key : string) : Prop :=
  exists o, configured_preference s key = Some o /\ o <> UserDecides.

Lemma pins_forced s key a b : pins s key -> forced s key a = forced s key b.
Proof. intros (o & H & Hne). unfold forced. rewrite H. by destruct o. Qed.

Lemma is_some_forced_string s key a b :
  is_some (configured_string s key) = true -> forced_string s key a = forced_string s key b.
Proof. unfold forced_string. by destruct (configured_string s key). Qed.

Lemma pinned_cases s name : name ∈ pinned_prefs_in s ->
  name = "control_url" /\ is_some (configured_string s "LoginURL") = true \/
  name = "hostname" /\ is_some (configured_string s "Hostname") = true \/
  name = "exit_node" /\ is_some (policy_exit_node_in s) = true \/
  exists pol, pol ∈ PREFERENCE_POLICIES /\ name = pp_pref pol /\ pins s (pp_key pol).
Proof.
  unfold pinned_prefs_in. rewrite !elem_of_app. intros [H|[H|[H|H]]].
  - case_match; [|by apply not_elem_of_nil in H]. apply list_elem_of_singleton in H. auto.
  - case_match; [|by apply not_elem_of_nil in H]. apply list_elem_of_singleton in H. auto.
  - case_match; [|by apply not_elem_of_nil in H]. apply list_elem_of_singleton in H. auto.
  - do 3 right. apply list_elem_of_In, in_flat_map in H as (pol & Hpol & H). exists pol.
    apply list_elem_of_In in Hpol. split; [done|].
    destruct (configured_preference s (pp_key pol)) as [o|] eqn:E; [|done].
    case_bool_decide; [done|]. destruct H as [<-|[]]. split; [done|]. by exists o.
Qed.

#[local] Opaque policy_prefs.

(** A pinned pref's value after a reconcile is the policy's alone. *)
Lemma policy_prefs_pinned s ov p q name :
  name ∈ pinned_prefs_in s -> (name = "exit_node" -> ov_exit_node ov = false) ->
  pref_view name (policy_prefs s ov p) = pref_view name (policy_prefs s ov q).
Proof.
  intros Hin Hov. apply pinned_cases in Hin
    as [[-> H]|[[-> H]|[[-> H]|(pol & Hpol & -> & H)]]]; cbn [pref_view String.eqb Ascii.eqb].
  - unfold pref_view. simpl. autorewrite with policy_fields. do 2 f_equal.
    by apply is_some_forced_string.
  - unfold pref_view. simpl. autorewrite with policy_fields. do 2 f_equal.
    by apply is_some_forced_string.
  - unfold pref_view. simpl. autorewrite with policy_fields. rewrite Hov by done.
    by destruct (policy_exit_node_in s).
  - unfold PREFERENCE_POLICIES in Hpol. rewrite !elem_of_cons, elem_of_nil in Hpol.
    destruct_or! Hpol; subst pol; try done; cbn in H; unfold pref_view; simpl;
      rewrite ?install_updates_view; autorewrite with policy_fields;
      do 2 f_equal; try (by apply pins_forced).
    by apply (f_equal negb), pins_forced.
Qed.

#[local] Transparent policy_prefs.

(** ** Lookups in the merged store *)

Lemma find_btree_insert k x m :
  List.find (fun s => String.eqb (ps_key s) k) (btree_insert x m)
  = if String.eqb (ps_key x) k then Some x
    else List.find (fun s => String.eqb (ps_key s) k) m.
Proof.
  induction m as [|y m IH]; simpl; [done|].
  destruct (String.compare (ps_key x) (ps_key y)) eqn:E; simpl.
  - apply String.compare_eq_iff in E. rewrite E. by destruct (String.eqb (ps_key y) k).
  - done.
  - rewrite IH. destruct (String.eqb_spec (ps_key x) k) as [<-|]; [|done].
    destruct (String.eqb_spec (ps_key y) (ps_key x)) as [Hxy|]; [|done].
    rewrite Hxy in E. by rewrite string_compare_refl in E.
Qed.

Lemma find_merge_source k source m :
  List.find (fun s => String.eqb (ps_key s) k)
    (fold_left (fun m s => btree_insert s m) source m)
  = match List.find (fun s => String.eqb (ps_key s) k) (rev source) with
    | Some s => Some s
    | None => List.find (fun s => String.eqb (ps_key s) k) m
    end.
Proof.
  revert m. induction source as [|x source IH]; intros m; simpl; [done|].
  rewrite IH, find_btree_insert.
  assert (Happ : forall f (l1 l2 : list PolicySetting), List.find f (l1 ++ l2)
    = match List.find f l1 with Some s => Some s | None => List.find f l2 end).
  { intros f l1 l2. induction l1; simpl; [done|]. by destruct (f a). }
  rewrite Happ. simpl. by repeat case_match.
Qed.

(** ** The properties *)

(** C18: the reconcile implements its specification: after
    [apply_settings_to_prefs] every field holds exactly what the field-by-field
    specification [policy_prefs] assigns it, and the log of changes is empty
    exactly when the policy left the prefs as they were. *)
Theorem apply_settings_refines (s : list PolicySetting) (p : Prefs) (ov : PolicyOverrides) :
  fst (apply_settings_to_prefs s p ov) = policy_prefs s ov p /\
  (pa_changed (snd (apply_settings_to_prefs s p ov)) = [] <-> policy_prefs s ov p = p).
Proof.
  split; [apply apply_settings_fst|]. rewrite apply_settings_arms.
  pose proof (reconcile_arms_spec s ov) as Hspec. split; intros H.
  - pose proof (run_arms_silent _ (p, PolicyApplication_default) Hspec) as Hs.
    cbn [fst snd] in Hs. rewrite run_moves_policy_prefs in Hs. by apply Hs.
  - rewrite run_arms_quiet; [done..|]. by apply policy_prefs_fix_arms.
Qed.

(** Reconciling is idempotent: a second [apply_settings_to_prefs] with the
    same policy and the same exemptions changes no pref and logs no change, so
    a reconcile point never undoes what an earlier one settled. *)
Theorem reconcile_idempotent (s : list PolicySetting) (p : Prefs) (ov : PolicyOverrides) :
  let p1 := fst (apply_settings_to_prefs s p ov) in
  fst (apply_settings_to_prefs s p1 ov) = p1 /\
  pa_changed (snd (apply_settings_to_prefs s p1 ov)) = [].
Proof.
  intros p1. unfold p1. rewrite !apply_settings_fst. split; [apply policy_prefs_idem|].
  rewrite apply_settings_arms, run_arms_quiet; [done | apply reconcile_arms_spec |].
  apply policy_prefs_fix_arms, policy_prefs_idem.
Qed.

(** Policy has the last word on what it pins: for every pref named by
    [pinned_prefs], the value after a reconcile does not depend on the value
    the user set (the exit node provided no permitted override stands). *)
Theorem pinned_pref_has_policy_value (s : list PolicySetting) (ov : PolicyOverrides)
    (p q : Prefs) (name : string) :
  name ∈ pinned_prefs_in s -> (name = "exit_node" -> ov_exit_node ov = false) ->
  pref_view name (fst (apply_settings_to_prefs s p ov))
  = pref_view name (fst (apply_settings_to_prefs s q ov)).
Proof. rewrite !apply_settings_fst. apply policy_prefs_pinned. Qed.

Definition pinned_example : list PolicySetting :=
  [ mkPolicySetting "ExitNodeIP" "" (Some "100.64.0.9") None;
    mkPolicySetting "AllowIncomingConnections" "" (Some "never") None ].

Lemma pinned_pref_has_policy_value_witness :
  pref_view "exit_node"
    (fst (apply_settings_to_prefs pinned_example Prefs_default (mkPolicyOverrides true false)))
  = pref_view "exit_node"
    (fst (apply_settings_to_prefs pinned_example
            (Prefs_default <| exit_node := Some "100.64.0.1" |>) (mkPolicyOverrides true false))).
Proof.
  apply pinned_pref_has_policy_value; [|done].
  apply (bool_decide_unpack _). vm_compute. exact I.
Defined.

(** The last registered source wins: a lookup in the merged store finds
    the last setting for the key in the last source that has one, else what
    the earlier sources gave. *)
Theorem merge_last_wins (sources : list (list PolicySetting)) (last : list PolicySetting)
    (key : string) :
  find_value (merge (sources ++ [last])) key
  = match List.find (fun s => String.eqb (ps_key s) key) (rev last) with
    | Some s => ps_value s
    | None => find_value (merge sources) key
    end.
Proof.
  unfold find_value, merge. rewrite fold_left_app. cbn [fold_left].
  rewrite find_merge_source. by case_match.
Qed.
