(* ===== verification/RevertGuard.v ===== *)
(** * The accidental-revert guard of [tnet up]: [src/ipn/revert_guard.rs]

    [check_accidental_reverts] names the settings a REPLACE-style [up] would
    lose, [drop_policy_pinned] takes out the ones the policy settles anyway.
    The theorems tie both to the merges of Prefs.v and the reconcile of
    SysPolicy.v: the guard passes exactly when patching and replacing agree. *)
From Stdlib Require Import ZArith Lia Ascii String List.
From stdpp Require Import base list strings option.
From coqutil Require Datatypes.RecordSettersUsingExistingGetters.
Import coqutil.Datatypes.RecordSettersUsingExistingGetters.RecordSetNotations1.
From S2P Require Import Prelude NetAddr Prefs SysPolicy.

(** [localapi::RevertedPref]. *)
Record RevertedPref : Type := mkRevertedPref {
  rp_key : string;
  rp_value : string
}.

#[global] Instance RevertedPref_eq_dec : EqDecision RevertedPref.
Proof. solve_decision. Defined.

(** [v.join(",")]. *)
Definition join_commas (l : list string) : string := String.concat "," l.
Definition show_u16 (v : Z) : string := String.string_of_list_ascii (show_dec v).

(** The two shapes of an arm: a pref whose current value may be unset (the
    [let Some(v) = ..] arms) and a pref that always has one. *)
Definition revert_opt {A} `{EqDecision A} {B} (mentioned : option B) (key : string)
    (current dflt : option A) (render : A -> string) : list RevertedPref :=
  if is_none mentioned && bool_decide (current <> dflt) then
    match current with
    | Some v => [mkRevertedPref key (render v)]
    | None => []
    end
  else [].

Definition revert_val {A} `{EqDecision A} {B} (mentioned : option B) (key : string)
    (current dflt : A) (render : A -> string) : list RevertedPref :=
  if is_none mentioned && bool_decide (current <> dflt)
  then [mkRevertedPref key (render current)] else [].

Definition text (s : string) : string := s.

Definition check_accidental_reverts (p : Prefs) (o : UpOptions) (has_logged_in : bool)
    : list RevertedPref :=
  if negb has_logged_in then []
  else if negb (mentions_any_pref o) then []
  else
    let d := Prefs_default in
    revert_opt (up_hostname o) "hostname" (hostname p) (hostname d) text
    ++ revert_opt (up_control_url o) "control_url" (control_url p) (control_url d) text
    ++ revert_val (up_tun o) "tun" (tun_enabled p) (tun_enabled d) show_bool
    ++ revert_opt (up_tun_name o) "tun_name" (tun_name p) (tun_name d) text
    ++ revert_opt (up_tun_mtu o) "tun_mtu" (tun_mtu p) (tun_mtu d) show_u16
    ++ revert_opt (up_exit_node o) "exit_node" (exit_node p) (exit_node d) text
    ++ revert_val (up_advertise_exit_node o) "advertise_exit_node"
         (advertise_exit_node p) (advertise_exit_node d) show_bool
    ++ revert_val (up_advertise_routes o) "advertise_routes"
         (advertise_routes p) (advertise_routes d) join_commas
    ++ revert_val (up_advertise_tags o) "advertise_tags"
         (advertise_tags p) (advertise_tags d) join_commas
    ++ revert_val (up_accept_routes o) "accept_routes"
         (accept_routes p) (accept_routes d) show_bool
    ++ revert_val (up_accept_dns o) "accept_dns" (accept_dns p) (accept_dns d) show_bool
    ++ revert_val (up_shields_up o) "shields_up" (shields_up p) (shields_up d) show_bool
    ++ revert_val (up_ssh o) "ssh" (ssh_enabled p) (ssh_enabled d) show_bool
    ++ revert_opt (up_operator o) "operator" (operator_user p) (operator_user d) text
    ++ revert_val (up_exit_node_allow_lan_access o) "exit_node_allow_lan_access"
         (exit_node_allow_lan_access p) (exit_node_allow_lan_access d) show_bool
    ++ revert_val (up_advertise_connector o) "advertise_connector"
         (advertise_app_connector p) (advertise_app_connector d) show_bool
    ++ revert_val (up_report_posture o) "report_posture"
         (posture_checking p) (posture_checking d) show_bool.

Definition drop_policy_pinned (reverts : list RevertedPref) (pinned : list string)
    : list RevertedPref :=
  match pinned with
  | [] => reverts
  | _ => List.filter (fun r => negb (bool_decide (rp_key r ∈ pinned))) reverts
  end.

(** ** The arms *)

Lemma drop_policy_pinned_app l1 l2 pinned :
  drop_policy_pinned (l1 ++ l2) pinned
  = drop_policy_pinned l1 pinned ++ drop_policy_pinned l2 pinned.
Proof. destruct pinned; [done|]. apply List.filter_app. Qed.

Lemma drop_policy_pinned_nil pinned : drop_policy_pinned [] pinned = [].
Proof. by destruct pinned. Qed.

Lemma drop_policy_pinned_none l : drop_policy_pinned l [] = l.
Proof. done. Qed.

Lemma drop_policy_pinned_one r pinned :
  drop_policy_pinned [r] pinned = [] <-> rp_key r ∈ pinned.
Proof.
  destruct pinned as [|x pinned]; simpl.
  - split; [done|]. by intros ?%not_elem_of_nil.
  - case_bool_decide; simpl; split; done.
Qed.

(** An arm stays silent when its pref is mentioned, default or pinned, that
    is when resetting the pref first would not show after the merge. *)
Lemma revert_opt_silent {A} `{EqDecision A} (m : option A) key (cur : option A) render pinned :
  drop_policy_pinned (revert_opt m key cur None render) pinned = []
  <-> some_or m None = some_or m cur \/ key ∈ pinned.
Proof.
  unfold revert_opt. destruct m; simpl; [rewrite drop_policy_pinned_nil; naive_solver|].
  destruct cur; simpl; rewrite ?drop_policy_pinned_one, ?drop_policy_pinned_nil; naive_solver.
Qed.

Lemma revert_nested_silent {A} `{EqDecision A} (m : option (option A)) key cur render pinned :
  drop_policy_pinned (revert_opt m key cur None render) pinned = []
  <-> named_or m None = named_or m cur \/ key ∈ pinned.
Proof.
  unfold revert_opt. destruct m; simpl; [rewrite drop_policy_pinned_nil; naive_solver|].
  destruct cur; simpl; rewrite ?drop_policy_pinned_one, ?drop_policy_pinned_nil; naive_solver.
Qed.

Lemma revert_val_silent {A} `{EqDecision A} (m : option A) key (cur d : A) render pinned :
  drop_policy_pinned (revert_val m key cur d render) pinned = []
  <-> named_or m d = named_or m cur \/ key ∈ pinned.
Proof.
  unfold revert_val. destruct m; simpl; [rewrite drop_policy_pinned_nil; naive_solver|].
  case_bool_decide; simpl; rewrite ?drop_policy_pinned_one, ?drop_policy_pinned_nil; naive_solver.
Qed.

(** What a silent guard says, arm by arm. *)
Definition guard_silent (p : Prefs) (o : UpOptions) (pinned : list string) : Prop :=
  (some_or (up_hostname o) None = some_or (up_hostname o) (hostname p)
    \/ "hostname" ∈ pinned) /\
  (some_or (up_control_url o) None = some_or (up_control_url o) (control_url p)
    \/ "control_url" ∈ pinned) /\
  (named_or (up_tun o) false = named_or (up_tun o) (tun_enabled p)
    \/ "tun" ∈ pinned) /\
  (some_or (up_tun_name o) None = some_or (up_tun_name o) (tun_name p)
    \/ "tun_name" ∈ pinned) /\
  (some_or (up_tun_mtu o) None = some_or (up_tun_mtu o) (tun_mtu p)
    \/ "tun_mtu" ∈ pinned) /\
  (named_or (up_exit_node o) None = named_or (up_exit_node o) (exit_node p)
    \/ "exit_node" ∈ pinned) /\
  (named_or (up_advertise_exit_node o) false = named_or (up_advertise_exit_node o) (advertise_exit_node p)
    \/ "advertise_exit_node" ∈ pinned) /\
  (named_or (up_advertise_routes o) [] = named_or (up_advertise_routes o) (advertise_routes p)
    \/ "advertise_routes" ∈ pinned) /\
  (named_or (up_advertise_tags o) [] = named_or (up_advertise_tags o) (advertise_tags p)
    \/ "advertise_tags" ∈ pinned) /\
  (named_or (up_accept_routes o) false = named_or (up_accept_routes o) (accept_routes p)
    \/ "accept_routes" ∈ pinned) /\
  (named_or (up_accept_dns o) true = named_or (up_accept_dns o) (accept_dns p)
    \/ "accept_dns" ∈ pinned) /\
  (named_or (up_shields_up o) false = named_or (up_shields_up o) (shields_up p)
    \/ "shields_up" ∈ pinned) /\
  (named_or (up_ssh o) false = named_or (up_ssh o) (ssh_enabled p)
    \/ "ssh" ∈ pinned) /\
  (named_or (up_operator o) None = named_or (up_operator o) (operator_user p)
    \/ "operator" ∈ pinned) /\
  (named_or (up_exit_node_allow_lan_access o) false = named_or (up_exit_node_allow_lan_access o) (exit_node_allow_lan_access p)
    \/ "exit_node_allow_lan_access" ∈ pinned) /\
  (named_or (up_advertise_connector o) false = named_or (up_advertise_connector o) (advertise_app_connector p)
    \/ "advertise_connector" ∈ pinned) /\
  (named_or (up_report_posture o) false = named_or (up_report_posture o) (posture_checking p)
    \/ "report_posture" ∈ pinned).

Lemma guard_silent_iff p o pinned : mentions_any_pref o = true ->
  drop_policy_pinned (check_accidental_reverts p o true) pinned = [] <-> guard_silent p o pinned.
Proof.
  intros Hm. unfold check_accidental_reverts. rewrite Hm. cbn [negb]. cbv zeta.
  rewrite !drop_policy_pinned_app, !app_nil.
  rewrite !revert_opt_silent, !revert_nested_silent, !revert_val_silent. done.
Qed.

(** ** The merges, field by field *)

Definition with_reset (b : bool) (o : UpOptions) : UpOptions := o <| up_reset := b |>.

Lemma mentions_with_reset b o : mentions_any_pref (with_reset b o) = mentions_any_pref o.
Proof. by destruct o. Qed.

(** REPLACE and PATCH of the same request. *)
Definition replaced (o : UpOptions) (p : Prefs) : Prefs := merge_up (with_reset true o) p.
Definition patched (o : UpOptions) (p : Prefs) : Prefs := merge_up (with_reset false o) p.

(** Two prefs that agree on every field a merge or the policy can move, one
    equation per guarded field. *)
Lemma replaced_patched_fields o p :
  replaced o p = patched o p <->
  some_or (up_hostname o) None = some_or (up_hostname o) (hostname p) /\
  some_or (up_control_url o) None = some_or (up_control_url o) (control_url p) /\
  named_or (up_tun o) false = named_or (up_tun o) (tun_enabled p) /\
  some_or (up_tun_name o) None = some_or (up_tun_name o) (tun_name p) /\
  some_or (up_tun_mtu o) None = some_or (up_tun_mtu o) (tun_mtu p) /\
  named_or (up_exit_node o) None = named_or (up_exit_node o) (exit_node p) /\
  named_or (up_advertise_exit_node o) false
    = named_or (up_advertise_exit_node o) (advertise_exit_node p) /\
  named_or (up_advertise_routes o) [] = named_or (up_advertise_routes o) (advertise_routes p) /\
  named_or (up_advertise_tags o) [] = named_or (up_advertise_tags o) (advertise_tags p) /\
  named_or (up_accept_routes o) false = named_or (up_accept_routes o) (accept_routes p) /\
  named_or (up_accept_dns o) true = named_or (up_accept_dns o) (accept_dns p) /\
  named_or (up_shields_up o) false = named_or (up_shields_up o) (shields_up p) /\
  named_or (up_ssh o) false = named_or (up_ssh o) (ssh_enabled p) /\
  named_or (up_operator o) None = named_or (up_operator o) (operator_user p) /\
  named_or (up_exit_node_allow_lan_access o) false
    = named_or (up_exit_node_allow_lan_access o) (exit_node_allow_lan_access p) /\
  named_or (up_advertise_connector o) false
    = named_or (up_advertise_connector o) (advertise_app_connector p) /\
  named_or (up_report_posture o) false = named_or (up_report_posture o) (posture_checking p).
Proof.
  split.
  - intros H. destruct o, p. injection H. intros. repeat split; done.
  - intros (?&?&?&?&?&?&?&?&?&?&?&?&?&?&?&?&?).
    apply Prefs_ext; first [reflexivity | assumption].
Qed.

(** The policy's reconcile keeps agreement: a guarded field agrees after it
    when it agreed before or the policy pins it. *)
Section Reconciled.
Context (s : list PolicySetting) (ov : PolicyOverrides) (p q : Prefs).

Lemma pinned_text name (f : Prefs -> option string) :
  (forall r, pref_view name r = Some (PText (f r))) ->
  name ∈ pinned_prefs_in s -> (name = "exit_node" -> ov_exit_node ov = false) ->
  f (policy_prefs s ov p) = f (policy_prefs s ov q).
Proof.
  intros Hf Hin Hov. pose proof (policy_prefs_pinned s ov p q name Hin Hov) as H.
  rewrite !Hf in H. congruence.
Qed.

Lemma pinned_flag name (f : Prefs -> bool) :
  (forall r, pref_view name r = Some (PFlag (f r))) ->
  name ∈ pinned_prefs_in s -> (name = "exit_node" -> ov_exit_node ov = false) ->
  f (policy_prefs s ov p) = f (policy_prefs s ov q).
Proof.
  intros Hf Hin Hov. pose proof (policy_prefs_pinned s ov p q name Hin Hov) as H.
  rewrite !Hf in H. congruence.
Qed.
End Reconciled.

(** Only these prefs can be pinned. *)
Lemma pinned_universe s name : name ∈ pinned_prefs_in s ->
  name ∈ ["control_url"; "hostname"; "exit_node"; "shields_up"; "exit_node_allow_lan_access";
          "accept_dns"; "accept_routes"; "auto_update_check"; "auto_update_apply";
          "advertise_exit_node"].
Proof.
  intros [[-> _]|[[-> _]|[[-> _]|(pol & Hpol & -> & _)]]]%pinned_cases.
  1-3: apply (bool_decide_unpack _); vm_compute; exact I.
  unfold PREFERENCE_POLICIES in Hpol. rewrite !elem_of_cons, elem_of_nil in Hpol.
  destruct_or! Hpol; subst; try done; apply (bool_decide_unpack _); vm_compute; exact I.
Qed.

Lemma not_pinned s name :
  bool_decide (name ∈ ["control_url"; "hostname"; "exit_node"; "shields_up";
                       "exit_node_allow_lan_access"; "accept_dns"; "accept_routes";
                       "auto_update_check"; "auto_update_apply"; "advertise_exit_node"]) = false ->
  name ∉ pinned_prefs_in s.
Proof. intros H Hin%pinned_universe. apply bool_decide_eq_false in H. done. Qed.

Lemma agree_unpinned s name (P : Prop) :
  P \/ name ∈ pinned_prefs_in s ->
  bool_decide (name ∈ ["control_url"; "hostname"; "exit_node"; "shields_up";
                       "exit_node_allow_lan_access"; "accept_dns"; "accept_routes";
                       "auto_update_check"; "auto_update_apply"; "advertise_exit_node"]) = false ->
  P.
Proof. intros [H|H] Hn; [done|]. by apply (not_pinned s) in Hn. Qed.

(** Prefs that agree except on fields the policy pins reconcile to the same
    prefs. *)
Lemma reconcile_agree s ov p q :
  want_running p = want_running q ->
  logged_out p = logged_out q ->
  ephemeral p = ephemeral q ->
  advertise_routes p = advertise_routes q ->
  advertise_tags p = advertise_tags q ->
  ssh_enabled p = ssh_enabled q ->
  advertise_app_connector p = advertise_app_connector q ->
  auto_update_apply p = auto_update_apply q ->
  auto_update_check p = auto_update_check q ->
  operator_user p = operator_user q ->
  node_nickname p = node_nickname q ->
  posture_checking p = posture_checking q ->
  run_web_client p = run_web_client q ->
  taildrop_dir p = taildrop_dir q ->
  tun_enabled p = tun_enabled q ->
  tun_name p = tun_name q ->
  tun_mtu p = tun_mtu q ->
  has_logged_in p = has_logged_in q ->
  (control_url p = control_url q \/ "control_url" ∈ pinned_prefs_in s) ->
  (hostname p = hostname q \/ "hostname" ∈ pinned_prefs_in s) ->
  (exit_node p = exit_node q \/ "exit_node" ∈ pinned_prefs_in s) ->
  (shields_up p = shields_up q \/ "shields_up" ∈ pinned_prefs_in s) ->
  (exit_node_allow_lan_access p = exit_node_allow_lan_access q \/ "exit_node_allow_lan_access" ∈ pinned_prefs_in s) ->
  (accept_dns p = accept_dns q \/ "accept_dns" ∈ pinned_prefs_in s) ->
  (accept_routes p = accept_routes q \/ "accept_routes" ∈ pinned_prefs_in s) ->
  (advertise_exit_node p = advertise_exit_node q \/ "advertise_exit_node" ∈ pinned_prefs_in s) ->
  ("exit_node" ∈ pinned_prefs_in s -> exit_node p = exit_node q \/ ov_exit_node ov = false) ->
  policy_prefs s ov p = policy_prefs s ov q.
Proof.
  intros Hwr Hlo Heph Hro Htg Hssh Hac Hua Huc Hop Hni Hpo Hwc Htd Hte Htn Htm Hli
    Hcu Hho Hen Hsh Hla Hdn Har Hae Hov.
  apply Prefs_ext; try assumption.
  - rewrite !policy_want_running. congruence.
  - destruct Hcu as [E|Hin]; [by rewrite !policy_control_url, E|].
    by apply (pinned_text s ov p q "control_url" control_url).
  - destruct Hho as [E|Hin]; [by rewrite !policy_hostname, E|].
    by apply (pinned_text s ov p q "hostname" hostname).
  - destruct Har as [E|Hin]; [by rewrite !policy_accept_routes, E|].
    by apply (pinned_flag s ov p q "accept_routes" accept_routes).
  - destruct Hdn as [E|Hin]; [by rewrite !policy_accept_dns, E|].
    by apply (pinned_flag s ov p q "accept_dns" accept_dns).
  - destruct Hsh as [E|Hin]; [by rewrite !policy_shields_up, E|].
    by apply (pinned_flag s ov p q "shields_up" shields_up).
  - assert (Hcase : exit_node p = exit_node q \/ "exit_node" ∈ pinned_prefs_in s /\ ov_exit_node ov = false)
      by (destruct Hen as [|Hin]; [|destruct (Hov Hin)]; auto).
    destruct Hcase as [E|[Hin Ho]]; [by rewrite !policy_exit_node, E|].
    by apply (pinned_text s ov p q "exit_node" exit_node).
  - destruct Hae as [E|Hin]; [by rewrite !policy_advertise_exit_node, E|].
    by apply (pinned_flag s ov p q "advertise_exit_node" advertise_exit_node).
  - by rewrite !policy_auto_update_apply, Hua.
  - by rewrite !policy_auto_update_check, Huc.
  - destruct Hla as [E|Hin]; [by rewrite !policy_exit_node_allow_lan_access, E|].
    by apply (pinned_flag s ov p q "exit_node_allow_lan_access" exit_node_allow_lan_access).
Qed.

(** ** The properties *)

(** C19: the guard is exactly right: on a node that has logged in, an [up] that
    names some pref passes it if and only if patching the stored prefs and
    replacing them (resetting every up-managed pref first) give the same
    prefs. *)
Theorem guard_iff_replace_is_patch (p : Prefs) (o : UpOptions) :
  mentions_any_pref o = true ->
  (check_accidental_reverts p o true = [] <-> replaced o p = patched o p).
Proof.
  intros Hm. rewrite <- (drop_policy_pinned_none (check_accidental_reverts p o true)).
  rewrite guard_silent_iff, replaced_patched_fields by done. unfold guard_silent.
  assert (Hnil : forall (P : Prop) (k : string), (P \/ k ∈ []) <-> P).
  { intros P k. rewrite elem_of_nil. tauto. }
  by rewrite !Hnil.
Qed.

Definition guard_example_opts : UpOptions :=
  UpOptions_default <| up_ssh := Some true |> <| up_advertise_routes := Some ["10.0.0.0/8"] |>.
Definition guard_example_prefs : Prefs :=
  Prefs_default <| advertise_routes := ["10.0.0.0/8"; "192.168.0.0/16"] |> <| has_logged_in := true |>.

Lemma guard_iff_replace_is_patch_witness :
  mentions_any_pref guard_example_opts = true /\
  replaced guard_example_opts guard_example_prefs = patched guard_example_opts guard_example_prefs.
Proof.
  split; [reflexivity|].
  apply (guard_iff_replace_is_patch guard_example_prefs guard_example_opts eq_refl).
  vm_compute. reflexivity.
Defined.

(** C20: dropping the policy-pinned reverts is sound: when the guard is silent
    after [drop_policy_pinned], patching and replacing give the same prefs
    once the policy is reconciled over them, provided no exit-node override
    survives an [up] that does not name an exit node. *)
Theorem pinned_guard_sound (s : list PolicySetting) (ov : PolicyOverrides) (p : Prefs)
    (o : UpOptions) :
  mentions_any_pref o = true ->
  drop_policy_pinned (check_accidental_reverts p o true) (pinned_prefs_in s) = [] ->
  ov_exit_node ov = false \/ up_exit_node o <> None ->
  fst (apply_settings_to_prefs s (replaced o p) ov)
  = fst (apply_settings_to_prefs s (patched o p) ov).
Proof.
  intros Hm Hg Hov. rewrite !apply_settings_fst. apply guard_silent_iff in Hg; [|done].
  destruct Hg as (H1&H2&H3&H4&H5&H6&H7&H8&H9&H10&H11&H12&H13&H14&H15&H16&H17).
  apply agree_unpinned in H3, H4, H5, H8, H9, H13, H14, H16, H17; [|reflexivity..].
  apply reconcile_agree; first [reflexivity | assumption | idtac].
  intros _. destruct Hov as [|Hn]; [by right|left]. change (named_or (up_exit_node o) None
    = named_or (up_exit_node o) (exit_node p)). by destruct (up_exit_node o).
Qed.

Definition pinned_guard_policy : list PolicySetting :=
  [ mkPolicySetting "ExitNodeIP" "" (Some "100.64.0.9") None ].

Lemma pinned_guard_sound_witness :
  check_accidental_reverts (guard_example_prefs <| exit_node := Some "100.64.0.1" |>)
    guard_example_opts true = [mkRevertedPref "exit_node" "100.64.0.1"] /\
  fst (apply_settings_to_prefs pinned_guard_policy
         (replaced guard_example_opts (guard_example_prefs <| exit_node := Some "100.64.0.1" |>))
         (mkPolicyOverrides false false))
  = fst (apply_settings_to_prefs pinned_guard_policy
         (patched guard_example_opts (guard_example_prefs <| exit_node := Some "100.64.0.1" |>))
         (mkPolicyOverrides false false)).
Proof.
  split; [vm_compute; reflexivity|].
  apply pinned_guard_sound; [reflexivity | vm_compute; reflexivity | by left].
Defined.
