(* ===== verification/Routes.v ===== *)
(** * The advertised-route rules: [src/routes.rs]

    [calc_advertise_routes] turns the operator's route strings and the
    exit-node intent into the set this node offers control, or into every
    reason it may not.  [ipnet]'s text parser and its [trunc] are third-party
    code and stay parameters. *)
From Stdlib Require Import ZArith Lia Ascii String List.
From stdpp Require Import base list strings option sorting.
From S2P Require Import Prelude NetAddr.

(** [ipnet::IpNet] through its accessors: [addr()] and [prefix_len()]. *)
Record IpNet : Type := mkIpNet {
  net_addr : IpAddr;
  net_len : Z
}.

#[global] Instance IpNet_eq_dec : EqDecision IpNet.
Proof. solve_decision. Defined.

Definition VIA_RANGE_PREFIX : list Z := [253; 122; 17; 92; 161; 224; 11; 26].

Definition all_ipv4 : IpNet := mkIpNet (V4 0) 0.
Definition all_ipv6 : IpNet := mkIpNet (V6 0) 0.

Definition is_via_prefix (p : IpNet) : bool :=
  match net_addr p with
  | V6 v6 => bool_decide (take 8 (octets16 v6) = VIA_RANGE_PREFIX)
  | V4 _ => false
  end.

(** The three refusals of [validate_via_prefix], before they are rendered. *)
Inductive ViaError : Type :=
| NotVia
| ViaTooShort
| ViaSiteId (site_id : Z).

#[global] Instance ViaError_eq_dec : EqDecision ViaError.
Proof. solve_decision. Defined.

(** [u32::from_be_bytes([octets[8], .., octets[11]])]. *)
Definition via_site_id (v6 : Z) : Z := be_value 256 (take 4 (drop 8 (octets16 v6))).

Definition validate_via_prefix (p : IpNet) : result ViaError unit :=
  _ ← guard_err (negb (is_via_prefix p)) NotVia;
  _ ← guard_err (net_len p <? 96) ViaTooShort;
  match net_addr p with
  | V6 v6 => guard_err (65535 <? via_site_id v6) (ViaSiteId (via_site_id v6))
  | V4 _ => Err NotVia
  end.

Inductive RouteError : Type :=
| Unparsable (s : string)
| NonMasked (route masked : IpNet)
| Via (route : IpNet) (reason : ViaError)
| LoneDefault (have want : IpNet).

#[global] Instance RouteError_eq_dec : EqDecision RouteError.
Proof. solve_decision. Defined.

Definition refused_by_go_config_path (e : RouteError) : bool :=
  match e with
  | NonMasked _ _ => true
  | Unparsable _ => true
  | LoneDefault _ _ => false
  | Via _ _ => false
  end.

(** [IpAddr]'s order: every IPv4 address before every IPv6 one. *)
Definition ip_cmp (a b : IpAddr) : comparison :=
  match a, b with
  | V4 x, V4 y => Z.compare x y
  | V6 x, V6 y => Z.compare x y
  | V4 _, V6 _ => Lt
  | V6 _, V4 _ => Gt
  end.

(** The comparator handed to [sort_by]: prefix length, then address. *)
Definition route_cmp (a b : IpNet) : comparison :=
  match Z.compare (net_len a) (net_len b) with
  | Eq => ip_cmp (net_addr a) (net_addr b)
  | c => c
  end.
Definition route_le (a b : IpNet) : Prop := route_cmp a b <> Gt.
Definition route_lt (a b : IpNet) : Prop := route_cmp a b = Lt.

#[global] Instance route_le_dec : RelDecision route_le.
Proof. intros a b. unfold route_le. solve_decision. Defined.

(** [Vec::dedup]: an element equal to its predecessor goes. *)
Fixpoint dedup (l : list IpNet) : list IpNet :=
  match l with
  | [] => []
  | x :: l' =>
      match dedup l' with
      | [] => [x]
      | y :: l'' => if decide (x = y) then y :: l'' else x :: y :: l''
      end
  end.

(** The loop's accumulators. *)
Record RouteAcc : Type := mkRouteAcc {
  ra_errors : list RouteError;
  ra_set : list IpNet;
  ra_default4 : bool;
  ra_default6 : bool
}.

Section Calc.
Context (parse_net : string -> option IpNet) (trunc : IpNet -> IpNet).

(** One pass of the [for] loop. *)
Definition route_step (acc : RouteAcc) (s : string) : RouteAcc :=
  let refuse e := mkRouteAcc (ra_errors acc ++ [e]) (ra_set acc)
                    (ra_default4 acc) (ra_default6 acc) in
  match parse_net s with
  | None => refuse (Unparsable s)
  | Some net =>
      let masked := trunc net in
      if bool_decide (masked <> net) then refuse (NonMasked net masked)
      else
        match (if is_via_prefix net then validate_via_prefix net else Ok tt) with
        | Err reason => refuse (Via net reason)
        | Ok _ =>
            let d4 := bool_decide (net = all_ipv4) in
            let d6 := negb d4 && bool_decide (net = all_ipv6) in
            mkRouteAcc (ra_errors acc) (ra_set acc ++ [net])
              (ra_default4 acc || d4) (ra_default6 acc || d6)
        end
  end.

Definition calc_advertise_routes (routes : list string) (advertise_exit_node : bool)
    : result (list RouteError) (list IpNet) :=
  let acc := fold_left route_step routes (mkRouteAcc [] [] false false) in
  let acc := if (advertise_exit_node : bool)
             then mkRouteAcc (ra_errors acc) (ra_set acc ++ [all_ipv4; all_ipv6]) true true
             else acc in
  let errors :=
    if negb (Bool.eqb (ra_default4 acc) (ra_default6 acc)) then
      let '(have, want) :=
        if ra_default4 acc then (all_ipv4, all_ipv6) else (all_ipv6, all_ipv4) in
      ra_errors acc ++ [LoneDefault have want]
    else ra_errors acc in
  match errors with
  | [] => Ok (dedup (merge_sort route_le (ra_set acc)))
  | _ => Err errors
  end.

(** The verdict alone; the reasons are reported joined. *)
Definition validate_advertise_routes (routes : list string) (advertise_exit_node : bool)
    : result (list RouteError) unit :=
  (fun _ => tt) <$> calc_advertise_routes routes advertise_exit_node.

(** ** Specification: one verdict per route, then the pairing rule *)

Definition route_verdict (s : string) : result RouteError IpNet :=
  match parse_net s with
  | None => Err (Unparsable s)
  | Some net =>
      if bool_decide (trunc net <> net) then Err (NonMasked net (trunc net))
      else if is_via_prefix net then
        match validate_via_prefix net with Ok _ => Ok net | Err r => Err (Via net r) end
      else Ok net
  end.

Definition verdict_errors (s : string) : list RouteError :=
  match route_verdict s with Err e => [e] | Ok _ => [] end.
Definition verdict_nets (s : string) : list IpNet :=
  match route_verdict s with Ok n => [n] | Err _ => [] end.

(** The composed set, unsorted, and the pairing rule asked of it. *)
Definition composed_nets (routes : list string) (exit : bool) : list IpNet :=
  flat_map verdict_nets routes ++ (if exit then [all_ipv4; all_ipv6] else []).

Definition pairing_errors (nets : list IpNet) : list RouteError :=
  match bool_decide (all_ipv4 ∈ nets), bool_decide (all_ipv6 ∈ nets) with
  | true, false => [LoneDefault all_ipv4 all_ipv6]
  | false, true => [LoneDefault all_ipv6 all_ipv4]
  | _, _ => []
  end.

Definition route_errors (routes : list string) (exit : bool) : list RouteError :=
  flat_map verdict_errors routes ++ pairing_errors (composed_nets routes exit).

Lemma bool_decide_elem_nil (a : IpNet) : bool_decide (a ∈ []) = false.
Proof. apply bool_decide_eq_false. by intros ?%not_elem_of_nil. Qed.

Lemma route_step_verdict acc s :
  route_step acc s
  = mkRouteAcc (ra_errors acc ++ verdict_errors s) (ra_set acc ++ verdict_nets s)
      (ra_default4 acc || bool_decide (all_ipv4 ∈ verdict_nets s))
      (ra_default6 acc || bool_decide (all_ipv6 ∈ verdict_nets s)).
Proof.
  assert (Hone : forall a b : IpNet, bool_decide (a ∈ [b]) = bool_decide (b = a)).
  { intros a b. apply bool_decide_ext. rewrite list_elem_of_singleton. naive_solver. }
  destruct acc as [es ns d4 d6].
  unfold route_step, verdict_errors, verdict_nets, route_verdict.
  cbn [ra_errors ra_set ra_default4 ra_default6].
  destruct (parse_net s) as [net|]; [|by rewrite !bool_decide_elem_nil, !orb_false_r, app_nil_r].
  case_bool_decide; [by rewrite !bool_decide_elem_nil, !orb_false_r, app_nil_r|].
  assert (Hdefaults : negb (bool_decide (net = all_ipv4)) && bool_decide (net = all_ipv6)
                      = bool_decide (net = all_ipv6)).
  { do 2 case_bool_decide; subst; done. }
  destruct (is_via_prefix net).
  - destruct (validate_via_prefix net).
    + by rewrite !Hone, app_nil_r, Hdefaults.
    + by rewrite !bool_decide_elem_nil, !orb_false_r, app_nil_r.
  - by rewrite !Hone, app_nil_r, Hdefaults.
Qed.

Lemma bool_decide_elem_app (a : IpNet) l1 l2 :
  bool_decide (a ∈ l1 ++ l2) = bool_decide (a ∈ l1) || bool_decide (a ∈ l2).
Proof.
  rewrite <- bool_decide_or. apply bool_decide_ext. apply elem_of_app.
Qed.

Lemma fold_route_step routes acc :
  fold_left route_step routes acc
  = mkRouteAcc (ra_errors acc ++ flat_map verdict_errors routes)
      (ra_set acc ++ flat_map verdict_nets routes)
      (ra_default4 acc || bool_decide (all_ipv4 ∈ flat_map verdict_nets routes))
      (ra_default6 acc || bool_decide (all_ipv6 ∈ flat_map verdict_nets routes)).
Proof.
  revert acc. induction routes as [|s routes IH]; intros acc; cbn [fold_left flat_map].
  - rewrite !app_nil_r. rewrite !bool_decide_elem_nil, !orb_false_r. by destruct acc.
  - rewrite IH, route_step_verdict. cbn [ra_errors ra_set ra_default4 ra_default6].
    by rewrite !bool_decide_elem_app, <- !app_assoc, !orb_assoc.
Qed.

Lemma calc_advertise_routes_spec routes exit :
  calc_advertise_routes routes exit
  = match route_errors routes exit with
    | [] => Ok (dedup (merge_sort route_le (composed_nets routes exit)))
    | es => Err es
    end.
Proof.
  unfold calc_advertise_routes, route_errors, pairing_errors, composed_nets.
  rewrite fold_route_step. cbn [ra_errors ra_set ra_default4 ra_default6].
  rewrite !bool_decide_elem_app, !app_nil_l, !orb_false_l.
  destruct exit; cbn [ra_errors ra_set ra_default4 ra_default6].
  - rewrite (bool_decide_true (all_ipv4 ∈ [all_ipv4; all_ipv6])) by (left; done).
    rewrite (bool_decide_true (all_ipv6 ∈ [all_ipv4; all_ipv6])) by (right; left; done).
    destruct (bool_decide (all_ipv4 ∈ flat_map _ _)), (bool_decide (all_ipv6 ∈ flat_map _ _));
      cbn [negb Bool.eqb orb]; rewrite app_nil_r; by destruct (flat_map _ _).
  - rewrite !bool_decide_elem_nil, !orb_false_r, app_nil_r.
    destruct (bool_decide (all_ipv4 ∈ _)), (bool_decide (all_ipv6 ∈ _));
      cbn [negb Bool.eqb]; rewrite ?app_nil_r; by destruct (flat_map _ _).
Qed.
End Calc.

(** ** The order of the set *)

Ltac route_order :=
  unfold route_le, route_lt, route_cmp, ip_cmp in *;
  repeat match goal with
  | n : IpNet |- _ => destruct n as [[?|?] ?]
  end; cbn [net_addr net_len] in *;
  repeat match goal with
  | H : context [Z.compare ?a ?b] |- _ => destruct (Z.compare_spec a b)
  | |- context [Z.compare ?a ?b] => destruct (Z.compare_spec a b)
  end; subst; try congruence; try lia.

Lemma ip_cmp_swap a b : ip_cmp b a = CompOpp (ip_cmp a b).
Proof. destruct a, b; cbn; try done; apply Z.compare_antisym. Qed.

Lemma route_cmp_swap a b : route_cmp b a = CompOpp (route_cmp a b).
Proof.
  unfold route_cmp. rewrite Z.compare_antisym. destruct (Z.compare (net_len a) (net_len b)); try done.
  apply ip_cmp_swap.
Qed.

#[global] Instance route_le_total : Total route_le.
Proof.
  intros a b. unfold route_le. rewrite (route_cmp_swap a b).
  destruct (route_cmp a b); cbn; by (left + right).
Qed.

#[global] Instance route_le_trans : Transitive route_le.
Proof. intros a b c H1 H2. route_order. Qed.

Lemma route_le_lt a b : route_le a b -> a <> b -> route_lt a b.
Proof. intros H Hne. route_order. Qed.

Lemma route_lt_le_trans a b c : route_lt a b -> route_le b c -> route_lt a c.
Proof. intros H1 H2. route_order. Qed.

Lemma dedup_head x l : exists l', dedup (x :: l) = x :: l'.
Proof.
  cbn [dedup]. destruct (dedup l) as [|y l']; [by eexists|].
  destruct (decide (x = y)) as [->|]; by eexists.
Qed.

Lemma elem_of_dedup n l : n ∈ dedup l <-> n ∈ l.
Proof.
  induction l as [|x l IH]; [done|]. cbn [dedup].
  destruct (dedup l) as [|y l'] eqn:E.
  - rewrite !elem_of_cons, <- IH. done.
  - destruct (decide (x = y)) as [->|]; rewrite ?elem_of_cons in *; rewrite ?elem_of_cons; naive_solver.
Qed.

Lemma dedup_sorted l : StronglySorted route_le l -> StronglySorted route_lt (dedup l).
Proof.
  induction 1 as [|x l Hs IH Hall]; [constructor|]. cbn [dedup].
  assert (Hle : Forall (route_le x) (dedup l)).
  { apply Forall_forall. intros n Hn. rewrite Forall_forall in Hall.
    by apply Hall, elem_of_dedup. }
  destruct (dedup l) as [|y l'] eqn:E; [by repeat constructor|].
  destruct (decide (x = y)) as [->|Hne]; [done|].
  inversion IH as [|? ? Hs' Hy]; subst. inversion Hle as [|? ? Hxy Hrest]; subst.
  assert (Hlt : route_lt x y) by by apply route_le_lt.
  constructor; [done|]. constructor; [done|].
  eapply Forall_impl; [exact Hy|]. intros n Hn. eapply route_lt_le_trans; [exact Hlt|].
  clear -Hn. unfold route_le. rewrite Hn. done.
Qed.

Section Properties.
Context (parse_net : string -> option IpNet) (trunc : IpNet -> IpNet).

Lemma verdict_errors_nil s : verdict_errors parse_net trunc s = [] ->
  exists n, parse_net s = Some n /\ trunc n = n /\ verdict_nets parse_net trunc s = [n] /\
            (is_via_prefix n = true -> validate_via_prefix n = Ok tt).
Proof.
  unfold verdict_errors, verdict_nets, route_verdict.
  destruct (parse_net s) as [n|]; [|done].
  case_bool_decide as Hm; [done|].
  destruct (is_via_prefix n) eqn:Ev.
  - destruct (validate_via_prefix n) as [[]|] eqn:E; [|done]. intros _. exists n. split_and!; done.
  - intros _. exists n. split_and!; [done..|]. congruence.
Qed.

Lemma pairing_errors_nil nets : pairing_errors nets = [] <-> (all_ipv4 ∈ nets <-> all_ipv6 ∈ nets).
Proof. unfold pairing_errors. do 2 case_bool_decide; naive_solver. Qed.

Lemma flat_map_errors_nil routes s :
  flat_map (verdict_errors parse_net trunc) routes = [] -> s ∈ routes ->
  verdict_errors parse_net trunc s = [].
Proof.
  intros E Hs. induction routes as [|x routes IH]; [by apply not_elem_of_nil in Hs|].
  cbn [flat_map] in E. apply app_nil in E as [Ex E].
  apply elem_of_cons in Hs as [->|Hs]; [done|]. by apply IH.
Qed.

Lemma elem_of_verdicts routes n :
  flat_map (verdict_errors parse_net trunc) routes = [] ->
  n ∈ flat_map (verdict_nets parse_net trunc) routes <->
  exists s, s ∈ routes /\ parse_net s = Some n.
Proof.
  intros E. rewrite list_elem_of_In, in_flat_map.
  split; intros (s & Hs & Hn); exists s; rewrite <- ?list_elem_of_In in *; (split; [done|]);
    destruct (verdict_errors_nil s) as (m & Hp & _ & Hv & _);
    try (by eapply flat_map_errors_nil).
  - rewrite Hv, list_elem_of_singleton in Hn. congruence.
  - rewrite Hv, list_elem_of_singleton. congruence.
Qed.

Lemma elem_of_composed routes exit n :
  flat_map (verdict_errors parse_net trunc) routes = [] ->
  n ∈ composed_nets parse_net trunc routes exit <->
  (exists s, s ∈ routes /\ parse_net s = Some n) \/
  (exit = true /\ (n = all_ipv4 \/ n = all_ipv6)).
Proof.
  intros E. unfold composed_nets. rewrite elem_of_app, elem_of_verdicts by done.
  destruct exit; rewrite ?elem_of_cons, ?elem_of_nil; naive_solver.
Qed.

Lemma route_errors_nil routes exit : route_errors parse_net trunc routes exit = [] ->
  flat_map (verdict_errors parse_net trunc) routes = [] /\
  (all_ipv4 ∈ composed_nets parse_net trunc routes exit <->
   all_ipv6 ∈ composed_nets parse_net trunc routes exit).
Proof. intros [Ev Ep%pairing_errors_nil]%app_nil. done. Qed.

(** An accepted set's routes all parse. *)
Lemma accepted_routes_parse routes exit nets s :
  calc_advertise_routes parse_net trunc routes exit = Ok nets -> s ∈ routes ->
  exists n, parse_net s = Some n /\ trunc n = n.
Proof.
  rewrite calc_advertise_routes_spec.
  destruct (route_errors parse_net trunc routes exit) eqn:E; [|done]. intros _ Hs.
  apply route_errors_nil in E as [E _]. pose proof (flat_map_errors_nil _ _ E Hs) as Hv.
  destruct (verdict_errors_nil s Hv) as (n & ? & ? & _). eauto.
Qed.

Lemma default_not_via n : n = all_ipv4 \/ n = all_ipv6 -> is_via_prefix n = false.
Proof. intros [->| ->]; vm_compute; reflexivity. Qed.

(** C22: an accepted route set is what the operator asked for and is safe to
    offer: it holds exactly the parsed routes and, for an exit node, both
    default routes; it is strictly sorted by prefix length, then address, so
    free of duplicates; every given route is masked; every 4via6 prefix in it
    decodes; and a default route is in it for both families or for neither. *)
Theorem advertised_set_correct (routes : list string) (exit : bool) (nets : list IpNet) :
  calc_advertise_routes parse_net trunc routes exit = Ok nets ->
  (forall n, n ∈ nets <-> (exists s, s ∈ routes /\ parse_net s = Some n) \/
                          (exit = true /\ (n = all_ipv4 \/ n = all_ipv6))) /\
  StronglySorted route_lt nets /\
  (forall s, s ∈ routes -> exists n, parse_net s = Some n /\ trunc n = n) /\
  (forall n, n ∈ nets -> is_via_prefix n = true -> validate_via_prefix n = Ok tt) /\
  (all_ipv4 ∈ nets <-> all_ipv6 ∈ nets).
Proof.
  intros Hcalc. pose proof Hcalc as H. rewrite calc_advertise_routes_spec in H.
  destruct (route_errors parse_net trunc routes exit) eqn:E; [|done]. injection H as <-.
  apply route_errors_nil in E as [E Hpair].
  assert (Hset : forall n, n ∈ dedup (merge_sort route_le (composed_nets parse_net trunc routes exit))
                 <-> n ∈ composed_nets parse_net trunc routes exit).
  { intros n. by rewrite elem_of_dedup, merge_sort_Permutation. }
  split_and!.
  - intros n. by rewrite Hset, elem_of_composed.
  - apply dedup_sorted, StronglySorted_merge_sort; apply _.
  - intros s Hs. by eapply accepted_routes_parse.
  - intros n Hn Hvia. rewrite Hset, elem_of_composed in Hn by done.
    destruct Hn as [(s & Hs & Hp)|[_ Hd]]; [|by rewrite default_not_via in Hvia].
    pose proof (flat_map_errors_nil _ _ E Hs) as Hv.
    destruct (verdict_errors_nil s Hv) as (m & Hm & _ & _ & Hok).
    assert (m = n) as -> by congruence. by apply Hok.
  - by rewrite !Hset.
Qed.

(** A refusal reports everything wrong with the set in one answer: each
    unusable route with its own reason, in the order given, then the missing
    counterpart of a lone default route, and nothing is accepted otherwise. *)
Theorem refused_routes_all_reported (routes : list string) (exit : bool) (es : list RouteError) :
  calc_advertise_routes parse_net trunc routes exit = Err es <->
  es <> [] /\
  es = flat_map (fun s =>
         match route_verdict parse_net trunc s with Err e => [e] | Ok _ => [] end) routes
       ++ pairing_errors (composed_nets parse_net trunc routes exit).
Proof.
  rewrite calc_advertise_routes_spec. unfold route_errors, verdict_errors. split.
  - destruct (_ ++ _) eqn:E; [done|]. intros [= <-]. done.
  - intros [Hne ->]. by destruct (_ ++ _).
Qed.
End Properties.

(** ** Evaluated on a concrete parser *)

(** [/96] 4via6 route of site 7 over 10.0.0.0/8, and its over-long site. *)
Definition via_net (site v4 len : Z) : IpNet :=
  mkIpNet (V6 (be_value 256 VIA_RANGE_PREFIX * 2 ^ 64 + site * 2 ^ 32 + v4)) len.

Definition demo_parse (s : string) : option IpNet :=
  if String.eqb s "192.0.2.0/24" then Some (mkIpNet (V4 (ipv4 192 0 2 0)) 24)
  else if String.eqb s "192.0.2.5/24" then Some (mkIpNet (V4 (ipv4 192 0 2 5)) 24)
  else if String.eqb s "0.0.0.0/0" then Some all_ipv4
  else if String.eqb s "via7" then Some (via_net 7 (ipv4 10 0 0 0) 104)
  else if String.eqb s "via-bad" then Some (via_net 65536 (ipv4 10 0 0 0) 104)
  else None.
Definition demo_trunc (n : IpNet) : IpNet :=
  match net_addr n with
  | V4 b => mkIpNet (V4 (b / 2 ^ (32 - net_len n) * 2 ^ (32 - net_len n))) (net_len n)
  | V6 b => mkIpNet (V6 (b / 2 ^ (128 - net_len n) * 2 ^ (128 - net_len n))) (net_len n)
  end.

Lemma advertised_set_correct_witness :
  exists nets,
  calc_advertise_routes demo_parse demo_trunc ["via7"; "192.0.2.0/24"; "via7"] true = Ok nets /\
  nets = [all_ipv4; all_ipv6; mkIpNet (V4 (ipv4 192 0 2 0)) 24; via_net 7 (ipv4 10 0 0 0) 104] /\
  (all_ipv4 ∈ nets <-> all_ipv6 ∈ nets).
Proof.
  eexists. split; [vm_compute; reflexivity|]. split; [vm_compute; reflexivity|].
  apply (advertised_set_correct demo_parse demo_trunc ["via7"; "192.0.2.0/24"; "via7"] true).
  vm_compute. reflexivity.
Defined.

Example refused_all_at_once :
  calc_advertise_routes demo_parse demo_trunc
    ["0.0.0.0/0"; "192.0.2.5/24"; "nonsense"; "via-bad"] false
  = Err [NonMasked (mkIpNet (V4 (ipv4 192 0 2 5)) 24) (mkIpNet (V4 (ipv4 192 0 2 0)) 24);
         Unparsable "nonsense"; Via (via_net 65536 (ipv4 10 0 0 0) 104) (ViaSiteId 65536);
         LoneDefault all_ipv4 all_ipv6].
Proof. vm_compute. reflexivity. Qed.
