(* ===== verification/Gates.v ===== *)
(** * The pre-flight gates and the state report

    One module per file of [src/ipn/]: [alwayson.rs] (who may disconnect),
    [exitnodepolicy.rs] (who may move the exit node), [control_url.rs] (when
    the control server may change), [state.rs] (the reported lifecycle state),
    and the auto-update gate of [selfupdate.rs]. *)
From Stdlib Require Import ZArith Lia Ascii String List.
From stdpp Require Import base list strings option.
From coqutil Require Datatypes.RecordSettersUsingExistingGetters.
Import coqutil.Datatypes.RecordSettersUsingExistingGetters.RecordSetNotations1.
From S2P Require Import Prelude Prefs SysPolicy.

(** ** [alwayson.rs] *)
Module AlwaysOn.

(** Operator-typed text as its Unicode scalar values ([str::chars]). *)
Abbreviation chars := (list Z).

Inductive Actor : Type :=
| Operator (reason : option chars)
| Daemon.

Inductive DisconnectRefused : Type :=
| AlwaysOnMode
| ReasonRequired.

(** The audit record of a permitted disconnect, before it is rendered as
    [%q is being disconnected by %q: reason]. *)
Record AuditDetails : Type := mkAuditDetails {
  ad_profile : string;
  ad_username : option string;
  ad_reason : chars
}.

Definition MAX_LOGGED_REASON : nat := 256.

(** [char::is_control]: general category Cc. *)
Definition is_control (c : Z) : bool :=
  ((0 <=? c) && (c <=? 31)) || ((127 <=? c) && (c <=? 159)).

(** ['_'] and ['…']. *)
Definition UNDERSCORE : Z := 95.
Definition ELLIPSIS : Z := 8230.

Definition sanitize_request_reason (reason : chars) : chars :=
  let out := map (fun c => if is_control c then UNDERSCORE else c)
               (take MAX_LOGGED_REASON reason) in
  match reason !! MAX_LOGGED_REASON with
  | Some _ => out ++ [ELLIPSIS]
  | None => out
  end.

Definition audit_details (profile : string) (username : option string) (reason : chars)
    : AuditDetails :=
  mkAuditDetails profile (u ← username; non_empty u) (sanitize_request_reason reason).

Definition decide_disconnect (always_on override_with_reason : bool) (reason : option chars)
    (profile : string) (username : option string)
    : result DisconnectRefused (option AuditDetails) :=
  if negb always_on then Ok None
  else if negb override_with_reason then Err AlwaysOnMode
  else
    let reason := default [] reason in
    match reason with
    | [] => Err ReasonRequired
    | _ => Ok (Some (audit_details profile username reason))
    end.

(** [check_disconnect_policy], over the effective policy [settings]. *)
Definition check_disconnect_policy (settings : list PolicySetting) (actor : Actor)
    (profile : string) (username : option string)
    : result DisconnectRefused (option AuditDetails) :=
  match actor with
  | Daemon => Ok None
  | Operator reason =>
      decide_disconnect (boolean_setting settings PKEY_ALWAYS_ON false)
        (boolean_setting settings PKEY_ALWAYS_ON_OVERRIDE_WITH_REASON false)
        reason profile username
  end.

Lemma sanitize_no_control reason c :
  c ∈ sanitize_request_reason reason -> is_control c = false.
Proof.
  unfold sanitize_request_reason. intros Hc.
  assert (Hm : forall c, c ∈ map (fun c => if is_control c then UNDERSCORE else c)
                                (take MAX_LOGGED_REASON reason) -> is_control c = false).
  { intros d Hd. apply list_elem_of_fmap in Hd as (x & -> & _). by destruct (is_control x) eqn:E. }
  destruct (reason !! MAX_LOGGED_REASON); [|by apply Hm].
  apply elem_of_app in Hc as [Hc| ->%list_elem_of_singleton]; [by apply Hm | done].
Qed.

Lemma sanitize_length reason : (length (sanitize_request_reason reason) <= 257)%nat.
Proof.
  unfold sanitize_request_reason.
  destruct (reason !! MAX_LOGGED_REASON);
    rewrite ?length_app, length_map, length_take;
    change MAX_LOGGED_REASON with 256%nat; cbn [length]; lia.
Qed.

(** A short printable reason is logged verbatim. *)
Lemma sanitize_short reason :
  (length reason <= MAX_LOGGED_REASON)%nat -> Forall (fun c => is_control c = false) reason ->
  sanitize_request_reason reason = reason.
Proof.
  intros Hl Hf. unfold sanitize_request_reason. rewrite lookup_ge_None_2 by lia.
  rewrite firstn_all2 by lia. clear Hl. induction Hf as [|c l Hc _ IH]; [done|].
  simpl. by rewrite Hc, IH.
Qed.

(** The always-on gate: an operator's disconnect is refused exactly when
    the policy keeps the node on and either permits no override or was given
    no reason; when a reason was required and given, the audit record carries
    it stripped of control characters, cut at 256 characters and marked. *)
Theorem disconnect_gate (settings : list PolicySetting) (actor : Actor) (profile : string)
    (username : option string) :
  (is_ok (check_disconnect_policy settings actor profile username) = false <->
   exists reason, actor = Operator reason /\
     configured_boolean settings PKEY_ALWAYS_ON = Some true /\
     (configured_boolean settings PKEY_ALWAYS_ON_OVERRIDE_WITH_REASON <> Some true \/
      reason = None \/ reason = Some [])) /\
  (forall a, check_disconnect_policy settings actor profile username = Ok (Some a) ->
     exists reason, actor = Operator (Some reason) /\ reason <> [] /\
       (forall c, c ∈ ad_reason a -> is_control c = false) /\
       (length (ad_reason a) <= 257)%nat /\
       ((length reason <= 256)%nat -> Forall (fun c => is_control c = false) reason ->
        ad_reason a = reason)).
Proof.
  destruct actor as [reason|]; [|split; [split; [done | naive_solver] | done]].
  unfold check_disconnect_policy, boolean_setting, decide_disconnect.
  destruct (configured_boolean settings PKEY_ALWAYS_ON) as [[]|],
    (configured_boolean settings PKEY_ALWAYS_ON_OVERRIDE_WITH_REASON) as [[]|];
    destruct reason as [[|c r]|]; cbn [negb default is_ok];
    (split; [split; naive_solver | ]); try done.
  intros a [= <-]. exists (c :: r). cbn [ad_reason audit_details].
  split_and!; [done | done | apply sanitize_no_control | apply sanitize_length | apply sanitize_short].
Qed.

End AlwaysOn.

(** ** [exitnodepolicy.rs] *)
Module ExitNodeGate.

Inductive ExitNodeEditRefused : Type := ManagedByPolicy.

Inductive ExitNodeEdit : Type := Untouched | NoOverride | Override.

#[global] Instance ExitNodeEdit_eq_dec : EqDecision ExitNodeEdit.
Proof. solve_decision. Defined.

Definition check_exit_node_edit (named : option (option string)) (policy : ExitNodePolicy)
    : result ExitNodeEditRefused ExitNodeEdit :=
  match named with
  | None => Ok Untouched
  | Some wanted =>
      match enp_pinned policy with
      | None => Ok NoOverride
      | Some pinned =>
          if negb (enp_allow_override policy) then Err ManagedByPolicy
          else
            match wanted with
            | None => Err ManagedByPolicy
            | Some wanted => if String.eqb wanted pinned then Ok NoOverride else Ok Override
            end
      end
  end.

(** The standing override after a permitted edit. *)
Definition override_after (edit : ExitNodeEdit) (standing : bool) : bool :=
  match edit with Untouched => standing | NoOverride => false | Override => true end.

(** An exit-node edit that the gate allows sticks, and one it refuses
    would not have: after the edit, recording its verdict and reconciling, the
    node egresses through exactly what the operator named; and a refused edit
    is one the policy pins against, so reconciling it without an override
    would have put the policy's node back over it. *)
Theorem permitted_exit_node_sticks (settings : list PolicySetting) (p : Prefs)
    (wanted : option string) (always_on standing : bool) :
  let policy := exit_node_policy_in settings in
  match check_exit_node_edit (Some wanted) policy with
  | Ok edit =>
      exit_node (fst (apply_settings_to_prefs settings (p <| exit_node := wanted |>)
                        (mkPolicyOverrides always_on (override_after edit standing)))) = wanted
  | Err _ =>
      exists pinned, policy_exit_node_in settings = Some pinned /\
      exit_node (fst (apply_settings_to_prefs settings (p <| exit_node := wanted |>)
                        (mkPolicyOverrides always_on false))) = Some pinned
  end.
Proof.
  intros policy. unfold policy, exit_node_policy_in, check_exit_node_edit. cbn [enp_pinned enp_allow_override].
  destruct (policy_exit_node_in settings) as [pinned|] eqn:Ep.
  - destruct (boolean_setting _ _ _); cbn [negb].
    + destruct wanted as [w|].
      * destruct (String.eqb_spec w pinned) as [->|Hne]; rewrite apply_settings_fst, policy_exit_node, Ep;
          done.
      * exists pinned. by rewrite apply_settings_fst, policy_exit_node, Ep.
    + exists pinned. by rewrite apply_settings_fst, policy_exit_node, Ep.
  - by rewrite apply_settings_fst, policy_exit_node, Ep.
Qed.

End ExitNodeGate.

(** ** [control_url.rs] *)
Module ControlUrl.

Definition LOGIN_SERVER_SYNONYMS : list string :=
  ["https://login.tailscale.com"; "https://controlplane.tailscale.com"].

Definition normalize (url : option string) : option string :=
  match url with
  | None => None
  | Some u => if bool_decide (u ∈ LOGIN_SERVER_SYNONYMS) then None else Some u
  end.

Definition change_blocked (current proposed : option string) (running force_reauth : bool)
    : bool :=
  match proposed with
  | None => false
  | Some _ =>
      let changed := bool_decide (normalize current <> normalize proposed) in
      changed && running && negb force_reauth
  end.

(** Two prefs denote the same control server. *)
Definition same_server (a b : option string) : Prop :=
  a = b \/ ((a = None \/ exists u, a = Some u /\ u ∈ LOGIN_SERVER_SYNONYMS) /\
            (b = None \/ exists u, b = Some u /\ u ∈ LOGIN_SERVER_SYNONYMS)).

Lemma normalize_same a b : normalize a = normalize b <-> same_server a b.
Proof.
  unfold same_server, normalize. destruct a, b; repeat case_bool_decide; naive_solver.
Qed.

(** A control-server change is blocked exactly when an [up] names a URL
    of a different server than the current one while the node is running and
    does not force a re-authentication; the two login URLs and the unset
    default count as one server. *)
Theorem control_change_blocked_iff (current proposed : option string)
    (running force_reauth : bool) :
  change_blocked current proposed running force_reauth = true <->
  proposed <> None /\ ~ same_server current proposed /\ running = true /\ force_reauth = false.
Proof.
  unfold change_blocked. rewrite <- normalize_same. destruct proposed as [u|]; [|naive_solver].
  rewrite !andb_true_iff, bool_decide_eq_true, negb_true_iff. naive_solver.
Qed.

End ControlUrl.

(** ** [state.rs] *)
Module LifecycleState.

Inductive State : Type :=
| NoState
| NeedsLogin
| NeedsMachineAuth
| InUseOtherUser
| Starting
| Running
| Stopped.

#[global] Instance State_eq_dec : EqDecision State.
Proof. solve_decision. Defined.

Definition as_str (s : State) : string :=
  match s with
  | NoState => "NoState"
  | NeedsLogin => "NeedsLogin"
  | NeedsMachineAuth => "NeedsMachineAuth"
  | InUseOtherUser => "InUseOtherUser"
  | Starting => "Starting"
  | Running => "Running"
  | Stopped => "Stopped"
  end.

Definition derive_state_from (has_device have_self_node want_running logged_out has_node_key : bool)
    : State :=
  match has_device with
  | true => if have_self_node then Running else Starting
  | false =>
      if logged_out then NeedsLogin
      else if want_running then NeedsLogin
      else if has_node_key then Stopped
      else NoState
  end.

Section FromDevice.
(** The engine's registration error, its [is_permanent] and its rendering. *)
Context {RegistrationError : Type}.
Context (is_permanent : RegistrationError -> bool) (show_error : RegistrationError -> string).

(** [tailscale::DeviceState] as the daemon matches it, [DsUnknown] standing
    for the variants of a later engine. *)
Inductive DeviceState : Type :=
| DsRunning
| DsConnecting
| DsNeedsLogin (url : string)
| DsNeedsMachineAuth
| DsReauthenticating
| DsExpired
| DsFailed (e : RegistrationError)
| DsUnknown.

Definition state_from_device (ds : DeviceState) : State * option string * option string :=
  match ds with
  | DsRunning => (Running, None, None)
  | DsConnecting => (Starting, None, None)
  | DsNeedsLogin url => (NeedsLogin, Some url, None)
  | DsNeedsMachineAuth => (NeedsMachineAuth, None, None)
  | DsReauthenticating => (Starting, None, None)
  | DsExpired => (NeedsLogin, None, None)
  | DsFailed e =>
      if is_permanent e then (NeedsLogin, None, Some (show_error e))
      else (Starting, None, None)
  | DsUnknown => (Starting, None, None)
  end.

Definition notify_state_from_device (ds : DeviceState) : string * option string :=
  let '(state, _auth_url, error) := state_from_device ds in (as_str state, error).

Definition should_query_self_node (ds : DeviceState) (had_self : bool) : bool :=
  had_self || negb (match ds with
                    | DsConnecting | DsNeedsLogin _ | DsNeedsMachineAuth => true
                    | _ => false
                    end).

(** What a status says is never misleading: the login URL and the error
    are never both reported; a URL is reported exactly while an interactive
    login is pending; an error exactly when registration failed for good; both
    only with the state that asks for a login; and the node is reported
    running exactly when the engine says so. *)
Theorem state_report_consistent (ds : DeviceState) :
  let '(st, url, err) := state_from_device ds in
  (url = None \/ err = None) /\
  (url <> None \/ err <> None -> st = NeedsLogin) /\
  (forall u, url = Some u <-> ds = DsNeedsLogin u) /\
  (err <> None <-> exists e, ds = DsFailed e /\ is_permanent e = true) /\
  (st = Running <-> ds = DsRunning) /\
  st <> NoState /\ st <> Stopped /\ st <> InUseOtherUser.
Proof.
  unfold state_from_device. destruct ds as [| |url| | | |e|];
    try (destruct (is_permanent e) eqn:E); cbn;
    repeat match goal with |- _ /\ _ => split end; try done; try naive_solver.
  split; [done|]. intros (e' & [= <-] & He). congruence.
Qed.

End FromDevice.
End LifecycleState.

(** ** [selfupdate.rs]: the auto-update gate *)
Module AutoUpdate.

Inductive AutoUpdateRefusal : Type :=
| HomebrewOwned (formula : string)
| NoArtifact (platform : string).

Definition auto_update_refusal_for (homebrew_formula release_triple : option string)
    (platform : string) : option AutoUpdateRefusal :=
  match homebrew_formula with
  | Some formula => Some (HomebrewOwned formula)
  | None => if is_none release_triple then Some (NoArtifact platform) else None
  end.

(** [Some reason] refuses the opt-in; the remedy only ends the message. *)
Definition check_auto_update_pref (apply : option bool) (host_refusal : option AutoUpdateRefusal)
    : option AutoUpdateRefusal :=
  if bool_decide (apply <> Some true) then None else host_refusal.

End AutoUpdate.
