(* ===== verification/ExitNodeArg.v ===== *)
(** * Resolving an [--exit-node] value: [src/ipn/mod.rs]

    [validate_exit_node_selector], [resolve_exit_node_arg] and the peer
    matching they share, over the netmap facts the daemon reads once per
    command. *)
From Stdlib Require Import ZArith Lia Ascii String List.
From stdpp Require Import base list strings option.
From S2P Require Import Prelude Text NetAddr Prefs.

(** The fields of [localapi::PeerReport] the resolution reads. *)
Record PeerReport : Type := mkPeerReport {
  peer_name : string;
  peer_ipv4 : string;
  peer_ipv6 : option string;
  peer_is_exit_node : bool
}.

Record ExitNodeFacts : Type := mkExitNodeFacts {
  facts_running : bool;
  facts_self_ips : list IpAddr;
  facts_magic_dns_suffix : option string;
  facts_peers : list PeerReport
}.

Definition ExitNodeFacts_default : ExitNodeFacts := mkExitNodeFacts false [] None [].

(** The refusals, before they are rendered. *)
Inductive ExitArgError : Type :=
| AutoSelector (sel : string)
| EmptyValue
| LocalAddress (arg : string)
| NoNodeWithIp (ip : IpAddr)
| IpNotExitNode (ip : IpAddr)
| StartingUp
| NoTailscaleIp (arg : string)
| NameNotExitNode (arg : string)
| InvalidValue (arg : string)
| AmbiguousName (arg : string).

(** [sel.starts_with("auto:")]. *)
Definition validate_exit_node_selector (exit_node : option string) : result ExitArgError unit :=
  match exit_node with
  | Some sel => guard_err (String.prefix "auto:" sel) (AutoSelector sel)
  | None => Ok tt
  end.

Definition checked_sub (a b : nat) : option nat :=
  if Nat.leb b a then Some (a - b)%nat else None.

(** ** Matching a peer *)

Definition peer_matches_exit_node_name (peer : PeerReport) (arg : string)
    (magic_dns_suffix : option string) : bool :=
  let want := strip_dot (bs arg) in
  let fqdn := strip_dot (bs (peer_name peer)) in
  if eq_ignore_ascii_case want fqdn then true
  else
    match magic_dns_suffix with
    | None => false
    | Some suffix =>
        let suffix := strip_dot (bs suffix) in
        match checked_sub (length fqdn) (length suffix + 1) with
        | None => false
        | Some cut =>
            match get_prefix fqdn cut, get_suffix fqdn cut with
            | Some base, Some tail =>
                negb (bool_decide (base = []))
                && match tail with
                   | c :: t => Ascii.eqb c "." && eq_ignore_ascii_case t suffix
                   | [] => false
                   end
                && eq_ignore_ascii_case want base
            | _, _ => false
            end
        end
    end.

(** The peer's addresses, IPv4 first, blanks skipped. *)
Definition peer_tailnet_ips (peer : PeerReport) : list IpAddr :=
  let parse o := match o with Some s => option_list (parse_ip s) | None => [] end in
  parse (Some (peer_ipv4 peer)) ++ parse (peer_ipv6 peer).

Definition peer_has_ip (peer : PeerReport) (ip : IpAddr) : bool :=
  bool_decide (ip ∈ peer_tailnet_ips peer).

(** The name branch's loop: peers matched and the last address resolved, or
    the refusal raised inside it. *)
Fixpoint match_peers (arg : string) (suffix : option string) (peers : list PeerReport)
    (matched : nat) (resolved : option IpAddr) : result ExitArgError (nat * option IpAddr) :=
  match peers with
  | [] => Ok (matched, resolved)
  | peer :: rest =>
      if negb (peer_matches_exit_node_name peer arg suffix)
      then match_peers arg suffix rest matched resolved
      else
        match peer_tailnet_ips peer with
        | [] => Err (NoTailscaleIp arg)
        | peer_ip :: _ =>
            if negb (peer_is_exit_node peer) then Err (NameNotExitNode arg)
            else match_peers arg suffix rest (S matched) (Some peer_ip)
        end
  end.

Definition resolve_exit_node_arg (arg : string) (facts : ExitNodeFacts) : result ExitArgError unit :=
  if String.eqb arg "" then Err EmptyValue
  else
    match parse_ip arg with
    | Some ip =>
        if bool_decide (ip ∈ facts_self_ips facts) then Err (LocalAddress arg)
        else if negb (facts_running facts) then Ok tt
        else
          match List.find (fun p => peer_has_ip p ip) (facts_peers facts) with
          | None => Err (NoNodeWithIp ip)
          | Some p => if negb (peer_is_exit_node p) then Err (IpNotExitNode ip) else Ok tt
          end
    | None =>
        match facts_peers facts with
        | [] => Err StartingUp
        | peers =>
            '(matched, resolved) ← match_peers arg (facts_magic_dns_suffix facts) peers 0 None;
            match matched with
            | O => Err (InvalidValue arg)
            | 1%nat =>
                match resolved with
                | Some ip => if bool_decide (ip ∈ facts_self_ips facts)
                             then Err (LocalAddress arg) else Ok tt
                | None => Ok tt
                end
            | _ => Err (AmbiguousName arg)
            end
        end
    end.

(** [Backend::check_exit_node_arg], with the facts of one status snapshot. *)
Definition check_exit_node_arg (sel : string) (facts : ExitNodeFacts) : result ExitArgError unit :=
  _ ← validate_exit_node_selector (Some sel);
  resolve_exit_node_arg sel facts.

(** ** The loop's result *)

Definition named_peers (arg : string) (facts : ExitNodeFacts) : list PeerReport :=
  List.filter (fun p => peer_matches_exit_node_name p arg (facts_magic_dns_suffix facts))
    (facts_peers facts).

(** A matched peer the loop accepts. *)
Definition usable (p : PeerReport) : Prop :=
  peer_is_exit_node p = true /\ peer_tailnet_ips p <> [].

Lemma match_peers_spec arg suffix peers m0 r0 m r :
  match_peers arg suffix peers m0 r0 = Ok (m, r) <->
  let hits := List.filter (fun p => peer_matches_exit_node_name p arg suffix) peers in
  Forall usable hits /\ m = (m0 + length hits)%nat /\
  r = match list.last hits with Some p => list.head (peer_tailnet_ips p) | None => r0 end.
Proof.
  revert m0 r0. induction peers as [|p peers IH]; intros m0 r0; cbn [match_peers List.filter].
  - cbn. rewrite Nat.add_0_r. split; [intros [= <- <-]; split_and!; [constructor|done|done] |].
    intros (_ & -> & ->). done.
  - destruct (peer_matches_exit_node_name p arg suffix); cbn [negb]; [|apply IH].
    cbv zeta. rewrite Forall_cons_iff. unfold usable at 1.
    destruct (peer_tailnet_ips p) as [|ip ips] eqn:Ei; [naive_solver|].
    destruct (peer_is_exit_node p); cbn [negb]; [|naive_solver].
    rewrite IH. cbv zeta. cbn [length].
    rewrite Nat.add_succ_r. cbn [Nat.add].
    destruct (list.last (List.filter _ peers)) eqn:El.
    + rewrite list.last_cons, El. naive_solver.
    + apply list.last_None in El. rewrite El, list.last_singleton, Ei. cbn [list.last list.head length]. naive_solver.
Qed.

Lemma resolve_name_ok sel facts :
  match facts_peers facts with
  | [] => Err StartingUp
  | peers =>
      '(matched, resolved) ← match_peers sel (facts_magic_dns_suffix facts) peers 0 None;
      match matched with
      | O => Err (InvalidValue sel)
      | 1%nat =>
          match resolved with
          | Some ip => if bool_decide (ip ∈ facts_self_ips facts)
                       then Err (LocalAddress sel) else Ok tt
          | None => Ok tt
          end
      | _ => Err (AmbiguousName sel)
      end
  end = Ok tt <->
  exists p ip rest, named_peers sel facts = [p] /\ peer_is_exit_node p = true /\
    peer_tailnet_ips p = ip :: rest /\ ip ∉ facts_self_ips facts.
Proof.
  unfold named_peers. set (peers := facts_peers facts).
  assert (Hmain : ('(matched, resolved) ← match_peers sel (facts_magic_dns_suffix facts) peers 0 None;
      match matched with
      | O => Err (InvalidValue sel)
      | 1%nat =>
          match resolved with
          | Some ip => if bool_decide (ip ∈ facts_self_ips facts)
                       then Err (LocalAddress sel) else Ok tt
          | None => Ok tt
          end
      | _ => Err (AmbiguousName sel)
      end) = Ok tt <->
    exists p ip rest,
      List.filter (fun p => peer_matches_exit_node_name p sel (facts_magic_dns_suffix facts)) peers
        = [p] /\ peer_is_exit_node p = true /\
      peer_tailnet_ips p = ip :: rest /\ ip ∉ facts_self_ips facts).
  { rewrite bind_ok. split.
    - intros ([m r] & Hm & Hok). apply match_peers_spec in Hm as (Hu & -> & ->).
      destruct (List.filter _ peers) as [|p [|]]; [done| |done].
      apply Forall_inv in Hu as [Hx Hips].
      rewrite list.last_singleton in Hok. cbn [length Nat.add] in Hok.
      destruct (peer_tailnet_ips p) as [|ip rest] eqn:Ei; [done|].
      cbn [list.head] in Hok.
      case_bool_decide; [done|]. by exists p, ip, rest.
    - intros (p & ip & rest & Hf & Hx & Hi & Hn).
      exists (1%nat, Some ip). split; [|by rewrite bool_decide_false].
      apply match_peers_spec. cbv zeta. rewrite Hf, list.last_singleton, Hi.
      split_and!; [|done|done]. apply Forall_cons_2; [|by apply Forall_nil_2].
      split; [done|]. by rewrite Hi. }
  destruct peers as [|p0 peers]; [|exact Hmain].
  split; [done|]. by intros (? & ? & ? & ? & _).
Qed.

(** An accepted exit-node value names something the node can egress
    through: a non-[auto:] address that is not ours and, once running, is held
    by a peer offering an exit; or a name that exactly one peer answers to,
    that peer offering an exit and holding a tailnet address that is not ours.
    Everything else is refused. *)
Theorem exit_arg_accepted_iff (sel : string) (facts : ExitNodeFacts) :
  check_exit_node_arg sel facts = Ok tt <->
  String.prefix "auto:" sel = false /\ sel <> "" /\
  match parse_ip sel with
  | Some ip =>
      ip ∉ facts_self_ips facts /\
      (facts_running facts = true ->
       exists p, List.find (fun p => peer_has_ip p ip) (facts_peers facts) = Some p /\
                 peer_is_exit_node p = true)
  | None =>
      exists p ip rest, named_peers sel facts = [p] /\ peer_is_exit_node p = true /\
        peer_tailnet_ips p = ip :: rest /\ ip ∉ facts_self_ips facts
  end.
Proof.
  unfold check_exit_node_arg, validate_exit_node_selector.
  destruct (String.prefix "auto:" sel); [naive_solver|]. cbn [guard_err mbind result_bind].
  unfold resolve_exit_node_arg. destruct (String.eqb_spec sel ""); [naive_solver|].
  destruct (parse_ip sel) as [ip|].
  - case_bool_decide; [naive_solver|]. destruct (facts_running facts); cbn [negb]; [|naive_solver].
    destruct (List.find _ _) as [p|]; [|naive_solver].
    destruct (peer_is_exit_node p) eqn:Ex; cbn [negb]; [naive_solver|].
    split; [done|]. intros (_ & _ & _ & Hr). destruct (Hr eq_refl) as (p' & [= <-] & ?). congruence.
  - rewrite <- (resolve_name_ok sel facts). naive_solver.
Qed.

Definition exit_facts_example : ExitNodeFacts :=
  mkExitNodeFacts true [V4 (ipv4 100 64 0 1)] (Some "tail0123.ts.net.")
    [mkPeerReport "gw.tail0123.ts.net." "100.64.0.9" None true;
     mkPeerReport "laptop.tail0123.ts.net." "100.64.0.7" None false].

Example exit_arg_base_name : check_exit_node_arg "GW" exit_facts_example = Ok tt.
Proof. vm_compute. reflexivity. Qed.
Example exit_arg_not_exit : check_exit_node_arg "laptop" exit_facts_example
  = Err (NameNotExitNode "laptop").
Proof. vm_compute. reflexivity. Qed.
Example exit_arg_self : check_exit_node_arg "100.64.0.1" exit_facts_example
  = Err (LocalAddress "100.64.0.1").
Proof. vm_compute. reflexivity. Qed.
