(* ===== verification/Profiles.v ===== *)
(** * Login profiles: [src/ipn/profile.rs]

    The profile ids (safe path components), the display-name resolver behind
    [switch], the draw of a fresh id, the on-disk paths and the pointer file.
    A [BTreeMap] is an association list sorted by key. *)
From Stdlib Require Import ZArith Lia Ascii String List.
From stdpp Require Import base list strings option.
From S2P Require Import Prelude NetAddr Text.

Definition DEFAULT_PROFILE_ID : string := "default".

(** [ProfilesFile::profiles]: id to display name, in id order. *)
Definition ProfilesFile : Type := list (string * string).

(** ** The map operations the daemon uses *)

Definition pf_get (meta : ProfilesFile) (id : string) : option string :=
  snd <$> List.find (fun e => String.eqb (fst e) id) meta.

Definition contains_key (meta : ProfilesFile) (id : string) : bool :=
  match pf_get meta id with Some _ => true | None => false end.

Fixpoint pf_insert (id name : string) (meta : ProfilesFile) : ProfilesFile :=
  match meta with
  | [] => [(id, name)]
  | (k, v) :: rest =>
      match String.compare id k with
      | Lt => (id, name) :: meta
      | Eq => (id, name) :: rest
      | Gt => (k, v) :: pf_insert id name rest
      end
  end.

(** [entry(id).or_default()]. *)
Definition pf_or_default (id : string) (meta : ProfilesFile) : ProfilesFile :=
  if contains_key meta id then meta else pf_insert id "" meta.

Definition pf_remove (id : string) (meta : ProfilesFile) : ProfilesFile :=
  List.filter (fun e => negb (String.eqb (fst e) id)) meta.

(** ** Ids *)

Definition is_ascii_alphabetic (c : ascii) : bool :=
  ((65 <=? byte_val c) && (byte_val c <=? 90)) || ((97 <=? byte_val c) && (byte_val c <=? 122)).
Definition is_ascii_alphanumeric (c : ascii) : bool :=
  is_ascii_alphabetic c || is_ascii_digit c.

Definition id_char (c : ascii) : bool :=
  is_ascii_alphanumeric c || Ascii.eqb c "-" || Ascii.eqb c "_".

(** Every byte of a non-ASCII character fails [id_char], so testing the bytes
    is testing the characters. *)
Definition is_valid_profile_id (id : string) : bool :=
  negb (String.eqb id "") && Nat.leb (String.length id) 64 && forallb id_char (bs id).

Definition resolve_target_to_id (target : string) (meta : ProfilesFile) : option string :=
  if is_valid_profile_id target
     && (String.eqb target DEFAULT_PROFILE_ID || contains_key meta target)
  then Some target
  else fst <$> List.find (fun e => String.eqb (snd e) target && is_valid_profile_id (fst e)) meta.

(** [format!("{hi:02x}{lo:02x}")]. *)
Definition hex2 (b : Z) : bytes := [hex_char (b / 16); hex_char (b mod 16)].
Definition id_of_draw (hi lo : Z) : string := String.string_of_list_ascii (hex2 hi ++ hex2 lo).

(** The draw loop: the source of random bytes yields one draw per turn, at
    most [turns] of them. *)
Fixpoint unused_profile_id_loop {E} (turns : nat) (meta : ProfilesFile)
    (draw : nat -> result E (Z * Z)) (i : nat) : result E (option string) :=
  match turns with
  | O => Ok None
  | S turns' =>
      '(hi, lo) ← draw i;
      let id := id_of_draw hi lo in
      match resolve_target_to_id id meta with
      | None => Ok (Some id)
      | Some _ => unused_profile_id_loop turns' meta draw (S i)
      end
  end.

Definition unused_profile_id {E} (meta : ProfilesFile) (draw : nat -> result E (Z * Z))
    : result E (option string) :=
  unused_profile_id_loop 256 meta draw 0.

(** ** Paths and the pointer file *)

(** Paths below the state directory, as components. *)
Definition profile_paths (id : string) : list string * list string :=
  if String.eqb id DEFAULT_PROFILE_ID then (["prefs.json"], ["node.key.json"])
  else (["profiles"; id; "prefs.json"], ["profiles"; id; "node.key.json"]).

(** [load_current_profile] over the pointer file's text, [None] when it is
    missing or unreadable. *)
Definition load_current_profile (pointer : option string) : string :=
  match pointer with
  | Some s =>
      let id := String.string_of_list_ascii (trim (bs s)) in
      if is_valid_profile_id id then id else DEFAULT_PROFILE_ID
  | None => DEFAULT_PROFILE_ID
  end.

(** ** Lemmas: the map *)

Lemma pf_get_insert id name meta k :
  pf_get (pf_insert id name meta) k = if String.eqb id k then Some name else pf_get meta k.
Proof.
  unfold pf_get. induction meta as [|[x v] meta IH]; cbn [pf_insert List.find fst].
  - by destruct (String.eqb id k).
  - destruct (String.compare id x) eqn:E; cbn [List.find fst].
    + apply String.compare_eq_iff in E as ->. by destruct (String.eqb x k).
    + by destruct (String.eqb id k).
    + destruct (String.eqb_spec x k) as [->|]; [|exact IH].
      destruct (String.eqb_spec id k) as [->|]; [|done].
      by rewrite string_compare_refl in E.
Qed.

Lemma pf_get_remove id meta k :
  pf_get (pf_remove id meta) k = if String.eqb id k then None else pf_get meta k.
Proof.
  unfold pf_get, pf_remove. induction meta as [|[x v] meta IH]; cbn [List.filter List.find fst].
  - by destruct (String.eqb id k).
  - destruct (String.eqb_spec x id) as [->|]; cbn [negb List.find fst].
    + rewrite IH. by destruct (String.eqb id k).
    + destruct (String.eqb_spec x k) as [->|]; [|exact IH].
      destruct (String.eqb_spec id k); [congruence|done].
Qed.

Lemma pf_or_default_get id meta k :
  pf_get (pf_or_default id meta) k
  = if String.eqb id k then Some (default "" (pf_get meta id)) else pf_get meta k.
Proof.
  unfold pf_or_default, contains_key. destruct (pf_get meta id) as [v|] eqn:E.
  - destruct (String.eqb_spec id k) as [->|]; [|done]. by rewrite E.
  - rewrite pf_get_insert. by destruct (String.eqb id k).
Qed.

(** ** Lemmas: ids *)

Lemma bs_of_list a : bs (String.string_of_list_ascii a) = a.
Proof. apply String.list_ascii_of_string_of_list_ascii. Qed.

Lemma default_id_valid : is_valid_profile_id DEFAULT_PROFILE_ID = true.
Proof. reflexivity. Qed.

Lemma hex_char_id d : 0 <= d < 16 -> id_char (hex_char d) = true.
Proof.
  intros H.
  assert (Hall : forallb (fun n => id_char (hex_char (Z.of_nat n))) (seq 0 16) = true)
    by reflexivity.
  rewrite forallb_forall in Hall. specialize (Hall (Z.to_nat d)). rewrite Z2Nat.id in Hall by lia.
  apply Hall, in_seq. lia.
Qed.

Lemma id_of_draw_valid hi lo : 0 <= hi < 256 -> 0 <= lo < 256 ->
  is_valid_profile_id (id_of_draw hi lo) = true.
Proof.
  intros Hhi Hlo. unfold is_valid_profile_id, id_of_draw. rewrite bs_of_list.
  unfold hex2. cbn [app forallb]. rewrite !hex_char_id; [reflexivity|..];
    first [by apply Z.mod_pos_bound | split; [apply Z.div_pos; lia | apply Z.div_lt_upper_bound; lia]].
Qed.

Lemma resolve_valid target meta id :
  resolve_target_to_id target meta = Some id -> is_valid_profile_id id = true.
Proof.
  unfold resolve_target_to_id. destruct (is_valid_profile_id target) eqn:E; cbn [andb].
  - destruct (_ || _); [intros [= <-]; done|].
    destruct (List.find _ _) as [e|] eqn:F; cbn; [|done]. intros [= <-].
    apply find_some in F as [_ F]. by apply andb_true_iff in F as [_ F].
  - destruct (List.find _ _) as [e|] eqn:F; cbn; [|done]. intros [= <-].
    apply find_some in F as [_ F]. by apply andb_true_iff in F as [_ F].
Qed.

(** A profile the map (or the default) knows by this id. *)
Definition known_profile (meta : ProfilesFile) (id : string) : Prop :=
  id = DEFAULT_PROFILE_ID \/ contains_key meta id = true.

Lemma find_fst_contains meta (f : string * string -> bool) e :
  List.find f meta = Some e -> contains_key meta (fst e) = true.
Proof.
  intros [Hin _]%find_some. unfold contains_key, pf_get.
  destruct (List.find (fun x => String.eqb (fst x) (fst e)) meta) as [y|] eqn:F; [done|].
  pose proof (find_none _ _ F e Hin) as Hn. cbn in Hn. by rewrite String.eqb_refl in Hn.
Qed.

(** ** The properties *)

(** A name the operator types never leaves the state directory and never
    reaches the wrong profile: what it resolves to is a valid id of a known
    profile; an id always wins over a display name; an unknown target is
    refused. *)
Theorem resolve_target_sound (target : string) (meta : ProfilesFile) :
  match resolve_target_to_id target meta with
  | Some id =>
      is_valid_profile_id id = true /\ known_profile meta id /\
      (id = target \/ exists name, In (id, name) meta /\ name = target)
  | None =>
      ~ (is_valid_profile_id target = true /\ known_profile meta target) /\
      forall id, In (id, target) meta -> is_valid_profile_id id = false
  end /\
  (is_valid_profile_id target = true -> known_profile meta target ->
   resolve_target_to_id target meta = Some target).
Proof.
  pose proof (resolve_valid target meta) as Hvalid. revert Hvalid.
  unfold resolve_target_to_id, known_profile.
  destruct (is_valid_profile_id target && _) eqn:E.
  - intros Hvalid. apply andb_true_iff in E as [Ev Ek].
    apply orb_true_iff in Ek. rewrite String.eqb_eq in Ek. auto.
  - intros Hvalid.
    assert (Hunknown : ~ (is_valid_profile_id target = true /\
        (target = DEFAULT_PROFILE_ID \/ contains_key meta target = true))).
    { intros [Hv Hk]. rewrite Hv in E. apply orb_false_iff in E as [Ed Ek].
      apply String.eqb_neq in Ed. naive_solver congruence. }
    split; [|intros; exfalso; by apply Hunknown].
    destruct (List.find _ meta) as [[id name]|] eqn:F; cbn [fmap option_fmap option_map fst].
    + split; [by apply Hvalid|]. split; [right; by apply (find_fst_contains _ _ _ F)|].
      right. exists name. apply find_some in F as [Hin F]. apply andb_true_iff in F as [F _].
      by apply String.eqb_eq in F.
    + split; [done|]. intros id Hin. pose proof (find_none _ _ F _ Hin) as Hn. cbn in Hn.
      by rewrite String.eqb_refl in Hn.
Qed.

(** The draws seen, whatever ends them. *)
Lemma unused_loop_fresh {E} (meta : ProfilesFile) (draw : nat -> result E (Z * Z)) turns i :
  (forall i hi lo, draw i = Ok (hi, lo) -> 0 <= hi < 256 /\ 0 <= lo < 256) ->
  match unused_profile_id_loop turns meta draw i with
  | Ok (Some id) => is_valid_profile_id id = true /\ resolve_target_to_id id meta = None /\
                    String.length id = 4%nat
  | Ok None => forall j, (i <= j < i + turns)%nat ->
                 exists hi lo, draw j = Ok (hi, lo) /\
                               resolve_target_to_id (id_of_draw hi lo) meta <> None
  | Err e => exists j, (i <= j < i + turns)%nat /\ draw j = Err e
  end.
Proof.
  intros Hr. revert i. induction turns as [|turns IH]; intros i; cbn [unused_profile_id_loop]; [lia|].
  destruct (draw i) as [[hi lo]|e] eqn:Ed; cbn [mbind result_bind]; [|exists i; split; [lia|done]].
  destruct (Hr _ _ _ Ed) as [Hhi Hlo].
  destruct (resolve_target_to_id (id_of_draw hi lo) meta) as [k|] eqn:Ek.
  - specialize (IH (S i)). destruct (unused_profile_id_loop turns meta draw (S i)) as [[id|]|e].
    + done.
    + intros j Hj. destruct (decide (j = i)) as [->|]; [|apply IH; lia].
      exists hi, lo. by rewrite Ek.
    + destruct IH as (j & Hj & Hd). exists j. split; [lia|done].
  - split; [by apply id_of_draw_valid|]. by split.
Qed.

(** Drawing a fresh profile id always ends, and what it yields is safe to
    use: a valid id, of four hexadecimal digits, that no existing profile
    answers to by id or display name; it gives up only after 256 draws that
    all hit taken ids. *)
Theorem unused_profile_id_fresh {E} (meta : ProfilesFile) (draw : nat -> result E (Z * Z)) :
  (forall i hi lo, draw i = Ok (hi, lo) -> 0 <= hi < 256 /\ 0 <= lo < 256) ->
  match unused_profile_id meta draw with
  | Ok (Some id) => is_valid_profile_id id = true /\ resolve_target_to_id id meta = None /\
                    String.length id = 4%nat
  | Ok None => forall i, (i < 256)%nat ->
                 exists hi lo, draw i = Ok (hi, lo) /\
                               resolve_target_to_id (id_of_draw hi lo) meta <> None
  | Err e => exists i, (i < 256)%nat /\ draw i = Err e
  end.
Proof.
  intros Hr. unfold unused_profile_id.
  pose proof (unused_loop_fresh meta draw 256 0 Hr) as Hloop.
  destruct (unused_profile_id_loop 256 meta draw 0) as [[id|]|e]; [done| |].
  - intros i Hi. apply Hloop. lia.
  - destruct Hloop as (j & Hj & Hd). exists j. split; [lia|done].
Qed.

Definition draw_example (i : nat) : result unit (Z * Z) :=
  match i with O => Ok (190, 239) | 1%nat => Ok (10, 11) | _ => Ok (1, 44) end.

Lemma unused_profile_id_fresh_witness :
  unused_profile_id [("beef", ""); ("cafe", "0a0b")] draw_example = Ok (Some "012c") /\
  is_valid_profile_id "012c" = true /\
  resolve_target_to_id "012c" [("beef", ""); ("cafe", "0a0b")] = None /\
  String.length "012c" = 4%nat.
Proof.
  split; [vm_compute; reflexivity|].
  apply (unused_profile_id_fresh [("beef", ""); ("cafe", "0a0b")] draw_example).
  intros [|[|i]] hi lo [= <- <-]; lia.
Defined.

(** Two profiles never share a file. *)
Lemma profile_paths_disjoint (a b : string) : a <> b ->
  fst (profile_paths a) <> fst (profile_paths b) /\
  snd (profile_paths a) <> snd (profile_paths b) /\
  fst (profile_paths a) <> snd (profile_paths b).
Proof.
  intros Hne. unfold profile_paths.
  destruct (String.eqb_spec a DEFAULT_PROFILE_ID), (String.eqb_spec b DEFAULT_PROFILE_ID);
    cbn [fst snd]; split_and!; congruence.
Qed.

(** A byte that may stand in an id neither starts nor ends whitespace. *)
Lemma id_char_no_ws c : id_char c = true ->
  no_ws_head WHITESPACE c = true /\ no_ws_head (map (@rev Z) WHITESPACE) c = true.
Proof. destruct c as [[] [] [] [] [] [] [] []]; vm_compute; auto. Qed.

Lemma trim_id s : forallb id_char s = true -> trim s = s.
Proof.
  intros H. unfold trim.
  assert (Hhead : forall l, forallb id_char l = true -> forall encodings,
    encodings = WHITESPACE \/ encodings = map (@rev Z) WHITESPACE ->
    match l with [] => True | c :: _ => no_ws_head encodings c = true end).
  { intros [|c l] Hl encodings He; [done|]. cbn in Hl. apply andb_true_iff in Hl as [Hc _].
    destruct (id_char_no_ws c Hc), He; by subst. }
  rewrite (trim_start_id WHITESPACE); [|exact (Hhead s H _ (or_introl eq_refl))|by left].
  rewrite trim_start_id; [apply rev_involutive| |by right].
  refine (Hhead (rev s) _ _ (or_intror eq_refl)). rewrite forallb_forall in *. intros c Hc. apply H. by apply in_rev.
Qed.

Definition NEWLINE : ascii := "010"%char.

Lemma trim_newline s : s <> [] -> forallb id_char s = true -> trim (s ++ [NEWLINE]) = s.
Proof.
  intros Hne H. unfold trim.
  rewrite (trim_start_id WHITESPACE); [|destruct s as [|c s]; [done|]|by left].
  2:{ cbn in H. apply andb_true_iff in H as [Hc _]. by apply id_char_no_ws. }
  rewrite length_app, rev_app_distr. cbn [length rev app]. rewrite Nat.add_1_r.
  change (trim_start_fuel (map (@rev Z) WHITESPACE) (S (length s)) (NEWLINE :: rev s))
    with (trim_start_fuel (map (@rev Z) WHITESPACE) (length s) (rev s)).
  rewrite trim_start_id; [apply rev_involutive| |by right].
  destruct (rev s) as [|c r] eqn:E; [done|]. apply id_char_no_ws.
  rewrite forallb_forall in H. apply H, in_rev. rewrite E. by left.
Qed.

Lemma id_of_bytes id : String.string_of_list_ascii (bs id) = id.
Proof. apply String.string_of_list_ascii_of_string. Qed.

Lemma valid_id_bytes id : is_valid_profile_id id = true -> bs id <> [] /\ forallb id_char (bs id) = true.
Proof.
  intros Hv. pose proof Hv as Hc. unfold is_valid_profile_id in Hc.
  apply andb_true_iff in Hc as [_ Hc]. split; [|done]. intros E.
  rewrite <- (id_of_bytes id), E in Hv. done.
Qed.

Lemma pointer_reads_back id : is_valid_profile_id id = true -> load_current_profile (Some id) = id.
Proof.
  intros Hv. unfold load_current_profile. destruct (valid_id_bytes id Hv) as [_ Hc].
  by rewrite trim_id, id_of_bytes, Hv.
Qed.

Lemma load_current_profile_valid text : is_valid_profile_id (load_current_profile text) = true.
Proof.
  unfold load_current_profile. destruct text as [s|]; [|done].
  by destruct (is_valid_profile_id (String.string_of_list_ascii _)) eqn:E.
Qed.

(** The active profile survives a restart: the pointer written for a valid
    id reads back as that id, with or without a trailing newline, and whatever
    the file holds, or if there is none, the id read is a valid one. *)
Theorem pointer_roundtrip (id : string) :
  is_valid_profile_id id = true ->
  load_current_profile (Some id) = id /\
  load_current_profile (Some (String.string_of_list_ascii (bs id ++ [NEWLINE]))) = id /\
  load_current_profile None = DEFAULT_PROFILE_ID /\
  forall text, is_valid_profile_id (load_current_profile text) = true.
Proof.
  intros Hv. split_and!; [by apply pointer_reads_back | | done | apply load_current_profile_valid].
  destruct (valid_id_bytes id Hv) as [Hne Hc]. unfold load_current_profile.
  by rewrite bs_of_list, trim_newline, id_of_bytes, Hv.
Qed.

Lemma pointer_roundtrip_witness :
  load_current_profile (Some "work-2") = "work-2" /\
  load_current_profile (Some (String.string_of_list_ascii (bs "work-2" ++ [NEWLINE]))) = "work-2" /\
  load_current_profile None = DEFAULT_PROFILE_ID /\
  forall text, is_valid_profile_id (load_current_profile text) = true.
Proof. apply (pointer_roundtrip "work-2"). vm_compute. reflexivity. Defined.
