(* ===== verification/EngineConfig.v ===== *)
(** * From prefs to the engine's config: [src/ipn/config.rs]

    [build_config] turns the prefs and the key file into the engine's
    immutable construction config, or refuses loudly.  The engine's defaults,
    its key-file loader and the URL and prefix parsers are third-party code;
    the build features and the host's privileges are facts of the host. *)
From Stdlib Require Import ZArith Lia Ascii String List.
From stdpp Require Import base list strings option.
From coqutil Require Datatypes.RecordSettersUsingExistingGetters.
Import coqutil.Datatypes.RecordSettersUsingExistingGetters.RecordSetNotations1.
From S2P Require Import Prelude NetAddr Prefs Routes.

(** A node key, by its identity, and what [node.key.json] holds. *)
Definition Key : Type := Z.
Inductive KeyFile : Type :=
| KeyState (k : Key)
| Malformed.

#[global] Instance KeyFile_eq_dec : EqDecision KeyFile.
Proof. solve_decision. Defined.

(** [key_file_has_node_key]: a pure read; only a parsed key state counts. *)
Definition key_file_has_node_key (f : option KeyFile) : bool :=
  match f with Some (KeyState _) => true | _ => false end.

(** [url::Url] through [scheme()]. *)
Record Url : Type := mkUrl { url_text : string; url_scheme : string }.

Inductive TransportMode : Type :=
| Netstack
| Tun (name : option string) (mtu : option Z).

(** The fields of [tailscale::Config] the daemon writes. *)
Record Config : Type := mkConfig {
  key_state : Key;
  requested_hostname : option string;
  cfg_ephemeral : bool;
  cfg_accept_routes : bool;
  cfg_accept_dns : bool;
  block_incoming : bool;
  cfg_exit_node : option string;
  cfg_advertise_exit_node : bool;
  cfg_advertise_routes : list IpNet;
  requested_tags : list string;
  cfg_advertise_app_connector : bool;
  cfg_auto_update_apply : option bool;
  cfg_auto_update_check : bool;
  cfg_operator_user : option string;
  cfg_node_nickname : option string;
  cfg_posture_checking : bool;
  cfg_run_web_client : bool;
  cfg_exit_node_allow_lan_access : bool;
  control_server_url : option Url;
  allow_http_key_fetch : bool;
  transport_mode : TransportMode;
  cfg_taildrop_dir : option string;
  wireguard_listen_port : option Z
}.

Inductive ConfigError : Type :=
| LoadKeyFile
| InvalidAdvertiseRoute (s : string)
| InvalidControlUrl (s : string)
| ControlUrlScheme (s scheme : string)
| TunNotBuilt
| TunPrivilege
| SshBarred
| SshNotBuilt
| SshNotRoot.

(** The host, its build and the third-party code [build_config] calls.
    [load_key_file] yields the key, or fails, and the file it leaves. *)
Record Host : Type := mkHost {
  default_from_env : Config;
  load_key_file : option KeyFile -> option Key * option KeyFile;
  parse_net : string -> option IpNet;
  parse_url : string -> option Url;
  feature_tun : bool;
  feature_ssh : bool;
  tun_privileged : bool;
  can_run_ssh : bool;
  is_root : bool;
  default_tun_name : option string
}.

(** What the daemon relies on of the engine's loader: a stored key is
    resumed, a missing file is created with the key it returns, and a failed
    load leaves the file alone. *)
Record HostLaws (h : Host) : Prop := mkHostLaws {
  load_resumes k : load_key_file h (Some (KeyState k)) = (Some k, Some (KeyState k));
  load_creates k f : load_key_file h None = (Some k, f) -> f = Some (KeyState k);
  load_fails f f' : load_key_file h f = (None, f') -> f' = f;
  load_malformed : load_key_file h (Some Malformed) = (None, Some Malformed)
}.

(** [.map(parse).collect::<Result<Vec<_>>>()]: the first bad route fails it. *)
Fixpoint parse_routes (parse : string -> option IpNet) (l : list string)
    : result ConfigError (list IpNet) :=
  match l with
  | [] => Ok []
  | s :: l' =>
      n ← ok_or (InvalidAdvertiseRoute s) (parse s);
      ns ← parse_routes parse l';
      Ok (n :: ns)
  end.

Definition apply_control_url (h : Host) (p : Prefs) (c : Config) : result ConfigError Config :=
  match control_url p with
  | None => Ok c
  | Some s =>
      url ← ok_or (InvalidControlUrl s) (parse_url h s);
      _ ← guard_err (negb (bool_decide (url_scheme url ∈ ["http"; "https"])))
            (ControlUrlScheme s (url_scheme url));
      Ok (c <| allow_http_key_fetch := String.eqb (url_scheme url) "http" |>
            <| control_server_url := Some url |>)
  end.

Definition apply_tun (h : Host) (p : Prefs) (c : Config) : result ConfigError Config :=
  if negb (tun_enabled p) then Ok c
  else
    _ ← guard_err (negb (feature_tun h)) TunNotBuilt;
    _ ← guard_err (negb (tun_privileged h)) TunPrivilege;
    let name := match tun_name p with Some n => Some n | None => default_tun_name h end in
    Ok (c <| transport_mode := Tun name (tun_mtu p) |>).

Definition ssh_preflight (h : Host) (p : Prefs) : result ConfigError unit :=
  if negb (ssh_enabled p) then Ok tt
  else
    _ ← guard_err (negb (can_run_ssh h)) SshBarred;
    _ ← guard_err (negb (feature_ssh h)) SshNotBuilt;
    guard_err (negb (is_root h)) SshNotRoot.

(** [build_config] after the key is loaded. *)
Definition config_of_prefs (h : Host) (p : Prefs) (k : Key) (listen_port : option Z)
    : result ConfigError Config :=
  let c := (default_from_env h) <| key_state := k |>
    <| requested_hostname := hostname p |>
    <| cfg_ephemeral := ephemeral p |>
    <| cfg_accept_routes := accept_routes p |>
    <| cfg_accept_dns := accept_dns p |>
    <| block_incoming := shields_up p |> in
  let c := match exit_node p with
           | Some s => c <| cfg_exit_node := Some s |>
           | None => c
           end in
  let c := c <| cfg_advertise_exit_node := advertise_exit_node p |> in
  routes ← parse_routes (parse_net h) (advertise_routes p);
  let c := c <| cfg_advertise_routes := routes |>
    <| requested_tags := advertise_tags p |>
    <| cfg_advertise_app_connector := advertise_app_connector p |>
    <| cfg_auto_update_apply := auto_update_apply p |>
    <| cfg_auto_update_check := auto_update_check p |>
    <| cfg_operator_user := operator_user p |>
    <| cfg_node_nickname := node_nickname p |>
    <| cfg_posture_checking := posture_checking p |>
    <| cfg_run_web_client := run_web_client p |>
    <| cfg_exit_node_allow_lan_access := exit_node_allow_lan_access p |> in
  c ← apply_control_url h p c;
  c ← apply_tun h p c;
  _ ← ssh_preflight h p;
  Ok (c <| cfg_taildrop_dir := taildrop_dir p |> <| wireguard_listen_port := listen_port |>).

(** [build_config]: the key file it leaves and the config or the refusal. *)
Definition build_config (h : Host) (p : Prefs) (key_file : option KeyFile)
    (listen_port : option Z) : option KeyFile * result ConfigError Config :=
  match load_key_file h key_file with
  | (None, f) => (f, Err LoadKeyFile)
  | (Some k, f) => (f, config_of_prefs h p k listen_port)
  end.

(** ** Properties *)

(** The prefs the host can honour. *)
Definition honourable (h : Host) (p : Prefs) : Prop :=
  Forall (fun s => parse_net h s <> None) (advertise_routes p) /\
  (forall s, control_url p = Some s ->
     exists u, parse_url h s = Some u /\ url_scheme u ∈ ["http"; "https"]) /\
  (tun_enabled p = true -> feature_tun h = true /\ tun_privileged h = true) /\
  (ssh_enabled p = true -> can_run_ssh h = true /\ feature_ssh h = true /\ is_root h = true).

Lemma parse_routes_ok parse l : is_ok (parse_routes parse l) = true <->
  Forall (fun s => parse s <> None) l.
Proof.
  induction l as [|s l IH]; cbn [parse_routes]; [split; [by intros; constructor|done]|].
  rewrite Forall_cons_iff, <- IH. destruct (parse s); cbn; [|naive_solver].
  destruct (parse_routes parse l); cbn; naive_solver.
Qed.

Lemma apply_control_url_ok h p c : is_ok (apply_control_url h p c) = true <->
  (forall s, control_url p = Some s ->
     exists u, parse_url h s = Some u /\ url_scheme u ∈ ["http"; "https"]).
Proof.
  unfold apply_control_url. destruct (control_url p) as [s|]; [|naive_solver].
  destruct (parse_url h s) as [u|] eqn:E; cbn [ok_or mbind result_bind].
  - case_bool_decide as Hs; cbn; split; try done.
    + intros _ s' [= <-]. eauto.
    + intros H. destruct (H s eq_refl) as (u' & Hu & Hin). congruence.
  - split; [done|]. intros H. destruct (H s eq_refl) as (u & Hu & _). congruence.
Qed.

Lemma apply_tun_ok h p c : is_ok (apply_tun h p c) = true <->
  (tun_enabled p = true -> feature_tun h = true /\ tun_privileged h = true).
Proof.
  unfold apply_tun. destruct (tun_enabled p), (feature_tun h), (tun_privileged h); cbn; naive_solver.
Qed.

Lemma ssh_preflight_ok h p : is_ok (ssh_preflight h p) = true <->
  (ssh_enabled p = true -> can_run_ssh h = true /\ feature_ssh h = true /\ is_root h = true).
Proof.
  unfold ssh_preflight.
  destruct (ssh_enabled p), (can_run_ssh h), (feature_ssh h), (is_root h); cbn; naive_solver.
Qed.

Lemma is_ok_bind {E A B} (m : result E A) (f : A -> result E B) :
  is_ok (m ≫= f) = true <-> exists a, m = Ok a /\ is_ok (f a) = true.
Proof. destruct m; cbn; naive_solver. Qed.

Lemma is_ok_ex {E A} (m : result E A) : is_ok m = true <-> exists a, m = Ok a.
Proof. destruct m; cbn; naive_solver. Qed.

Lemma load_key_leaves h f k f' : HostLaws h ->
  load_key_file h f = (Some k, f') -> f' = Some (KeyState k).
Proof.
  intros Hl H. destruct f as [[k'|]|].
  - rewrite (load_resumes h Hl) in H. congruence.
  - rewrite (load_malformed h Hl) in H. congruence.
  - exact (load_creates h Hl _ _ H).
Qed.

Lemma config_of_prefs_ok h p k port :
  is_ok (config_of_prefs h p k port) = true <-> honourable h p.
Proof.
  unfold config_of_prefs, honourable. cbv zeta.
  rewrite is_ok_bind. rewrite <- parse_routes_ok, is_ok_ex. split.
  - intros (rs & Hr & H). apply is_ok_bind in H as (c1 & Hc & H).
    apply is_ok_bind in H as (c2 & Ht & H). apply is_ok_bind in H as (u & Hs & _).
    split_and!; [by exists rs| | |].
    + eapply apply_control_url_ok, is_ok_ex. by exists c1.
    + eapply apply_tun_ok, is_ok_ex. by exists c2.
    + eapply ssh_preflight_ok, is_ok_ex. by exists u.
  - intros ((rs & Hr) & Hu & Ht & Hs). exists rs. split; [done|].
    rewrite is_ok_bind. eapply apply_control_url_ok in Hu. apply is_ok_ex in Hu as (c1 & Hc).
    exists c1. split; [exact Hc|]. rewrite is_ok_bind.
    eapply apply_tun_ok in Ht. apply is_ok_ex in Ht as (c2 & Ht). exists c2. split; [exact Ht|].
    apply ssh_preflight_ok, is_ok_ex in Hs as (u & Hs). rewrite is_ok_bind. by exists u.
Qed.

Lemma apply_control_url_key h p c c' : apply_control_url h p c = Ok c' -> key_state c' = key_state c.
Proof. unfold apply_control_url. destruct (control_url p); intros; inv_ok; done. Qed.

Lemma apply_tun_key h p c c' : apply_tun h p c = Ok c' -> key_state c' = key_state c.
Proof. unfold apply_tun. destruct (tun_enabled p); cbn [negb]; intros; inv_ok; done. Qed.

Lemma config_of_prefs_key h p k port c : config_of_prefs h p k port = Ok c -> key_state c = k.
Proof.
  unfold config_of_prefs. cbv zeta. intros H.
  apply bind_ok in H as (rs & _ & H). apply bind_ok in H as (c1 & Hc & H).
  apply bind_ok in H as (c2 & Ht & H). apply bind_ok in H as (u & _ & H). injection H as <-.
  apply apply_tun_key in Ht. apply apply_control_url_key in Hc.
  change (key_state c2 = k). rewrite Ht, Hc. by destruct (exit_node p).
Qed.

(** A config is built exactly for a loadable key and prefs the host can
    honour, and otherwise the bring-up fails rather than dropping a setting;
    either way the key file afterwards holds the key the loader read or made:
    even a refused config leaves a fresh key behind on a node that had none. *)
Theorem build_config_total (h : Host) (p : Prefs) (f : option KeyFile) (port : option Z) :
  HostLaws h ->
  (is_ok (snd (build_config h p f port)) = true <->
   fst (load_key_file h f) <> None /\ honourable h p) /\
  (forall c, snd (build_config h p f port) = Ok c ->
     fst (build_config h p f port) = Some (KeyState (key_state c))) /\
  (forall k, fst (load_key_file h f) = Some k ->
     fst (build_config h p f port) = Some (KeyState k)).
Proof.
  intros Hl. unfold build_config. destruct (load_key_file h f) as [[k|] f'] eqn:El; cbn [fst snd].
  - rewrite (load_key_leaves h f k f' Hl El). split_and!.
    + rewrite config_of_prefs_ok. naive_solver.
    + intros c Hc. by rewrite (config_of_prefs_key _ _ _ _ _ Hc).
    + congruence.
  - split_and!; [split; [done | naive_solver] | done | done].
Qed.

(** A host whose loader mints key 7, with netstack and no SSH. *)
Definition host_base : Config :=
  mkConfig 0 None false false true false None false [] [] false None true None None false false
    false None false Netstack None None.
Definition host_example : Host :=
  mkHost host_base
    (fun f => match f with
              | None => (Some 7, Some (KeyState 7))
              | Some (KeyState k) => (Some k, f)
              | Some Malformed => (None, f)
              end)
    demo_parse
    (fun s => if String.prefix "https:" s then Some (mkUrl s "https")
              else if String.prefix "ftp:" s then Some (mkUrl s "ftp") else None)
    false false false true false None.

Lemma host_example_laws : HostLaws host_example.
Proof.
  split; cbn; try done; [congruence|].
  intros [[]|] f'; congruence.
Qed.

Lemma build_config_total_witness :
  (is_ok (snd (build_config host_example (Prefs_default <| control_url := Some "ftp://x" |>) None None))
   = true <->
   fst (load_key_file host_example None) <> None /\
   honourable host_example (Prefs_default <| control_url := Some "ftp://x" |>)) /\
  fst (build_config host_example (Prefs_default <| control_url := Some "ftp://x" |>) None None)
  = Some (KeyState 7).
Proof.
  pose proof (build_config_total host_example (Prefs_default <| control_url := Some "ftp://x" |>)
                None None host_example_laws) as (H1 & _ & H3).
  split; [exact H1|]. apply (H3 7). reflexivity.
Defined.
