(* ===== verification/Edits.v ===== *)
(** * Judging an edit before it is applied: [src/ipn/mod.rs]

    [complete_and_validate_advertise_tags] and the [prospective_*] helpers
    that compose what an [up] or [set] would leave behind. *)
From Stdlib Require Import ZArith Lia Ascii String List.
From stdpp Require Import base list strings option.
From S2P Require Import Prelude Prefs Profiles.

Inductive TagError : Type :=
| TagPrefix (t : string)
| TagEmpty (t : string)
| TagFirstLetter (t : string)
| TagChars (t : string).

(** [t.contains(':')]. *)
Definition contains_colon (t : string) : bool := existsb (fun c => Ascii.eqb c ":") (bs t).

(** [t.strip_prefix("tag:")]. *)
Definition strip_tag (t : string) : option string :=
  match t with
  | String "t" (String "a" (String "g" (String ":" rest))) => Some rest
  | _ => None
  end.

Definition complete_tag (t : string) : string :=
  if contains_colon t then t else String.append "tag:" t.

Definition tag_char (c : ascii) : bool := is_ascii_alphanumeric c || Ascii.eqb c "-".

(** One turn of the loop: completion, then [CheckTag]'s refusals in order. *)
Definition complete_and_validate_tag (t : string) : result TagError string :=
  let t := complete_tag t in
  name ← ok_or (TagPrefix t) (strip_tag t);
  _ ← match bs name with
      | [] => Err (TagEmpty t)
      | b :: _ => guard_err (negb (is_ascii_alphabetic b)) (TagFirstLetter t)
      end;
  _ ← guard_err (existsb (fun b => negb (tag_char b)) (bs name)) (TagChars t);
  Ok t.

Fixpoint complete_and_validate_advertise_tags (tags : list string)
    : result TagError (list string) :=
  match tags with
  | [] => Ok []
  | t :: rest =>
      t' ← complete_and_validate_tag t;
      rest' ← complete_and_validate_advertise_tags rest;
      Ok (t' :: rest')
  end.

Definition prospective_route_set (named_routes : option (list string))
    (named_advertise_exit_node : option bool) (current : Prefs) (reset : bool)
    : list string * bool :=
  let base := if reset then Prefs_default else current in
  (default (advertise_routes base) named_routes,
   default (advertise_exit_node base) named_advertise_exit_node).

Definition prospective_ssh (named_ssh : option bool) (current : Prefs) (reset : bool) : bool :=
  let base := if reset then Prefs_default else current in
  default (ssh_enabled base) named_ssh.

(** [named.or(self.prefs.auto_update_apply)]. *)
Definition prospective_auto_update (named : option bool) (current : Prefs) : option bool :=
  some_or named (auto_update_apply current).

(** ** Properties *)

(** A well-formed tag: [tag:], a letter, then letters, digits and dashes. *)
Definition tag_wf (t : string) : Prop :=
  exists b rest, t = String.append "tag:" (String b rest) /\
    is_ascii_alphabetic b = true /\ forallb tag_char (bs (String b rest)) = true.

Lemma strip_tag_some t name : strip_tag t = Some name <-> t = String.append "tag:" name.
Proof.
  split; [|intros ->; reflexivity]. unfold strip_tag.
  destruct t as [|a0 [|a1 [|a2 [|a3 rest]]]]; try done;
    repeat (match goal with
            | |- context [match ?x with Ascii _ _ _ _ _ _ _ _ => _ end] => destruct x as [[] [] [] [] [] [] [] []]; try done
            end).
  all: try (intros [= ->]; reflexivity).
Qed.

Lemma existsb_negb {A} (f : A -> bool) l :
  existsb (fun x => negb (f x)) l = false <-> forallb f l = true.
Proof. induction l as [|x l IH]; simpl; [done|]. destruct (f x); simpl; [exact IH | done]. Qed.

Lemma complete_and_validate_tag_ok t t' :
  complete_and_validate_tag t = Ok t' <-> t' = complete_tag t /\ tag_wf t'.
Proof.
  unfold complete_and_validate_tag, tag_wf. cbv zeta. split.
  - intros H. apply bind_ok in H as (name & Hn & H). apply ok_or_ok, strip_tag_some in Hn.
    destruct name as [|b rest]; [done|]. cbn [bs String.list_ascii_of_string] in H.
    apply bind_ok in H as ([] & Hb & H). apply guard_err_ok, negb_false_iff in Hb.
    apply bind_ok in H as ([] & Hc & H). apply guard_err_ok, existsb_negb in Hc. injection H as <-.
    split; [done|]. by exists b, rest.
  - intros (-> & b & rest & Ht & Hb & Hc).
    apply strip_tag_some in Ht as Hs. rewrite Hs. cbn [ok_or mbind result_bind].
    cbn [bs String.list_ascii_of_string]. rewrite Hb. cbn [negb guard_err mbind result_bind].
    apply existsb_negb in Hc. cbn [bs String.list_ascii_of_string] in Hc. by rewrite Hc.
Qed.

Lemma tag_wf_colon t : tag_wf t -> complete_tag t = t.
Proof. intros (b & rest & -> & _ & _). reflexivity. Qed.

Lemma complete_tags_ok tags tags' :
  complete_and_validate_advertise_tags tags = Ok tags' <->
  tags' = map complete_tag tags /\ Forall tag_wf tags'.
Proof.
  revert tags'. induction tags as [|t tags IH]; intros tags'; cbn [complete_and_validate_advertise_tags map].
  - split; [intros [= <-]; split; [done|apply Forall_nil_2] | by intros [-> _]].
  - split.
    + intros H. apply bind_ok in H as (t' & Ht & H). apply bind_ok in H as (rest & Hr & H).
      injection H as <-. apply complete_and_validate_tag_ok in Ht as [-> Ht].
      apply IH in Hr as [-> Hr]. split; [done|]. by apply Forall_cons_2.
    + intros [-> Hall]. apply Forall_cons_iff in Hall as [Ht Hr].
      apply bind_ok. exists (complete_tag t). split; [by apply complete_and_validate_tag_ok|].
      apply bind_ok. exists (map complete_tag tags). split; [by apply IH|done].
Qed.

(** Advertised tags are completed and checked in one pass that is stable:
    the tags are accepted exactly when each, completed with [tag:] if it has
    no colon, is well-formed; what is stored is the completed list, in order;
    and validating the stored list again accepts it unchanged. *)
Theorem advertise_tags_correct (tags : list string) :
  (is_ok (complete_and_validate_advertise_tags tags) = true <->
   Forall tag_wf (map complete_tag tags)) /\
  (forall tags', complete_and_validate_advertise_tags tags = Ok tags' ->
     tags' = map complete_tag tags /\
     complete_and_validate_advertise_tags tags' = Ok tags').
Proof.
  split.
  - destruct (complete_and_validate_advertise_tags tags) as [tags'|e] eqn:E; cbn.
    + apply complete_tags_ok in E as [-> H]. done.
    + split; [done|]. intros H.
      assert (complete_and_validate_advertise_tags tags = Ok (map complete_tag tags))
        by by apply complete_tags_ok. congruence.
  - intros tags' [-> H]%complete_tags_ok. split; [done|]. apply complete_tags_ok. split; [|done].
    rewrite map_map. apply map_ext_in. intros t Ht. symmetry. apply tag_wf_colon.
    rewrite Forall_forall in H. apply H. by apply in_map.
Qed.
