(* ===== verification/Conffile.v ===== *)
(** * The declarative [--config] document: [src/conffile.rs]

    [Config::apply_to_prefs]: the checks on the document's fields, the layered
    merge over the prefs, and the auth key it yields.  URL and prefix parsing
    and the key file on disk are outside the source. *)
From Stdlib Require Import ZArith Lia Ascii String List.
From stdpp Require Import base list strings option.
From coqutil Require Datatypes.RecordSettersUsingExistingGetters.
Import coqutil.Datatypes.RecordSettersUsingExistingGetters.RecordSetNotations1.
From S2P Require Import Prelude NetAddr Prefs SysPolicy Routes Gates.
From S2P Require Import Text Profiles EngineConfig.
Import AutoUpdate.

Record AutoUpdatePrefs : Type := mkAutoUpdatePrefs { au_check : bool; au_apply : option bool }.

(** The honoured fields of [ConfigVAlpha], in its order; the fields it only
    parses and warns about reach nothing. *)
Record ConfigVAlpha : Type := mkConfigVAlpha {
  cv_server_url : option string;
  cv_auth_key : option string;
  cv_enabled : option bool;
  cv_operator_user : option string;
  cv_hostname : option string;
  cv_accept_dns : option bool;
  cv_accept_routes : option bool;
  cv_exit_node : option string;
  cv_allow_lan_while_using_exit_node : option bool;
  cv_advertise_routes : option (list string);
  cv_advertise_exit_node : option bool;
  cv_app_connector : option bool;
  cv_posture_checking : option bool;
  cv_run_ssh_server : option bool;
  cv_run_web_client : option bool;
  cv_shields_up : option bool;
  cv_auto_update : option AutoUpdatePrefs
}.

(** An empty document. *)
Definition ConfigVAlpha_default : ConfigVAlpha :=
  mkConfigVAlpha None None None None None None None None None None None None None None None None None.

Inductive ConfFileError : Type :=
| ServerUrlInvalid (url : string)
| ServerUrlScheme (url scheme : string)
| RoutesBlocks (go_rules our_rules : list RouteError)
| ExitNodeEmpty
| ExitNodeAuto (exit : string)
| AutoUpdateApply (r : AutoUpdateRefusal)
| AuthKeyFileUnreadable (path : string)
| AuthKeyFileEmpty (path : string).

(** ** The text after a known prefix *)

Lemma prefix_append s t : String.prefix s (String.append s t) = true.
Proof. induction s as [|a s IH]; [by destruct t|]. simpl. destruct (ascii_dec a a); [exact IH|congruence]. Qed.

Lemma substring_all s : String.substring 0 (String.length s) s = s.
Proof. induction s as [|a s IH]; [done|]. cbn. by rewrite IH. Qed.

Lemma substring_append s t :
  String.substring (String.length s) (String.length (String.append s t) - String.length s)
    (String.append s t) = t.
Proof.
  induction s as [|a s IH]; cbn [String.append String.length].
  - rewrite Nat.sub_0_r. apply substring_all.
  - exact IH.
Qed.

Section Apply.
Context (parse_url : string -> option Url) (parse_net : string -> option IpNet)
  (trunc : IpNet -> IpNet) (read_file : string -> option string).

(** ** The checks, before anything is written *)

Definition check_server_url (c : ConfigVAlpha) : result ConfFileError unit :=
  match cv_server_url c with
  | None => Ok tt
  | Some url =>
      parsed ← ok_or (ServerUrlInvalid url) (parse_url url);
      guard_err (negb (bool_decide (url_scheme parsed ∈ ["http"; "https"])))
        (ServerUrlScheme url (url_scheme parsed))
  end.

(** The routes the merge would leave, and the exit-node intent beside them. *)
Definition prospective_config_routes (c : ConfigVAlpha) (p : Prefs) : list string * bool :=
  (default (advertise_routes p) (cv_advertise_routes c),
   default (advertise_exit_node p) (cv_advertise_exit_node c)).

Definition check_config_routes (c : ConfigVAlpha) (p : Prefs) : result ConfFileError unit :=
  let '(routes, exit) := prospective_config_routes c p in
  match calc_advertise_routes parse_net trunc routes exit with
  | Ok _ => Ok tt
  | Err errs => Err (RoutesBlocks (List.filter refused_by_go_config_path errs)
                       (List.filter (fun e => negb (refused_by_go_config_path e)) errs))
  end.

Definition check_config_exit_node (c : ConfigVAlpha) : result ConfFileError unit :=
  match cv_exit_node c with
  | None => Ok tt
  | Some exit =>
      let e := String.string_of_list_ascii (trim (bs exit)) in
      _ ← guard_err (String.eqb e "") ExitNodeEmpty;
      guard_err (String.prefix "auto:" e) (ExitNodeAuto exit)
  end.

Definition check_config_auto_update (c : ConfigVAlpha) (host_refusal : option AutoUpdateRefusal)
    : result ConfFileError unit :=
  match cv_auto_update c with
  | None => Ok tt
  | Some au =>
      match check_auto_update_pref (au_apply au) host_refusal with
      | Some r => Err (AutoUpdateApply r)
      | None => Ok tt
      end
  end.

Definition validate_config (c : ConfigVAlpha) (p : Prefs) (host_refusal : option AutoUpdateRefusal)
    : result ConfFileError unit :=
  _ ← check_server_url c;
  _ ← check_config_routes c p;
  _ ← check_config_exit_node c;
  check_config_auto_update c host_refusal.

(** ** The merge *)

(** [if let Some(v) = field { prefs.f = v }]. *)
Definition layered {A} (field : option A) (set : A -> Prefs -> Prefs) (p : Prefs) : Prefs :=
  match field with Some v => set v p | None => p end.

Definition merge_config (c : ConfigVAlpha) (p : Prefs) : Prefs :=
  let p := p <| want_running := default true (cv_enabled c) |> in
  let p := layered (cv_server_url c) (fun v p => p <| control_url := Some v |>) p in
  let p := layered (cv_hostname c) (fun v p => p <| hostname := Some v |>) p in
  let p := layered (cv_accept_dns c) (fun v p => p <| accept_dns := v |>) p in
  let p := layered (cv_accept_routes c) (fun v p => p <| accept_routes := v |>) p in
  let p := layered (cv_exit_node c) (fun v p => p <| exit_node := Some v |>) p in
  let p := layered (cv_advertise_routes c) (fun v p => p <| advertise_routes := v |>) p in
  let p := layered (cv_shields_up c) (fun v p => p <| shields_up := v |>) p in
  let p := layered (cv_run_ssh_server c) (fun v p => p <| ssh_enabled := v |>) p in
  let p := layered (cv_advertise_exit_node c) (fun v p => p <| advertise_exit_node := v |>) p in
  let p := layered (cv_operator_user c) (fun v p =>
             p <| operator_user := if String.eqb v "" then None else Some v |>) p in
  let p := layered (cv_allow_lan_while_using_exit_node c) (fun v p =>
             p <| exit_node_allow_lan_access := v |>) p in
  let p := layered (cv_posture_checking c) (fun v p => p <| posture_checking := v |>) p in
  let p := layered (cv_run_web_client c) (fun v p => p <| run_web_client := v |>) p in
  let p := layered (cv_app_connector c) (fun v p => p <| advertise_app_connector := v |>) p in
  layered (cv_auto_update c) (fun v p =>
    p <| auto_update_check := au_check v |> <| auto_update_apply := au_apply v |>) p.

(** ** The auth key *)

Definition resolve_auth_key (value : string) : result ConfFileError string :=
  if String.prefix "file:" value then
    let path := String.substring 5 (String.length value - 5) value in
    contents ← ok_or (AuthKeyFileUnreadable path) (read_file path);
    let key := String.string_of_list_ascii (trim (bs contents)) in
    _ ← guard_err (String.eqb key "") (AuthKeyFileEmpty path);
    Ok key
  else Ok value.

Definition config_auth_key (c : ConfigVAlpha) : result ConfFileError (option string) :=
  match cv_auth_key c with
  | None => Ok None
  | Some k => if String.eqb k "" then Ok None else Some <$> resolve_auth_key k
  end.

(** [apply_to_prefs_gated]: the prefs it leaves, and the key or the refusal. *)
Definition apply_to_prefs_gated (c : ConfigVAlpha) (p : Prefs)
    (host_refusal : option AutoUpdateRefusal) : Prefs * result ConfFileError (option string) :=
  match validate_config c p host_refusal with
  | Err e => (p, Err e)
  | Ok _ => (merge_config c p, config_auth_key c)
  end.

(** ** Properties *)

(** The documents whose fields pass. *)
Definition admissible (c : ConfigVAlpha) (p : Prefs) (host_refusal : option AutoUpdateRefusal) : Prop :=
  (forall url, cv_server_url c = Some url ->
     exists u, parse_url url = Some u /\ url_scheme u ∈ ["http"; "https"]) /\
  is_ok (calc_advertise_routes parse_net trunc (advertise_routes (merge_config c p))
           (advertise_exit_node (merge_config c p))) = true /\
  (forall exit, cv_exit_node c = Some exit ->
     trim (bs exit) <> [] /\ String.prefix "auto:" (String.string_of_list_ascii (trim (bs exit))) = false) /\
  (forall au, cv_auto_update c = Some au -> au_apply au = Some true -> host_refusal = None).

(** The merge, field by field: what the document says, and otherwise what the
    prefs said; only an unset [Enabled] counts as a value. *)
Definition merge_spec (c : ConfigVAlpha) (p : Prefs) : Prefs := {|
  want_running := default true (cv_enabled c);
  logged_out := logged_out p;
  control_url := from_option Some (control_url p) (cv_server_url c);
  hostname := from_option Some (hostname p) (cv_hostname c);
  ephemeral := ephemeral p;
  accept_routes := default (accept_routes p) (cv_accept_routes c);
  accept_dns := default (accept_dns p) (cv_accept_dns c);
  shields_up := default (shields_up p) (cv_shields_up c);
  exit_node := from_option Some (exit_node p) (cv_exit_node c);
  advertise_exit_node := default (advertise_exit_node p) (cv_advertise_exit_node c);
  advertise_routes := default (advertise_routes p) (cv_advertise_routes c);
  advertise_tags := advertise_tags p;
  ssh_enabled := default (ssh_enabled p) (cv_run_ssh_server c);
  advertise_app_connector := default (advertise_app_connector p) (cv_app_connector c);
  auto_update_apply := from_option au_apply (auto_update_apply p) (cv_auto_update c);
  auto_update_check := from_option au_check (auto_update_check p) (cv_auto_update c);
  operator_user := from_option non_empty (operator_user p) (cv_operator_user c);
  node_nickname := node_nickname p;
  posture_checking := default (posture_checking p) (cv_posture_checking c);
  run_web_client := default (run_web_client p) (cv_run_web_client c);
  exit_node_allow_lan_access :=
    default (exit_node_allow_lan_access p) (cv_allow_lan_while_using_exit_node c);
  taildrop_dir := taildrop_dir p;
  tun_enabled := tun_enabled p;
  tun_name := tun_name p;
  tun_mtu := tun_mtu p;
  has_logged_in := has_logged_in p
|}.

(** A layer that does not write the field [f] reads. *)
Lemma layered_skip {A B} (f : Prefs -> B) (field : option A) set p :
  (forall v q, f (set v q) = f q) -> f (layered field set p) = f p.
Proof. intros H. destruct field; [apply H|done]. Qed.

(** Walk the layers of one field's goal: skip the others, split at its own. *)
Ltac layers f :=
  unfold merge_config, merge_spec; cbv zeta;
  repeat first
    [ rewrite (layered_skip f) by (intros; reflexivity)
    | match goal with |- f (layered ?o _ _) = _ => destruct o; cbn [layered]; [reflexivity|] end ];
  reflexivity.

Lemma merge_config_spec c p : merge_config c p = merge_spec c p.
Proof.
  apply Prefs_ext; match goal with |- ?f (merge_config _ _) = _ => layers f end.
Qed.

Lemma merge_config_routes c p :
  (advertise_routes (merge_config c p), advertise_exit_node (merge_config c p))
  = prospective_config_routes c p.
Proof. by rewrite merge_config_spec. Qed.

(** ** What the checks accept *)

Lemma check_server_url_ok c : check_server_url c = Ok tt <->
  (forall url, cv_server_url c = Some url ->
     exists u, parse_url url = Some u /\ url_scheme u ∈ ["http"; "https"]).
Proof.
  unfold check_server_url. destruct (cv_server_url c) as [url|]; [|naive_solver].
  destruct (parse_url url) as [u|] eqn:E; cbn [ok_or mbind result_bind].
  - case_bool_decide as Hs; cbn; split; try done.
    + intros _ ? [= <-]. eauto.
    + intros H. destruct (H url eq_refl) as (u' & Hu & Hin). congruence.
  - split; [done|]. intros H. destruct (H url eq_refl) as (u & Hu & _). congruence.
Qed.

Lemma check_config_routes_ok c p : check_config_routes c p = Ok tt <->
  is_ok (calc_advertise_routes parse_net trunc (advertise_routes (merge_config c p))
           (advertise_exit_node (merge_config c p))) = true.
Proof.
  unfold check_config_routes. rewrite <- merge_config_routes.
  destruct (calc_advertise_routes _ _ _ _); cbn; naive_solver.
Qed.

Lemma check_config_exit_node_ok c : check_config_exit_node c = Ok tt <->
  (forall exit, cv_exit_node c = Some exit ->
     trim (bs exit) <> [] /\
     String.prefix "auto:" (String.string_of_list_ascii (trim (bs exit))) = false).
Proof.
  unfold check_config_exit_node. destruct (cv_exit_node c) as [exit|]; [|naive_solver].
  transitivity (trim (bs exit) <> [] /\
     String.prefix "auto:" (String.string_of_list_ascii (trim (bs exit))) = false);
    [|naive_solver].
  destruct (trim (bs exit)) as [|a l]; [naive_solver|].
  cbn [String.string_of_list_ascii]. set (s := String a _).
  cbn [String.eqb guard_err mbind result_bind]. change (String.eqb s "") with false.
  cbn [guard_err mbind result_bind]. unfold guard_err.
  destruct (String.prefix "auto:" s); naive_solver.
Qed.

Lemma check_config_auto_update_ok c r : check_config_auto_update c r = Ok tt <->
  (forall au, cv_auto_update c = Some au -> au_apply au = Some true -> r = None).
Proof.
  unfold check_config_auto_update, check_auto_update_pref.
  destruct (cv_auto_update c) as [au|]; [|naive_solver].
  case_bool_decide as Ha; [naive_solver|]. destruct r; cbn.
  - split; [done|]. intros H. discriminate (H au eq_refl Ha).
  - naive_solver.
Qed.

Lemma bind_unit_ok {E} (m n : result E unit) : (_ ← m; n) = Ok tt <-> m = Ok tt /\ n = Ok tt.
Proof. destruct m as [[]|]; cbn; naive_solver. Qed.

Lemma validate_config_ok c p r : validate_config c p r = Ok tt <-> admissible c p r.
Proof.
  unfold validate_config, admissible.
  rewrite !bind_unit_ok, check_server_url_ok, check_config_routes_ok, check_config_exit_node_ok,
    check_config_auto_update_ok. done.
Qed.

(** C21: a [--config] document is judged whole before it is merged: it is
    merged exactly when its control URL, the route set it would leave in
    force, its exit node and its auto-update opt-in are all acceptable, and
    then every pref is the document's where the document sets it and the old
    one otherwise (an unset [Enabled] means run); if any of them is not, the
    prefs are exactly as they were. *)
Theorem config_merged_iff_admissible (c : ConfigVAlpha) (p : Prefs)
    (host_refusal : option AutoUpdateRefusal) :
  (admissible c p host_refusal /\
   apply_to_prefs_gated c p host_refusal = (merge_spec c p, config_auth_key c)) \/
  (~ admissible c p host_refusal /\
   exists e, apply_to_prefs_gated c p host_refusal = (p, Err e)).
Proof.
  unfold apply_to_prefs_gated. destruct (validate_config c p host_refusal) as [[]|e] eqn:E.
  - left. split; [by apply validate_config_ok|]. by rewrite merge_config_spec.
  - right. split; [|eauto]. rewrite <- validate_config_ok. congruence.
Qed.

(** The all-or-nothing contract has one gap: a document that is otherwise
    acceptable but whose [AuthKey] names a file that cannot be read is refused
    only after the prefs were merged, so an error is returned with every pref
    of the document in place. *)
Theorem config_auth_key_error_after_merge (c : ConfigVAlpha) (p : Prefs)
    (host_refusal : option AutoUpdateRefusal) (path : string) :
  admissible c p host_refusal ->
  cv_auth_key c = Some (String.append "file:" path) ->
  read_file path = None ->
  apply_to_prefs_gated c p host_refusal = (merge_spec c p, Err (AuthKeyFileUnreadable path)).
Proof.
  intros Ha Hk Hr. unfold apply_to_prefs_gated. apply validate_config_ok in Ha as ->.
  rewrite merge_config_spec. f_equal. unfold config_auth_key, resolve_auth_key. rewrite Hk.
  
  rewrite prefix_append. pose proof (substring_append "file:" path) as Hs.
  cbn [String.length] in Hs. rewrite Hs, Hr. reflexivity.
Qed.
End Apply.

(** A document that stops the node and names an auth-key file that is gone. *)
Definition stop_document : ConfigVAlpha :=
  ConfigVAlpha_default <| cv_enabled := Some false |> <| cv_auth_key := Some "file:/run/key" |>.

Lemma config_auth_key_error_after_merge_witness :
  let p := Prefs_default <| want_running := true |> in
  apply_to_prefs_gated (fun _ => None) demo_parse demo_trunc (fun _ => None) stop_document p None
  = (merge_spec stop_document p, Err (AuthKeyFileUnreadable "/run/key")) /\
  want_running (merge_spec stop_document p) = false.
Proof.
  split; [|reflexivity].
  apply (config_auth_key_error_after_merge (fun _ => None) demo_parse demo_trunc (fun _ => None)
           stop_document (Prefs_default <| want_running := true |>) None "/run/key");
    [repeat split; done | reflexivity | reflexivity].
Defined.
