(* ===== verification/Backend.v ===== *)
(** * The daemon backend: [Backend] of [src/ipn/mod.rs]

    The state the daemon owns (prefs, profiles, keys on disk, the installed
    engine, the standing policy exemptions and the reconnect timer) and the
    operations the LocalAPI drives over it, in a state-and-error monad: a [?]
    that returns early keeps the mutations made before it, as in the source. *)
From Stdlib Require Import ZArith Lia Ascii String List.
From stdpp Require Import base gmap list strings option.
From coqutil Require Datatypes.RecordSettersUsingExistingGetters.
Import coqutil.Datatypes.RecordSettersUsingExistingGetters.RecordSetNotations1.
From S2P Require Import Prelude NetAddr Prefs SysPolicy RevertGuard Routes.
From S2P Require Import Gates ExitNodeArg Profiles EngineConfig Edits Conffile.
Import AlwaysOn ExitNodeGate ControlUrl LifecycleState AutoUpdate.

(** ** The state *)

(** An engine handle with the config the daemon has given it: the one it was
    built with, as amended by the live setters. *)
Record Device : Type := mkDevice {
  dev_handle : Z;
  dev_config : Config
}.

Record ReconnectTimer : Type := mkReconnectTimer {
  rt_seq : Z;
  rt_profile : string;
  rt_after : Z;
  rt_deadline : Z
}.

#[global] Instance ReconnectTimer_eq_dec : EqDecision ReconnectTimer.
Proof. solve_decision. Defined.

Inductive PrefsFile : Type :=
| PrefsStored (p : Prefs)
| PrefsUnreadable.

(** The state directory: per profile id its prefs and key file (the paths of
    distinct profiles are distinct, [Profiles.profile_paths_disjoint]), the
    profile list and the pointer file. *)
Record Disk : Type := mkDisk {
  disk_prefs : gmap string PrefsFile;
  disk_keys : gmap string KeyFile;
  disk_profiles : ProfilesFile;
  disk_pointer : option string
}.

Record Backend : Type := mkBackend {
  b_prefs : Prefs;
  b_current_profile : string;
  b_listen_port : option Z;
  b_device : option Device;
  b_ssh_task : option Z;
  b_serve_tasks : list Z;
  b_monitor_task : option Z;
  b_suggestion_task : option Z;
  b_ever_configured : bool;
  b_generation : Z;
  b_prefs_ticks : Z;
  b_suggested_exit_node : string;
  b_boot_attempted_up : bool;
  b_has_node_key : bool;
  b_override_always_on : bool;
  b_reconnect : option ReconnectTimer;
  b_reconnect_seq : Z;
  b_always_on_keys : AlwaysOnKeys;
  b_override_exit_node_policy : bool;
  b_exit_node_keys : ExitNodeKeys;
  b_netmap_name : option string;
  b_disk : Disk
}.

(** ** What an operation meets outside the backend

    The effective policy, the host, the netmap facts, the clock, the engine's
    answers and the outcome of each write, fixed for one operation. *)

Inductive LiveSetOp : Type :=
| LiveExitNode (sel : option string)
| LiveHostname (h : string)
| LiveAcceptRoutes (v : bool)
| LiveAcceptDns (v : bool)
| LiveAdvertiseRoutes (routes : list IpNet)
| LiveAdvertiseExitNode (v : bool).

Record Env : Type := mkEnv {
  e_host : Host;
  e_trunc : IpNet -> IpNet;
  e_policy : list PolicySetting;
  e_facts : ExitNodeFacts;
  e_auto_update_gate : option AutoUpdateRefusal;
  e_now : Z;
  e_read_file : string -> option string;
  e_self_fqdn : option string;
  e_write_prefs : Prefs -> bool;
  e_write_profiles : ProfilesFile -> bool;
  e_write_pointer : bool;
  e_remove_prefs : bool;
  e_remove_key : bool;
  e_live_ok : LiveSetOp -> bool;
  e_host_key_ok : bool
}.

Inductive BackendError : Type :=
| RoutesRefused (es : list RouteError)
| TagRefused (e : TagError)
| ExitNodeManagedByPolicy
| ExitArgRefused (e : ExitArgError)
| SshRefused
| AutoUpdateRefused (r : AutoUpdateRefusal)
| Disconnect (r : DisconnectRefused)
| DiscardKeyFailed
| SavePrefsFailed
| SaveProfilesFailed
| SavePointerFailed
| LoadPrefsFailed
| ConfigRefused (e : ConfigError)
| EngineStartFailed
| LiveSetFailed (op : LiveSetOp)
| ConfigUnreadable
| ConfFileRefused (e : ConfFileError)
| NoProfileNamed (target : string)
| InvalidProfileId (id : string)
| ProfileExists (id : string)
| DefaultNotRemovable
| RemoveFilesFailed
| EntropyFailed
| NoUnusedId
| Panicked.

(** ** The monad *)

Definition M (A : Type) : Type := Backend -> Backend * result BackendError A.

#[global] Instance M_ret : MRet M := fun A a b => (b, Ok a).
#[global] Instance M_bind : MBind M := fun A B f m b =>
  match m b with
  | (b', Ok a) => f a b'
  | (b', Err e) => (b', Err e)
  end.

Definition get_state : M Backend := fun b => (b, Ok b).
Definition modify (f : Backend -> Backend) : M unit := fun b => (f b, Ok tt).
Definition throw {A} (e : BackendError) : M A := fun b => (b, Err e).
Definition lift {E A} (wrap : E -> BackendError) (r : result E A) : M A := fun b =>
  match r with Ok a => (b, Ok a) | Err e => (b, Err (wrap e)) end.
Definition check (ok : bool) (e : BackendError) : M unit := fun b =>
  if ok then (b, Ok tt) else (b, Err e).
Definition when_m (c : bool) (m : M unit) : M unit := if c then m else mret tt.

(** A step whose error is held rather than returned. *)
Definition held (m : M unit) : M (option BackendError) := fun b =>
  match m b with
  | (b', Ok _) => (b', Ok None)
  | (b', Err err) => (b', Ok (Some err))
  end.

Definition modify_prefs (f : Prefs -> Prefs) : M unit :=
  modify (fun b => b <| b_prefs := f (b_prefs b) |>).

(** ** Disk writes *)

Definition key_file_of (b : Backend) : option KeyFile :=
  disk_keys (b_disk b) !! b_current_profile b.

Definition write_prefs_file (id : string) (f : PrefsFile) (d : Disk) : Disk :=
  d <| disk_prefs := <[id := f]> (disk_prefs d) |>.
Definition write_key_file (id : string) (f : option KeyFile) (d : Disk) : Disk :=
  d <| disk_keys := match f with
                    | Some k => <[id := k]> (disk_keys d)
                    | None => delete id (disk_keys d)
                    end |>.

Definition save_profiles_file (e : Env) (meta : ProfilesFile) : M unit :=
  _ ← check (e_write_profiles e meta) SaveProfilesFailed;
  modify (fun b => b <| b_disk := (b_disk b) <| disk_profiles := meta |> |>).

Definition register_current_profile (e : Env) : M unit :=
  b ← get_state;
  if negb (has_logged_in (b_prefs b)) || String.eqb (b_current_profile b) DEFAULT_PROFILE_ID
  then mret tt
  else
    let meta := disk_profiles (b_disk b) in
    if contains_key meta (b_current_profile b) then mret tt
    else save_profiles_file e
           (pf_insert (b_current_profile b) (default "" (node_nickname (b_prefs b))) meta).

Definition persist_prefs (e : Env) : M unit :=
  b ← get_state;
  _ ← check (e_write_prefs e (b_prefs b)) SavePrefsFailed;
  _ ← modify (fun b => b <| b_disk :=
                write_prefs_file (b_current_profile b) (PrefsStored (b_prefs b)) (b_disk b) |>);
  _ ← register_current_profile e;
  modify (fun b => b <| b_prefs_ticks := b_prefs_ticks b + 1 |>).

(** ** Lifecycle bookkeeping *)

Definition bump_generation : M unit :=
  modify (fun b => b <| b_generation := b_generation b + 1 |>).

Definition wants_running (b : Backend) : bool :=
  want_running (b_prefs b) && negb (logged_out (b_prefs b)).

Definition mark_boot_attempted_up : M unit := modify (fun b => b <| b_boot_attempted_up := true |>).

Definition forget_suggested_exit_node : M unit :=
  modify (fun b => b <| b_suggested_exit_node := "" |>).

Definition derive_state (b : Backend) (have_self_node : bool) : State :=
  derive_state_from (match b_device b with Some _ => true | None => false end) have_self_node
    (want_running (b_prefs b)) (logged_out (b_prefs b)) (b_has_node_key b).

(** [current_netmap_name]: refreshed from a live device that answers. *)
Definition current_netmap_name (e : Env) : M (option string) :=
  _ ← modify (fun b =>
        match b_device b, e_self_fqdn e with
        | Some _, Some fqdn => if String.eqb fqdn "" then b else b <| b_netmap_name := Some fqdn |>
        | _, _ => b
        end);
  b ← get_state;
  mret (b_netmap_name b).

(** [stop_device]: keep the netmap name, stop every task that shares the
    handle, then shut the engine down. *)
Definition stop_device (e : Env) : M unit :=
  b ← get_state;
  _ ← when_m (match b_device b with Some _ => true | None => false end)
        (_ ← current_netmap_name e; mret tt);
  _ ← modify (fun b => b <| b_ssh_task := None |>);
  _ ← modify (fun b => b <| b_monitor_task := None |>);
  _ ← modify (fun b => b <| b_suggestion_task := None |>);
  _ ← modify (fun b => b <| b_serve_tasks := [] |>);
  modify (fun b => b <| b_device := None |>).

(** ** System policy *)

Definition overrides_of (b : Backend) : PolicyOverrides :=
  mkPolicyOverrides (b_override_always_on b) (b_override_exit_node_policy b).

(** [reconcile_sys_policy]; what it changed and refused is only logged. *)
Definition reconcile_sys_policy (e : Env) : M unit :=
  modify (fun b =>
    b <| b_prefs := fst (apply_settings_to_prefs (e_policy e) (b_prefs b) (overrides_of b)) |>).

Definition start_reconnect_timer (e : Env) (after : Z) : M unit :=
  _ ← modify (fun b => b <| b_reconnect_seq := b_reconnect_seq b + 1 |>);
  modify (fun b => b <| b_reconnect :=
    Some (mkReconnectTimer (b_reconnect_seq b) (b_current_profile b) after (e_now e + after)) |>).

Definition stop_reconnect_timer : M unit := modify (fun b => b <| b_reconnect := None |>).

Definition on_permitted_disconnect (e : Env) (reconnect_after : option Z) : M unit :=
  _ ← modify (fun b => b <| b_override_always_on := true |>);
  match reconnect_after with
  | Some after => start_reconnect_timer e after
  | None => mret tt
  end.

Definition reset_always_on_override : M unit :=
  _ ← modify (fun b => b <| b_override_always_on := false |>);
  stop_reconnect_timer.

Definition sys_policy_changed (current : AlwaysOnKeys) : M bool :=
  b ← get_state;
  if bool_decide (current = b_always_on_keys b) then mret false
  else
    _ ← modify (fun b => b <| b_always_on_keys := current |>);
    _ ← reset_always_on_override;
    mret true.

Definition check_exit_node_policy (e : Env) (named : option (option string)) : M ExitNodeEdit :=
  lift (fun _ => ExitNodeManagedByPolicy)
    (check_exit_node_edit named (exit_node_policy_in (e_policy e))).

Definition reset_exit_node_policy_override : M unit :=
  modify (fun b => b <| b_override_exit_node_policy := false |>).

Definition record_exit_node_edit (edit : ExitNodeEdit) : M unit :=
  match edit with
  | Untouched => mret tt
  | NoOverride => reset_exit_node_policy_override
  | Override => modify (fun b => b <| b_override_exit_node_policy := true |>)
  end.

Definition exit_node_policy_changed (current : ExitNodeKeys) : M bool :=
  b ← get_state;
  if bool_decide (current = b_exit_node_keys b) then mret false
  else
    _ ← modify (fun b => b <| b_exit_node_keys := current |>);
    _ ← reset_exit_node_policy_override;
    mret true.

Definition claim_due_reconnect (armed : ReconnectTimer) : M bool :=
  b ← get_state;
  if bool_decide (b_reconnect b <> Some armed) then mret false
  else
    _ ← stop_reconnect_timer;
    mret (String.eqb (rt_profile armed) (b_current_profile b)).

(** ** Bring-up *)

Record PendingUp : Type := mkPendingUp {
  pending_config : Config;
  pending_generation : Z
}.

(** [Backend::build_config]: the loader may create the current profile's key
    file, whatever becomes of the rest. *)
Definition build_config_m (e : Env) : M Config := fun b =>
  let '(f, r) := build_config (e_host e) (b_prefs b) (key_file_of b) (b_listen_port b) in
  let b := b <| b_disk := write_key_file (b_current_profile b) f (b_disk b) |> in
  match r with
  | Ok c => (b, Ok c)
  | Err err => (b, Err (ConfigRefused err))
  end.

Definition check_ssh_prefs_gated (e : Env) (named_ssh : option bool) (reset : bool) : M unit :=
  b ← get_state;
  if prospective_ssh named_ssh (b_prefs b) reset
  then check (can_run_ssh (e_host e)) SshRefused else mret tt.

Definition validate_routes_m (e : Env) (named_routes : option (list string))
    (named_exit : option bool) (reset : bool) : M unit :=
  b ← get_state;
  let '(routes, exit) := prospective_route_set named_routes named_exit (b_prefs b) reset in
  lift RoutesRefused (validate_advertise_routes (parse_net (e_host e)) (e_trunc e) routes exit).

Definition complete_tags_m (named : option (list string)) : M (option (list string)) :=
  match named with
  | Some tags =>
      tags ← lift TagRefused (complete_and_validate_advertise_tags tags);
      mret (Some tags)
  | None => mret None
  end.

Definition check_exit_node_arg_m (e : Env) (named : option (option string)) : M unit :=
  match named with
  | Some (Some sel) => lift ExitArgRefused (check_exit_node_arg sel (e_facts e))
  | _ => mret tt
  end.

(** [discard_node_key]: a missing file is success; a failed removal leaves the
    cache alone. *)
Definition discard_node_key (e : Env) : M unit :=
  b ← get_state;
  match key_file_of b with
  | None => modify (fun b => b <| b_has_node_key := false |>)
  | Some _ =>
      _ ← check (e_remove_key e) DiscardKeyFailed;
      modify (fun b => b <| b_disk := write_key_file (b_current_profile b) None (b_disk b) |>
                         <| b_has_node_key := false |>)
  end.

(** [begin_up_gated].  The transient workload-identity secrets only reach the
    engine's config and are not modelled. *)
Definition begin_up (e : Env) (opts : UpOptions) : M PendingUp :=
  _ ← validate_routes_m e (up_advertise_routes opts) (up_advertise_exit_node opts) (up_reset opts);
  tags ← complete_tags_m (up_advertise_tags opts);
  let opts := opts <| up_advertise_tags := tags |> in
  edit ← check_exit_node_policy e (up_exit_node opts);
  _ ← check_exit_node_arg_m e (up_exit_node opts);
  _ ← check_ssh_prefs_gated e (up_ssh opts) (up_reset opts);
  _ ← stop_device e;
  _ ← when_m (up_force_reauth opts) (discard_node_key e);
  _ ← modify_prefs (merge_up opts);
  _ ← modify (fun b => b <| b_ever_configured := true |>);
  _ ← reset_always_on_override;
  _ ← reset_exit_node_policy_override;
  _ ← record_exit_node_edit edit;
  _ ← reconcile_sys_policy e;
  _ ← persist_prefs e;
  config ← build_config_m e;
  _ ← modify (fun b => b <| b_has_node_key := true |>);
  _ ← bump_generation;
  b ← get_state;
  mret (mkPendingUp config (b_generation b)).

Definition spawn_ssh_task (e : Env) (dev : Device) : M unit :=
  b ← get_state;
  when_m (feature_ssh (e_host e) && ssh_enabled (b_prefs b) && e_host_key_ok e)
    (modify (fun b => b <| b_ssh_task := Some (dev_handle dev) |>)).
Definition spawn_link_monitor (dev : Device) : M unit :=
  modify (fun b => b <| b_monitor_task := Some (dev_handle dev) |>).
Definition spawn_suggestion_task (dev : Device) : M unit :=
  modify (fun b => b <| b_suggestion_task := Some (dev_handle dev) |>).
Definition spawn_serve (dev : Device) : M unit :=
  modify (fun b => b <| b_serve_tasks := b_serve_tasks b ++ [dev_handle dev] |>).

(** The tail of [set_serve_config]: [stop_serve_tasks] then [spawn_serve], when
    a device is up. *)
Definition rearm : M unit :=
  b ← get_state;
  match b_device b with
  | Some dev => _ ← modify (fun b => b <| b_serve_tasks := [] |>); spawn_serve dev
  | None => mret tt
  end.

(** [publish_suggested_exit_node]: [answer] is [suggested_exit_node_id] of the
    engine's answer, [None] when the engine failed. *)
Definition publish_suggested_exit_node (answer : option string) : M bool :=
  match answer with
  | None => mret false
  | Some id =>
      b ← get_state;
      if String.eqb (b_suggested_exit_node b) id then mret false
      else _ ← modify (fun b => b <| b_suggested_exit_node := id |>); mret true
  end.

(** [finish_up]: the orphan to shut down off-lock, if this attempt was
    superseded. [built] is [build_device]'s answer, [None] a failed start. *)
Definition finish_up (e : Env) (pending : PendingUp) (built : option Device) : M (option Device) :=
  b ← get_state;
  if bool_decide (pending_generation pending <> b_generation b) then mret built
  else
    match built with
    | None => throw EngineStartFailed
    | Some dev =>
        _ ← modify (fun b => b <| b_device := Some dev |>);
        _ ← bump_generation;
        _ ← spawn_ssh_task e dev;
        _ ← spawn_link_monitor dev;
        _ ← spawn_suggestion_task dev;
        _ ← spawn_serve dev;
        _ ← modify_prefs (fun p => p <| has_logged_in := true |>);
        mret None
    end.

(** [drive_up]'s third phase: install, then persist [has_logged_in], whose
    failure is only logged. *)
Definition settle_up (e : Env) (pending : PendingUp) (built : option Device) : M (option Device) :=
  orphan ← finish_up e pending built;
  match orphan with
  | None => _ ← held (persist_prefs e); mret None
  | Some dev => mret (Some dev)
  end.

(** The two guards the server asks before [begin_up]. *)
Definition up_revert_guard (e : Env) (b : Backend) (opts : UpOptions) : list RevertedPref :=
  drop_policy_pinned
    (check_accidental_reverts (b_prefs b) opts (has_logged_in (b_prefs b)))
    (pinned_prefs_in (e_policy e)).

Definition up_control_url_guard (b : Backend) (engine_state : State) (opts : UpOptions) : bool :=
  let running := match b_device b with
                 | Some _ => bool_decide (engine_state = Running)
                 | None => false
                 end in
  change_blocked (control_url (b_prefs b)) (up_control_url opts) running (up_force_reauth opts).

(** ** Disconnects *)

Definition current_profile_name (b : Backend) : string :=
  match pf_get (disk_profiles (b_disk b)) (b_current_profile b) with
  | Some name => if String.eqb name "" then b_current_profile b else name
  | None => b_current_profile b
  end.

Definition check_disconnect_policy_m (e : Env) (actor : Actor) : M unit :=
  b ← get_state;
  if negb (want_running (b_prefs b)) then mret tt
  else
    _ ← lift Disconnect
          (check_disconnect_policy (e_policy e) actor (current_profile_name b) None);
    mret tt.

Definition down (e : Env) (actor : Actor) : M unit :=
  _ ← check_disconnect_policy_m e actor;
  b ← get_state;
  let was_running := want_running (b_prefs b) in
  _ ← stop_device e;
  _ ← bump_generation;
  _ ← modify_prefs (fun p => p <| want_running := false |>);
  _ ← modify (fun b => b <| b_ever_configured := true |>);
  _ ← when_m was_running (on_permitted_disconnect e (reconnect_after_in (e_policy e)));
  _ ← reset_exit_node_policy_override;
  persist_prefs e.

(** [logout]; the control-plane deregistration is best effort and its failure
    is only logged. *)
Definition logout (e : Env) (actor : Actor) : M unit :=
  _ ← check_disconnect_policy_m e actor;
  b ← get_state;
  let was_running := want_running (b_prefs b) in
  _ ← stop_device e;
  _ ← bump_generation;
  _ ← modify (fun b => b <| b_netmap_name := None |>);
  _ ← forget_suggested_exit_node;
  _ ← discard_node_key e;
  _ ← modify_prefs (fun p => p <| want_running := false |> <| logged_out := true |>
                               <| has_logged_in := false |>);
  _ ← modify (fun b => b <| b_ever_configured := true |>);
  _ ← when_m was_running (on_permitted_disconnect e (reconnect_after_in (e_policy e)));
  _ ← reset_exit_node_policy_override;
  persist_prefs e.

(** ** [tnet set] *)

Inductive SetAction : Type :=
| PersistedOnly
| Live (ops : list LiveSetOp)
| Rebuild.

Record SetOutcome : Type := mkSetOutcome {
  so_action : SetAction;
  so_rename_error : option BackendError
}.

Definition rename_current_profile (e : Env) (name : string) : M unit :=
  b ← get_state;
  let meta := disk_profiles (b_disk b) in
  if negb (has_logged_in (b_prefs b))
     && negb (String.eqb (b_current_profile b) DEFAULT_PROFILE_ID)
     && negb (contains_key meta (b_current_profile b))
  then mret tt
  else save_profiles_file e (pf_insert (b_current_profile b) name meta).

(** The engine's setter, and the config it leaves in force. *)
Definition amend_config (op : LiveSetOp) (c : Config) : Config :=
  match op with
  | LiveExitNode sel => c <| cfg_exit_node := sel |>
  | LiveHostname h => c <| requested_hostname := Some h |>
  | LiveAcceptRoutes v => c <| cfg_accept_routes := v |>
  | LiveAcceptDns v => c <| cfg_accept_dns := v |>
  | LiveAdvertiseRoutes routes => c <| cfg_advertise_routes := routes |>
  | LiveAdvertiseExitNode v => c <| cfg_advertise_exit_node := v |>
  end.

Definition issue (e : Env) (op : LiveSetOp) : M unit :=
  _ ← check (e_live_ok e op) (LiveSetFailed op);
  modify (fun b => b <| b_device :=
    (fun dev => mkDevice (dev_handle dev) (amend_config op (dev_config dev))) <$> b_device b |>).

(** One setter of the live path, issued when the request named its pref. *)
Definition live_step (e : Env) (named : bool) (op : M LiveSetOp) : M (list LiveSetOp) :=
  if named then op ← op; _ ← issue e op; mret [op] else mret [].

(** The stored routes were validated before they were stored, so the parse is
    [expect]ed to succeed. *)
Definition expect_routes (e : Env) : M LiveSetOp :=
  b ← get_state;
  match parse_routes (parse_net (e_host e)) (advertise_routes (b_prefs b)) with
  | Ok routes => mret (LiveAdvertiseRoutes routes)
  | Err _ => throw Panicked
  end.

Definition from_prefs (f : Prefs -> LiveSetOp) : M LiveSetOp :=
  b ← get_state; mret (f (b_prefs b)).

Definition live_set (e : Env) (opts : SetOptions) : M (list LiveSetOp) :=
  o1 ← live_step e (is_some (set_exit_node opts)) (from_prefs (fun p => LiveExitNode (exit_node p)));
  o2 ← live_step e (is_some (set_hostname opts))
         (from_prefs (fun p => LiveHostname (default "" (hostname p))));
  o3 ← live_step e (is_some (set_accept_routes opts))
         (from_prefs (fun p => LiveAcceptRoutes (accept_routes p)));
  o4 ← live_step e (is_some (set_accept_dns opts))
         (from_prefs (fun p => LiveAcceptDns (accept_dns p)));
  o5 ← live_step e (is_some (set_advertise_routes opts)) (expect_routes e);
  o6 ← live_step e (is_some (set_advertise_exit_node opts))
         (from_prefs (fun p => LiveAdvertiseExitNode (advertise_exit_node p)));
  mret (o1 ++ o2 ++ o3 ++ o4 ++ o5 ++ o6).

Definition reconcile_set (e : Env) (opts : SetOptions) : M SetAction :=
  b ← get_state;
  match b_device b with
  | None => mret PersistedOnly
  | Some _ => if needs_rebuild opts then mret Rebuild else ops ← live_set e opts; mret (Live ops)
  end.

Definition check_auto_update_m (e : Env) (named : option bool) : M unit :=
  b ← get_state;
  match check_auto_update_pref (prospective_auto_update named (b_prefs b)) (e_auto_update_gate e) with
  | Some r => throw (AutoUpdateRefused r)
  | None => mret tt
  end.

Definition begin_set (e : Env) (opts : SetOptions) : M SetOutcome :=
  _ ← validate_routes_m e (set_advertise_routes opts) (set_advertise_exit_node opts) false;
  tags ← complete_tags_m (set_advertise_tags opts);
  let opts := opts <| set_advertise_tags := tags |> in
  edit ← check_exit_node_policy e (set_exit_node opts);
  _ ← check_exit_node_arg_m e (set_exit_node opts);
  _ ← check_ssh_prefs_gated e (set_ssh opts) false;
  _ ← check_auto_update_m e (set_auto_update opts);
  _ ← modify_prefs (apply_set_overrides opts);
  _ ← modify (fun b => b <| b_ever_configured := true |>);
  _ ← record_exit_node_edit edit;
  _ ← reconcile_sys_policy e;
  _ ← persist_prefs e;
  rename_error ← match set_nickname opts with
                 | Some name => held (rename_current_profile e (default "" name))
                 | None => mret None
                 end;
  action ← reconcile_set e opts;
  mret (mkSetOutcome action rename_error).

(** [rebuild_running_device]'s preflight: the rebuilt config, under the lock,
    before anything is torn down. *)
Definition rebuild_preflight (e : Env) : M unit := _ ← build_config_m e; mret tt.

(** ** The declarative config and the TUN flag *)

Definition apply_config (e : Env) (config : ConfigVAlpha) : M (option string) :=
  b ← get_state;
  let '(p, authkey) :=
    apply_to_prefs_gated (parse_url (e_host e)) (parse_net (e_host e)) (e_trunc e) (e_read_file e)
      config (b_prefs b) (e_auto_update_gate e) in
  _ ← modify (fun b => b <| b_prefs := p |>);
  authkey ← lift ConfFileRefused authkey;
  _ ← modify (fun b => b <| b_ever_configured := true |>);
  _ ← reconcile_sys_policy e;
  _ ← persist_prefs e;
  mret authkey.

Inductive ReloadAction : Type :=
| ReloadPersistedOnly
| ReloadRebuild
| ReloadBringDown.

(** [reload_config]; [source] is what re-reading the config source gives:
    [None] out of config mode, [Some None] a document that does not load. *)
Definition reload_config (e : Env) (source : option (option ConfigVAlpha)) : M (option ReloadAction) :=
  match source with
  | None => mret None
  | Some loaded =>
      config ← lift (fun _ : unit => ConfigUnreadable) (ok_or tt loaded);
      _ ← apply_config e config;
      b ← get_state;
      mret (Some (match b_device b, want_running (b_prefs b) with
                  | Some _, true => ReloadRebuild
                  | Some _, false => ReloadBringDown
                  | None, _ => ReloadPersistedOnly
                  end))
  end.

(** A resolved [--tun] flag ([TunTransport] of [tunflag.rs]). *)
Inductive TunTransport : Type :=
| TransportNetstack
| TransportTun (name : option string).

Definition apply_tun_flag (e : Env) (transport : TunTransport) : M bool :=
  b ← get_state;
  let '(enabled, name) := match transport with
                          | TransportNetstack => (false, tun_name (b_prefs b))
                          | TransportTun name => (true, name)
                          end in
  if Bool.eqb (tun_enabled (b_prefs b)) enabled && bool_decide (tun_name (b_prefs b) = name)
  then mret false
  else
    _ ← modify_prefs (fun p => p <| tun_enabled := enabled |> <| tun_name := name |>);
    _ ← persist_prefs e;
    mret true.

(** ** Profiles *)

Inductive SwitchOutcome : Type :=
| AlreadyCurrent (id : string)
| Switched (id : string) (state : State).

Inductive DeleteOutcome : Type :=
| Removed (id : string)
| DeleteAlreadyCurrent (id : string).

(** [Prefs::load]: a missing file is the default. *)
Definition load_prefs (d : Disk) (id : string) : result BackendError Prefs :=
  match disk_prefs d !! id with
  | None => Ok Prefs_default
  | Some (PrefsStored p) => Ok p
  | Some PrefsUnreadable => Err LoadPrefsFailed
  end.

Definition prefs_file_exists (d : Disk) (id : string) : bool :=
  match disk_prefs d !! id with Some _ => true | None => false end.

(** What every profile-change edge resets. *)
Definition reset_exemptions : M unit :=
  _ ← reset_always_on_override;
  reset_exit_node_policy_override.

(** The in-memory swap of [activate_profile]. *)
Definition commit_profile (target : string) (p : Prefs) (configured has_key : bool) : M unit :=
  modify (fun b => b <| b_prefs := p |> <| b_ever_configured := configured |>
                     <| b_current_profile := target |> <| b_boot_attempted_up := false |>
                     <| b_has_node_key := has_key |>).

Definition activate_profile (e : Env) (target : string) (register : bool) : M SwitchOutcome :=
  b ← get_state;
  if String.eqb target (b_current_profile b) then mret (AlreadyCurrent target)
  else
    _ ← stop_device e;
    _ ← bump_generation;
    _ ← modify (fun b => b <| b_netmap_name := None |>);
    b ← get_state;
    let configured := prefs_file_exists (b_disk b) target in
    let has_key := key_file_has_node_key (disk_keys (b_disk b) !! target) in
    p ← lift id (load_prefs (b_disk b) target);
    _ ← when_m (register && negb (String.eqb target DEFAULT_PROFILE_ID))
          (save_profiles_file e (pf_or_default target (disk_profiles (b_disk b))));
    _ ← check (e_write_pointer e) SavePointerFailed;
    _ ← modify (fun b => b <| b_disk := (b_disk b) <| disk_pointer := Some target |> |>);
    _ ← commit_profile target p configured has_key;
    _ ← reset_exemptions;
    _ ← forget_suggested_exit_node;
    _ ← reconcile_sys_policy e;
    b ← get_state;
    mret (Switched (b_current_profile b) (derive_state b false)).

Definition switch_profile (e : Env) (target : string) : M SwitchOutcome :=
  b ← get_state;
  match resolve_target_to_id target (disk_profiles (b_disk b)) with
  | None => throw (NoProfileNamed target)
  | Some id => activate_profile e id true
  end.

Definition create_profile (e : Env) (id : string) : M SwitchOutcome :=
  _ ← check (is_valid_profile_id id) (InvalidProfileId id);
  b ← get_state;
  match resolve_target_to_id id (disk_profiles (b_disk b)) with
  | Some existing => throw (ProfileExists existing)
  | None => activate_profile e id true
  end.

Definition remove_profile_files (e : Env) (id : string) : M unit :=
  b ← get_state;
  _ ← check (match disk_prefs (b_disk b) !! id with Some _ => e_remove_prefs e | None => true end)
        RemoveFilesFailed;
  _ ← modify (fun b => b <| b_disk := (b_disk b) <| disk_prefs := delete id (disk_prefs (b_disk b)) |> |>);
  _ ← check (match disk_keys (b_disk b) !! id with Some _ => e_remove_key e | None => true end)
        RemoveFilesFailed;
  modify (fun b => b <| b_disk := write_key_file id None (b_disk b) |>).

Definition reset_to_empty_profile (e : Env) : M SwitchOutcome :=
  b ← get_state;
  let meta := disk_profiles (b_disk b) in
  let named := match pf_get meta (b_current_profile b) with
               | Some name => negb (String.eqb name "")
               | None => false
               end in
  if negb (b_ever_configured b) && negb named
     && match b_device b with Some _ => false | None => true end
  then mret (AlreadyCurrent (b_current_profile b))
  else
    _ ← stop_device e;
    _ ← bump_generation;
    _ ← modify (fun b => b <| b_netmap_name := None |>);
    _ ← when_m named (save_profiles_file e (pf_insert (b_current_profile b) "" meta));
    b ← get_state;
    _ ← check (match disk_prefs (b_disk b) !! b_current_profile b with
               | Some _ => e_remove_prefs e
               | None => true
               end) RemoveFilesFailed;
    _ ← modify (fun b => b <| b_disk := (b_disk b)
                     <| disk_prefs := delete (b_current_profile b) (disk_prefs (b_disk b)) |> |>);
    _ ← modify (fun b => b <| b_prefs := Prefs_default |> <| b_ever_configured := false |>
                           <| b_boot_attempted_up := false |>);
    _ ← reset_exemptions;
    _ ← forget_suggested_exit_node;
    _ ← reconcile_sys_policy e;
    _ ← modify (fun b => b <| b_prefs_ticks := b_prefs_ticks b + 1 |>);
    b ← get_state;
    mret (Switched (b_current_profile b) (derive_state b false)).

(** [switch_to_empty_profile_drawing]: [draw] yields the random bytes. *)
Definition switch_to_empty_profile (e : Env) (draw : nat -> result unit (Z * Z)) : M SwitchOutcome :=
  b ← get_state;
  if negb (has_logged_in (b_prefs b)) then reset_to_empty_profile e
  else
    let meta := pf_or_default (b_current_profile b) (disk_profiles (b_disk b)) in
    drawn ← lift (fun _ => EntropyFailed) (unused_profile_id meta draw);
    id ← lift id (ok_or NoUnusedId drawn);
    _ ← remove_profile_files e id;
    activate_profile e id false.

Definition delete_profile (e : Env) (target : string) : M DeleteOutcome :=
  b ← get_state;
  match resolve_target_to_id target (disk_profiles (b_disk b)) with
  | None => throw (NoProfileNamed target)
  | Some id =>
      if String.eqb id (b_current_profile b) then mret (DeleteAlreadyCurrent id)
      else if String.eqb id DEFAULT_PROFILE_ID then throw DefaultNotRemovable
      else
        _ ← remove_profile_files e id;
        b ← get_state;
        let meta := disk_profiles (b_disk b) in
        _ ← when_m (contains_key meta id) (save_profiles_file e (pf_remove id meta));
        mret (Removed id)
  end.

(** ** Boot *)

(** [Backend::load], over what the state directory holds. *)
Definition load (e : Env) (d : Disk) : result BackendError Backend :=
  let id := load_current_profile (disk_pointer d) in
  p ← load_prefs d id;
  Ok (fst (reconcile_sys_policy e
    {| b_prefs := p;
       b_current_profile := id;
       b_listen_port := None;
       b_device := None;
       b_ssh_task := None;
       b_serve_tasks := [];
       b_monitor_task := None;
       b_suggestion_task := None;
       b_ever_configured := prefs_file_exists d id;
       b_generation := 0;
       b_prefs_ticks := 0;
       b_suggested_exit_node := "";
       b_boot_attempted_up := false;
       b_has_node_key := key_file_has_node_key (disk_keys d !! id);
       b_override_always_on := false;
       b_reconnect := None;
       b_reconnect_seq := 0;
       b_always_on_keys := always_on_keys_in (e_policy e);
       b_override_exit_node_policy := false;
       b_exit_node_keys := exit_node_keys_in (e_policy e);
       b_netmap_name := None;
       b_disk := d |})).
