(* ===== verification/BackendFacts.v ===== *)
(** * Facts about the backend's operations

    The shape of every run of an operation of Backend.v (which steps it
    reaches, what it leaves behind on each branch), and the per-operation
    properties that follow.  Lifecycle.v puts the operations together. *)
From Stdlib Require Import ZArith Lia Ascii String List.
From stdpp Require Import base gmap list strings option.
From coqutil Require Datatypes.RecordSettersUsingExistingGetters.
Import coqutil.Datatypes.RecordSettersUsingExistingGetters.RecordSetNotations1.
From S2P Require Import Prelude NetAddr Prefs SysPolicy RevertGuard Routes.
From S2P Require Import Gates ExitNodeArg Profiles EngineConfig Edits Conffile.
From S2P Require Import Backend.
Import AlwaysOn ExitNodeGate ControlUrl LifecycleState AutoUpdate.

(** ** The monad *)

Ltac record_simpl :=
  cbn [RecordSettersUsingExistingGetters.set RecordSettersUsingExistingGetters.const
       b_prefs b_current_profile b_listen_port b_device b_ssh_task b_serve_tasks b_monitor_task
       b_suggestion_task b_ever_configured b_generation b_prefs_ticks b_suggested_exit_node
       b_boot_attempted_up b_has_node_key b_override_always_on b_reconnect b_reconnect_seq
       b_always_on_keys b_override_exit_node_policy b_exit_node_keys b_netmap_name b_disk
       disk_prefs disk_keys disk_profiles disk_pointer] in *;
  unfold RecordSettersUsingExistingGetters.const in *.

Lemma M_bind_ok {A B} (m : M A) (f : A -> M B) b b' y :
  (m ≫= f) b = (b', Ok y) <-> exists b1 x, m b = (b1, Ok x) /\ f x b1 = (b', Ok y).
Proof. unfold mbind, M_bind. destruct (m b) as [b1 [x|err]]; naive_solver. Qed.

Lemma M_bind_err {A B} (m : M A) (f : A -> M B) b b' err :
  (m ≫= f) b = (b', Err err) <->
  m b = (b', Err err) \/ exists b1 x, m b = (b1, Ok x) /\ f x b1 = (b', Err err).
Proof. unfold mbind, M_bind. destruct (m b) as [b1 [x|err']]; naive_solver. Qed.

(** A run of a sequence whose first step is known, or is a plain step. *)
Lemma bind_run {A B} (m : M A) (f : A -> M B) b b' x :
  m b = (b', Ok x) -> (m ≫= f) b = f x b'.
Proof. intros H. unfold mbind, M_bind. by rewrite H. Qed.

Lemma bind_stop {A B} (m : M A) (f : A -> M B) b b' err :
  m b = (b', Err err) -> (m ≫= f) b = (b', Err err).
Proof. intros H. unfold mbind, M_bind. by rewrite H. Qed.

Lemma bind_get {B} (f : Backend -> M B) b : (get_state ≫= f) b = f b b.
Proof. reflexivity. Qed.

Lemma check_run c err b : check c err b = (b, if c then Ok tt else Err err).
Proof. by destruct c. Qed.

Lemma bind_modify {B} g (f : unit -> M B) b : (modify g ≫= f) b = f tt (g b).
Proof. reflexivity. Qed.

Lemma lift_ok {E A} (w : E -> BackendError) (r : result E A) b b' a :
  lift w r b = (b', Ok a) <-> b' = b /\ r = Ok a.
Proof. unfold lift. destruct r; naive_solver. Qed.

Lemma lift_err {E A} (w : E -> BackendError) (r : result E A) b b' err :
  lift w r b = (b', Err err) <-> b' = b /\ exists x, r = Err x /\ err = w x.
Proof. unfold lift. destruct r; naive_solver. Qed.

Lemma check_ok c err b b' u : check c err b = (b', Ok u) <-> b' = b /\ c = true.
Proof. unfold check. destruct c, u; naive_solver. Qed.

Lemma check_err c err b b' err' : check c err b = (b', Err err') <-> b' = b /\ c = false /\ err' = err.
Proof. unfold check. destruct c; naive_solver. Qed.

(** Take a run apart, one step of the monad at a time. *)
Ltac inv_run :=
  repeat match goal with
  | H : (_ ≫= _) _ = (_, Ok _) |- _ => apply M_bind_ok in H as (? & ? & ? & H)
  | H : (_ ≫= _) _ = (_, Err _) |- _ => apply M_bind_err in H as [H|(? & ? & ? & H)]
  | H : get_state _ = (_, _) |- _ => unfold get_state in H; injection H as H; try subst
  | H : modify _ _ = (_, Ok _) |- _ => unfold modify in H; injection H as H; try subst
  | H : modify _ _ = (_, Err _) |- _ => discriminate H
  | H : get_state _ = (_, Err _) |- _ => discriminate H
  | H : mret _ _ = (_, Ok _) |- _ => unfold mret, M_ret in H; injection H as H; try subst
  | H : mret _ _ = (_, Err _) |- _ => discriminate H
  | H : throw _ _ = (_, Ok _) |- _ => discriminate H
  | H : throw _ _ = (_, Err _) |- _ => unfold throw in H; injection H as H; try subst
  | H : lift _ _ _ = (_, Ok _) |- _ => apply lift_ok in H as [? ?]; try subst
  | H : lift _ _ _ = (_, Err _) |- _ => apply lift_err in H as (? & ? & ? & ?); try subst
  | H : check _ _ _ = (_, Ok _) |- _ => apply check_ok in H as [? ?]; try subst
  | H : check _ _ _ = (_, Err _) |- _ => apply check_err in H as (? & ? & ?); try subst
  end.

(** ** Operations without a failing branch, as functions *)

Definition kept_netmap_name (e : Env) (b : Backend) : option string :=
  match b_device b, e_self_fqdn e with
  | Some _, Some fqdn => if String.eqb fqdn "" then b_netmap_name b else Some fqdn
  | _, _ => b_netmap_name b
  end.

Definition stopped (e : Env) (b : Backend) : Backend :=
  b <| b_netmap_name := kept_netmap_name e b |>
    <| b_ssh_task := None |> <| b_monitor_task := None |> <| b_suggestion_task := None |>
    <| b_serve_tasks := [] |> <| b_device := None |>.

Lemma stop_device_run e b : stop_device e b = (stopped e b, Ok tt).
Proof.
  unfold stop_device, stopped, kept_netmap_name, current_netmap_name.
  destruct b as [p c lp [dev|] st sv mo su ev g t sg bo k oa r rs ak oe ek nm d]; [|reflexivity].
  destruct (e_self_fqdn e) as [fqdn|]; [|reflexivity].
  unfold mbind, M_bind, get_state, modify, when_m, mret, M_ret. record_simpl.
  by destruct (String.eqb fqdn "").
Qed.

(** The policy's effect on the prefs under the standing exemptions. *)
Definition reconciled (e : Env) (b : Backend) : Backend :=
  b <| b_prefs := policy_prefs (e_policy e) (overrides_of b) (b_prefs b) |>.

Lemma reconcile_run e b : reconcile_sys_policy e b = (reconciled e b, Ok tt).
Proof. unfold reconcile_sys_policy, modify, reconciled. by rewrite apply_settings_fst. Qed.

Lemma record_run edit b :
  record_exit_node_edit edit b
  = (b <| b_override_exit_node_policy :=
        override_after edit (b_override_exit_node_policy b) |>, Ok tt).
Proof. destruct edit; [by destruct b | reflexivity | reflexivity]. Qed.

(** [begin_up] between the engine's teardown and the persist. *)
Definition up_merged (opts : UpOptions) (edit : ExitNodeEdit) (b : Backend) : Backend :=
  b <| b_prefs := merge_up opts (b_prefs b) |> <| b_ever_configured := true |>
    <| b_override_always_on := false |> <| b_reconnect := None |>
    <| b_override_exit_node_policy := override_after edit false |>.

(** A permitted disconnect's exemption and, with a bound, its timer. *)
Definition timer_armed (e : Env) (after : Z) (b : Backend) : Backend :=
  b <| b_reconnect :=
    Some (mkReconnectTimer (b_reconnect_seq b) (b_current_profile b) after (e_now e + after)) |>.

Definition permitted (e : Env) (b : Backend) : Backend :=
  let b := b <| b_override_always_on := true |> in
  match reconnect_after_in (e_policy e) with
  | Some after => timer_armed e after (b <| b_reconnect_seq := b_reconnect_seq b + 1 |>)
  | None => b
  end.

(** The intent, exemptions and timer a disconnect leaves; [f] is the intent. *)
Definition downed (e : Env) (f : Prefs -> Prefs) (b : Backend) : Backend :=
  let was_running := want_running (b_prefs b) in
  let b := b <| b_prefs := f (b_prefs b) |> <| b_ever_configured := true |> in
  let b := if was_running then permitted e b else b in
  b <| b_override_exit_node_policy := false |>.

Definition down_intent (p : Prefs) : Prefs := p <| want_running := false |>.
Definition logout_intent (p : Prefs) : Prefs :=
  p <| want_running := false |> <| logged_out := true |> <| has_logged_in := false |>.

Lemma permitted_run e b :
  on_permitted_disconnect e (reconnect_after_in (e_policy e)) b = (permitted e b, Ok tt).
Proof.
  unfold on_permitted_disconnect, permitted, timer_armed.
  by destruct (reconnect_after_in (e_policy e)).
Qed.

(** The shared tail of [down] and [logout]. *)
Lemma disconnect_tail_run e f was b :
  was = want_running (b_prefs b) ->
  (_ ← modify_prefs f;
   _ ← modify (fun b => b <| b_ever_configured := true |>);
   _ ← when_m was (on_permitted_disconnect e (reconnect_after_in (e_policy e)));
   _ ← reset_exit_node_policy_override;
   persist_prefs e) b
  = persist_prefs e (downed e f b).
Proof.
  intros ->. unfold mbind, M_bind, modify_prefs, reset_exit_node_policy_override, modify, downed, when_m.
  cbv beta iota zeta. destruct (want_running (b_prefs b)); [|reflexivity].
  by rewrite permitted_run.
Qed.

Lemma reset_always_on_run b :
  reset_always_on_override b = (b <| b_override_always_on := false |> <| b_reconnect := None |>, Ok tt).
Proof. reflexivity. Qed.

(** ** Persisting *)

Definition with_prefs_saved (b : Backend) : Backend :=
  b <| b_disk := write_prefs_file (b_current_profile b) (PrefsStored (b_prefs b)) (b_disk b) |>.

Definition needs_registration (b : Backend) : bool :=
  has_logged_in (b_prefs b) && negb (String.eqb (b_current_profile b) DEFAULT_PROFILE_ID)
  && negb (contains_key (disk_profiles (b_disk b)) (b_current_profile b)).

Definition registered_profiles (b : Backend) : ProfilesFile :=
  if needs_registration b
  then pf_insert (b_current_profile b) (default "" (node_nickname (b_prefs b)))
         (disk_profiles (b_disk b))
  else disk_profiles (b_disk b).

Definition persisted (b : Backend) : Backend :=
  b <| b_disk := (write_prefs_file (b_current_profile b) (PrefsStored (b_prefs b)) (b_disk b))
                   <| disk_profiles := registered_profiles b |> |>
    <| b_prefs_ticks := b_prefs_ticks b + 1 |>.

(** A persist succeeds, fails with nothing written, or fails with the prefs
    written but the profile not listed. *)
Lemma persist_run e b :
  persist_prefs e b
  = if negb (e_write_prefs e (b_prefs b)) then (b, Err SavePrefsFailed)
    else if needs_registration b && negb (e_write_profiles e (registered_profiles b))
    then (with_prefs_saved b, Err SaveProfilesFailed)
    else (persisted b, Ok tt).
Proof.
  unfold persist_prefs, register_current_profile, persisted, registered_profiles,
    needs_registration, with_prefs_saved, save_profiles_file, check, modify.
  unfold mbind, M_bind, get_state, mret, M_ret.
  destruct (e_write_prefs e (b_prefs b)); cbn [negb]; [|done]. record_simpl.
  unfold write_prefs_file. record_simpl.
  destruct (has_logged_in (b_prefs b)), (String.eqb (b_current_profile b) DEFAULT_PROFILE_ID);
    cbn [negb andb orb]; try (destruct b as []; destruct b_disk; reflexivity).
  destruct (contains_key (disk_profiles (b_disk b)) (b_current_profile b)); cbn [negb andb];
    [destruct b; destruct b_disk; reflexivity|].
  destruct (e_write_profiles e _); reflexivity.
Qed.

(** ** Vetting an edit: everything asked before anything is changed *)

Definition map_err {E F A} (w : E -> F) (r : result E A) : result F A :=
  match r with Ok a => Ok a | Err e => Err (w e) end.

(** The refusals: an edit judged unacceptable, as against a failure on the
    way. *)
Definition is_refusal (err : BackendError) : bool :=
  match err with
  | RoutesRefused _ | TagRefused _ | ExitNodeManagedByPolicy | ExitArgRefused _
  | SshRefused | AutoUpdateRefused _ | Disconnect _ => true
  | _ => false
  end.

Section Vet.
Context (e : Env) (p : Prefs).

Definition vet_routes (named : option (list string)) (named_exit : option bool) (reset : bool)
    : result BackendError unit :=
  let '(routes, exit) := prospective_route_set named named_exit p reset in
  map_err RoutesRefused (validate_advertise_routes (parse_net (e_host e)) (e_trunc e) routes exit).

Definition vet_tags (named : option (list string)) : result BackendError (option (list string)) :=
  match named with
  | Some tags => Some <$> map_err TagRefused (complete_and_validate_advertise_tags tags)
  | None => Ok None
  end.

Definition vet_exit_node (named : option (option string)) : result BackendError ExitNodeEdit :=
  edit ← map_err (fun _ => ExitNodeManagedByPolicy)
           (check_exit_node_edit named (exit_node_policy_in (e_policy e)));
  _ ← match named with
      | Some (Some sel) => map_err ExitArgRefused (check_exit_node_arg sel (e_facts e))
      | _ => Ok tt
      end;
  Ok edit.

Definition vet_ssh (named : option bool) (reset : bool) : result BackendError unit :=
  guard_err (prospective_ssh named p reset && negb (can_run_ssh (e_host e))) SshRefused.

Definition vet_up (opts : UpOptions) : result BackendError (UpOptions * ExitNodeEdit) :=
  _ ← vet_routes (up_advertise_routes opts) (up_advertise_exit_node opts) (up_reset opts);
  tags ← vet_tags (up_advertise_tags opts);
  edit ← vet_exit_node (up_exit_node opts);
  _ ← vet_ssh (up_ssh opts) (up_reset opts);
  Ok (opts <| up_advertise_tags := tags |>, edit).

Definition vet_set (opts : SetOptions) : result BackendError (SetOptions * ExitNodeEdit) :=
  _ ← vet_routes (set_advertise_routes opts) (set_advertise_exit_node opts) false;
  tags ← vet_tags (set_advertise_tags opts);
  edit ← vet_exit_node (set_exit_node opts);
  _ ← vet_ssh (set_ssh opts) false;
  _ ← match check_auto_update_pref (prospective_auto_update (set_auto_update opts) p)
            (e_auto_update_gate e) with
      | Some r => Err (AutoUpdateRefused r)
      | None => Ok tt
      end;
  Ok (opts <| set_advertise_tags := tags |>, edit).

Lemma vet_routes_refusal a b c err : vet_routes a b c = Err err -> is_refusal err = true.
Proof.
  unfold vet_routes. destruct (prospective_route_set _ _ _ _). unfold map_err.
  destruct (validate_advertise_routes _ _ _ _); [done|]. by intros [= <-].
Qed.

Lemma vet_tags_refusal a err : vet_tags a = Err err -> is_refusal err = true.
Proof.
  unfold vet_tags, map_err. destruct a as [tags|]; [|done].
  destruct (complete_and_validate_advertise_tags tags); cbn; [done|]. by intros [= <-].
Qed.

Lemma vet_exit_node_refusal a err : vet_exit_node a = Err err -> is_refusal err = true.
Proof.
  unfold vet_exit_node, map_err. destruct (check_exit_node_edit _ _); [|by intros [= <-]].
  cbn [mbind result_bind]. destruct a as [[sel|]|]; [|done|done].
  destruct (check_exit_node_arg sel (e_facts e)); [done|]. by intros [= <-].
Qed.

Lemma vet_ssh_refusal a r err : vet_ssh a r = Err err -> is_refusal err = true.
Proof. unfold vet_ssh, guard_err. destruct (_ && _); [|done]. by intros [= <-]. Qed.

Lemma bind_refusal {A B} (m : result BackendError A) (f : A -> result BackendError B) err :
  (forall err, m = Err err -> is_refusal err = true) ->
  (forall a err, f a = Err err -> is_refusal err = true) ->
  m ≫= f = Err err -> is_refusal err = true.
Proof. intros Hm Hf. destruct m as [a|err']; cbn; [apply Hf|]. intros [= <-]. by apply Hm. Qed.

Lemma vet_up_refusal opts err : vet_up opts = Err err -> is_refusal err = true.
Proof.
  unfold vet_up. apply bind_refusal; [apply vet_routes_refusal|intros _ ?].
  apply bind_refusal; [apply vet_tags_refusal|intros tags ?].
  apply bind_refusal; [apply vet_exit_node_refusal|intros edit ?].
  apply bind_refusal; [apply vet_ssh_refusal|done].
Qed.

Lemma vet_set_refusal opts err : vet_set opts = Err err -> is_refusal err = true.
Proof.
  unfold vet_set. apply bind_refusal; [apply vet_routes_refusal|intros _ ?].
  apply bind_refusal; [apply vet_tags_refusal|intros tags ?].
  apply bind_refusal; [apply vet_exit_node_refusal|intros edit ?].
  apply bind_refusal; [apply vet_ssh_refusal|intros _ ?].
  apply bind_refusal; [|done]. intros ?. destruct (check_auto_update_pref _ _); [|done].
  by intros [= <-].
Qed.
End Vet.

(** ** The shape of [begin_up] *)

(** Everything after the vetting. *)
Definition commit_up (e : Env) (opts : UpOptions) (edit : ExitNodeEdit) : M PendingUp :=
  _ ← stop_device e;
  _ ← when_m (up_force_reauth opts) (discard_node_key e);
  _ ← modify_prefs (merge_up opts);
  _ ← modify (fun b => b <| b_ever_configured := true |>);
  _ ← reset_always_on_override;
  _ ← reset_exit_node_policy_override;
  _ ← record_exit_node_edit edit;
  _ ← reconcile_sys_policy e;
  _ ← persist_prefs e;
  config ← build_config_m e;
  _ ← modify (fun b => b <| b_has_node_key := true |>);
  _ ← bump_generation;
  b ← get_state;
  mret (mkPendingUp config (b_generation b)).

Lemma validate_routes_run e nr ne rs b :
  validate_routes_m e nr ne rs b = (b, vet_routes e (b_prefs b) nr ne rs).
Proof.
  unfold validate_routes_m, vet_routes, lift, map_err, mbind, M_bind, get_state.
  destruct (prospective_route_set _ _ _ _). by destruct (validate_advertise_routes _ _ _ _).
Qed.

Lemma complete_tags_run named b : complete_tags_m named b = (b, vet_tags named).
Proof.
  unfold complete_tags_m, vet_tags, lift, map_err, mbind, M_bind. destruct named as [tags|]; [|done].
  by destruct (complete_and_validate_advertise_tags tags).
Qed.

Lemma check_ssh_run e named reset b :
  check_ssh_prefs_gated e named reset b = (b, vet_ssh e (b_prefs b) named reset).
Proof.
  unfold check_ssh_prefs_gated, vet_ssh, check, mbind, M_bind, get_state.
  destruct (prospective_ssh _ _ _), (can_run_ssh (e_host e)); done.
Qed.

Lemma exit_node_vet_run {A} e named (f : ExitNodeEdit -> M A) b :
  (edit ← check_exit_node_policy e named; _ ← check_exit_node_arg_m e named; f edit) b
  = match vet_exit_node e named with Ok edit => f edit b | Err err => (b, Err err) end.
Proof.
  unfold check_exit_node_policy, check_exit_node_arg_m, vet_exit_node, lift, map_err, mbind, M_bind.
  destruct (check_exit_node_edit _ _) as [edit|]; [|done]. cbn [result_bind].
  destruct named as [[sel|]|]; [|done|done]. by destruct (check_exit_node_arg sel (e_facts e)).
Qed.

Lemma begin_up_run e opts b :
  begin_up e opts b
  = match vet_up e (b_prefs b) opts with
    | Err err => (b, Err err)
    | Ok (opts, edit) => commit_up e opts edit b
    end.
Proof.
  unfold begin_up, vet_up. unfold mbind at 1, M_bind. rewrite validate_routes_run.
  destruct (vet_routes _ _ _ _ _) as [[]|]; [|done]. cbn [mbind result_bind].
  unfold mbind at 1, M_bind. rewrite complete_tags_run.
  destruct (vet_tags _) as [tags|]; [|done]. cbn [mbind result_bind]. cbv zeta.
  change (up_exit_node (opts <| up_advertise_tags := tags |>)) with (up_exit_node opts).
  change (up_ssh (opts <| up_advertise_tags := tags |>)) with (up_ssh opts).
  change (up_reset (opts <| up_advertise_tags := tags |>)) with (up_reset opts).
  rewrite exit_node_vet_run. destruct (vet_exit_node _ _) as [edit|]; [|done].
  cbn [mbind result_bind]. unfold mbind at 1, M_bind. rewrite check_ssh_run.
  destruct (vet_ssh _ _ _ _) as [[]|]; [|done]. reflexivity.
Qed.

Definition discarded (b : Backend) : Backend :=
  b <| b_disk := write_key_file (b_current_profile b) None (b_disk b) |> <| b_has_node_key := false |>.

(** Whether the key file is there and cannot be removed. *)
Definition wipe_fails (e : Env) (b : Backend) : bool := is_some (key_file_of b) && negb (e_remove_key e).

Lemma discard_run e b :
  discard_node_key e b
  = if wipe_fails e b then (b, Err DiscardKeyFailed) else (discarded b, Ok tt).
Proof.
  unfold discard_node_key, wipe_fails, discarded, check, modify, mbind, M_bind, get_state.
  destruct (key_file_of b) eqn:E; cbn [is_some andb].
  - by destruct (e_remove_key e).
  - unfold write_key_file. unfold key_file_of in E. rewrite delete_id by done.
    destruct b as []. by destruct b_disk.
Qed.

(** The backend handed to the persist by a bring-up. *)
Definition up_intent (e : Env) (opts : UpOptions) (edit : ExitNodeEdit) (b : Backend) : Backend :=
  let b := stopped e b in
  let b := if up_force_reauth opts then discarded b else b in
  reconciled e (up_merged opts edit b).

Definition up_done (b : Backend) : Backend :=
  b <| b_has_node_key := true |> <| b_generation := b_generation b + 1 |>.

Lemma commit_up_run e opts edit b :
  commit_up e opts edit b
  = if up_force_reauth opts && wipe_fails e (stopped e b)
    then (stopped e b, Err DiscardKeyFailed)
    else
      match persist_prefs e (up_intent e opts edit b) with
      | (b1, Err err) => (b1, Err err)
      | (b1, Ok _) =>
          match build_config_m e b1 with
          | (b2, Err err) => (b2, Err err)
          | (b2, Ok c) => (up_done b2, Ok (mkPendingUp c (b_generation b2 + 1)))
          end
      end.
Proof.
  unfold commit_up, up_intent. unfold mbind at 1, M_bind. rewrite stop_device_run.
  unfold mbind at 1, M_bind.
  assert (Hmerge : forall b0,
    (_ ← modify_prefs (merge_up opts);
     _ ← modify (fun b => b <| b_ever_configured := true |>);
     _ ← reset_always_on_override;
     _ ← reset_exit_node_policy_override;
     _ ← record_exit_node_edit edit;
     _ ← reconcile_sys_policy e;
     _ ← persist_prefs e;
     config ← build_config_m e;
     _ ← modify (fun b => b <| b_has_node_key := true |>);
     _ ← bump_generation;
     b ← get_state;
     mret (mkPendingUp config (b_generation b))) b0
    = match persist_prefs e (reconciled e (up_merged opts edit b0)) with
      | (b1, Err err) => (b1, Err err)
      | (b1, Ok _) =>
          match build_config_m e b1 with
          | (b2, Err err) => (b2, Err err)
          | (b2, Ok c) => (up_done b2, Ok (mkPendingUp c (b_generation b2 + 1)))
          end
      end).
  { intros b0. unfold mbind, M_bind, modify_prefs, reset_exit_node_policy_override, modify.
    rewrite reset_always_on_run. cbv beta iota. rewrite record_run. cbv beta iota.
    rewrite reconcile_run. cbv beta iota.
    change (reconciled e _) with (reconciled e (up_merged opts edit b0)).
    destruct (persist_prefs e _) as [b1 [[]|]]; [|done].
    by destruct (build_config_m e b1) as [b2 [c|]]. }
  unfold when_m. destruct (up_force_reauth opts); cbn [andb].
  - rewrite discard_run. destruct (wipe_fails e (stopped e b)); [done|]. apply Hmerge.
  - apply Hmerge.
Qed.

(** ** The shape of [begin_set] *)

Definition set_intent (e : Env) (opts : SetOptions) (edit : ExitNodeEdit) (b : Backend) : Backend :=
  reconciled e
    (b <| b_prefs := apply_set_overrides opts (b_prefs b) |> <| b_ever_configured := true |>
       <| b_override_exit_node_policy := override_after edit (b_override_exit_node_policy b) |>).

Definition commit_set (e : Env) (opts : SetOptions) : M SetOutcome :=
  rename_error ← match set_nickname opts with
                 | Some name => held (rename_current_profile e (default "" name))
                 | None => mret None
                 end;
  action ← reconcile_set e opts;
  mret (mkSetOutcome action rename_error).

Lemma begin_set_run e opts b :
  begin_set e opts b
  = match vet_set e (b_prefs b) opts with
    | Err err => (b, Err err)
    | Ok (opts, edit) =>
        match persist_prefs e (set_intent e opts edit b) with
        | (b1, Err err) => (b1, Err err)
        | (b1, Ok _) => commit_set e opts b1
        end
    end.
Proof.
  unfold begin_set, vet_set. unfold mbind at 1, M_bind. rewrite validate_routes_run.
  destruct (vet_routes _ _ _ _ _) as [[]|]; [|done]. cbn [mbind result_bind].
  unfold mbind at 1, M_bind. rewrite complete_tags_run.
  destruct (vet_tags _) as [tags|]; [|done]. cbn [mbind result_bind]. cbv zeta.
  set (opts' := opts <| set_advertise_tags := tags |>).
  change (set_exit_node opts') with (set_exit_node opts).
  change (set_ssh opts') with (set_ssh opts).
  change (set_auto_update opts') with (set_auto_update opts).
  rewrite exit_node_vet_run. destruct (vet_exit_node _ _) as [edit|]; [|done].
  cbn [mbind result_bind]. unfold mbind at 1, M_bind. rewrite check_ssh_run.
  destruct (vet_ssh _ _ _ _) as [[]|]; [|done]. cbn [mbind result_bind].
  unfold check_auto_update_m. unfold mbind, M_bind, get_state.
  destruct (check_auto_update_pref _ _) as [r|]; [done|].
  unfold mret at 1, M_ret at 1, modify_prefs, modify. cbv beta iota.
  rewrite record_run. cbv beta iota. rewrite reconcile_run. reflexivity.
Qed.

(** ** The shape of [down] and [logout] *)

Definition vet_disconnect (e : Env) (b : Backend) (actor : Actor) : result BackendError unit :=
  if negb (want_running (b_prefs b)) then Ok tt
  else
    _ ← map_err Disconnect
          (check_disconnect_policy (e_policy e) actor (current_profile_name b) None);
    Ok tt.

Lemma check_disconnect_run e actor b :
  check_disconnect_policy_m e actor b = (b, vet_disconnect e b actor).
Proof.
  unfold check_disconnect_policy_m, vet_disconnect, lift, map_err, mbind, M_bind, get_state.
  destruct (want_running (b_prefs b)); [|done]. cbn [negb].
  by destruct (check_disconnect_policy _ _ _ _).
Qed.

Lemma vet_disconnect_refusal e b actor err :
  vet_disconnect e b actor = Err err -> is_refusal err = true.
Proof.
  unfold vet_disconnect, map_err. destruct (negb _); [done|].
  destruct (check_disconnect_policy _ _ _ _); cbn; [done|]. by intros [= <-].
Qed.

Definition bumped (b : Backend) : Backend := b <| b_generation := b_generation b + 1 |>.

Lemma bump_run b : bump_generation b = (bumped b, Ok tt).
Proof. reflexivity. Qed.

Lemma down_run e actor b :
  down e actor b
  = match vet_disconnect e b actor with
    | Err err => (b, Err err)
    | Ok _ => persist_prefs e (downed e down_intent (bumped (stopped e b)))
    end.
Proof.
  unfold down. destruct (vet_disconnect e b actor) as [[]|] eqn:Ev;
    [rewrite (bind_run _ _ _ _ _ (eq_trans (check_disconnect_run e actor b) (f_equal (pair b) Ev)))
    |apply bind_stop; by rewrite check_disconnect_run, Ev].
  rewrite bind_get. cbv beta zeta. rewrite (bind_run _ _ _ _ _ (stop_device_run e b)).
  change (want_running (b_prefs b)) with (want_running (b_prefs (stopped e b))).
  set (b1 := stopped e b). clearbody b1.
  rewrite (bind_run _ _ _ _ _ (bump_run b1)).
  rewrite disconnect_tail_run by reflexivity. done.
Qed.

Definition forgotten (b : Backend) : Backend :=
  b <| b_netmap_name := None |> <| b_suggested_exit_node := "" |>.

Lemma forget_then {B} (k : M B) b :
  (_ ← modify (fun b => b <| b_netmap_name := None |>); _ ← forget_suggested_exit_node; k) b
  = k (forgotten b).
Proof. reflexivity. Qed.

Lemma logout_run e actor b :
  logout e actor b
  = match vet_disconnect e b actor with
    | Err err => (b, Err err)
    | Ok _ =>
        let b1 := forgotten (bumped (stopped e b)) in
        if wipe_fails e b1 then (b1, Err DiscardKeyFailed)
        else persist_prefs e (downed e logout_intent (discarded b1))
    end.
Proof.
  unfold logout. destruct (vet_disconnect e b actor) as [[]|] eqn:Ev;
    [rewrite (bind_run _ _ _ _ _ (eq_trans (check_disconnect_run e actor b) (f_equal (pair b) Ev)))
    |apply bind_stop; by rewrite check_disconnect_run, Ev].
  rewrite bind_get. cbv beta zeta. rewrite (bind_run _ _ _ _ _ (stop_device_run e b)).
  change (want_running (b_prefs b)) with (want_running (b_prefs (stopped e b))).
  set (b1 := stopped e b). clearbody b1. rewrite (bind_run _ _ _ _ _ (bump_run b1)).
  change (want_running (b_prefs b1)) with (want_running (b_prefs (bumped b1))).
  set (b2 := bumped b1). clearbody b2. rewrite forget_then.
  change (want_running (b_prefs b2)) with (want_running (b_prefs (forgotten b2))).
  set (b3 := forgotten b2). clearbody b3.
  pose proof (discard_run e b3) as Hd. destruct (wipe_fails e b3); [by apply bind_stop|].
  rewrite (bind_run _ _ _ _ _ Hd).
  apply disconnect_tail_run. reflexivity.
Qed.

(** ** The shape of [finish_up] *)

Definition installed (e : Env) (dev : Device) (b : Backend) : Backend :=
  let b := bumped (b <| b_device := Some dev |>) in
  let b := if feature_ssh (e_host e) && ssh_enabled (b_prefs b) && e_host_key_ok e
           then b <| b_ssh_task := Some (dev_handle dev) |> else b in
  let b := b <| b_monitor_task := Some (dev_handle dev) |> in
  let b := b <| b_suggestion_task := Some (dev_handle dev) |> in
  let b := b <| b_serve_tasks := b_serve_tasks b ++ [dev_handle dev] |> in
  b <| b_prefs := (b_prefs b) <| has_logged_in := true |> |>.

Lemma finish_up_run e pending built b :
  finish_up e pending built b
  = if bool_decide (pending_generation pending <> b_generation b) then (b, Ok built)
    else match built with
         | None => (b, Err EngineStartFailed)
         | Some dev => (installed e dev b, Ok None)
         end.
Proof.
  unfold finish_up. unfold mbind at 1, M_bind, get_state. cbv beta iota.
  case_bool_decide; [done|]. destruct built as [dev|]; [|done].
  unfold mbind at 1, M_bind, modify at 1. cbv beta iota.
  unfold mbind at 1, M_bind, bump_generation, modify at 1. cbv beta iota.
  unfold mbind at 1, M_bind, spawn_ssh_task, when_m, mret, M_ret, modify at 1.
  unfold mbind at 1, M_bind, get_state. cbv beta iota.
  unfold installed. change (bumped (b <| b_device := Some dev |>)) with
    ((b <| b_device := Some dev |>) <| b_generation := b_generation (b <| b_device := Some dev |>) + 1 |>).
  cbv zeta. set (b0 := (b <| b_device := Some dev |>) <| b_generation := _ |>). clearbody b0.
  by destruct (feature_ssh (e_host e) && ssh_enabled (b_prefs b0) && e_host_key_ok e).
Qed.

(** ** The shape of a profile switch *)

Definition unnamed (b : Backend) : Backend := b <| b_netmap_name := None |>.
Definition profile_edge (e : Env) (b : Backend) : Backend := unnamed (bumped (stopped e b)).

Definition swapped (target : string) (p : Prefs) (configured has_key : bool) (b : Backend) : Backend :=
  b <| b_prefs := p |> <| b_ever_configured := configured |>
    <| b_current_profile := target |> <| b_boot_attempted_up := false |>
    <| b_has_node_key := has_key |>.

(** The resets of a profile edge. *)
Definition edge_reset (b : Backend) : Backend :=
  b <| b_override_always_on := false |> <| b_reconnect := None |>
    <| b_override_exit_node_policy := false |> <| b_suggested_exit_node := "" |>.

Definition pointed (target : string) (b : Backend) : Backend :=
  b <| b_disk := (b_disk b) <| disk_pointer := Some target |> |>.

(** The swap of [activate_profile], the resets and the reconcile after it. *)
Definition entered (e : Env) (target : string) (p : Prefs) (b : Backend) : Backend :=
  reconciled e (edge_reset (swapped target p (prefs_file_exists (b_disk b) target)
    (key_file_has_node_key (disk_keys (b_disk b) !! target)) (pointed target b))).

Definition with_listed (target : string) (b : Backend) : Backend :=
  b <| b_disk := (b_disk b) <| disk_profiles := pf_or_default target (disk_profiles (b_disk b)) |> |>.

Definition lists (target : string) (register : bool) : bool :=
  register && negb (String.eqb target DEFAULT_PROFILE_ID).

Lemma edge_reset_run e b :
  (_ ← reset_exemptions; _ ← forget_suggested_exit_node; _ ← reconcile_sys_policy e;
   b ← get_state; mret (Switched (b_current_profile b) (derive_state b false))) b
  = (reconciled e (edge_reset b),
     Ok (Switched (b_current_profile b) (derive_state (reconciled e (edge_reset b)) false))).
Proof.
  unfold reset_exemptions. unfold mbind at 1, M_bind. unfold mbind at 1, M_bind.
  rewrite reset_always_on_run. cbv beta iota.
  unfold reset_exit_node_policy_override, modify at 1. cbv beta iota.
  unfold mbind at 1, M_bind, forget_suggested_exit_node, modify at 1. cbv beta iota.
  unfold mbind at 1, M_bind. rewrite reconcile_run. cbv beta iota.
  fold (edge_reset b). unfold mbind, M_bind, get_state, mret, M_ret. reflexivity.
Qed.

Definition switched_to (e : Env) (target : string) (p : Prefs) (b : Backend)
    : Backend * result BackendError SwitchOutcome :=
  if negb (e_write_pointer e) then (b, Err SavePointerFailed)
  else (entered e target p b, Ok (Switched target (derive_state (entered e target p b) false))).

Lemma enter_run e target p cf k b :
  cf = prefs_file_exists (b_disk b) target ->
  k = key_file_has_node_key (disk_keys (b_disk b) !! target) ->
  (_ ← check (e_write_pointer e) SavePointerFailed;
   _ ← modify (fun b => b <| b_disk := (b_disk b) <| disk_pointer := Some target |> |>);
   _ ← commit_profile target p cf k;
   _ ← reset_exemptions;
   _ ← forget_suggested_exit_node;
   _ ← reconcile_sys_policy e;
   b ← get_state;
   mret (Switched (b_current_profile b) (derive_state b false))) b
  = switched_to e target p b.
Proof.
  intros -> ->. unfold switched_to.
  pose proof (check_run (e_write_pointer e) SavePointerFailed b) as Hc.
  destruct (e_write_pointer e); cbn [negb]; [|by apply bind_stop].
  rewrite (bind_run _ _ _ _ _ Hc), bind_modify. cbv beta.
  set (cf := prefs_file_exists _ _). set (k := key_file_has_node_key _).
  unfold commit_profile. rewrite bind_modify, edge_reset_run. unfold entered, pointed, swapped.
  cbv beta. set (b1 := edge_reset _). change (b_current_profile (reconciled e b1)) with target.
  reflexivity.
Qed.

Lemma profile_edge_then {B} e (k : M B) b :
  (_ ← stop_device e; _ ← bump_generation;
   _ ← modify (fun b => b <| b_netmap_name := None |>); k) b
  = k (profile_edge e b).
Proof.
  rewrite (bind_run _ _ _ _ _ (stop_device_run e b)), (bind_run _ _ _ _ _ (bump_run _)).
  unfold profile_edge. set (b1 := bumped (stopped e b)). clearbody b1. by rewrite bind_modify.
Qed.

Lemma activate_run e target register b :
  activate_profile e target register b
  = if String.eqb target (b_current_profile b) then (b, Ok (AlreadyCurrent target))
    else
      let b1 := profile_edge e b in
      match load_prefs (b_disk b1) target with
      | Err err => (b1, Err err)
      | Ok p =>
          if lists target register
             && negb (e_write_profiles e (pf_or_default target (disk_profiles (b_disk b1))))
          then (b1, Err SaveProfilesFailed)
          else switched_to e target p (if lists target register then with_listed target b1 else b1)
      end.
Proof.
  unfold activate_profile. rewrite bind_get.
  destruct (String.eqb target (b_current_profile b)); [done|].
  rewrite profile_edge_then. set (b1 := profile_edge e b). clearbody b1. cbv zeta.
  rewrite bind_get. destruct (load_prefs (b_disk b1) target) as [p|]; [|done].
  rewrite (bind_run (lift id (Ok p)) _ b1 b1 p eq_refl). fold (lists target register).
  destruct (lists target register); cbn [when_m andb].
  - unfold save_profiles_file. pose proof (check_run (e_write_profiles e
      (pf_or_default target (disk_profiles (b_disk b1)))) SaveProfilesFailed b1) as Hc.
    destruct (e_write_profiles e _); cbn [negb].
    + erewrite bind_run; [|rewrite (bind_run _ _ _ _ _ Hc); unfold modify; reflexivity].
      fold (with_listed target b1). apply enter_run; reflexivity.
    + apply bind_stop. by rewrite (bind_stop _ _ _ _ _ Hc).
  - rewrite (bind_run (mret tt) _ b1 b1 tt eq_refl). by apply enter_run.
Qed.
