(* ===== verification/Lifecycle.v ===== *)
(** * The lifecycle as an abstract machine

    What the daemon promises about its engine, node key, policy exemptions and
    reconnect timer, stated over the part of the backend those promises are
    about ([Core]), with one [move] per kind of change.  Every operation of
    Backend.v is a sequence of these moves, whatever branch it takes and
    wherever it fails: the refinement lemmas at the end. *)
From Stdlib Require Import ZArith Lia Ascii String List.
From stdpp Require Import base gmap list strings option relations.
From coqutil Require Datatypes.RecordSettersUsingExistingGetters.
Import coqutil.Datatypes.RecordSettersUsingExistingGetters.RecordSetNotations1.
From S2P Require Import Prelude NetAddr Prefs SysPolicy RevertGuard Routes.
From S2P Require Import Gates ExitNodeArg Profiles EngineConfig Edits Conffile.
From S2P Require Import Backend BackendFacts.
Import AlwaysOn ExitNodeGate ControlUrl LifecycleState AutoUpdate.

(** ** The abstract state *)

Record Core : Type := mkCore {
  c_prefs : Prefs;
  c_profile : string;
  c_engine : option Z;
  c_ssh : option Z;
  c_monitor : option Z;
  c_suggestion : option Z;
  c_serve : list Z;
  c_generation : Z;
  c_has_key : bool;
  c_key : option KeyFile;
  c_override : bool;
  c_timer : option ReconnectTimer;
  c_seq : Z;
  c_ao_keys : AlwaysOnKeys;
  c_exit_override : bool;
  c_exit_keys : ExitNodeKeys;
  c_pointer : option string
}.

Definition core (b : Backend) : Core := {|
  c_prefs := b_prefs b;
  c_profile := b_current_profile b;
  c_engine := dev_handle <$> b_device b;
  c_ssh := b_ssh_task b;
  c_monitor := b_monitor_task b;
  c_suggestion := b_suggestion_task b;
  c_serve := b_serve_tasks b;
  c_generation := b_generation b;
  c_has_key := b_has_node_key b;
  c_key := key_file_of b;
  c_override := b_override_always_on b;
  c_timer := b_reconnect b;
  c_seq := b_reconnect_seq b;
  c_ao_keys := b_always_on_keys b;
  c_exit_override := b_override_exit_node_policy b;
  c_exit_keys := b_exit_node_keys b;
  c_pointer := disk_pointer (b_disk b)
|}.

(** The engine and everything that shares its handle, gone. *)
Definition halt (c : Core) : Core :=
  c <| c_engine := None |> <| c_ssh := None |> <| c_monitor := None |>
    <| c_suggestion := None |> <| c_serve := [] |>.

Definition advance (c : Core) : Core := c <| c_generation := c_generation c + 1 |>.

Definition in_force (s : list PolicySetting) (ao exit : bool) (p : Prefs) : Prop :=
  policy_prefs s (mkPolicyOverrides ao exit) p = p.

Definition runs (p : Prefs) : Prop := want_running p = true /\ logged_out p = false.

(** ** The moves *)

(** [ups] are the generations of the bring-ups in flight, [s] the effective
    policy, and [config] whether declarative configs are applied. *)
Inductive move (s : list PolicySetting) (config : bool) (ups : list Z) : Core -> Core -> Prop :=
| mv_halt c : move s config ups c (halt c)
| mv_advance c : move s config ups c (advance c)
| mv_wipe c : move s config ups c (c <| c_key := None |> <| c_has_key := false |>)
| mv_up c p exit :
    c_engine c = None -> in_force s false exit p -> runs p ->
    move s config ups c (c <| c_prefs := p |> <| c_override := false |> <| c_timer := None |>
                           <| c_exit_override := exit |>)
| mv_mint c k : c_key c = None -> move s config ups c (c <| c_key := Some (KeyState k) |>)
| mv_keyed c k : c_key c = Some (KeyState k) -> move s config ups c (c <| c_has_key := true |>)
| mv_install c h ssh :
    c_generation c ∈ ups -> (ssh = c_ssh c \/ ssh = Some h) ->
    move s config ups c
      (advance (c <| c_engine := Some h |> <| c_ssh := ssh |> <| c_monitor := Some h |>
                  <| c_suggestion := Some h |> <| c_serve := c_serve c ++ [h] |>))
| mv_tune c p :
    (forall ao exit, in_force s ao exit (c_prefs c) -> in_force s ao exit p) ->
    want_running p = want_running (c_prefs c) -> logged_out p = logged_out (c_prefs c) ->
    move s config ups c (c <| c_prefs := p |>)
| mv_edit c p exit :
    in_force s (c_override c) exit p ->
    (want_running (c_prefs c) = true -> want_running p = true) ->
    logged_out p = logged_out (c_prefs c) ->
    move s config ups c (c <| c_prefs := p |> <| c_exit_override := exit |>)
| mv_config c p : config = true -> move s config ups c (c <| c_prefs := p |>)
| mv_disconnect c p timer seq :
    c_engine c = None -> Forall (fun g => g < c_generation c) ups ->
    (timer = c_timer c /\ seq = c_seq c \/
     exists after deadline, want_running (c_prefs c) = true /\
       timer = Some (mkReconnectTimer seq (c_profile c) after deadline) /\ seq = c_seq c + 1) ->
    move s config ups c
      (c <| c_prefs := p |> <| c_override := want_running (c_prefs c) || c_override c |>
         <| c_timer := timer |> <| c_seq := seq |> <| c_exit_override := false |>)
| mv_enter c p id key :
    c_engine c = None -> Forall (fun g => g < c_generation c) ups ->
    in_force s false false p -> is_valid_profile_id id = true ->
    move s config ups c
      (c <| c_prefs := p |> <| c_profile := id |> <| c_pointer := Some id |> <| c_key := key |>
         <| c_has_key := key_file_has_node_key key |>
         <| c_override := false |> <| c_timer := None |> <| c_exit_override := false |>)
| mv_renew c p :
    c_engine c = None -> Forall (fun g => g < c_generation c) ups -> in_force s false false p ->
    move s config ups c
      (c <| c_prefs := p |> <| c_override := false |> <| c_timer := None |>
         <| c_exit_override := false |>)
| mv_always_on_keys c :
    c_ao_keys c <> always_on_keys_in s ->
    move s config ups c (c <| c_ao_keys := always_on_keys_in s |> <| c_override := false |>
                           <| c_timer := None |>)
| mv_exit_node_keys c :
    c_exit_keys c <> exit_node_keys_in s ->
    move s config ups c (c <| c_exit_keys := exit_node_keys_in s |> <| c_exit_override := false |>)
| mv_disarm c : move s config ups c (c <| c_timer := None |>)
| mv_rearm c h : c_engine c = Some h -> move s config ups c (c <| c_serve := [h] |>).

(** ** What holds of every core the moves reach *)

Record Sound (ups : list Z) (c : Core) : Prop := {
  sd_ups : Forall (fun g => g <= c_generation c) ups;
  sd_engine : c_engine c <> None -> Forall (fun g => g < c_generation c) ups;
  sd_tasks :
    match c_engine c with
    | None => c_ssh c = None /\ c_monitor c = None /\ c_suggestion c = None /\ c_serve c = []
    | Some h => (c_ssh c = None \/ c_ssh c = Some h) /\ c_monitor c = Some h /\
                c_suggestion c = Some h /\ c_serve c = [h]
    end;
  sd_key : c_has_key c = true -> exists k, c_key c = Some (KeyState k);
  sd_timer : forall t, c_timer c = Some t ->
    c_override c = true /\ c_engine c = None /\ Forall (fun g => g < c_generation c) ups /\
    rt_profile t = c_profile c /\ rt_seq t <= c_seq c;
  sd_pointer : load_current_profile (c_pointer c) = c_profile c
}.

(** The engine is up, or the newest bring-up can still install one. *)
Definition live (ups : list Z) (c : Core) : Prop := c_engine c <> None \/ c_generation c ∈ ups.

Record Governed (s : list PolicySetting) (ups : list Z) (c : Core) : Prop := {
  gv_runs : live ups c -> runs (c_prefs c);
  gv_force : live ups c -> in_force s (c_override c) (c_exit_override c) (c_prefs c);
  gv_ao_keys : c_ao_keys c = always_on_keys_in s;
  gv_exit_keys : c_exit_keys c = exit_node_keys_in s
}.

Ltac core_simpl :=
  cbn [halt advance RecordSettersUsingExistingGetters.set RecordSettersUsingExistingGetters.const
       c_prefs c_profile c_engine c_ssh c_monitor c_suggestion c_serve c_generation c_has_key c_key
       c_override c_timer c_seq c_ao_keys c_exit_override c_exit_keys c_pointer] in *;
  unfold RecordSettersUsingExistingGetters.const in *.

Lemma Forall_lt_weaken ups g : Forall (fun x => x < g) ups -> Forall (fun x => x <= g) ups.
Proof. intros H. eapply Forall_impl; [exact H|]. cbn. lia. Qed.

Lemma Forall_le_succ ups g : Forall (fun x => x <= g) ups -> Forall (fun x => x < g + 1) ups.
Proof. intros H. eapply Forall_impl; [exact H|]. cbn. lia. Qed.

Lemma Forall_lt_not_elem ups g : Forall (fun x => x < g) ups -> g ∉ ups.
Proof. intros H Hin. rewrite Forall_forall in H. specialize (H g Hin). lia. Qed.

#[local] Hint Resolve Forall_lt_weaken Forall_le_succ : core.

(** Only the newest bring-up can install, and never over a running engine. *)
Lemma Sound_idle ups c : Sound ups c -> c_generation c ∈ ups -> c_engine c = None.
Proof.
  intros Hs Hin. destruct (c_engine c) eqn:E; [|done]. exfalso.
  eapply Forall_lt_not_elem; [apply (sd_engine _ _ Hs); congruence|done].
Qed.

Lemma has_key_state f : key_file_has_node_key f = true -> exists k, f = Some (KeyState k).
Proof. destruct f as [[k|]|]; [eauto|done|done]. Qed.

Lemma Sound_install ups c h ssh : Sound ups c -> c_generation c ∈ ups ->
  (ssh = c_ssh c \/ ssh = Some h) ->
  Sound ups (advance (c <| c_engine := Some h |> <| c_ssh := ssh |> <| c_monitor := Some h |>
                        <| c_suggestion := Some h |> <| c_serve := c_serve c ++ [h] |>)).
Proof.
  intros Hs Hin Hssh. pose proof (Sound_idle _ _ Hs Hin) as Hidle. destruct Hs as [Hu He Ht Hk Htm Hp].
  rewrite Hidle in Ht. destruct Ht as (Hs' & _ & _ & Hsv).
  constructor; core_simpl; eauto.
  - rewrite Hsv. split_and!; [|done..]. destruct Hssh as [->| ->]; eauto.
  - intros t Et. destruct (Htm t Et) as (_ & _ & Hlt & _). by apply Forall_lt_not_elem in Hlt.
Qed.

Lemma Sound_move s config ups c c' : move s config ups c c' -> Sound ups c -> Sound ups c'.
Proof.
  intros Hm Hs. destruct Hm. 7: by apply Sound_install.
  all: destruct Hs as [Hu He Ht Hk Htm Hp]; constructor; core_simpl; try done; eauto.
  all: try (intros ? E; discriminate E).
  all: try (intros t Et; destruct (Htm t Et) as (? & ? & ? & ? & ?); split_and!; eauto).
  - intros t Et. destruct H1 as [[-> ->]|(after & deadline & Hw & -> & ->)].
    + destruct (Htm t Et) as (Ho & ? & ? & ? & ?). rewrite Ho, orb_true_r. done.
    + injection Et as <-. rewrite Hw. split_and!; [done..|]. cbn. lia.
  - apply has_key_state.
  - by apply pointer_reads_back.
  - rewrite H in Ht |- *. by destruct Ht as (? & ? & ? & _).
Qed.

Lemma live_stale ups c : c_engine c = None -> Forall (fun g => g < c_generation c) ups -> ~ live ups c.
Proof. intros He Hu [H|H]; [done|]. by apply Forall_lt_not_elem in Hu. Qed.

Lemma Governed_stale s ups c c' : c_engine c' = None -> Forall (fun g => g < c_generation c') ups ->
  c_ao_keys c' = c_ao_keys c -> c_exit_keys c' = c_exit_keys c -> Governed s ups c -> Governed s ups c'.
Proof.
  intros He Hu Ea Ex [_ _ Ha Hx]. pose proof (live_stale _ _ He Hu) as Hl.
  constructor; [done|done|congruence|congruence].
Qed.

Lemma Governed_move s ups c c' : move s false ups c c' -> Sound ups c -> Governed s ups c ->
  Governed s ups c'.
Proof.
  intros Hm Hs Hg. pose proof Hg as [Hr Hf Ha Hx].
  destruct Hm; try (constructor; unfold live in *; core_simpl; by auto);
    try (by apply (Governed_stale s ups c)); try done.
  - constructor; unfold live in *; core_simpl; try done; intros [?|?]; auto; done.
  - constructor; unfold live in *; core_simpl; try done;
      (intros [?|Hin]; [by auto|exfalso; eapply Forall_lt_not_elem; [|exact Hin]];
       apply Forall_le_succ, (sd_ups _ _ Hs)).
  - constructor; unfold live in *; core_simpl; try done; [|by auto].
    intros Hl. destruct (Hr Hl). split; congruence.
  - constructor; unfold live in *; core_simpl; try done.
    intros Hl. destruct (Hr Hl). split; [auto|congruence].
Qed.

(** ** Sequences of moves *)

Lemma moves_inv s config ups c c' : rtc (move s config ups) c c' -> Sound ups c ->
  Sound ups c' /\ (config = false -> Governed s ups c -> Governed s ups c').
Proof.
  induction 1 as [|c1 c2 c3 Hm _ IH]; [done|]. intros Hs.
  destruct (IH (Sound_move _ _ _ _ _ Hm Hs)) as [Hs3 Hg3]. split; [done|].
  intros -> Hg. apply Hg3; [done|]. by apply Governed_move with c1.
Qed.

(** ** The operations, move by move *)

Section Refine.
Context (e : Env) (config : bool) (ups : list Z).

Definition steps (b b' : Backend) : Prop :=
  rtc (move (e_policy e) config ups) (core b) (core b').

Lemma steps_same b b' : core b' = core b -> steps b b'.
Proof. unfold steps. intros ->. done. Qed.

Lemma steps_trans b1 b2 b3 : steps b1 b2 -> steps b2 b3 -> steps b1 b3.
Proof. unfold steps. intros H1 H2. by etransitivity. Qed.

Lemma steps_once b b' : move (e_policy e) config ups (core b) (core b') -> steps b b'.
Proof. apply rtc_once. Qed.

(** Changes the core does not see. *)
Lemma core_persist b : core (fst (persist_prefs e b)) = core b.
Proof.
  rewrite persist_run. destruct (negb _); [done|]. destruct (_ && _); reflexivity.
Qed.

Lemma core_save_profiles meta b : core (fst (save_profiles_file e meta b)) = core b.
Proof.
  unfold save_profiles_file, check, mbind, M_bind, modify. by destruct (e_write_profiles e meta).
Qed.

Lemma core_forgotten b : core (forgotten b) = core b.
Proof. reflexivity. Qed.

Lemma core_unnamed b : core (unnamed b) = core b.
Proof. reflexivity. Qed.

Lemma core_with_listed target b : core (with_listed target b) = core b.
Proof. reflexivity. Qed.

(** Changes that are one move. *)
Lemma steps_stopped b : steps b (stopped e b).
Proof. apply steps_once. change (core (stopped e b)) with (halt (core b)). constructor. Qed.

Lemma steps_bumped b : steps b (bumped b).
Proof. apply steps_once. change (core (bumped b)) with (advance (core b)). constructor. Qed.

Lemma core_discarded b :
  core (discarded b) = (core b) <| c_key := None |> <| c_has_key := false |>.
Proof.
  unfold core, discarded, key_file_of, write_key_file. record_simpl. by rewrite lookup_delete_eq.
Qed.

Lemma steps_discarded b : steps b (discarded b).
Proof. apply steps_once. rewrite core_discarded. constructor. Qed.

Lemma steps_discard b : steps b (fst (discard_node_key e b)).
Proof.
  rewrite discard_run. destruct (wipe_fails e b); [by apply steps_same|apply steps_discarded].
Qed.

Lemma runs_merged opts p : runs (merge_up opts p).
Proof. split; reflexivity. Qed.

Lemma runs_policy s ov p : runs p -> runs (policy_prefs s ov p).
Proof. intros [H1 H2]. split; [|exact H2]. by rewrite policy_want_running, H1. Qed.

Lemma in_force_policy s ao exit p : in_force s ao exit (policy_prefs s (mkPolicyOverrides ao exit) p).
Proof. apply policy_prefs_idem. Qed.

Lemma core_up_merged opts edit b :
  core (reconciled e (up_merged opts edit b))
  = (core b) <| c_prefs := policy_prefs (e_policy e)
                   (mkPolicyOverrides false (override_after edit false))
                   (merge_up opts (b_prefs b)) |>
      <| c_override := false |> <| c_timer := None |> <| c_exit_override := override_after edit false |>.
Proof. reflexivity. Qed.

Lemma core_stopped b : core (stopped e b) = halt (core b).
Proof. reflexivity. Qed.

Lemma steps_up_intent opts edit b :
  b_device b = None -> steps b (reconciled e (up_merged opts edit b)).
Proof.
  intros Hd. apply steps_once. rewrite core_up_merged.
  apply mv_up; [by unfold core; rewrite Hd|apply in_force_policy|apply runs_policy, runs_merged].
Qed.

Lemma steps_set_intent opts edit b :
  steps b (set_intent e opts edit b).
Proof.
  apply steps_once.
  set (exit := override_after edit (b_override_exit_node_policy b)).
  set (p := policy_prefs (e_policy e) (mkPolicyOverrides (b_override_always_on b) exit)
              (apply_set_overrides opts (b_prefs b))).
  change (core (set_intent e opts edit b)) with
    ((core b) <| c_prefs := p |> <| c_exit_override := exit |>).
  apply mv_edit; [apply in_force_policy| |reflexivity].
  unfold p. rewrite policy_want_running. intros H. change (want_running (b_prefs b) = true) in H.
  change (want_running (apply_set_overrides opts (b_prefs b))) with (want_running (b_prefs b)).
  by rewrite H.
Qed.

(** The loader's effect on the key file. *)
Lemma core_build b : core (fst (build_config_m e b))
  = (core b) <| c_key := fst (build_config (e_host e) (b_prefs b) (key_file_of b) (b_listen_port b)) |>.
Proof.
  unfold build_config_m. destruct (build_config _ _ _ _) as [f r]. cbn [fst].
  assert (H : core (b <| b_disk := write_key_file (b_current_profile b) f (b_disk b) |>)
              = (core b) <| c_key := f |>).
  { unfold core, key_file_of, write_key_file. record_simpl.
    destruct f; [by rewrite lookup_insert_eq|by rewrite lookup_delete_eq]. }
  by destruct r.
Qed.

Lemma core_eta_key (c : Core) : c <| c_key := c_key c |> = c.
Proof. by destruct c. Qed.

Lemma steps_build b : HostLaws (e_host e) -> steps b (fst (build_config_m e b)).
Proof.
  intros Hl. unfold steps. rewrite core_build. change (key_file_of b) with (c_key (core b)).
  unfold build_config. destruct (load_key_file (e_host e) (c_key (core b))) as [[k|] f] eqn:E; cbn [fst].
  - rewrite (load_key_leaves _ _ _ _ Hl E). destruct (c_key (core b)) as [[k'|]|] eqn:Ek.
    + rewrite (load_resumes _ Hl) in E. injection E as <- <-. rewrite <- Ek, core_eta_key. done.
    + rewrite (load_malformed _ Hl) in E. discriminate E.
    + apply rtc_once. by apply mv_mint.
  - apply (load_fails _ Hl) in E as ->. by rewrite core_eta_key.
Qed.

Lemma build_ok_key b b' c : HostLaws (e_host e) -> build_config_m e b = (b', Ok c) ->
  key_file_of b' = Some (KeyState (key_state c)).
Proof.
  intros Hl Hb. change (c_key (core b') = Some (KeyState (key_state c))).
  pose proof (core_build b) as Hc. rewrite Hb in Hc. cbn [fst] in Hc. rewrite Hc. core_simpl.
  revert Hb. unfold build_config_m, build_config.
  destruct (load_key_file _ _) as [[k|] f] eqn:E; [|done]. intros Hb.
  destruct (config_of_prefs _ _ _ _) as [c'|] eqn:Ec; [|done]. injection Hb as _ <-.
  cbn [fst]. rewrite (config_of_prefs_key _ _ _ _ _ Ec). by apply load_key_leaves in E.
Qed.

Hint Resolve steps_same steps_stopped steps_bumped steps_discarded : core.

(** A run's last state, and a step followed by a change the core misses. *)
Lemma steps_persist b b' : steps b b' -> steps b (fst (persist_prefs e b')).
Proof. unfold steps. by rewrite core_persist. Qed.

Lemma steps_up_begun b : HostLaws (e_host e) ->
  steps b (match build_config_m e b with
           | (b2, Err _) => b2
           | (b2, Ok c) => up_done b2
           end).
Proof.
  intros Hl. pose proof (steps_build b Hl) as Hs. pose proof (build_ok_key b) as Hk.
  destruct (build_config_m e b) as [b2 [c|err]]; [|exact Hs]. cbn [fst] in Hs.
  eapply steps_trans; [exact Hs|]. eapply rtc_l.
  - apply (mv_keyed _ _ _ (core b2) (key_state c)). by apply (Hk b2).
  - apply rtc_once. change (core (up_done b2)) with (advance ((core b2) <| c_has_key := true |>)).
    constructor.
Qed.

Lemma begin_up_steps opts b : HostLaws (e_host e) -> steps b (fst (begin_up e opts b)).
Proof.
  intros Hl. rewrite begin_up_run. destruct (vet_up _ _ _) as [[opts' edit]|]; [|by apply steps_same].
  rewrite commit_up_run. destruct (_ && _); [apply steps_stopped|].
  assert (Hi : steps b (up_intent e opts' edit b)).
  { unfold up_intent. destruct (up_force_reauth opts').
    - eapply steps_trans; [apply steps_stopped|]. eapply steps_trans; [apply steps_discarded|].
      by apply steps_up_intent.
    - eapply steps_trans; [apply steps_stopped|]. by apply steps_up_intent. }
  apply steps_persist in Hi. destruct (persist_prefs e _) as [b1 [[]|]]; [|exact Hi].
  eapply steps_trans; [exact Hi|]. cbn [fst]. pose proof (steps_up_begun b1 Hl) as Hb.
  by destruct (build_config_m e b1) as [b2 [c|]].
Qed.

(** What the intent of a bring-up is, whatever it names. *)
Record Intended (reauth : bool) (c c' : Core) : Prop := {
  it_engine : c_engine c' = None;
  it_generation : c_generation c' = c_generation c;
  it_timer : c_timer c' = None;
  it_override : c_override c' = false;
  it_runs : runs (c_prefs c');
  it_force : in_force (e_policy e) (c_override c') (c_exit_override c') (c_prefs c');
  it_profile : c_profile c' = c_profile c;
  it_key : c_key c' = if reauth then None else c_key c
}.

Lemma up_intent_facts opts edit b :
  Intended (up_force_reauth opts) (core b) (core (up_intent e opts edit b)).
Proof.
  unfold up_intent.
  set (b1 := if up_force_reauth opts then _ else _).
  assert (H1 : core b1 = if up_force_reauth opts
                         then (halt (core b)) <| c_key := None |> <| c_has_key := false |>
                         else halt (core b)).
  { unfold b1. destruct (up_force_reauth opts); [by rewrite core_discarded, core_stopped|].
    apply core_stopped. }
  clearbody b1. rewrite core_up_merged, H1.
  set (p := policy_prefs _ _ _).
  assert (Hr : runs p) by apply runs_policy, runs_merged.
  assert (Hf : in_force (e_policy e) false (override_after edit false) p) by apply in_force_policy.
  clearbody p. destruct (up_force_reauth opts); split; core_simpl; done.
Qed.

Lemma core_persist_ok b b' : persist_prefs e b = (b', Ok tt) -> core b' = core b.
Proof. intros H. rewrite <- (core_persist b), H. done. Qed.

Lemma core_build_ok b b' c : HostLaws (e_host e) -> build_config_m e b = (b', Ok c) ->
  core b' = (core b) <| c_key := Some (KeyState (key_state c)) |>.
Proof.
  intros Hl H. pose proof (core_build b) as Hc. pose proof (build_ok_key b b' c Hl H) as Hk.
  rewrite H in Hc. cbn [fst] in Hc. change (c_key (core b') = Some (KeyState (key_state c))) in Hk.
  rewrite Hc in Hk |- *. by core_simpl; rewrite Hk.
Qed.

Lemma core_up_done b : core (up_done b) = advance ((core b) <| c_has_key := true |>).
Proof. reflexivity. Qed.

(** A bring-up begun: the intent is stored, the key on disk is the one in the
    config, and the attempt carries the newest generation. *)
Lemma begin_up_ok opts b b' pending : HostLaws (e_host e) ->
  begin_up e opts b = (b', Ok pending) ->
  exists opts' edit, vet_up e (b_prefs b) opts = Ok (opts', edit) /\
  core b' = advance ((core (up_intent e opts' edit b))
              <| c_key := Some (KeyState (key_state (pending_config pending))) |>
              <| c_has_key := true |>) /\
  pending_generation pending = b_generation b'.
Proof.
  intros Hl. rewrite begin_up_run. destruct (vet_up _ _ _) as [[opts' edit]|]; [|done].
  rewrite commit_up_run. destruct (_ && _); [done|].
  destruct (persist_prefs e _) as [b1 [[]|]] eqn:Ep; [|done]. apply core_persist_ok in Ep.
  destruct (build_config_m e b1) as [b2 [c|]] eqn:Eb; [|done].
  apply core_build_ok in Eb; [|done]. intros [= <- <-]. exists opts', edit.
  split; [done|]. cbn [pending_config pending_generation]. split; [|done].
  by rewrite core_up_done, Eb, Ep.
Qed.

(** What every run of the daemon can rely on after it. *)
Record Begun (c c' : Core) (g : Z) : Prop := {
  bg_engine : c_engine c' = None;
  bg_generation : c_generation c' = c_generation c + 1;
  bg_timer : c_timer c' = None;
  bg_override : c_override c' = false;
  bg_newest : g = c_generation c';
  bg_runs : runs (c_prefs c');
  bg_force : in_force (e_policy e) (c_override c') (c_exit_override c') (c_prefs c')
}.

Lemma Intended_begun reauth c c0 key :
  Intended reauth c c0 ->
  Begun c (advance (c0 <| c_key := key |> <| c_has_key := true |>)) (c_generation c + 1).
Proof.
  intros [He Hg Ht Ho Hr Hf _ _]. split; core_simpl; try done; by rewrite Hg.
Qed.

Lemma begin_up_facts opts b b' pending : HostLaws (e_host e) ->
  begin_up e opts b = (b', Ok pending) -> Begun (core b) (core b') (pending_generation pending).
Proof.
  intros Hl H. destruct (begin_up_ok _ _ _ _ Hl H) as (opts' & edit & _ & Hc & ->).
  pose proof (Intended_begun _ _ _ (Some (KeyState (key_state (pending_config pending))))
                (up_intent_facts opts' edit b)) as Hb.
  rewrite <- Hc in Hb. change (b_generation b') with (c_generation (core b')).
  by rewrite (bg_generation _ _ _ Hb).
Qed.

(** Steps of a sequence: those of its parts. *)
Lemma steps_bind {A B} (m : M A) (f : A -> M B) b :
  steps b (fst (m b)) ->
  (forall b' x, m b = (b', Ok x) -> steps b' (fst (f x b'))) ->
  steps b (fst ((m ≫= f) b)).
Proof.
  intros Hm Hf. unfold mbind, M_bind. destruct (m b) as [b' [x|err]] eqn:E; [|exact Hm].
  eapply steps_trans; [exact Hm|]. by apply Hf.
Qed.

(** A computation the core does not see. *)
Definition unseen {A} (m : M A) : Prop := forall b, core (fst (m b)) = core b.

Lemma unseen_bind {A B} (m : M A) (f : A -> M B) :
  unseen m -> (forall x, unseen (f x)) -> unseen (m ≫= f).
Proof.
  intros Hm Hf b. unfold mbind, M_bind. specialize (Hm b). destruct (m b) as [b' [x|err]]; [|exact Hm].
  rewrite (Hf x b'). exact Hm.
Qed.

Lemma unseen_get : unseen get_state. Proof. done. Qed.
Lemma unseen_ret {A} (x : A) : unseen (mret x). Proof. done. Qed.
Lemma unseen_throw {A} err : unseen (throw (A:=A) err). Proof. done. Qed.
Lemma unseen_check c err : unseen (check c err). Proof. intros b. by destruct c. Qed.
Lemma unseen_lift {X A} (w : X -> BackendError) (r : result X A) : unseen (lift w r).
Proof. intros b. by destruct r. Qed.
Lemma unseen_when c m : unseen m -> unseen (when_m c m). Proof. intros H. by destruct c. Qed.
Lemma unseen_held m : unseen m -> unseen (held m).
Proof. intros H b. specialize (H b). unfold held. by destruct (m b) as [b' [[]|]]. Qed.

Hint Resolve unseen_get unseen_ret unseen_throw unseen_check unseen_lift unseen_when unseen_held
  core_persist core_save_profiles : unseen.

Ltac unseen_steps :=
  repeat first [by auto with unseen | apply unseen_bind; [|intros ?]].

Lemma unseen_rename name : unseen (rename_current_profile e name).
Proof.
  unfold rename_current_profile. apply unseen_bind; [apply unseen_get|intros b].
  destruct (_ && _); [apply unseen_ret|]. intros b'. apply core_save_profiles.
Qed.

Lemma unseen_issue op : unseen (issue e op).
Proof.
  unfold issue. apply unseen_bind; [apply unseen_check|intros _ b].
  unfold modify, core. record_simpl. by destruct (b_device b).
Qed.

Lemma unseen_live_step c op : unseen op -> unseen (live_step e c op).
Proof.
  intros H. unfold live_step. destruct c; [|apply unseen_ret].
  apply unseen_bind; [exact H|intros op']. apply unseen_bind; [apply unseen_issue|intros _].
  apply unseen_ret.
Qed.

Lemma unseen_from_prefs f : unseen (from_prefs f). Proof. done. Qed.

Lemma unseen_expect_routes : unseen (expect_routes e).
Proof. intros b. unfold expect_routes, mbind, M_bind, get_state. by destruct (parse_routes _ _). Qed.

Hint Resolve unseen_rename unseen_live_step unseen_from_prefs unseen_expect_routes : unseen.

Lemma unseen_live_set opts : unseen (live_set e opts).
Proof. unfold live_set. unseen_steps. Qed.

Hint Resolve unseen_live_set : unseen.

Lemma unseen_commit_set opts : unseen (commit_set e opts).
Proof.
  unfold commit_set. apply unseen_bind; [destruct (set_nickname opts); auto with unseen|intros ren].
  apply unseen_bind; [|intros a; apply unseen_ret].
  unfold reconcile_set. apply unseen_bind; [apply unseen_get|intros b].
  destruct (b_device b); [|apply unseen_ret]. destruct (needs_rebuild opts); [apply unseen_ret|].
  unseen_steps.
Qed.

Lemma begin_set_steps opts b : steps b (fst (begin_set e opts b)).
Proof.
  rewrite begin_set_run. destruct (vet_set _ _ _) as [[opts' edit]|]; [|by apply steps_same].
  pose proof (steps_persist _ _ (steps_set_intent opts' edit b)) as Hi.
  destruct (persist_prefs e _) as [b1 [[]|]]; [|exact Hi]. cbn [fst] in Hi.
  eapply steps_trans; [exact Hi|]. apply steps_same. apply unseen_commit_set.
Qed.

(** ** Disconnects *)

(** No bring-up in flight is newer than the backend. *)
Definition caught_up (b : Backend) : Prop := Forall (fun g => g <= b_generation b) ups.
Definition superseded (b : Backend) : Prop := Forall (fun g => g < b_generation b) ups.

Lemma steps_downed f b : b_device b = None -> superseded b -> steps b (downed e f b).
Proof.
  intros Hd Hu. unfold steps. apply rtc_once.
  assert (He : c_engine (core b) = None) by (unfold core; by rewrite Hd).
  unfold downed. destruct (want_running (b_prefs b)) eqn:Ew.
  - unfold permitted. destruct (reconnect_after_in (e_policy e)) as [after|].
    + epose proof (mv_disconnect _ config ups (core b) (f (b_prefs b)) _ (b_reconnect_seq b + 1) He Hu) as H.
      change (want_running (c_prefs (core b))) with (want_running (b_prefs b)) in H. rewrite Ew in H.
      apply H. right. exists after, (e_now e + after). done.
    + epose proof (mv_disconnect _ config ups (core b) (f (b_prefs b)) _ (b_reconnect_seq b) He Hu
                     (or_introl (conj eq_refl eq_refl))) as H.
      change (want_running (c_prefs (core b))) with (want_running (b_prefs b)) in H. rewrite Ew in H.
      exact H.
  - epose proof (mv_disconnect _ config ups (core b) (f (b_prefs b)) _ (b_reconnect_seq b) He Hu
                   (or_introl (conj eq_refl eq_refl))) as H.
    change (want_running (c_prefs (core b))) with (want_running (b_prefs b)) in H. rewrite Ew in H.
    exact H.
Qed.

Lemma superseded_bumped b : caught_up b -> superseded (bumped b).
Proof. apply Forall_le_succ. Qed.

Lemma down_steps actor b : caught_up b -> steps b (fst (down e actor b)).
Proof.
  intros Hu. rewrite down_run. destruct (vet_disconnect e b actor); [|by apply steps_same].
  apply steps_persist. eapply steps_trans; [apply steps_stopped|].
  eapply steps_trans; [apply steps_bumped|]. apply steps_downed; [done|].
  by apply superseded_bumped.
Qed.

Lemma steps_forgotten b b' : steps b b' -> steps b (forgotten b').
Proof. unfold steps. by rewrite core_forgotten. Qed.

Lemma superseded_logout b : superseded b -> superseded (discarded (forgotten b)).
Proof. done. Qed.

Lemma steps_logout_tail b b0 : b_device b0 = None -> superseded b0 -> steps b b0 ->
  steps b (fst (let b1 := forgotten b0 in
                if wipe_fails e b1 then (b1, Err DiscardKeyFailed)
                else persist_prefs e (downed e logout_intent (discarded b1)))).
Proof.
  intros Hd Hs H0. cbv zeta. apply steps_forgotten in H0.
  destruct (wipe_fails e (forgotten b0)); [exact H0|]. apply steps_persist.
  eapply steps_trans; [exact H0|]. eapply steps_trans; [apply steps_discarded|].
  apply steps_downed; [exact Hd|]. by apply superseded_logout.
Qed.

Lemma steps_cut b : caught_up b ->
  b_device (bumped (stopped e b)) = None /\ superseded (bumped (stopped e b)) /\
  steps b (bumped (stopped e b)).
Proof.
  intros Hu. split_and!; [done| |].
  - apply superseded_bumped. exact Hu.
  - eapply steps_trans; [apply steps_stopped|apply steps_bumped].
Qed.

Lemma logout_steps actor b : caught_up b -> steps b (fst (logout e actor b)).
Proof.
  intros Hu. rewrite logout_run. destruct (vet_disconnect e b actor); [|by apply steps_same].
  destruct (steps_cut b Hu) as (Hd & Hs & H0). by apply steps_logout_tail.
Qed.

(** ** Installing *)

Lemma in_force_logged_in s ao exit p :
  in_force s ao exit p -> in_force s ao exit (p <| has_logged_in := true |>).
Proof.
  unfold in_force. intros H.
  transitivity ((policy_prefs s (mkPolicyOverrides ao exit) p) <| has_logged_in := true |>);
    [reflexivity|]. by rewrite H.
Qed.

Lemma steps_installed dev b : b_generation b ∈ ups -> steps b (installed e dev b).
Proof.
  intros Hin. unfold steps.
  set (ssh := if feature_ssh (e_host e) && ssh_enabled (b_prefs b) && e_host_key_ok e
              then Some (dev_handle dev) else b_ssh_task b).
  eapply rtc_l; [apply (mv_install _ _ _ (core b) (dev_handle dev) ssh Hin)|].
  { unfold ssh. destruct (_ && _); auto. }
  apply rtc_once. set (c := advance _).
  assert (E : core (installed e dev b)
              = c <| c_prefs := (b_prefs b) <| has_logged_in := true |> |>).
  { unfold installed, c, ssh, bumped.
    change (ssh_enabled (b_prefs (_ <| b_generation := _ |>))) with (ssh_enabled (b_prefs b)).
    by destruct (feature_ssh (e_host e) && ssh_enabled (b_prefs b) && e_host_key_ok e). }
  rewrite E. apply mv_tune; [|done|done].
  intros ao exit. apply in_force_logged_in.
Qed.

Lemma finish_up_steps pending built b : pending_generation pending ∈ ups ->
  steps b (fst (finish_up e pending built b)).
Proof.
  intros Hin. rewrite finish_up_run. case_bool_decide as Hg; [by apply steps_same|].
  destruct built as [dev|]; [|by apply steps_same]. apply steps_installed. congruence.
Qed.

Lemma settle_up_steps pending built b : pending_generation pending ∈ ups ->
  steps b (fst (settle_up e pending built b)).
Proof.
  intros Hin. unfold settle_up. apply steps_bind; [by apply finish_up_steps|].
  intros b' [orphan|] _; [by apply steps_same|]. apply steps_same.
  unfold mbind, M_bind. pose proof (unseen_held _ core_persist b') as Hp.
  by destruct (held (persist_prefs e) b') as [b2 []].
Qed.

(** ** Profile edges *)

Lemma core_entered target p b :
  core (entered e target p b)
  = (core b) <| c_prefs := policy_prefs (e_policy e) (mkPolicyOverrides false false) p |>
      <| c_profile := target |> <| c_pointer := Some target |>
      <| c_key := disk_keys (b_disk b) !! target |>
      <| c_has_key := key_file_has_node_key (disk_keys (b_disk b) !! target) |>
      <| c_override := false |> <| c_timer := None |> <| c_exit_override := false |>.
Proof. reflexivity. Qed.

Lemma steps_entered target p b : b_device b = None -> superseded b ->
  is_valid_profile_id target = true -> steps b (entered e target p b).
Proof.
  intros Hd Hu Hv. apply steps_once. rewrite core_entered.
  apply mv_enter; [by unfold core; rewrite Hd|exact Hu|apply in_force_policy|exact Hv].
Qed.

Lemma steps_switched_to target p b b1 : b_device b1 = None -> superseded b1 ->
  is_valid_profile_id target = true -> steps b b1 -> steps b (fst (switched_to e target p b1)).
Proof.
  intros Hd Hu Hv Hs. unfold switched_to. destruct (negb _); [exact Hs|].
  eapply steps_trans; [exact Hs|]. by apply steps_entered.
Qed.

Lemma activate_tail target register b b1 : b_device b1 = None -> superseded b1 ->
  is_valid_profile_id target = true -> steps b b1 ->
  steps b (fst (match load_prefs (b_disk b1) target with
    | Err err => (b1, Err err)
    | Ok p =>
        if lists target register
           && negb (e_write_profiles e (pf_or_default target (disk_profiles (b_disk b1))))
        then (b1, Err SaveProfilesFailed)
        else switched_to e target p (if lists target register then with_listed target b1 else b1)
    end)).
Proof.
  intros Hd Hu Hv Hs. destruct (load_prefs (b_disk b1) target) as [p|]; [|exact Hs].
  destruct (_ && _); [exact Hs|]. apply steps_switched_to; [|by destruct (lists _ _)|done|].
  - by destruct (lists target register).
  - destruct (lists target register); [|exact Hs]. unfold steps. by rewrite core_with_listed.
Qed.

Lemma steps_edge b : caught_up b ->
  b_device (profile_edge e b) = None /\ superseded (profile_edge e b) /\ steps b (profile_edge e b).
Proof.
  intros Hu. destruct (steps_cut b Hu) as (Hd & Hs & H0). unfold profile_edge.
  split_and!; [done|done|]. unfold steps. by rewrite core_unnamed.
Qed.

Lemma activate_steps target register b : caught_up b -> is_valid_profile_id target = true ->
  steps b (fst (activate_profile e target register b)).
Proof.
  intros Hu Hv. rewrite activate_run. destruct (String.eqb target _); [by apply steps_same|].
  cbv zeta. destruct (steps_edge b Hu) as (Hd & Hs & H0). by apply activate_tail.
Qed.

Lemma switch_steps target b : caught_up b -> steps b (fst (switch_profile e target b)).
Proof.
  intros Hu. unfold switch_profile. rewrite bind_get.
  destruct (resolve_target_to_id _ _) as [id|] eqn:E; [|by apply steps_same].
  apply activate_steps; [done|]. by apply resolve_valid in E.
Qed.

Lemma create_steps id b : caught_up b -> steps b (fst (create_profile e id b)).
Proof.
  intros Hu. unfold create_profile. apply steps_bind; [apply steps_same, unseen_check|].
  intros b' x Hc. apply check_ok in Hc as [-> Hv]. rewrite bind_get.
  destruct (resolve_target_to_id _ _); [by apply steps_same|]. by apply activate_steps.
Qed.

(** Removing another profile's files. *)
Lemma core_remove_prefs id b :
  core (b <| b_disk := (b_disk b) <| disk_prefs := delete id (disk_prefs (b_disk b)) |> |>) = core b.
Proof. reflexivity. Qed.

Lemma core_remove_key id b : id <> b_current_profile b ->
  core (b <| b_disk := write_key_file id None (b_disk b) |>) = core b.
Proof.
  intros Hne. unfold core, key_file_of, write_key_file. record_simpl. by rewrite lookup_delete_ne.
Qed.

Lemma remove_files_core id b : id <> b_current_profile b ->
  core (fst (remove_profile_files e id b)) = core b.
Proof.
  intros Hne. unfold remove_profile_files. rewrite bind_get.
  unfold mbind, M_bind. rewrite check_run.
  destruct (match disk_prefs (b_disk b) !! id with Some _ => e_remove_prefs e | None => true end);
    [|done].
  unfold modify at 1. rewrite check_run.
  destruct (match disk_keys (b_disk b) !! id with Some _ => e_remove_key e | None => true end);
    [|apply core_remove_prefs].
  unfold modify. cbn [fst].
  set (b1 := b <| b_disk := (b_disk b) <| disk_prefs := _ |> |>).
  assert (E : b_current_profile b1 = b_current_profile b) by done.
  rewrite <- (core_remove_prefs id b). fold b1. clearbody b1. apply core_remove_key. congruence.
Qed.

Lemma remove_files_keeps id b :
  b_generation (fst (remove_profile_files e id b)) = b_generation b.
Proof.
  unfold remove_profile_files. rewrite bind_get. unfold mbind, M_bind. rewrite check_run.
  destruct (match disk_prefs (b_disk b) !! id with Some _ => e_remove_prefs e | None => true end);
    [|done].
  unfold modify at 1. rewrite check_run.
  destruct (match disk_keys (b_disk b) !! id with Some _ => e_remove_key e | None => true end); done.
Qed.

Lemma delete_steps target b : steps b (fst (delete_profile e target b)).
Proof.
  unfold delete_profile. rewrite bind_get.
  destruct (resolve_target_to_id _ _) as [id|]; [|by apply steps_same].
  destruct (String.eqb id (b_current_profile b)) eqn:E; [by apply steps_same|].
  apply String.eqb_neq in E. destruct (String.eqb id DEFAULT_PROFILE_ID); [by apply steps_same|].
  apply steps_bind; [by apply steps_same, remove_files_core|]. intros b' _ _. rewrite bind_get.
  apply steps_same. unfold mbind, M_bind.
  pose proof (unseen_when (contains_key (disk_profiles (b_disk b')) id) _
                (core_save_profiles (pf_remove id (disk_profiles (b_disk b')))) b') as H.
  destruct (when_m _ _ b') as [b2 [[]|]]; exact H.
Qed.

(** ** A new empty profile *)

Definition fresh_prefs (b : Backend) : Backend :=
  b <| b_prefs := Prefs_default |> <| b_ever_configured := false |> <| b_boot_attempted_up := false |>.

Lemma core_renewed b :
  core (reconciled e (edge_reset (fresh_prefs b)))
  = (core b) <| c_prefs := policy_prefs (e_policy e) (mkPolicyOverrides false false) Prefs_default |>
      <| c_override := false |> <| c_timer := None |> <| c_exit_override := false |>.
Proof. reflexivity. Qed.

Lemma steps_renewed b : b_device b = None -> superseded b ->
  steps b (reconciled e (edge_reset (fresh_prefs b))).
Proof.
  intros Hd Hu. apply steps_once. rewrite core_renewed.
  apply mv_renew; [by unfold core; rewrite Hd|exact Hu|apply in_force_policy].
Qed.

Definition unfiled (b : Backend) : Backend :=
  b <| b_disk := (b_disk b) <| disk_prefs := delete (b_current_profile b) (disk_prefs (b_disk b)) |> |>.

Definition ticked (b : Backend) : Backend := b <| b_prefs_ticks := b_prefs_ticks b + 1 |>.

Lemma core_ticked b : core (ticked b) = core b.
Proof. reflexivity. Qed.

(** The tail of [reset_to_empty_profile], from the removal of the prefs file. *)
Definition reset_tail : M SwitchOutcome :=
  b ← get_state;
  _ ← check (match disk_prefs (b_disk b) !! b_current_profile b with
             | Some _ => e_remove_prefs e
             | None => true
             end) RemoveFilesFailed;
  _ ← modify unfiled;
  _ ← modify fresh_prefs;
  _ ← reset_exemptions;
  _ ← forget_suggested_exit_node;
  _ ← reconcile_sys_policy e;
  _ ← modify ticked;
  b ← get_state;
  mret (Switched (b_current_profile b) (derive_state b false)).

Lemma edge_reset_then {B} (k : M B) b :
  (_ ← reset_exemptions; _ ← forget_suggested_exit_node; _ ← reconcile_sys_policy e; k) b
  = k (reconciled e (edge_reset b)).
Proof.
  rewrite (bind_run reset_exemptions _ b
             (b <| b_override_always_on := false |> <| b_reconnect := None |>
                <| b_override_exit_node_policy := false |>) tt eq_refl).
  unfold forget_suggested_exit_node. rewrite bind_modify. cbv beta. fold (edge_reset b).
  by rewrite (bind_run _ _ _ _ _ (reconcile_run e (edge_reset b))).
Qed.

Lemma unfiled_keeps b : core (unfiled b) = core b /\ b_device (unfiled b) = b_device b /\
  (superseded (unfiled b) <-> superseded b).
Proof. done. Qed.

Lemma steps_ticked b b' : steps b b' -> steps b (ticked b').
Proof. unfold steps. by rewrite core_ticked. Qed.

Lemma reset_tail_steps b : b_device b = None -> superseded b -> steps b (fst (reset_tail b)).
Proof.
  intros Hd Hu. unfold reset_tail. rewrite bind_get. apply steps_bind; [apply steps_same, unseen_check|].
  intros b' x Hc. apply check_ok in Hc as [-> _]. rewrite bind_modify.
  destruct (unfiled_keeps b) as (H1 & Hd1 & Hu1). rewrite <- Hd1 in Hd. apply Hu1 in Hu.
  set (b1 := unfiled b) in *. clearbody b1. rewrite bind_modify, edge_reset_then, bind_modify.
  pose proof (steps_renewed b1 Hd Hu) as H2. set (b2 := reconciled e _) in *. clearbody b2.
  rewrite bind_get. unfold mret, M_ret. cbn [fst]. apply steps_ticked.
  eapply steps_trans; [apply steps_same, H1|exact H2].
Qed.

Lemma reset_to_empty_run b :
  reset_to_empty_profile e b
  = let meta := disk_profiles (b_disk b) in
    let named := match pf_get meta (b_current_profile b) with
                 | Some name => negb (String.eqb name "")
                 | None => false
                 end in
    if negb (b_ever_configured b) && negb named
       && match b_device b with Some _ => false | None => true end
    then (b, Ok (AlreadyCurrent (b_current_profile b)))
    else (_ ← when_m named (save_profiles_file e (pf_insert (b_current_profile b) "" meta));
          reset_tail) (profile_edge e b).
Proof.
  unfold reset_to_empty_profile. rewrite bind_get. cbv zeta.
  destruct (_ && _); [reflexivity|]. rewrite profile_edge_then. reflexivity.
Qed.

Lemma save_keeps meta b :
  b_device (fst (save_profiles_file e meta b)) = b_device b /\
  b_generation (fst (save_profiles_file e meta b)) = b_generation b.
Proof.
  unfold save_profiles_file, check, mbind, M_bind, modify. by destruct (e_write_profiles e meta).
Qed.

Lemma reset_to_empty_steps b : caught_up b -> steps b (fst (reset_to_empty_profile e b)).
Proof.
  intros Hu. rewrite reset_to_empty_run. cbv zeta.
  set (named := match pf_get _ _ with Some _ => _ | None => _ end).
  destruct (_ && _); [by apply steps_same|]. destruct (steps_edge b Hu) as (Hd & Hs & H0).
  set (b1 := profile_edge e b) in *. clearbody b1. eapply steps_trans; [exact H0|].
  set (meta := pf_insert _ _ _). clearbody meta.
  pose proof (save_keeps meta b1) as [Hk1 Hk2]. pose proof (core_save_profiles meta b1) as Hc.
  destruct named; cbn [when_m].
  - apply steps_bind; [by apply steps_same|]. intros b' [] E. rewrite E in Hk1, Hk2. cbn [fst] in *.
    apply reset_tail_steps; [congruence|]. unfold superseded. by rewrite Hk2.
  - rewrite (bind_run (mret tt) _ b1 b1 tt eq_refl). by apply reset_tail_steps.
Qed.

(** The generator draws bytes. *)
Definition draws_bytes (draw : nat -> result unit (Z * Z)) : Prop :=
  forall i hi lo, draw i = Ok (hi, lo) -> 0 <= hi < 256 /\ 0 <= lo < 256.

Lemma drawn_not_current meta current draw id : draws_bytes draw ->
  unused_profile_id (pf_or_default current meta) draw = Ok (Some id) ->
  is_valid_profile_id id = true /\ id <> current.
Proof.
  intros Hd E. pose proof (unused_loop_fresh (pf_or_default current meta) draw 256 0 Hd) as H.
  unfold unused_profile_id in E. rewrite E in H. destruct H as (Hv & Hr & _). split; [done|].
  intros ->. unfold resolve_target_to_id, contains_key in Hr.
  rewrite Hv, pf_or_default_get, String.eqb_refl in Hr. by rewrite orb_true_r in Hr.
Qed.

Lemma switch_to_empty_steps draw b : caught_up b -> draws_bytes draw ->
  steps b (fst (switch_to_empty_profile e draw b)).
Proof.
  intros Hu Hd. unfold switch_to_empty_profile. rewrite bind_get.
  destruct (negb (has_logged_in (b_prefs b))); [by apply reset_to_empty_steps|]. cbv zeta.
  apply steps_bind; [apply steps_same, unseen_lift|]. intros b1 drawn H1. apply lift_ok in H1 as [-> H1].
  apply steps_bind; [apply steps_same, unseen_lift|]. intros b2 fresh H2. apply lift_ok in H2 as [-> H2].
  apply ok_or_ok in H2 as ->. destruct (drawn_not_current _ _ _ _ Hd H1) as [Hv Hne].
  apply steps_bind; [by apply steps_same, remove_files_core|]. intros b3 x H3.
  apply activate_steps; [|done]. unfold caught_up. pose proof (remove_files_keeps fresh b) as Hk.
  rewrite H3 in Hk. cbn [fst] in Hk. by rewrite Hk.
Qed.

(** ** Policy changes and the timer *)

Lemma sys_policy_changed_steps b : steps b (fst (sys_policy_changed (always_on_keys_in (e_policy e)) b)).
Proof.
  unfold sys_policy_changed. rewrite bind_get. case_bool_decide as E; [by apply steps_same|].
  apply steps_once. apply (mv_always_on_keys _ _ _ (core b)). intros H. by apply E.
Qed.

Lemma exit_node_policy_changed_steps b :
  steps b (fst (exit_node_policy_changed (exit_node_keys_in (e_policy e)) b)).
Proof.
  unfold exit_node_policy_changed. rewrite bind_get. case_bool_decide as E; [by apply steps_same|].
  apply steps_once. apply (mv_exit_node_keys _ _ _ (core b)). intros H. by apply E.
Qed.

Lemma claim_steps armed b : steps b (fst (claim_due_reconnect armed b)).
Proof.
  unfold claim_due_reconnect. rewrite bind_get. case_bool_decide; [by apply steps_same|].
  apply steps_once. apply (mv_disarm _ _ _ (core b)).
Qed.

(** ** The declarative config and the TUN flag *)

Lemma in_force_tun s ao exit p en name :
  in_force s ao exit p -> in_force s ao exit (p <| tun_enabled := en |> <| tun_name := name |>).
Proof.
  unfold in_force. intros H.
  transitivity ((policy_prefs s (mkPolicyOverrides ao exit) p)
                  <| tun_enabled := en |> <| tun_name := name |>); [reflexivity|]. by rewrite H.
Qed.

Lemma apply_tun_flag_steps transport b : steps b (fst (apply_tun_flag e transport b)).
Proof.
  unfold apply_tun_flag. rewrite bind_get. destruct (match transport with TransportNetstack => _ | _ => _ end)
    as [enabled name]. destruct (_ && _); [by apply steps_same|].
  unfold modify_prefs. rewrite bind_modify. cbv beta.
  set (b1 := b <| b_prefs := _ |>). apply (steps_trans b b1).
  - apply steps_once. exact (mv_tune (e_policy e) config ups (core b)
      ((b_prefs b) <| tun_enabled := enabled |> <| tun_name := name |>)
      (fun ao exit => in_force_tun _ ao exit _ enabled name) eq_refl eq_refl).
  - apply steps_bind; [apply steps_same, core_persist|]. intros. by apply steps_same.
Qed.

Lemma apply_config_steps c b : config = true -> steps b (fst (apply_config e c b)).
Proof.
  intros Hcfg. unfold apply_config. rewrite bind_get.
  destruct (apply_to_prefs_gated _ _ _ _ _ _ _) as [p authkey]. rewrite bind_modify. cbv beta.
  set (b1 := b <| b_prefs := p |>).
  assert (H1 : steps b b1) by (apply steps_once, (mv_config _ _ _ (core b)), Hcfg).
  clearbody b1. eapply steps_trans; [exact H1|].
  apply steps_bind; [apply steps_same, unseen_lift|]. intros b2 key Hk. apply lift_ok in Hk as [-> _].
  rewrite bind_modify. cbv beta. rewrite (bind_run _ _ _ _ _ (reconcile_run e _)).
  set (b3 := reconciled e _).
  assert (H3 : steps b1 b3).
  { apply steps_once. exact (mv_config _ _ _ (core b1) (b_prefs b3) Hcfg). }
  clearbody b3. eapply steps_trans; [exact H3|].
  apply steps_bind; [apply steps_same, core_persist|]. intros. by apply steps_same.
Qed.

Lemma reload_config_steps source b : config = true -> steps b (fst (reload_config e source b)).
Proof.
  intros Hcfg. unfold reload_config. destruct source as [loaded|]; [|by apply steps_same].
  apply steps_bind; [apply steps_same, unseen_lift|]. intros b1 c H1. apply lift_ok in H1 as [-> _].
  apply steps_bind; [by apply apply_config_steps|]. intros b2 x _. by apply steps_same.
Qed.

Lemma preflight_steps b : HostLaws (e_host e) -> steps b (fst (rebuild_preflight e b)).
Proof.
  intros Hl. unfold rebuild_preflight. apply steps_bind; [by apply steps_build|]. intros. by apply steps_same.
Qed.

Lemma rearm_steps b : steps b (fst (rearm b)).
Proof.
  destruct (b_device b) as [dev|] eqn:E.
  - apply steps_once. replace (core (fst (rearm b))) with ((core b) <| c_serve := [dev_handle dev] |>).
    + apply mv_rearm. cbn. by rewrite E.
    + destruct b. unfold rearm. cbn in E. subst. reflexivity.
  - apply steps_same. destruct b. unfold rearm. cbn in E. by subst.
Qed.

Lemma core_publish answer b : core (fst (publish_suggested_exit_node answer b)) = core b.
Proof.
  unfold publish_suggested_exit_node. destruct answer as [id|]; [|done]. cbn.
  unfold mbind, M_bind, get_state. destruct (String.eqb (b_suggested_exit_node b) id); [done|by destruct b].
Qed.

Lemma netmap_name_steps b : steps b (fst (current_netmap_name e b)).
Proof.
  apply steps_same. unfold current_netmap_name. rewrite bind_modify, bind_get.
  destruct (b_device b) eqn:Ed, (e_self_fqdn e) as [f|]; try reflexivity.
  destruct (String.eqb f ""); reflexivity.
Qed.
End Refine.
