(* ===== verification/World.v ===== *)
(** * Executions of the daemon

    The LocalAPI's commands, the completions of bring-ups that ran without the
    lock, policy ticks, the reconnect timer and restarts, in any order and any
    number: what holds at every moment of every execution. *)
From Stdlib Require Import ZArith Lia Ascii String List.
From stdpp Require Import base gmap list strings option relations.
From coqutil Require Datatypes.RecordSettersUsingExistingGetters.
Import coqutil.Datatypes.RecordSettersUsingExistingGetters.RecordSetNotations1.
From S2P Require Import Prelude NetAddr Prefs SysPolicy RevertGuard Routes.
From S2P Require Import Gates ExitNodeArg Profiles EngineConfig Edits Conffile.
From S2P Require Import Backend BackendFacts Lifecycle.
Import AlwaysOn ExitNodeGate ControlUrl LifecycleState AutoUpdate.

(** ** Commands: one operation under the backend's lock *)

Inductive Command : Type :=
| CUp (opts : UpOptions)
| CSet (opts : SetOptions)
| CDown (actor : Actor)
| CLogout (actor : Actor)
| CSwitch (target : string)
| CCreate (id : string)
| CEmptyProfile (draw : nat -> result unit (Z * Z))
| CDelete (target : string)
| CApplyConfig (c : ConfigVAlpha)
| CReload (source : option (option ConfigVAlpha))
| CTunFlag (transport : TunTransport)
| CPreflight
| CPolicyTick
| CReconnect (armed : ReconnectTimer)
| CNetmapName
| CRearm
| CSuggest (answer : option string).

Definition plain {A} (m : M A) (b : Backend) : Backend * option BackendError * option PendingUp :=
  let '(b', r) := m b in
  (b', match r with Ok _ => None | Err err => Some err end, None).

(** What the command leaves: the backend, the error if it failed, and the
    bring-up it began. *)
Definition run_command (e : Env) (c : Command) (b : Backend)
    : Backend * option BackendError * option PendingUp :=
  match c with
  | CUp opts =>
      match begin_up e opts b with
      | (b', Ok pending) => (b', None, Some pending)
      | (b', Err err) => (b', Some err, None)
      end
  | CSet opts => plain (begin_set e opts) b
  | CDown actor => plain (down e actor) b
  | CLogout actor => plain (logout e actor) b
  | CSwitch target => plain (switch_profile e target) b
  | CCreate id => plain (create_profile e id) b
  | CEmptyProfile draw => plain (switch_to_empty_profile e draw) b
  | CDelete target => plain (delete_profile e target) b
  | CApplyConfig c => plain (apply_config e c) b
  | CReload source => plain (reload_config e source) b
  | CTunFlag transport => plain (apply_tun_flag e transport) b
  | CPreflight => plain (rebuild_preflight e) b
  | CPolicyTick =>
      plain (_ ← sys_policy_changed (always_on_keys_in (e_policy e));
             exit_node_policy_changed (exit_node_keys_in (e_policy e))) b
  | CReconnect armed => plain (claim_due_reconnect armed) b
  | CNetmapName => plain (current_netmap_name e) b
  | CRearm => plain rearm b
  | CSuggest answer => plain (publish_suggested_exit_node answer) b
  end.

(** ** Executions *)

Record World : Type := mkWorld {
  w_backend : Backend;
  w_ups : list PendingUp
}.

(** [EvFinish] is the third phase of the [i]-th bring-up in flight, with the
    engine its handshake yielded or [None]; [EvRestart] a crash or a restart. *)
Inductive Event : Type :=
| EvCommand (e : Env) (c : Command)
| EvFinish (e : Env) (i : nat) (built : option Z)
| EvRestart (e : Env).

Definition exec (ev : Event) (w : World) : option World :=
  match ev with
  | EvCommand e c =>
      let '(b, _, begun) := run_command e c (w_backend w) in
      Some (mkWorld b (w_ups w ++ option_list begun))
  | EvFinish e i built =>
      pending ← w_ups w !! i;
      let engine := (fun h => mkDevice h (pending_config pending)) <$> built in
      Some (mkWorld (fst (settle_up e pending engine (w_backend w))) (delete i (w_ups w)))
  | EvRestart e =>
      match load e (b_disk (w_backend w)) with
      | Ok b => Some (mkWorld b [])
      | Err _ => None
      end
  end.

Fixpoint exec_all (evs : list Event) (w : World) : option World :=
  match evs with
  | [] => Some w
  | ev :: evs' => w' ← exec ev w; exec_all evs' w'
  end.

Definition event_env (ev : Event) : Env :=
  match ev with EvCommand e _ | EvFinish e _ _ | EvRestart e => e end.

Inductive reachable (P : Event -> Prop) : World -> Prop :=
| reach_boot e d b : P (EvRestart e) -> load e d = Ok b -> reachable P (mkWorld b [])
| reach_step ev w w' : reachable P w -> P ev -> exec ev w = Some w' -> reachable P w'.

(** The engine's key loader and the generator behave as documented. *)
Definition lawful (ev : Event) : Prop :=
  HostLaws (e_host (event_env ev)) /\
  match ev with EvCommand _ (CEmptyProfile draw) => draws_bytes draw | _ => True end.

Definition applies_config (ev : Event) : bool :=
  match ev with EvCommand _ (CApplyConfig _) | EvCommand _ (CReload _) => true | _ => false end.

(** Lawful, under the policy [s] throughout, and out of config mode. *)
Definition governed (s : list PolicySetting) (ev : Event) : Prop :=
  lawful ev /\ e_policy (event_env ev) = s /\ applies_config ev = false.

Definition in_flight (w : World) : list Z := map pending_generation (w_ups w).

Lemma reachable_mono (P Q : Event -> Prop) w :
  (forall ev, P ev -> Q ev) -> reachable P w -> reachable Q w.
Proof. intros H. induction 1; [eapply reach_boot; eauto|eapply reach_step; eauto]. Qed.

Lemma exec_all_reachable P evs w w' :
  Forall P evs -> reachable P w -> exec_all evs w = Some w' -> reachable P w'.
Proof.
  revert w. induction evs as [|ev evs IH]; intros w HP Hr; cbn [exec_all]; [by intros [= <-]|].
  inversion HP; subst. destruct (exec ev w) as [w1|] eqn:E; cbn; [|done]. intros H.
  eapply IH; [done| |exact H]. by eapply reach_step.
Qed.

(** ** Every event is a sequence of moves *)

Lemma fst_plain {A} (m : M A) b : fst (fst (plain m b)) = fst (m b).
Proof. unfold plain. by destruct (m b). Qed.

Lemma snd_plain {A} (m : M A) b : snd (plain m b) = None.
Proof. unfold plain. by destruct (m b). Qed.

Lemma command_steps e c ups b : lawful (EvCommand e c) -> caught_up ups b ->
  steps e (applies_config (EvCommand e c)) ups b (fst (fst (run_command e c b))).
Proof.
  intros [Hl Hdraw] Hu. destruct c; cbn [run_command applies_config event_env] in *;
    rewrite ?fst_plain.
  - pose proof (begin_up_steps e false ups opts b Hl) as H.
    by destruct (begin_up e opts b) as [b' [p|]].
  - by apply begin_set_steps.
  - by apply down_steps.
  - by apply logout_steps.
  - by apply switch_steps.
  - by apply create_steps.
  - by apply switch_to_empty_steps.
  - by apply delete_steps.
  - by apply apply_config_steps.
  - by apply reload_config_steps.
  - by apply apply_tun_flag_steps.
  - by apply preflight_steps.
  - apply steps_bind; [by apply sys_policy_changed_steps|]. intros. by apply exit_node_policy_changed_steps.
  - by apply claim_steps.
  - by apply netmap_name_steps.
  - apply rearm_steps.
  - apply steps_same, core_publish.
Qed.

(** A command that begins a bring-up is an [up]. *)
Lemma command_begun e c b pending :
  snd (run_command e c b) = Some pending ->
  exists opts, c = CUp opts /\ begin_up e opts b = (fst (fst (run_command e c b)), Ok pending).
Proof.
  destruct c; cbn [run_command]; rewrite ?snd_plain; try done.
  destruct (begin_up e opts b) as [b' [p|]] eqn:E; [|done]. cbn. intros [= <-]. eauto.
Qed.

(** ** The invariants *)

Lemma Sound_begun e ups c c' g : Begun e c c' g -> Sound ups c -> Sound ups c' -> Sound (ups ++ [g]) c'.
Proof.
  intros [He Hg Ht _ Hn _ _] Hs [Hu _ Htk Hk _ Hp]. constructor; try done.
  - apply Forall_app. split; [done|]. repeat constructor. lia.
  - intros t E. congruence.
Qed.

Lemma Governed_begun e ups c c' g : Begun e c c' g -> Governed (e_policy e) ups c' ->
  Governed (e_policy e) (ups ++ [g]) c'.
Proof. intros [He Hg Ht _ Hn Hr Hf] [_ _ Ha Hx]. by constructor. Qed.

Lemma Forall_delete {A} (P : A -> Prop) i (l : list A) : Forall P l -> Forall P (delete i l).
Proof. revert i. induction l as [|x l IH]; intros [|i] H; cbn; inversion H; subst; auto. Qed.

Lemma elem_of_delete_in {A} i (l : list A) x : x ∈ delete i l -> x ∈ l.
Proof.
  revert i. induction l as [|y l IH]; intros [|i]; cbn; [done|done|by right|].
  rewrite !elem_of_cons. intros [->|H]; [by left|right; by eapply IH].
Qed.

Lemma Sound_fewer i ups c : Sound ups c -> Sound (delete i ups) c.
Proof.
  intros [Hu He Ht Hk Htm Hp]. constructor; try done; try (by apply Forall_delete).
  - intros H. by apply Forall_delete, He.
  - intros t E. destruct (Htm t E) as (? & ? & ? & ? & ?). split_and!; try done. by apply Forall_delete.
Qed.

Lemma Governed_fewer s i ups c : Governed s ups c -> Governed s (delete i ups) c.
Proof.
  intros [Hr Hf Ha Hx].
  assert (Hl : live (delete i ups) c -> live ups c)
    by (intros [H|H]; [by left|right; by eapply elem_of_delete_in]).
  constructor; auto.
Qed.

Lemma in_flight_delete i w : map pending_generation (delete i (w_ups w)) = delete i (in_flight w).
Proof.
  unfold in_flight. generalize (w_ups w). intros l. revert i.
  induction l as [|p l IH]; intros [|i]; cbn; [done..|]. by rewrite <- IH.
Qed.

(** A freshly loaded backend. *)
Lemma load_core e d b : load e d = Ok b ->
  exists p, in_force (e_policy e) false false p /\
  core b = {|
    c_prefs := p; c_profile := load_current_profile (disk_pointer d);
    c_engine := None; c_ssh := None; c_monitor := None; c_suggestion := None; c_serve := [];
    c_generation := 0;
    c_has_key := key_file_has_node_key (disk_keys d !! load_current_profile (disk_pointer d));
    c_key := disk_keys d !! load_current_profile (disk_pointer d);
    c_override := false; c_timer := None; c_seq := 0; c_ao_keys := always_on_keys_in (e_policy e);
    c_exit_override := false; c_exit_keys := exit_node_keys_in (e_policy e);
    c_pointer := disk_pointer d |}.
Proof.
  unfold load. destruct (load_prefs _ _) as [p|]; [|done]. cbn [mbind result_bind].
  rewrite reconcile_run. intros [= <-].
  exists (policy_prefs (e_policy e) (mkPolicyOverrides false false) p).
  split; [apply in_force_policy|]. reflexivity.
Qed.

Lemma load_sound e d b : load e d = Ok b -> Sound [] (core b) /\ Governed (e_policy e) [] (core b).
Proof.
  intros H. destruct (load_core _ _ _ H) as (p & Hf & ->). split; constructor; core_simpl; try done.
  - apply has_key_state.
  - intros [Hl|Hl]; [done|]. by apply not_elem_of_nil in Hl.
Qed.

Lemma reachable_sound w : reachable lawful w -> Sound (in_flight w) (core (w_backend w)).
Proof.
  induction 1 as [e d b _ Hb|ev w w' _ IH Hok Hx]; [by apply (load_sound e d)|].
  destruct ev as [e c|e i built|e]; cbn [exec] in Hx.
  - pose proof (command_steps e c (in_flight w) (w_backend w) Hok (sd_ups _ _ IH)) as Hs.
    apply moves_inv in Hs as [Hs _]; [|done].
    pose proof (command_begun e c (w_backend w)) as Hb.
    destruct (run_command e c (w_backend w)) as [[b err] begun]. injection Hx as <-.
    unfold in_flight. cbn [w_backend w_ups fst snd] in *. rewrite map_app.
    destruct begun as [pending|]; cbn [option_list map]; [|by rewrite app_nil_r].
    destruct (Hb pending eq_refl) as (opts & -> & Hu). destruct Hok as [Hl _].
    eapply Sound_begun; [by apply (begin_up_facts e opts)|exact IH|exact Hs].
  - destruct (w_ups w !! i) as [p|] eqn:Ei; cbn in Hx; [|done]. injection Hx as <-.
    unfold in_flight. cbn [w_backend w_ups]. rewrite in_flight_delete. apply Sound_fewer.
    assert (Hin : pending_generation p ∈ in_flight w)
      by (apply list_elem_of_fmap_2, (list_elem_of_lookup_2 _ _ _ Ei)).
    eapply moves_inv; [by apply (settle_up_steps e false (in_flight w) p)|exact IH].
  - destruct (load e _) as [b|] eqn:El; [|done]. injection Hx as <-. by apply (load_sound e (b_disk (w_backend w))).
Qed.

Lemma reachable_governed s w : reachable (governed s) w ->
  Governed s (in_flight w) (core (w_backend w)).
Proof.
  induction 1 as [e d b [_ [<- _]] Hb|ev w w' Hr IH [Hok [<- Hcfg]] Hx]; [by apply (load_sound e d)|].
  assert (Hsd : Sound (in_flight w) (core (w_backend w)))
    by (apply reachable_sound; eapply reachable_mono; [|exact Hr]; by intros ? []).
  destruct ev as [e c|e i built|e]; cbn [exec event_env] in *.
  - pose proof (command_steps e c (in_flight w) (w_backend w) Hok (sd_ups _ _ Hsd)) as Hs.
    rewrite Hcfg in Hs. apply moves_inv in Hs as [_ Hs]; [|done]. specialize (Hs eq_refl IH).
    pose proof (command_begun e c (w_backend w)) as Hb.
    destruct (run_command e c (w_backend w)) as [[b err] begun]. injection Hx as <-.
    unfold in_flight. cbn [w_backend w_ups fst snd] in *. rewrite map_app.
    destruct begun as [pending|]; cbn [option_list map]; [|by rewrite app_nil_r].
    destruct (Hb pending eq_refl) as (opts & -> & Hu). destruct Hok as [Hl _].
    eapply Governed_begun; [by apply (begin_up_facts e opts)|exact Hs].
  - destruct (w_ups w !! i) as [p|] eqn:Ei; cbn in Hx; [|done]. injection Hx as <-.
    unfold in_flight. cbn [w_backend w_ups]. rewrite in_flight_delete. apply Governed_fewer.
    assert (Hin : pending_generation p ∈ in_flight w)
      by (apply list_elem_of_fmap_2, (list_elem_of_lookup_2 _ _ _ Ei)).
    eapply moves_inv; [by apply (settle_up_steps e false (in_flight w) p)|exact Hsd|done|exact IH].
  - destruct (load e _) as [b|] eqn:El; [|done]. injection Hx as <-. by apply (load_sound e (b_disk (w_backend w))).
Qed.

(** ** A concrete host *)

Definition env_example : Env := {|
  e_host := host_example;
  e_trunc := demo_trunc;
  e_policy := [];
  e_facts := ExitNodeFacts_default;
  e_auto_update_gate := None;
  e_now := 1000;
  e_read_file := fun _ => None;
  e_self_fqdn := None;
  e_write_prefs := fun _ => true;
  e_write_profiles := fun _ => true;
  e_write_pointer := true;
  e_remove_prefs := true;
  e_remove_key := true;
  e_live_ok := fun _ => true;
  e_host_key_ok := true
|}.

Definition policy_example (s : list PolicySetting) : Env := env_example <| e_policy := s |>.

(** The same, with an always-on policy that may be overridden for an hour. *)
Definition always_on_example : list PolicySetting :=
  [ mkPolicySetting "AlwaysOn.Enabled" "" (Some "true") None;
    mkPolicySetting "AlwaysOn.OverrideWithReason" "" (Some "true") None;
    mkPolicySetting "ReconnectAfter" "" (Some "1h0m0s") None ].

Definition empty_disk : Disk := mkDisk ∅ ∅ [] None.

Definition boot_world (e : Env) : World :=
  match load e empty_disk with
  | Ok b => mkWorld b []
  | Err _ => mkWorld (mkBackend Prefs_default "" None None None [] None None false 0 0 "" false false
                        false None 0 (always_on_keys_in []) false (exit_node_keys_in []) None empty_disk) []
  end.

Definition run_from (w : World) (evs : list Event) : World := default w (exec_all evs w).

Definition ev_up (e : Env) : Event := EvCommand e (CUp UpOptions_default).
Definition ev_down (e : Env) : Event := EvCommand e (CDown (Operator (Some [97]))).

Lemma run_from_reachable P e evs : P (EvRestart e) -> is_ok (load e empty_disk) = true ->
  Forall P evs -> is_some (exec_all evs (boot_world e)) = true ->
  reachable P (run_from (boot_world e) evs).
Proof.
  intros Hb Hl HP Hx. unfold run_from. destruct (exec_all evs (boot_world e)) as [w|] eqn:E; [|done].
  eapply exec_all_reachable; [exact HP| |exact E]. unfold boot_world in *.
  destruct (load e empty_disk) as [b|] eqn:El; [|done]. by eapply reach_boot.
Qed.

(** Two overlapping bring-ups, the older one finishing first. *)
Definition race_events : list Event :=
  [ ev_up env_example; ev_up env_example; EvFinish env_example 0 (Some 100) ].
Definition race_world : World := run_from (boot_world env_example) race_events.

(** A node that is up, and one whose operator took it down for an hour. *)
Definition up_world : World :=
  run_from (boot_world env_example) [ ev_up env_example; EvFinish env_example 0 (Some 7) ].
Definition armed_world : World :=
  run_from (boot_world (policy_example always_on_example))
    [ ev_up (policy_example always_on_example);
      EvFinish (policy_example always_on_example) 0 (Some 7);
      ev_down (policy_example always_on_example) ].

Ltac run_lawful :=
  apply run_from_reachable;
  [ try (split; [apply host_example_laws|exact I])
  | vm_compute; reflexivity
  | repeat (apply Forall_cons; split); try apply Forall_nil_2;
    (split; [apply host_example_laws|exact I])
  | vm_compute; reflexivity ].

Lemma race_world_reachable : reachable lawful race_world.
Proof. run_lawful. Qed.
Lemma up_world_reachable : reachable lawful up_world.
Proof. run_lawful. Qed.
Lemma up_world_governed : reachable (governed []) up_world.
Proof.
  apply run_from_reachable;
  [ split; [split; [apply host_example_laws|exact I]|split; reflexivity]
  | vm_compute; reflexivity
  | repeat (apply Forall_cons; split); try apply Forall_nil_2;
    (split; [split; [apply host_example_laws|exact I]|split; reflexivity])
  | vm_compute; reflexivity ].
Qed.
Lemma armed_world_reachable : reachable lawful armed_world.
Proof. run_lawful. Qed.

(** ** Properties of every execution *)

Lemma in_flight_Forall (P : Z -> Prop) w :
  Forall P (in_flight w) <-> Forall (fun p => P (pending_generation p)) (w_ups w).
Proof. unfold in_flight. apply List.Forall_map. Qed.

(** The third phase on the engine: left alone, or installed if current. *)
Lemma settle_up_device e pending built b :
  b_device (fst (settle_up e pending built b)) = b_device b \/
  exists dev, built = Some dev /\ pending_generation pending = b_generation b /\
    b_device (fst (settle_up e pending built b)) = Some dev /\
    b_generation (fst (settle_up e pending built b)) = b_generation b + 1.
Proof.
  unfold settle_up. pose proof (finish_up_run e pending built b) as Hf.
  assert (Hp : forall b0, let b1 := fst ((_ ← held (persist_prefs e); mret (@None Device)) b0) in
            b_device b1 = b_device b0 /\ b_generation b1 = b_generation b0).
  { intros b0. cbv zeta. unfold mbind, M_bind, held. rewrite persist_run.
    destruct (negb _); [done|]. by destruct (_ && _). }
  case_bool_decide as Hg.
  - rewrite (bind_run _ _ _ _ _ Hf). destruct built as [dev|]; [by left|left; apply Hp].
  - destruct built as [dev|]; [|rewrite (bind_stop _ _ _ _ _ Hf); by left].
    rewrite (bind_run _ _ _ _ _ Hf). right. exists dev. destruct (Hp (installed e dev b)) as [-> ->].
    split_and!; [done|done| |]; unfold installed; by destruct (_ && _).
Qed.

(** C1: of any number of overlapping bring-ups only the newest can install its
    engine, and only into a daemon that has none.  When a handshake completes,
    either the running engine is left exactly as it was, or there was none,
    the one installed runs the config of a bring-up no other in flight is
    newer than, and from then on every other bring-up in flight is stale. *)
Theorem newest_bringup_wins (w w' : World) (e : Env) (i : nat) (built : option Z) :
  reachable lawful w -> exec (EvFinish e i built) w = Some w' ->
  b_device (w_backend w') = b_device (w_backend w) \/
  b_device (w_backend w) = None /\
  exists pending h, w_ups w !! i = Some pending /\ built = Some h /\
    b_device (w_backend w') = Some (mkDevice h (pending_config pending)) /\
    Forall (fun p => pending_generation p <= pending_generation pending) (w_ups w) /\
    Forall (fun p => pending_generation p < b_generation (w_backend w')) (w_ups w').
Proof.
  intros Hr H. pose proof (reachable_sound w Hr) as Hs. cbn [exec] in H.
  destruct (w_ups w !! i) as [pending|] eqn:Ei; cbn in H; [|done]. injection H as <-.
  cbn [w_backend w_ups]. set (engine := (fun h => mkDevice h (pending_config pending)) <$> built).
  destruct (settle_up_device e pending engine (w_backend w)) as [Hd|(dev & He & Hg & Hd & Hg')]; [by left|].
  right. assert (Hin : c_generation (core (w_backend w)) ∈ in_flight w).
  { change (b_generation (w_backend w) ∈ in_flight w). rewrite <- Hg.
    apply list_elem_of_fmap_2, (list_elem_of_lookup_2 _ _ _ Ei). }
  pose proof (Sound_idle _ _ Hs Hin) as Hidle. apply fmap_None in Hidle.
  split; [exact Hidle|]. destruct built as [h|]; [|done]. injection He as <-.
  exists pending, h. pose proof (sd_ups _ _ Hs) as Hu. apply in_flight_Forall in Hu.
  change (c_generation (core (w_backend w))) with (b_generation (w_backend w)) in Hu.
  split_and!; [done|done|exact Hd| |].
  - by rewrite Hg.
  - rewrite Hg'. apply Forall_delete. eapply Forall_impl; [exact Hu|]. cbn. lia.
Qed.

Lemma newest_bringup_wins_witness :
  exists w', exec (EvFinish env_example 0 (Some 200)) race_world = Some w' /\
  (b_device (w_backend w') = b_device (w_backend race_world) \/
   b_device (w_backend race_world) = None /\
   exists pending h, w_ups race_world !! 0%nat = Some pending /\ Some 200 = Some h /\
    b_device (w_backend w') = Some (mkDevice h (pending_config pending)) /\
    Forall (fun p => pending_generation p <= pending_generation pending) (w_ups race_world) /\
    Forall (fun p => pending_generation p < b_generation (w_backend w')) (w_ups w')) /\
  b_device (w_backend race_world) = None /\ dev_handle <$> b_device (w_backend w') = Some 200.
Proof.
  destruct (exec (EvFinish env_example 0 (Some 200)) race_world) as [w'|] eqn:E;
    [|vm_compute in E; discriminate E].
  exists w'. split; [reflexivity|]. split.
  - exact (newest_bringup_wins race_world w' env_example 0 (Some 200) race_world_reachable E).
  - split; [vm_compute; reflexivity|]. vm_compute in E. injection E as <-. vm_compute. reflexivity.
Defined.

(** C4: the engine and the tasks that share its handle live and die together:
    at every moment of every execution, a daemon without an engine runs none
    of them, and one with an engine runs its link monitor, its suggestion
    task and one serve supervisor on that very handle, and its SSH server, if
    any, on no other. *)
Theorem tasks_follow_engine (w : World) :
  reachable lawful w ->
  match b_device (w_backend w) with
  | None => b_ssh_task (w_backend w) = None /\ b_monitor_task (w_backend w) = None /\
            b_suggestion_task (w_backend w) = None /\ b_serve_tasks (w_backend w) = []
  | Some dev =>
      (b_ssh_task (w_backend w) = None \/ b_ssh_task (w_backend w) = Some (dev_handle dev)) /\
      b_monitor_task (w_backend w) = Some (dev_handle dev) /\
      b_suggestion_task (w_backend w) = Some (dev_handle dev) /\
      b_serve_tasks (w_backend w) = [dev_handle dev]
  end.
Proof.
  intros Hr. pose proof (sd_tasks _ _ (reachable_sound w Hr)) as H. unfold core in H. core_simpl.
  by destruct (b_device (w_backend w)).
Qed.

Lemma tasks_follow_engine_witness :
  b_device (w_backend up_world) <> None /\
  match b_device (w_backend up_world) with
  | None => b_ssh_task (w_backend up_world) = None /\ b_monitor_task (w_backend up_world) = None /\
            b_suggestion_task (w_backend up_world) = None /\ b_serve_tasks (w_backend up_world) = []
  | Some dev =>
      (b_ssh_task (w_backend up_world) = None \/
       b_ssh_task (w_backend up_world) = Some (dev_handle dev)) /\
      b_monitor_task (w_backend up_world) = Some (dev_handle dev) /\
      b_suggestion_task (w_backend up_world) = Some (dev_handle dev) /\
      b_serve_tasks (w_backend up_world) = [dev_handle dev]
  end.
Proof.
  split; [by vm_compute|]. exact (tasks_follow_engine up_world up_world_reachable).
Defined.

(** C17: the cached "has a node key" never lies on the positive side: whenever
    it is set, in any execution, the current profile's key file holds a key;
    and the pointer on disk always names the current profile, so a restart
    comes back on it with the cache re-derived. *)
Theorem key_cache_sound (w : World) (e : Env) (w' : World) :
  reachable lawful w ->
  (b_has_node_key (w_backend w) = true ->
   exists k, key_file_of (w_backend w) = Some (KeyState k)) /\
  load_current_profile (disk_pointer (b_disk (w_backend w))) = b_current_profile (w_backend w) /\
  (exec (EvRestart e) w = Some w' ->
   b_current_profile (w_backend w') = b_current_profile (w_backend w) /\
   b_has_node_key (w_backend w') = key_file_has_node_key (key_file_of (w_backend w))).
Proof.
  intros Hr. pose proof (reachable_sound w Hr) as Hs.
  assert (Hp : load_current_profile (disk_pointer (b_disk (w_backend w))) = b_current_profile (w_backend w))
    by exact (sd_pointer _ _ Hs).
  split_and!; [exact (sd_key _ _ Hs)|exact Hp|]. cbn [exec].
  destruct (load e (b_disk (w_backend w))) as [b|] eqn:El; [|done]. intros [= <-]. cbn [w_backend].
  destruct (load_core _ _ _ El) as (p & _ & Hc).
  pose proof (f_equal c_profile Hc) as H1. pose proof (f_equal c_has_key Hc) as H2.
  unfold core in H1, H2. core_simpl. rewrite H1, H2, Hp. done.
Qed.

Lemma key_cache_sound_witness :
  b_has_node_key (w_backend up_world) = true /\
  (exists k, key_file_of (w_backend up_world) = Some (KeyState k)).
Proof.
  assert (H : b_has_node_key (w_backend up_world) = true) by (vm_compute; reflexivity).
  split; [exact H|]. by apply (key_cache_sound up_world env_example up_world up_world_reachable).
Defined.

(** An armed reconnect timer means exactly what it was armed for: the
    disconnect exemption it bounds is still standing, the node has no engine
    and nothing in flight can give it one, and the timer names the profile
    that asked for the disconnect, so when it fires it can neither act on a
    running node nor bring up a profile nobody disconnected. *)
Theorem armed_timer_is_warranted (w : World) (t : ReconnectTimer) :
  reachable lawful w -> b_reconnect (w_backend w) = Some t ->
  b_override_always_on (w_backend w) = true /\ b_device (w_backend w) = None /\
  Forall (fun p => pending_generation p < b_generation (w_backend w)) (w_ups w) /\
  rt_profile t = b_current_profile (w_backend w) /\ rt_seq t <= b_reconnect_seq (w_backend w) /\
  claim_due_reconnect t (w_backend w)
  = ((w_backend w) <| b_reconnect := None |>, Ok true).
Proof.
  intros Hr Ht. destruct (sd_timer _ _ (reachable_sound w Hr) t Ht) as (Ho & He & Hu & Hp & Hq).
  apply fmap_None in He. change (rt_profile t = b_current_profile (w_backend w)) in Hp.
  apply (in_flight_Forall (fun g => g < b_generation (w_backend w))) in Hu.
  split_and!; try done. unfold claim_due_reconnect. rewrite bind_get, Ht.
  case_bool_decide as Hc; [by destruct Hc|]. rewrite Hp, String.eqb_refl. reflexivity.
Qed.

Lemma armed_timer_is_warranted_witness :
  exists t, b_reconnect (w_backend armed_world) = Some t /\
  b_override_always_on (w_backend armed_world) = true /\ b_device (w_backend armed_world) = None /\
  Forall (fun p => pending_generation p < b_generation (w_backend armed_world)) (w_ups armed_world) /\
  rt_profile t = b_current_profile (w_backend armed_world) /\
  rt_seq t <= b_reconnect_seq (w_backend armed_world) /\
  claim_due_reconnect t (w_backend armed_world)
  = ((w_backend armed_world) <| b_reconnect := None |>, Ok true).
Proof.
  destruct (b_reconnect (w_backend armed_world)) as [t|] eqn:E; [|vm_compute in E; discriminate E].
  exists t. split; [reflexivity|]. exact (armed_timer_is_warranted armed_world t armed_world_reachable E).
Defined.

(** C5: with one policy in force and no declarative config, an engine only
    ever runs, or can only still be installed, while the intent is to run and
    be logged in, and the prefs it runs under already carry the policy:
    reconciling them again, under the exemptions standing, changes nothing. *)
Theorem engine_is_wanted_and_governed (s : list PolicySetting) (w : World) :
  reachable (governed s) w ->
  b_device (w_backend w) <> None \/
    Exists (fun p => pending_generation p = b_generation (w_backend w)) (w_ups w) ->
  wants_running (w_backend w) = true /\
  policy_prefs s (overrides_of (w_backend w)) (b_prefs (w_backend w)) = b_prefs (w_backend w).
Proof.
  intros Hr Hl. pose proof (reachable_governed s w Hr) as [Hruns Hforce _ _].
  assert (Hlive : live (in_flight w) (core (w_backend w))).
  { destruct Hl as [Hd|Hx]; [left|right].
    - unfold core. core_simpl. by destruct (b_device (w_backend w)).
    - apply Exists_exists in Hx as (p & Hin & Hg). change (b_generation (w_backend w) ∈ in_flight w).
      rewrite <- Hg. by apply list_elem_of_fmap_2. }
  split; [|exact (Hforce Hlive)]. destruct (Hruns Hlive) as [H1 H2].
  change (want_running (b_prefs (w_backend w)) = true) in H1.
  change (logged_out (b_prefs (w_backend w)) = false) in H2.
  unfold wants_running. by rewrite H1, H2.
Qed.

Lemma engine_is_wanted_and_governed_witness :
  b_device (w_backend up_world) <> None /\
  wants_running (w_backend up_world) = true /\
  policy_prefs [] (overrides_of (w_backend up_world)) (b_prefs (w_backend up_world))
  = b_prefs (w_backend up_world).
Proof.
  assert (H : b_device (w_backend up_world) <> None) by (vm_compute; discriminate).
  split; [exact H|]. apply (engine_is_wanted_and_governed [] up_world); [exact up_world_governed|by left].
Defined.
