(* ===== verification/Contracts.v ===== *)
(** * What each command promises

    The contracts of the commands that change intent: a refused edit changes
    nothing, what a bring-up begun leaves behind, what a live [set] does to
    the running engine, what a logout destroys and in which order, and what a
    profile switch commits. *)
From Stdlib Require Import ZArith Lia Ascii String List.
From stdpp Require Import base gmap list strings option relations.
From coqutil Require Datatypes.RecordSettersUsingExistingGetters.
Import coqutil.Datatypes.RecordSettersUsingExistingGetters.RecordSetNotations1.
From S2P Require Import Prelude NetAddr Prefs SysPolicy RevertGuard Routes.
From S2P Require Import Gates ExitNodeArg Profiles EngineConfig Edits Conffile.
From S2P Require Import Backend BackendFacts Lifecycle World.
Import AlwaysOn ExitNodeGate ControlUrl LifecycleState AutoUpdate.

(** ** Errors that are not refusals *)

(** Every error of the computation is a failure on the way, not a refusal. *)
Definition willing {A} (m : M A) : Prop :=
  forall b b' err, m b = (b', Err err) -> is_refusal err = false.

Section Willing.
Context (e : Env).

Lemma willing_bind {A B} (m : M A) (f : A -> M B) :
  willing m -> (forall x, willing (f x)) -> willing (m ≫= f).
Proof.
  intros Hm Hf b b' err H. apply M_bind_err in H as [H|(b1 & x & _ & H)];
    [by eapply Hm|by eapply Hf].
Qed.

Lemma willing_total {A} (m : M A) : (forall b, exists b' x, m b = (b', Ok x)) -> willing m.
Proof. intros H b b' err E. destruct (H b) as (b1 & x & E'). congruence. Qed.

Lemma willing_check c err : is_refusal err = false -> willing (check c err).
Proof. intros H b b' err' E. apply check_err in E as (_ & _ & ->). done. Qed.

Lemma willing_lift {X A} (w : X -> BackendError) (r : result X A) :
  (forall x, is_refusal (w x) = false) -> willing (lift w r).
Proof. intros H b b' err E. apply lift_err in E as (_ & x & _ & ->). done. Qed.

Lemma willing_throw {A} err : is_refusal err = false -> willing (throw (A:=A) err).
Proof. intros H b b' err' [= <- <-]. done. Qed.

Lemma willing_when c m : willing m -> willing (when_m c m).
Proof. intros H. destruct c; [exact H|]. apply willing_total. intros b. by exists b, tt. Qed.

Lemma willing_persist : willing (persist_prefs e).
Proof.
  intros b b' err. rewrite persist_run. destruct (negb _); [by intros [= <- <-]|].
  destruct (_ && _); [by intros [= <- <-]|done].
Qed.

Lemma willing_discard : willing (discard_node_key e).
Proof. intros b b' err. rewrite discard_run. by destruct (wipe_fails e b); [intros [= <- <-]|]. Qed.

Lemma willing_build : willing (build_config_m e).
Proof.
  intros b b' err. unfold build_config_m. destruct (build_config _ _ _ _) as [f [c|]]; [done|].
  by intros [= <- <-].
Qed.

Lemma willing_save meta : willing (save_profiles_file e meta).
Proof. apply willing_bind; [by apply willing_check|]. intros _. apply willing_total. eauto. Qed.

Lemma willing_load_prefs d id : willing (lift (fun x => x) (load_prefs d id)).
Proof.
  intros b b' err E. apply lift_err in E as (_ & x & E & ->). revert E. unfold load_prefs.
  destruct (disk_prefs d !! id) as [[]|]; try done. by intros [= <-].
Qed.

Lemma willing_activate target register : willing (activate_profile e target register).
Proof.
  intros b b' err. rewrite activate_run. destruct (String.eqb _ _); [done|]. cbv zeta.
  destruct (load_prefs _ _) as [p|err'] eqn:El.
  - destruct (_ && _); [by intros [= <- <-]|]. unfold switched_to.
    destruct (negb _); [by intros [= <- <-]|done].
  - intros [= <- <-]. eapply (willing_load_prefs _ target b). unfold lift. by rewrite El.
Qed.

Lemma willing_remove id : willing (remove_profile_files e id).
Proof.
  unfold remove_profile_files. apply willing_bind; [apply willing_total; eauto|intros b].
  apply willing_bind; [by apply willing_check|intros _]. apply willing_bind; [apply willing_total; eauto|].
  intros _. apply willing_bind; [by apply willing_check|intros _]. apply willing_total; eauto.
Qed.

Lemma willing_reset : willing (reset_to_empty_profile e).
Proof.
  intros b b' err. rewrite reset_to_empty_run. cbv zeta. destruct (_ && _); [done|].
  apply willing_bind; [apply willing_when, willing_save|intros _]. unfold reset_tail.
  apply willing_bind; [apply willing_total; eauto|intros b1].
  apply willing_bind; [by apply willing_check|intros _]. apply willing_total. intros b2.
  rewrite !bind_modify, edge_reset_then. eauto.
Qed.

Lemma willing_switch target : willing (switch_profile e target).
Proof.
  unfold switch_profile. apply willing_bind; [apply willing_total; eauto|intros b].
  destruct (resolve_target_to_id _ _); [apply willing_activate|by apply willing_throw].
Qed.

Lemma willing_create id : willing (create_profile e id).
Proof.
  unfold create_profile. apply willing_bind; [by apply willing_check|intros _].
  apply willing_bind; [apply willing_total; eauto|intros b].
  destruct (resolve_target_to_id _ _); [by apply willing_throw|apply willing_activate].
Qed.

Lemma willing_empty draw : willing (switch_to_empty_profile e draw).
Proof.
  unfold switch_to_empty_profile. apply willing_bind; [apply willing_total; eauto|intros b].
  destruct (negb _); [apply willing_reset|]. cbv zeta.
  apply willing_bind; [by apply willing_lift|intros drawn].
  apply willing_bind.
  - intros b1 b2 err E. apply lift_err in E as (_ & x & E & ->). destruct drawn; [done|].
    by injection E as <-.
  - intros id. apply willing_bind; [apply willing_remove|intros _; apply willing_activate].
Qed.

Lemma willing_delete target : willing (delete_profile e target).
Proof.
  unfold delete_profile. apply willing_bind; [apply willing_total; eauto|intros b].
  destruct (resolve_target_to_id _ _); [|by apply willing_throw].
  destruct (String.eqb _ _); [apply willing_total; eauto|].
  destruct (String.eqb _ _); [by apply willing_throw|].
  apply willing_bind; [apply willing_remove|intros _].
  apply willing_bind; [apply willing_total; eauto|intros b1].
  apply willing_bind; [apply willing_when, willing_save|]. intros _. apply willing_total; eauto.
Qed.

Lemma willing_apply_config c : willing (apply_config e c).
Proof.
  unfold apply_config. apply willing_bind; [apply willing_total; eauto|intros b].
  destruct (apply_to_prefs_gated _ _ _ _ _ _ _) as [p authkey].
  apply willing_bind; [apply willing_total; eauto|intros _].
  apply willing_bind; [by apply willing_lift|intros key].
  apply willing_bind; [apply willing_total; eauto|intros _].
  apply willing_bind; [apply willing_total; intros ?; rewrite reconcile_run; eauto|intros _].
  apply willing_bind; [apply willing_persist|intros _]. apply willing_total; eauto.
Qed.

Lemma willing_reload source : willing (reload_config e source).
Proof.
  unfold reload_config. destruct source as [loaded|]; [|apply willing_total; eauto].
  apply willing_bind; [by apply willing_lift|intros c].
  apply willing_bind; [apply willing_apply_config|intros _]. apply willing_total.
  intros b. rewrite bind_get. eauto.
Qed.

Lemma willing_tun transport : willing (apply_tun_flag e transport).
Proof.
  unfold apply_tun_flag. apply willing_bind; [apply willing_total; eauto|intros b].
  destruct (match transport with TransportNetstack => _ | _ => _ end).
  destruct (_ && _); [apply willing_total; eauto|].
  apply willing_bind; [apply willing_total; unfold modify_prefs, modify; eauto|intros _].
  apply willing_bind; [apply willing_persist|intros _]. apply willing_total; eauto.
Qed.

Lemma willing_policy_tick :
  willing (_ ← sys_policy_changed (always_on_keys_in (e_policy e));
           exit_node_policy_changed (exit_node_keys_in (e_policy e))).
Proof.
  apply willing_bind.
  - apply willing_total. intros b. unfold sys_policy_changed. rewrite bind_get.
    case_bool_decide; eauto.
  - intros _. apply willing_total. intros b. unfold exit_node_policy_changed. rewrite bind_get.
    case_bool_decide; eauto.
Qed.

Lemma willing_claim armed : willing (claim_due_reconnect armed).
Proof.
  apply willing_total. intros b. unfold claim_due_reconnect. rewrite bind_get.
  case_bool_decide; eauto.
Qed.

Lemma willing_netmap_name : willing (current_netmap_name e).
Proof. apply willing_total. intros b. unfold current_netmap_name. rewrite bind_modify, bind_get. eauto. Qed.

Lemma willing_rearm : willing rearm.
Proof.
  apply willing_total. intros b. unfold rearm. rewrite bind_get. destruct (b_device b); [|eauto].
  rewrite bind_modify. unfold spawn_serve, modify. eauto.
Qed.

Lemma willing_publish answer : willing (publish_suggested_exit_node answer).
Proof.
  apply willing_total. intros b. unfold publish_suggested_exit_node. destruct answer as [id|]; [|cbn; eauto].
  rewrite bind_get. destruct (String.eqb _ id); [cbn; eauto|]. rewrite bind_modify. cbn; eauto.
Qed.

Lemma willing_begun opts edit : willing (commit_up e opts edit).
Proof.
  intros b b' err. rewrite commit_up_run. destruct (_ && _); [by intros [= <- <-]|].
  pose proof (willing_persist (up_intent e opts edit b)) as Hp.
  destruct (persist_prefs e _) as [b1 [[]|err1]]; [|intros [= <- <-]; by eapply Hp].
  pose proof (willing_build b1) as Hb. destruct (build_config_m e b1) as [b2 [c|err2]]; [done|].
  intros [= <- <-]. by eapply Hb.
Qed.

Lemma willing_reconcile_set opts : willing (reconcile_set e opts).
Proof.
  unfold reconcile_set. apply willing_bind; [apply willing_total; eauto|intros b].
  destruct (b_device b); [|apply willing_total; eauto].
  destruct (needs_rebuild opts); [apply willing_total; eauto|].
  assert (Hstep : forall c op, willing op -> willing (live_step e c op)).
  { intros c op Hop. unfold live_step. destruct c; [|apply willing_total; eauto].
    apply willing_bind; [exact Hop|intros o]. apply willing_bind; [|intros _; apply willing_total; eauto].
    unfold issue. apply willing_bind; [by apply willing_check|intros _; apply willing_total; eauto]. }
  assert (Hp : forall f, willing (from_prefs f))
    by (intros f; apply willing_total; intros b'; unfold from_prefs; rewrite bind_get; eauto).
  assert (Hr : willing (expect_routes e)).
  { unfold expect_routes. apply willing_bind; [apply willing_total; eauto|intros b'].
    destruct (parse_routes _ _); [apply willing_total; eauto|by apply willing_throw]. }
  unfold live_set. apply willing_bind; [|intros ops; apply willing_total; eauto].
  do 6 (apply willing_bind; [by apply Hstep|intros ?]). apply willing_total; eauto.
Qed.

Lemma willing_commit_set opts : willing (commit_set e opts).
Proof.
  unfold commit_set. apply willing_bind.
  - apply willing_total. intros b. destruct (set_nickname opts); [|eauto].
    unfold held. destruct (rename_current_profile _ _ _) as [b' [|]]; eauto.
  - intros ren. apply willing_bind; [apply willing_reconcile_set|]. intros a. apply willing_total; eauto.
Qed.
End Willing.

(** ** Refusals *)

Lemma plain_err {A} (m : M A) b b' err begun :
  plain m b = (b', Some err, begun) -> m b = (b', Err err) /\ begun = None.
Proof. unfold plain. destruct (m b) as [b1 [x|err1]]; [done|]. by intros [= <- <- <-]. Qed.

(** Only the vetting refuses a [set]. *)
Lemma begin_set_refused e opts b b' err : begin_set e opts b = (b', Err err) -> is_refusal err = true ->
  b' = b /\ vet_set e (b_prefs b) opts = Err err.
Proof.
  intros H Hr. rewrite begin_set_run in H. destruct (vet_set _ _ _) as [[opts' edit]|err'] eqn:Ev.
  2: { injection H as <- <-. done. }
  pose proof (willing_persist e (set_intent e opts' edit b)) as Hp.
  destruct (persist_prefs e _) as [b1 [[]|err1]].
  - apply willing_commit_set in H. congruence.
  - injection H as <- <-. rewrite (Hp _ _ eq_refl) in Hr. done.
Qed.


(** An example edit: a route that does not parse. *)
Definition bad_routes : SetOptions :=
  SetOptions_default <| set_advertise_routes := Some ["nonsense"] |> <| set_accept_routes := Some true |>.


(** ** Durability: what is acknowledged is on disk *)

(** The current profile's intent is on disk as it is in memory. *)
Definition stored (b : Backend) : Prop :=
  disk_prefs (b_disk b) !! b_current_profile b = Some (PrefsStored (b_prefs b)).

Lemma persist_stored e b b' : persist_prefs e b = (b', Ok tt) -> stored b'.
Proof.
  rewrite persist_run. destruct (negb _); [done|]. destruct (_ && _); [done|]. intros [= <-].
  unfold stored, persisted, write_prefs_file. record_simpl. apply lookup_insert_eq.
Qed.

(** A computation that leaves the stored intent and the intent alone. *)
Definition intent_kept {A} (m : M A) : Prop := forall b,
  disk_prefs (b_disk (fst (m b))) = disk_prefs (b_disk b) /\
  b_current_profile (fst (m b)) = b_current_profile b /\
  b_prefs (fst (m b)) = b_prefs b.

Lemma intent_kept_stored {A} (m : M A) b : intent_kept m -> stored b -> stored (fst (m b)).
Proof. unfold stored. intros H. destruct (H b) as (-> & -> & ->). done. Qed.

Lemma intent_kept_bind {A B} (m : M A) (f : A -> M B) :
  intent_kept m -> (forall x, intent_kept (f x)) -> intent_kept (m ≫= f).
Proof.
  intros Hm Hf b. unfold mbind, M_bind. specialize (Hm b). destruct (m b) as [b' [x|err]]; [|exact Hm].
  cbn [fst] in Hm. destruct Hm as (<- & <- & <-). apply Hf.
Qed.

Lemma intent_kept_check c err : intent_kept (check c err). Proof. intros b. by destruct c. Qed.
Lemma intent_kept_ret {A} (x : A) : intent_kept (mret x). Proof. done. Qed.
Lemma intent_kept_get : intent_kept get_state. Proof. done. Qed.

Lemma intent_kept_save e meta : intent_kept (save_profiles_file e meta).
Proof. unfold save_profiles_file. apply intent_kept_bind; [apply intent_kept_check|done]. Qed.

Lemma intent_kept_issue e op : intent_kept (issue e op).
Proof. unfold issue. apply intent_kept_bind; [apply intent_kept_check|done]. Qed.

Lemma intent_kept_build e : intent_kept (build_config_m e).
Proof.
  intros b. unfold build_config_m. destruct (build_config _ _ _ _) as [f [c|]]; cbn [fst];
    destruct f; done.
Qed.

Lemma intent_kept_rename e name : intent_kept (held (rename_current_profile e name)).
Proof.
  assert (H : intent_kept (rename_current_profile e name)).
  { unfold rename_current_profile. apply intent_kept_bind; [done|intros b].
    destruct (_ && _); [done|apply intent_kept_save]. }
  intros b. specialize (H b). unfold held. by destruct (rename_current_profile e name b) as [b' []].
Qed.

Lemma intent_kept_live_step e c op : intent_kept op -> intent_kept (live_step e c op).
Proof.
  intros H. unfold live_step. destruct c; [|done]. apply intent_kept_bind; [exact H|intros o].
  apply intent_kept_bind; [apply intent_kept_issue|done].
Qed.

Lemma intent_kept_commit_set e opts : intent_kept (commit_set e opts).
Proof.
  unfold commit_set. apply intent_kept_bind; [destruct (set_nickname opts); [apply intent_kept_rename|done]|].
  intros ren. apply intent_kept_bind; [|done]. unfold reconcile_set.
  apply intent_kept_bind; [done|intros b]. destruct (b_device b); [|done].
  destruct (needs_rebuild opts); [done|]. apply intent_kept_bind; [|done]. unfold live_set.
  assert (Hr : intent_kept (expect_routes e)).
  { intros b'. unfold expect_routes, mbind, M_bind, get_state. by destruct (parse_routes _ _). }
  do 6 (apply intent_kept_bind; [by apply intent_kept_live_step|intros ?]). done.
Qed.

Definition edits_intent (c : Command) : bool :=
  match c with CUp _ | CSet _ | CDown _ | CLogout _ => true | _ => false end.

Lemma acknowledged_stored e c b b' begun :
  edits_intent c = true -> run_command e c b = (b', None, begun) -> stored b'.
Proof.
  assert (Hp : forall b0, plain (persist_prefs e) b0 = (b', None, begun) -> stored b').
  { intros b0. unfold plain. destruct (persist_prefs e b0) as [b1 [[]|]] eqn:E; [|done].
    intros [= <- _]. by apply persist_stored in E. }
  intros Hc H. destruct c; try discriminate Hc; cbn [run_command] in H.
  - rewrite begin_up_run in H. destruct (vet_up _ _ _) as [[opts' edit]|]; [|done].
    rewrite commit_up_run in H. destruct (_ && _); [done|].
    destruct (persist_prefs e _) as [b1 [[]|]] eqn:Ep; [|done]. apply persist_stored in Ep.
    pose proof (intent_kept_stored _ b1 (intent_kept_build e) Ep) as Hs.
    destruct (build_config_m e b1) as [b2 [c|]]; [|done]. injection H as <- _. exact Hs.
  - unfold plain in H. rewrite begin_set_run in H. destruct (vet_set _ _ _) as [[opts' edit]|]; [|done].
    destruct (persist_prefs e _) as [b1 [[]|]] eqn:Ep; [|done]. apply persist_stored in Ep.
    pose proof (intent_kept_stored _ b1 (intent_kept_commit_set e opts') Ep) as Hs.
    destruct (commit_set e opts' b1) as [b2 [c|]]; [|done]. injection H as <- _. exact Hs.
  - unfold plain in H. rewrite down_run in H. destruct (vet_disconnect e b actor); [|done].
    by eapply Hp.
  - unfold plain in H. rewrite logout_run in H. destruct (vet_disconnect e b actor); [|done].
    cbv zeta in H. destruct (wipe_fails _ _); [done|]. by eapply Hp.
Qed.



(** ** Bring-ups *)

(** A bring-up begun, step by step. *)
Lemma begin_up_shape e opts b b' pending : begin_up e opts b = (b', Ok pending) ->
  exists opts' edit b1 f,
    vet_up e (b_prefs b) opts = Ok (opts', edit) /\
    persist_prefs e (up_intent e opts' edit b) = (b1, Ok tt) /\
    build_config (e_host e) (b_prefs b1) (key_file_of b1) (b_listen_port b1)
      = (f, Ok (pending_config pending)) /\
    b' = up_done (b1 <| b_disk := write_key_file (b_current_profile b1) f (b_disk b1) |>) /\
    pending_generation pending = b_generation b'.
Proof.
  rewrite begin_up_run. destruct (vet_up _ _ _) as [[opts' edit]|]; [|done].
  rewrite commit_up_run. destruct (_ && _); [done|].
  destruct (persist_prefs e _) as [b1 [[]|]] eqn:Ep; [|done]. unfold build_config_m.
  destruct (build_config (e_host e) (b_prefs b1) (key_file_of b1) (b_listen_port b1)) as [f [c|]] eqn:Eb;
    [|done].
  intros [= <- <-]. exists opts', edit, b1, f. split_and!; done.
Qed.

Lemma vet_up_opts e p opts opts' edit : vet_up e p opts = Ok (opts', edit) ->
  exists tags, vet_tags (up_advertise_tags opts) = Ok tags /\
    opts' = opts <| up_advertise_tags := tags |> /\
    vet_exit_node e (up_exit_node opts) = Ok edit.
Proof.
  unfold vet_up. intros H. apply bind_ok in H as (u & _ & H).
  apply bind_ok in H as (tags & Ht & H). apply bind_ok in H as (ed & He & H).
  apply bind_ok in H as (v & _ & H). injection H as <- <-. eauto.
Qed.

Lemma up_intent_prefs e opts edit b :
  b_prefs (up_intent e opts edit b)
  = policy_prefs (e_policy e) (mkPolicyOverrides false (override_after edit false))
      (merge_up opts (b_prefs b)).
Proof. unfold up_intent. by destruct (up_force_reauth opts). Qed.

Lemma up_intent_port e opts edit b : b_listen_port (up_intent e opts edit b) = b_listen_port b.
Proof. unfold up_intent. by destruct (up_force_reauth opts). Qed.

Lemma persist_port e b b' : persist_prefs e b = (b', Ok tt) -> b_listen_port b' = b_listen_port b.
Proof.
  rewrite persist_run. destruct (negb _); [done|]. by destruct (_ && _); [|intros [= <-]].
Qed.

Lemma config_of_prefs_built h p f port f' c : build_config h p f port = (f', Ok c) ->
  config_of_prefs h p (key_state c) port = Ok c /\
  fst (load_key_file h f) = Some (key_state c).
Proof.
  unfold build_config. destruct (load_key_file h f) as [[k|] f1]; [|done]. intros [= _ H].
  rewrite (config_of_prefs_key _ _ _ _ _ H). done.
Qed.

(** C9: what a bring-up has done by the time its handshake starts.  The old
    engine is gone and the attempt is the newest; the intent is to run, and it
    is what the request merged over the old prefs under the policy; exactly
    that intent is on disk and is what the engine's config was built from; the
    node key on disk is the one in the config: a stored key is resumed, unless
    the request forces re-authentication, and then the loader minted a new
    one; and no disconnect exemption or timer survives. *)
Theorem begin_up_contract (e : Env) (opts : UpOptions) (b b' : Backend) (pending : PendingUp) :
  HostLaws (e_host e) -> begin_up e opts b = (b', Ok pending) ->
  let c := pending_config pending in
  (b_device b' = None /\ b_generation b' = b_generation b + 1 /\
   pending_generation pending = b_generation b') /\
  (exists tags edit,
     vet_tags (up_advertise_tags opts) = Ok tags /\ vet_exit_node e (up_exit_node opts) = Ok edit /\
     b_prefs b' = policy_prefs (e_policy e) (mkPolicyOverrides false (override_after edit false))
                    (merge_up (opts <| up_advertise_tags := tags |>) (b_prefs b))) /\
  (want_running (b_prefs b') = true /\ logged_out (b_prefs b') = false) /\
  stored b' /\
  config_of_prefs (e_host e) (b_prefs b') (key_state c) (b_listen_port b) = Ok c /\
  (key_file_of b' = Some (KeyState (key_state c)) /\ b_has_node_key b' = true) /\
  (forall k, up_force_reauth opts = false -> key_file_of b = Some (KeyState k) -> key_state c = k) /\
  (up_force_reauth opts = true -> fst (load_key_file (e_host e) None) = Some (key_state c)) /\
  (b_reconnect b' = None /\ b_override_always_on b' = false).
Proof.
  intros Hl H. cbv zeta. pose proof (begin_up_facts e opts b b' pending Hl H) as Hb.
  destruct (begin_up_ok e _ _ _ _ Hl H) as (opts0 & edit0 & _ & Hc & _).
  destruct (begin_up_shape _ _ _ _ _ H) as (opts' & edit & b1 & f & Hv & Hp & Hbc & Hb' & Hg).
  destruct (vet_up_opts _ _ _ _ _ Hv) as (tags & Ht & -> & He).
  set (opts' := opts <| up_advertise_tags := tags |>) in *.
  pose proof (core_persist_ok e _ _ Hp) as Hcore.
  destruct (config_of_prefs_built _ _ _ _ _ _ Hbc) as [Hcfg Hload].
  pose proof (up_intent_facts e opts' edit b) as Hi.
  assert (Hprefs : b_prefs b1 = b_prefs (up_intent e opts' edit b)) by exact (f_equal c_prefs Hcore).
  assert (Hkey1 : key_file_of b1 = if up_force_reauth opts then None else key_file_of b)
    by (etransitivity; [exact (f_equal c_key Hcore)|exact (it_key _ _ _ _ Hi)]).
  pose proof (persist_port _ _ _ Hp) as Hport. rewrite up_intent_port in Hport.
  pose proof (up_intent_prefs e opts' edit b) as Hup. rewrite <- Hprefs in Hup.
  assert (Hst : stored b').
  { apply persist_stored in Hp. subst b'. unfold stored in *. by destruct f. }
  assert (Hsame : b_prefs b' = b_prefs b1) by by subst b'.
  assert (Hkey : key_file_of b' = Some (KeyState (key_state (pending_config pending))) /\
                 b_has_node_key b' = true).
  { change (c_key (core b') = Some (KeyState (key_state (pending_config pending))) /\
            c_has_key (core b') = true). by rewrite Hc. }
  split_and!; try done.
  - pose proof (bg_engine _ _ _ _ Hb) as Hd. by apply fmap_None in Hd.
  - exact (bg_generation _ _ _ _ Hb).
  - exists tags, edit. by rewrite Hsame.
  - exact (proj1 (bg_runs _ _ _ _ Hb)).
  - exact (proj2 (bg_runs _ _ _ _ Hb)).
  - by rewrite Hsame, <- Hport.
  - apply Hkey.
  - apply Hkey.
  - intros k Hf Hk. change (up_force_reauth opts') with (up_force_reauth opts) in Hkey1.
    rewrite Hf, Hk in Hkey1. rewrite Hkey1, (load_resumes _ Hl) in Hload. by injection Hload.
  - intros Hf. change (up_force_reauth opts') with (up_force_reauth opts) in Hkey1.
    by rewrite Hf in Hkey1; rewrite Hkey1 in Hload.
  - exact (bg_timer _ _ _ _ Hb).
  - exact (bg_override _ _ _ _ Hb).
Qed.

Lemma begin_up_contract_witness :
  exists b' pending, begin_up env_example UpOptions_default (w_backend up_world) = (b', Ok pending) /\
    key_state (pending_config pending) = 7 /\ stored b' /\ b_device b' = None.
Proof.
  destruct (begin_up env_example UpOptions_default (w_backend up_world)) as [b' [pending|err]] eqn:E;
    [|vm_compute in E; discriminate E].
  exists b', pending. split; [reflexivity|].
  destruct (begin_up_contract env_example UpOptions_default (w_backend up_world) b' pending
              host_example_laws E) as ((Hd & _) & _ & _ & Hs & _ & _ & Hk & _).
  split_and!; [|exact Hs|exact Hd]. apply Hk; vm_compute; reflexivity.
Defined.

(** ** Logging out *)

Lemma persist_outcomes e b b' r : persist_prefs e b = (b', r) ->
  (r = Ok tt /\ stored b' \/ r = Err SaveProfilesFailed /\ stored b' \/
   r = Err SavePrefsFailed /\ b_disk b' = b_disk b) /\ core b' = core b /\
  b_netmap_name b' = b_netmap_name b.
Proof.
  intros H. pose proof (core_persist e b) as Hc. rewrite H in Hc. cbn [fst] in Hc.
  split; [|split; [exact Hc|]].
  - pose proof (persist_stored e b) as Hs. rewrite H in Hs. rewrite persist_run in H.
    destruct (negb _); [injection H as <- <-; auto|]. destruct (_ && _); injection H as <- <-.
    + right; left. split; [done|]. unfold stored, with_prefs_saved, write_prefs_file. record_simpl.
      apply lookup_insert_eq.
    + left. split; [done|]. by eapply Hs.
  - rewrite persist_run in H. destruct (negb _); [by injection H as <- _|].
    by destruct (_ && _); injection H as <- _.
Qed.

Lemma downed_core e f b :
  c_prefs (core (downed e f b)) = f (b_prefs b) /\ c_engine (core (downed e f b)) = c_engine (core b) /\
  c_generation (core (downed e f b)) = c_generation (core b) /\
  c_key (core (downed e f b)) = c_key (core b) /\
  c_has_key (core (downed e f b)) = c_has_key (core b) /\
  b_netmap_name (downed e f b) = b_netmap_name b /\ b_disk (downed e f b) = b_disk b.
Proof.
  unfold downed, permitted. destruct (want_running (b_prefs b)), (reconnect_after_in (e_policy e));
    split_and!; reflexivity.
Qed.

(** C8: a logout that is not refused always takes the engine down and makes
    every bring-up in flight stale, and destroys the node key before it
    records anything: if the key cannot be removed, the intent in memory and
    on disk is untouched, so a node is never recorded as logged out while its
    key is still there; otherwise the key is gone, from the disk and from the
    cache, and the intent is to stay down, logged out, which is on disk unless
    writing the prefs itself failed. *)
Theorem logout_destroys_key_first (e : Env) (actor : Actor) (b b' : Backend)
    (r : result BackendError unit) :
  logout e actor b = (b', r) -> (forall err, r = Err err -> is_refusal err = false) ->
  b_device b' = None /\ b_generation b' = b_generation b + 1 /\ b_netmap_name b' = None /\
  ((r = Err DiscardKeyFailed /\ b_prefs b' = b_prefs b /\ b_disk b' = b_disk b) \/
   (key_file_of b' = None /\ b_has_node_key b' = false /\ b_prefs b' = logout_intent (b_prefs b) /\
    (stored b' \/
     r = Err SavePrefsFailed /\ disk_prefs (b_disk b') = disk_prefs (b_disk b)))).
Proof.
  rewrite logout_run. intros H Hr. destruct (vet_disconnect e b actor) eqn:Ev.
  2: { injection H as <- <-. specialize (Hr _ eq_refl).
       by rewrite (vet_disconnect_refusal _ _ _ _ Ev) in Hr. }
  cbv zeta in H. destruct (wipe_fails _ _); [injection H as <- <-; split_and!; [done..|by left]|].
  set (b1 := forgotten (bumped (stopped e b))) in H.
  assert (Hb1 : c_engine (core b1) = None /\ c_generation (core b1) = c_generation (core b) + 1 /\
                b_netmap_name b1 = None /\ b_prefs b1 = b_prefs b /\ b_disk b1 = b_disk b) by done.
  clearbody b1. destruct Hb1 as (He & Hg & Hn & Hp & Hd).
  apply persist_outcomes in H as (Ho & Hc & Hnm).
  destruct (downed_core e logout_intent (discarded b1)) as (Dp & De & Dg & Dk & Dh & Dn & Dd).
  rewrite core_discarded in De, Dg, Dk, Dh. core_simpl. rewrite <- Hc in Dp, De, Dg, Dk, Dh.
  rewrite He in De. rewrite Hg in Dg. split_and!.
  - by apply fmap_None in De.
  - exact Dg.
  - rewrite Hnm, Dn. exact Hn.
  - right. split_and!; [exact Dk|exact Dh| |].
    + change (b_prefs b') with (c_prefs (core b')). rewrite Dp.
      change (b_prefs (discarded b1)) with (b_prefs b1). by rewrite Hp.
    + destruct Ho as [[_ ?]|[[_ ?]|[-> Hdisk]]]; [by left|by left|right]. split; [done|].
      rewrite Hdisk, Dd. unfold discarded, write_key_file. record_simpl. by rewrite Hd.
Qed.

Lemma logout_destroys_key_first_witness :
  exists b' r, logout env_example Daemon (w_backend up_world) = (b', r) /\
    key_file_of (w_backend up_world) = Some (KeyState 7) /\ key_file_of b' = None /\
    logged_out (b_prefs b') = true.
Proof.
  destruct (logout env_example Daemon (w_backend up_world)) as [b' r] eqn:E. exists b', r.
  assert (Hr : forall err, r = Err err -> is_refusal err = false)
    by (vm_compute in E; injection E as _ <-; discriminate).
  split; [reflexivity|]. split; [vm_compute; reflexivity|].
  destruct (logout_destroys_key_first env_example Daemon (w_backend up_world) b' r E Hr)
    as (_ & _ & _ & [(-> & _)|(Hk & _ & Hp & _)]).
  - vm_compute in E. discriminate E.
  - split; [exact Hk|]. by rewrite Hp.
Defined.

(** ** Switching profiles *)

Lemma with_listed_keeps target b :
  disk_prefs (b_disk (with_listed target b)) = disk_prefs (b_disk b) /\
  disk_keys (b_disk (with_listed target b)) = disk_keys (b_disk b) /\
  core (with_listed target b) = core b.
Proof. done. Qed.

Lemma edge_facts e b :
  core (profile_edge e b) = advance (halt (core b)) /\ b_disk (profile_edge e b) = b_disk b.
Proof. done. Qed.

(** C7: a profile switch is all or nothing.  If it fails at any point (the
    target's prefs, the profile list, the pointer file), the daemon is still
    on the old profile, in memory and by the pointer on disk, with its
    intent, its exemptions and its key cache as they were; if it succeeds,
    memory and pointer agree on the target, whose stored prefs are in force
    under the policy, whose key file the cache reflects, and which inherits
    none of the old profile's exemptions.  Either way the engine is down and
    no profile's prefs or key were written. *)
Theorem switch_is_atomic (e : Env) (target : string) (register : bool) (b b' : Backend)
    (r : result BackendError SwitchOutcome) :
  target <> b_current_profile b -> activate_profile e target register b = (b', r) ->
  b_device b' = None /\ b_generation b' = b_generation b + 1 /\
  disk_prefs (b_disk b') = disk_prefs (b_disk b) /\ disk_keys (b_disk b') = disk_keys (b_disk b) /\
  match r with
  | Err _ => core b' = advance (halt (core b))
  | Ok out =>
      out = Switched target (derive_state b' false) /\
      b_current_profile b' = target /\ disk_pointer (b_disk b') = Some target /\
      (exists p, load_prefs (b_disk b) target = Ok p /\
         b_prefs b' = policy_prefs (e_policy e) (mkPolicyOverrides false false) p) /\
      b_has_node_key b' = key_file_has_node_key (disk_keys (b_disk b) !! target) /\
      b_ever_configured b' = prefs_file_exists (b_disk b) target /\
      b_override_always_on b' = false /\ b_override_exit_node_policy b' = false /\
      b_reconnect b' = None
  end.
Proof.
  intros Hne H. rewrite activate_run in H. apply String.eqb_neq in Hne. rewrite Hne in H. cbv zeta in H.
  destruct (edge_facts e b) as [Hc Hd]. set (b1 := profile_edge e b) in *. clearbody b1.
  assert (Hdev : b_device b1 = None) by (apply (f_equal c_engine), fmap_None in Hc; exact Hc).
  assert (Hgen : b_generation b1 = b_generation b + 1) by exact (f_equal c_generation Hc).
  rewrite Hd in H. destruct (load_prefs (b_disk b) target) as [p|] eqn:El.
  2: { injection H as <- <-. by rewrite Hd. }
  destruct (_ && _); [injection H as <- <-; by rewrite Hd|].
  set (b2 := if lists target register then with_listed target b1 else b1) in H.
  assert (H2 : core b2 = core b1 /\ disk_prefs (b_disk b2) = disk_prefs (b_disk b) /\
               disk_keys (b_disk b2) = disk_keys (b_disk b) /\ b_device b2 = None /\
               b_generation b2 = b_generation b + 1).
  { unfold b2. rewrite <- Hd. by destruct (lists target register). }
  clearbody b2. destruct H2 as (Hc2 & Hp2 & Hk2 & Hd2 & Hg2). unfold switched_to in H.
  destruct (negb _).
  - injection H as <- <-. split_and!; try done. by rewrite Hc2.
  - injection H as <- <-. split_and!; try done.
    + by exists p.
    + change (key_file_has_node_key (disk_keys (b_disk b2) !! target)
              = key_file_has_node_key (disk_keys (b_disk b) !! target)). by rewrite Hk2.
    + change (prefs_file_exists (b_disk b2) target = prefs_file_exists (b_disk b) target).
      unfold prefs_file_exists. by rewrite Hp2.
Qed.

Lemma switch_is_atomic_witness :
  exists b' r, activate_profile env_example "work" true (w_backend up_world) = (b', r) /\
    b_current_profile b' = "work" /\ b_has_node_key b' = false /\ b_device b' = None.
Proof.
  destruct (activate_profile env_example "work" true (w_backend up_world)) as [b' r] eqn:E.
  exists b', r. split; [reflexivity|].
  destruct (switch_is_atomic env_example "work" true (w_backend up_world) b' r) as (Hd & _ & _ & _ & Hr);
    [vm_compute; discriminate|exact E|].
  destruct r as [out|err]; [|vm_compute in E; discriminate E].
  destruct Hr as (_ & Hp & _ & _ & Hk & _). split_and!; [exact Hp| |exact Hd]. by rewrite Hk.
Defined.

(** ** A live [set] *)

Section Live.
Context (e : Env).

(** The setters of a list, in order, up to the first failure. *)
Fixpoint issue_all (ops : list LiveSetOp) : M (list LiveSetOp) :=
  match ops with
  | [] => mret []
  | op :: ops' => _ ← issue e op; done ← issue_all ops'; mret (op :: done)
  end.

Definition amended (ops : list LiveSetOp) (b : Backend) : Backend :=
  b <| b_device := (fun dev => mkDevice (dev_handle dev)
         (fold_left (fun c op => amend_config op c) ops (dev_config dev))) <$> b_device b |>.

Lemma issue_run op b :
  issue e op b = if e_live_ok e op then (amended [op] b, Ok tt) else (b, Err (LiveSetFailed op)).
Proof. unfold issue, check, mbind, M_bind. by destruct (e_live_ok e op). Qed.

Lemma amended_app l1 l2 b : amended (l1 ++ l2) b = amended l2 (amended l1 b).
Proof.
  destruct b as [p c lp [dev|] st sv mo su ev g t sg bo k oa r rs ak oe ek nm d]; [|reflexivity].
  unfold amended. record_simpl. cbn [fmap option_fmap option_map dev_handle dev_config].
  by rewrite fold_left_app.
Qed.

Lemma amended_nil b : amended [] b = b.
Proof. by destruct b as [p c lp [[]|] st sv mo su ev g t sg bo k oa r rs ak oe ek nm d]. Qed.

Lemma issue_all_spec ops b b' r : issue_all ops b = (b', r) ->
  b_prefs b' = b_prefs b /\
  match r with
  | Ok l => l = ops /\ b' = amended ops b
  | Err err => exists op, err = LiveSetFailed op
  end.
Proof.
  revert b b' r. induction ops as [|op ops IH]; intros b b' r; cbn [issue_all].
  - intros [= <- <-]. by rewrite amended_nil.
  - pose proof (issue_run op b) as Hi. destruct (e_live_ok e op).
    + rewrite (bind_run _ _ _ _ _ Hi). destruct (issue_all ops (amended [op] b)) as [b1 r1] eqn:E.
      destruct (IH _ _ _ E) as [Hp Hr]. destruct r1 as [l|err].
      * rewrite (bind_run _ _ _ _ _ E). intros [= <- <-]. destruct Hr as [-> ->].
        split; [done|]. split; [done|]. by rewrite <- amended_app.
      * rewrite (bind_stop _ _ _ _ _ E). intros [= <- <-]. done.
    + rewrite (bind_stop _ _ _ _ _ Hi). intros [= <- <-]. eauto.
Qed.

Lemma issue_all_app l1 l2 b :
  issue_all (l1 ++ l2) b
  = match issue_all l1 b with
    | (b1, Ok x) => match issue_all l2 b1 with
                    | (b2, Ok y) => (b2, Ok (x ++ y))
                    | (b2, Err err) => (b2, Err err)
                    end
    | (b1, Err err) => (b1, Err err)
    end.
Proof.
  revert b. induction l1 as [|op l1 IH]; intros b; cbn [issue_all app].
  - unfold mret, M_ret. by destruct (issue_all l2 b) as [b2 []].
  - unfold mbind, M_bind. destruct (issue e op b) as [b0 [[]|]]; [|done]. rewrite IH.
    unfold mret, M_ret. destruct (issue_all l1 b0) as [b1 [x|]]; [|done].
    destruct (issue_all l2 b1) as [b2 []]; reflexivity.
Qed.

Lemma live_step_then {B} c op o p (k : list LiveSetOp -> M B) b :
  b_prefs b = p -> (c = true -> forall b, b_prefs b = p -> op b = (b, Ok o)) ->
  (live_step e c op ≫= k) b
  = match issue_all (if c then [o] else []) b with
    | (b1, Ok x) => k x b1
    | (b1, Err err) => (b1, Err err)
    end.
Proof.
  intros Hp Ho. unfold live_step. destruct c; [|done]. cbn [issue_all].
  unfold mbind, M_bind. rewrite (Ho eq_refl b Hp). by destruct (issue e o b) as [b1 [[]|]].
Qed.

(** The setters a request calls for, with the values the prefs ended up with. *)
Definition named_ops (opts : SetOptions) (p : Prefs) (routes : list IpNet) : list LiveSetOp :=
  (if is_some (set_exit_node opts) then [LiveExitNode (exit_node p)] else [])
  ++ (if is_some (set_hostname opts) then [LiveHostname (default "" (hostname p))] else [])
  ++ (if is_some (set_accept_routes opts) then [LiveAcceptRoutes (accept_routes p)] else [])
  ++ (if is_some (set_accept_dns opts) then [LiveAcceptDns (accept_dns p)] else [])
  ++ (if is_some (set_advertise_routes opts) then [LiveAdvertiseRoutes routes] else [])
  ++ (if is_some (set_advertise_exit_node opts)
      then [LiveAdvertiseExitNode (advertise_exit_node p)] else []).

(** One setter issued, or not, and on to the next. *)
Ltac next_setter p Hp Hop o :=
  rewrite (live_step_then _ _ o p _ _ Hp) by (apply Hop); rewrite issue_all_app;
  match goal with |- context [issue_all (if ?c then [o] else []) ?s] =>
    let E := fresh "E" in
    destruct (issue_all (if c then [o] else []) s) as [? [?|]] eqn:E; [|reflexivity];
    apply issue_all_spec in E as [E _]; rewrite Hp in E; clear Hp; rename E into Hp
  end.

Lemma live_set_run opts routes b :
  (is_some (set_advertise_routes opts) = true ->
   parse_routes (parse_net (e_host e)) (advertise_routes (b_prefs b)) = Ok routes) ->
  live_set e opts b = issue_all (named_ops opts (b_prefs b) routes) b.
Proof.
  intros Hr. unfold live_set, named_ops.
  set (p := b_prefs b) in *. assert (Hp : b_prefs b = p) by done. clearbody p.
  assert (Hfrom : forall c f, c = true -> forall b', b_prefs b' = p -> from_prefs f b' = (b', Ok (f p)))
    by (intros c f _ b' <-; done).
  assert (Hexp : is_some (set_advertise_routes opts) = true -> forall b', b_prefs b' = p ->
            expect_routes e b' = (b', Ok (LiveAdvertiseRoutes routes))).
  { intros Hn b' Hb'. unfold expect_routes. by rewrite bind_get, Hb', (Hr Hn). }
  next_setter p Hp Hfrom (LiveExitNode (exit_node p)).
  next_setter p Hp Hfrom (LiveHostname (default "" (hostname p))).
  next_setter p Hp Hfrom (LiveAcceptRoutes (accept_routes p)).
  next_setter p Hp Hfrom (LiveAcceptDns (accept_dns p)).
  next_setter p Hp Hexp (LiveAdvertiseRoutes routes).
  rewrite (live_step_then _ _ (LiveAdvertiseExitNode (advertise_exit_node p)) p _ _ Hp)
    by (apply Hfrom).
  unfold mret, M_ret. match goal with |- context [issue_all (if ?c then [?o] else []) ?s] =>
    destruct (issue_all (if c then [o] else []) s) as [? [?|]] end; reflexivity.
Qed.

(** The config the engine runs after a live [set]: the six live settings take
    the new prefs' values where they were named, and nothing else moves. *)
Definition live_config (opts : SetOptions) (p : Prefs) (routes : list IpNet) (c : Config) : Config :=
  c <| cfg_exit_node := if is_some (set_exit_node opts) then exit_node p else cfg_exit_node c |>
    <| requested_hostname := if is_some (set_hostname opts) then Some (default "" (hostname p))
                             else requested_hostname c |>
    <| cfg_accept_routes := if is_some (set_accept_routes opts) then accept_routes p
                            else cfg_accept_routes c |>
    <| cfg_accept_dns := if is_some (set_accept_dns opts) then accept_dns p else cfg_accept_dns c |>
    <| cfg_advertise_routes := if is_some (set_advertise_routes opts) then routes
                               else cfg_advertise_routes c |>
    <| cfg_advertise_exit_node := if is_some (set_advertise_exit_node opts) then advertise_exit_node p
                                  else cfg_advertise_exit_node c |>.

Lemma named_ops_config opts p routes c :
  fold_left (fun c op => amend_config op c) (named_ops opts p routes) c = live_config opts p routes c.
Proof.
  unfold named_ops, live_config. destruct c.
  destruct (is_some (set_exit_node opts)), (is_some (set_hostname opts)),
    (is_some (set_accept_routes opts)), (is_some (set_accept_dns opts)),
    (is_some (set_advertise_routes opts)), (is_some (set_advertise_exit_node opts)); reflexivity.
Qed.

Lemma all_parse parse l : (forall s, s ∈ l -> exists n, parse s = Some n) ->
  exists routes, parse_routes parse l = Ok routes.
Proof.
  intros H. apply is_ok_ex, parse_routes_ok. apply Forall_forall. intros s Hs.
  destruct (H s Hs) as [n ->]. done.
Qed.

(** The named routes were judged before they were stored. *)
Lemma vetted_routes_parse p opts opts' edit : vet_set e p opts = Ok (opts', edit) ->
  is_some (set_advertise_routes opts) = true ->
  exists routes, forall ov q,
    advertise_routes q = advertise_routes (apply_set_overrides opts' p) ->
    parse_routes (parse_net (e_host e)) (advertise_routes (policy_prefs (e_policy e) ov q)) = Ok routes.
Proof.
  unfold vet_set. intros H Hn. apply bind_ok in H as (u & Hv & H).
  apply bind_ok in H as (tags & _ & H). apply bind_ok in H as (ed & _ & H).
  apply bind_ok in H as (v & _ & H). apply bind_ok in H as (w & _ & H). injection H as <- _.
  destruct (set_advertise_routes opts) as [named|] eqn:Er; [|done].
  unfold vet_routes, prospective_route_set in Hv. cbn [default from_option] in Hv.
  match type of Hv with map_err _ (validate_advertise_routes _ _ ?rs ?ex) = _ =>
    destruct (calc_advertise_routes (parse_net (e_host e)) (e_trunc e) rs ex) as [nets|] eqn:Ec end;
    unfold validate_advertise_routes in Hv; rewrite Ec in Hv; [|done].
  destruct (all_parse (parse_net (e_host e)) named) as [routes Hp].
  { intros s Hs. destruct (accepted_routes_parse _ _ _ _ _ s Ec Hs) as (n & ? & _). eauto. }
  exists routes. intros ov q Hq. change (advertise_routes (policy_prefs (e_policy e) ov q))
    with (advertise_routes q). rewrite Hq. unfold apply_set_overrides.
  change (parse_routes (parse_net (e_host e))
            (named_or (set_advertise_routes opts) (advertise_routes p)) = Ok routes).
  by rewrite Er.
Qed.
End Live.

Lemma set_intent_keeps e opts edit b :
  b_device (set_intent e opts edit b) = b_device b /\
  b_generation (set_intent e opts edit b) = b_generation b /\
  b_prefs (set_intent e opts edit b)
  = policy_prefs (e_policy e)
      (mkPolicyOverrides (b_override_always_on b) (override_after edit (b_override_exit_node_policy b)))
      (apply_set_overrides opts (b_prefs b)).
Proof. done. Qed.

Lemma persist_ok_keeps e b b' : persist_prefs e b = (b', Ok tt) ->
  b_device b' = b_device b /\ b_generation b' = b_generation b /\ b_prefs b' = b_prefs b.
Proof.
  rewrite persist_run. destruct (negb _); [done|]. by destruct (_ && _); [|intros [= <-]].
Qed.

Lemma rename_keeps e named b :
  let b' := fst ((match named with
                  | Some name => held (rename_current_profile e (default "" name))
                  | None => mret None
                  end : M (option BackendError)) b) in
  b_device b' = b_device b /\ b_generation b' = b_generation b /\ b_prefs b' = b_prefs b.
Proof.
  cbv zeta. destruct named as [name|]; [|done]. unfold held, rename_current_profile. rewrite bind_get.
  cbv zeta. destruct (_ && _ && _); [done|]. unfold save_profiles_file, check, mbind, M_bind, modify.
  by destruct (e_write_profiles e _).
Qed.

Lemma rename_total e named b : exists b' x,
  (match named with
   | Some name => held (rename_current_profile e (default "" name))
   | None => mret None
   end : M (option BackendError)) b = (b', Ok x).
Proof.
  destruct named as [name|]; [|by exists b, None]. unfold held.
  destruct (rename_current_profile e (default "" name) b) as [b' []]; eauto.
Qed.

Lemma vet_set_opts e p opts opts' edit : vet_set e p opts = Ok (opts', edit) ->
  exists tags, vet_tags (set_advertise_tags opts) = Ok tags /\
    opts' = opts <| set_advertise_tags := tags |> /\ vet_exit_node e (set_exit_node opts) = Ok edit.
Proof.
  unfold vet_set. intros Ev. apply bind_ok in Ev as (u & _ & Ev).
  apply bind_ok in Ev as (tags & ? & Ev). apply bind_ok in Ev as (ed & ? & Ev).
  apply bind_ok in Ev as (v & _ & Ev). apply bind_ok in Ev as (w & _ & Ev).
  injection Ev as <- <-. eauto.
Qed.

Lemma completed_tags_rebuild opts tags : vet_tags (set_advertise_tags opts) = Ok tags ->
  needs_rebuild (opts <| set_advertise_tags := tags |>) = needs_rebuild opts.
Proof.
  unfold vet_tags. intros H.
  assert (Hs : is_some tags = is_some (set_advertise_tags opts)).
  { destruct (set_advertise_tags opts) as [l|]; [|by injection H as <-]. unfold map_err in H.
    destruct (complete_and_validate_advertise_tags l); [by injection H as <-|done]. }
  unfold needs_rebuild. change (set_advertise_tags (opts <| set_advertise_tags := tags |>)) with tags.
  by rewrite Hs.
Qed.

(** What a [set] owes the engine once its prefs are stored. *)
Definition reconciled_engine (e : Env) (opts : SetOptions) (b b' : Backend) (action : SetAction) : Prop :=
  match action with
  | PersistedOnly => b_device b = None /\ b_device b' = None
  | Rebuild => is_some (b_device b) = true /\ needs_rebuild opts = true /\ b_device b' = b_device b
  | Live _ =>
      needs_rebuild opts = false /\
      exists dev routes, b_device b = Some dev /\
        (is_some (set_advertise_routes opts) = true ->
         parse_routes (parse_net (e_host e)) (advertise_routes (b_prefs b')) = Ok routes) /\
        b_device b' = Some (mkDevice (dev_handle dev)
                        (live_config opts (b_prefs b') routes (dev_config dev)))
  end.

Lemma reconcile_set_spec e opts routes b b' r :
  (is_some (set_advertise_routes opts) = true ->
   parse_routes (parse_net (e_host e)) (advertise_routes (b_prefs b)) = Ok routes) ->
  reconcile_set e opts b = (b', r) ->
  r <> Err Panicked /\ b_generation b' = b_generation b /\ b_prefs b' = b_prefs b /\
  forall action, r = Ok action -> reconciled_engine e opts b b' action.
Proof.
  intros Hr. unfold reconcile_set. rewrite bind_get. destruct (b_device b) as [dev|] eqn:Ed.
  2: { intros [= <- <-]. split_and!; try done. by intros ? [= <-]. }
  destruct (needs_rebuild opts) eqn:En.
  { intros [= <- <-]. split_and!; try done. intros ? [= <-]. cbn. by rewrite Ed. }
  unfold mbind, M_bind. rewrite (live_set_run e opts routes b Hr).
  destruct (issue_all e (named_ops opts (b_prefs b) routes) b) as [b1 r1] eqn:Ei.
  assert (Hg : b_generation b1 = b_generation b).
  { pose proof (unseen_live_set e opts b) as Hu. rewrite (live_set_run e opts routes b Hr), Ei in Hu.
    exact (f_equal c_generation Hu). }
  apply issue_all_spec in Ei as [Hp Hr1]. destruct r1 as [l|err].
  - destruct Hr1 as [-> ->]. intros [= <- <-]. split_and!; try done.
    intros ? [= <-]. split; [done|]. exists dev, routes. split_and!; [done|done|].
    unfold amended. record_simpl. rewrite Ed. cbn. by rewrite named_ops_config.
  - destruct Hr1 as [op ->]. intros [= <- <-]. split_and!; done.
Qed.

Lemma commit_set_spec e opts routes b b' r :
  (is_some (set_advertise_routes opts) = true ->
   parse_routes (parse_net (e_host e)) (advertise_routes (b_prefs b)) = Ok routes) ->
  commit_set e opts b = (b', r) ->
  r <> Err Panicked /\ b_generation b' = b_generation b /\ b_prefs b' = b_prefs b /\
  forall out, r = Ok out -> reconciled_engine e opts b b' (so_action out).
Proof.
  intros Hr. unfold commit_set. destruct (rename_total e (set_nickname opts) b) as (b1 & ren & Hren).
  rewrite (bind_run _ _ _ _ _ Hren). pose proof (rename_keeps e (set_nickname opts) b) as (Hd & Hg & Hp).
  rewrite Hren in Hd, Hg, Hp. cbn [fst] in Hd, Hg, Hp. unfold mbind, M_bind.
  destruct (reconcile_set e opts b1) as [b2 r2] eqn:Er. rewrite <- Hp in Hr.
  apply (reconcile_set_spec e opts routes _ _ _ Hr) in Er as (Hnp & Hg2 & Hp2 & He).
  destruct r2 as [action|err]; intros [= <- <-].
  - split_and!; [done|congruence|congruence|]. intros ? [= <-]. cbn [so_action].
    specialize (He action eq_refl). unfold reconciled_engine in *. by rewrite Hd in He.
  - split_and!; [congruence|congruence|congruence|done].
Qed.

(** A [set] whose prefs were stored, up to the engine's part. *)
Lemma begin_set_shape e opts b b' r : begin_set e opts b = (b', r) ->
  (exists err, r = Err err /\ err <> Panicked) \/
  exists tags edit b1 routes,
    vet_tags (set_advertise_tags opts) = Ok tags /\ vet_exit_node e (set_exit_node opts) = Ok edit /\
    b_prefs b1 = policy_prefs (e_policy e)
      (mkPolicyOverrides (b_override_always_on b) (override_after edit (b_override_exit_node_policy b)))
      (apply_set_overrides (opts <| set_advertise_tags := tags |>) (b_prefs b)) /\
    b_device b1 = b_device b /\ b_generation b1 = b_generation b /\ stored b1 /\
    (is_some (set_advertise_routes opts) = true ->
     parse_routes (parse_net (e_host e)) (advertise_routes (b_prefs b1)) = Ok routes) /\
    commit_set e (opts <| set_advertise_tags := tags |>) b1 = (b', r).
Proof.
  intros H. rewrite begin_set_run in H. destruct (vet_set e (b_prefs b) opts) as [[opts' edit]|err] eqn:Ev.
  2: { injection H as <- <-. left. exists err. split; [done|]. intros ->. by apply vet_set_refusal in Ev. }
  destruct (vet_set_opts _ _ _ _ _ Ev) as (tags & Ht & -> & He).
  destruct (persist_prefs e _) as [b1 [[]|err]] eqn:Ep.
  2: { injection H as <- <-. left. exists err. split; [done|]. intros ->.
       rewrite persist_run in Ep. destruct (negb _); [done|]. by destruct (_ && _). }
  right. destruct (persist_ok_keeps _ _ _ Ep) as (Hd & Hg & Hp).
  destruct (set_intent_keeps e (opts <| set_advertise_tags := tags |>) edit b) as (Hd0 & Hg0 & Hp0).
  rewrite Hp0 in Hp. rewrite Hd0 in Hd. rewrite Hg0 in Hg.
  destruct (is_some (set_advertise_routes opts)) eqn:En.
  - destruct (vetted_routes_parse _ _ _ _ _ Ev En) as [routes Hpr].
    exists tags, edit, b1, routes. split_and!; try done; [by eapply persist_stored|].
    intros _. rewrite Hp. by apply Hpr.
  - exists tags, edit, b1, []. split_and!; try done. by eapply persist_stored.
Qed.

Lemma begin_set_ok e opts b b' out : begin_set e opts b = (b', Ok out) ->
  stored b' /\ b_generation b' = b_generation b /\
  (exists tags edit,
    vet_tags (set_advertise_tags opts) = Ok tags /\ vet_exit_node e (set_exit_node opts) = Ok edit /\
    b_prefs b' = policy_prefs (e_policy e)
      (mkPolicyOverrides (b_override_always_on b) (override_after edit (b_override_exit_node_policy b)))
      (apply_set_overrides (opts <| set_advertise_tags := tags |>) (b_prefs b))) /\
  reconciled_engine e opts b b' (so_action out).
Proof.
  intros H. apply begin_set_shape in H as
    [(err & [=] & _)|(tags & edit & b1 & routes & Ht & He & Hp & Hd & Hg & Hst & Hr & H)].
  pose proof (intent_kept_stored _ b1 (intent_kept_commit_set e (opts <| set_advertise_tags := tags |>)) Hst)
    as Hst'. rewrite H in Hst'.
  set (opts' := opts <| set_advertise_tags := tags |>) in *.
  destruct (commit_set_spec e opts' routes _ _ _ Hr H) as (_ & Hg' & Hp' & Hre).
  specialize (Hre out eq_refl). split_and!; [exact Hst'|congruence| |].
  - exists tags, edit. split_and!; [done|done|]. by rewrite Hp', Hp.
  - unfold reconciled_engine in *. unfold opts' in Hre.
    rewrite (completed_tags_rebuild _ _ Ht), Hd in Hre. exact Hre.
Qed.

(** C10: what a [set] does to the prefs and to the running engine.  It never
    panics on the routes it stored.  When it succeeds, the new prefs are the
    named ones merged over the old under the policy and are on disk, and no
    lifecycle generation passes, so it supersedes no bring-up; with no engine
    it only persists, a rebuild-only pref on a running engine asks for a
    rebuild and leaves it alone, and otherwise the running engine keeps its
    handle and its six live settings take the new prefs' values exactly where
    they were named, with every other setting as it was. *)
Theorem set_contract (e : Env) (opts : SetOptions) (b b' : Backend) (r : result BackendError SetOutcome) :
  begin_set e opts b = (b', r) ->
  r <> Err Panicked /\
  forall out, r = Ok out ->
    stored b' /\ b_generation b' = b_generation b /\
    (exists tags edit,
      vet_tags (set_advertise_tags opts) = Ok tags /\ vet_exit_node e (set_exit_node opts) = Ok edit /\
      b_prefs b' = policy_prefs (e_policy e)
        (mkPolicyOverrides (b_override_always_on b) (override_after edit (b_override_exit_node_policy b)))
        (apply_set_overrides (opts <| set_advertise_tags := tags |>) (b_prefs b))) /\
    reconciled_engine e opts b b' (so_action out).
Proof.
  intros H. split; [|intros out ->; by apply begin_set_ok].
  apply begin_set_shape in H as
    [(err & -> & Hne)|(tags & edit & b1 & routes & _ & _ & _ & _ & _ & _ & Hr & H)]; [congruence|].
  set (opts' := opts <| set_advertise_tags := tags |>) in *.
  exact (proj1 (commit_set_spec e opts' routes _ _ _ Hr H)).
Qed.

Definition live_opts : SetOptions :=
  SetOptions_default <| set_accept_routes := Some true |> <| set_advertise_routes := Some ["192.0.2.0/24"] |>.

Lemma set_contract_witness :
  exists b' r, begin_set env_example live_opts (w_backend up_world) = (b', r) /\
    r <> Err Panicked /\
    exists dev, b_device b' = Some dev /\ cfg_accept_routes (dev_config dev) = true /\
      length (cfg_advertise_routes (dev_config dev)) = 1%nat.
Proof.
  destruct (begin_set env_example live_opts (w_backend up_world)) as [b' r] eqn:E. exists b', r.
  split; [reflexivity|].
  destruct (set_contract env_example live_opts (w_backend up_world) b' r E) as [Hnp _].
  split; [exact Hnp|]. vm_compute in E. injection E as <- _.
  eexists. split; [reflexivity|]. split; vm_compute; reflexivity.
Defined.

(** ** Disconnecting beats bringing up *)

(** No engine, and no bring-up in flight that could install one. *)
Definition idle (w : World) : Prop :=
  b_device (w_backend w) = None /\
  Forall (fun p => pending_generation p < b_generation (w_backend w)) (w_ups w).

Lemma settle_stale_core e pending built b : pending_generation pending <> b_generation b ->
  core (fst (settle_up e pending built b)) = core b.
Proof.
  intros Hg. unfold settle_up. pose proof (finish_up_run e pending built b) as Hf.
  rewrite bool_decide_true in Hf by done. rewrite (bind_run _ _ _ _ _ Hf).
  destruct built as [dev|]; [done|]. unfold mbind, M_bind.
  pose proof (unseen_held _ (core_persist e) b) as Hp.
  by destruct (held (persist_prefs e) b) as [b1 []].
Qed.

Definition is_finish (ev : Event) : bool := match ev with EvFinish _ _ _ => true | _ => false end.

Lemma idle_finish ev w w' : is_finish ev = true -> exec ev w = Some w' -> idle w -> idle w'.
Proof.
  destruct ev as [| e i built|]; try done. intros _ H [Hd Hu]. cbn [exec] in H.
  destruct (w_ups w !! i) as [p|] eqn:Ei; cbn in H; [|done]. injection H as <-.
  pose proof (proj1 (Forall_lookup _ _) Hu i p Ei) as Hp. cbn in Hp.
  set (engine := (fun h => mkDevice h (pending_config p)) <$> built).
  assert (Hc : core (fst (settle_up e p engine (w_backend w))) = core (w_backend w))
    by (apply settle_stale_core; lia).
  split; cbn [w_backend w_ups].
  - pose proof (f_equal c_engine Hc) as He. unfold core in He. core_simpl. rewrite Hd in He.
    by apply fmap_None in He.
  - pose proof (f_equal c_generation Hc) as Hg. unfold core in Hg. core_simpl. rewrite Hg.
    by apply Forall_delete.
Qed.

Lemma disconnected_core e b b' r f d : persist_prefs e (downed e f d) = (b', r) ->
  c_engine (core d) = None -> c_generation (core d) = b_generation b + 1 ->
  b_device b' = None /\ b_generation b' = b_generation b + 1 /\ b_prefs b' = f (b_prefs d).
Proof.
  intros H He Hg. apply persist_outcomes in H as (_ & Hc & _).
  destruct (downed_core e f d) as (Dp & De & Dg & _). rewrite <- Hc in Dp, De, Dg.
  rewrite He in De. rewrite Hg in Dg. apply fmap_None in De. done.
Qed.

(** C6: a disconnect beats every bring-up it overlaps: after a [down] or a
    [logout] that was not refused, even one that then failed on the disk, the
    node has no engine, and whatever handshakes were in flight may complete
    in any order, successfully or not, without giving it one; when the
    command succeeded the intent is to stay down. *)
Theorem disconnect_wins (e : Env) (c : Command) (actor : Actor) (w : World) (b' : Backend)
    (err : option BackendError) (begun : option PendingUp) (evs : list Event) (w' : World) :
  reachable lawful w -> c = CDown actor \/ c = CLogout actor ->
  run_command e c (w_backend w) = (b', err, begun) ->
  (forall x, err = Some x -> is_refusal x = false) ->
  Forall (fun ev => is_finish ev = true) evs ->
  exec_all evs (mkWorld b' (w_ups w)) = Some w' ->
  b_device b' = None /\ b_device (w_backend w') = None /\
  (err = None -> want_running (b_prefs b') = false).
Proof.
  intros Hr Hc H Herr Hevs Hx.
  assert (Hb : b_device b' = None /\ b_generation b' = b_generation (w_backend w) + 1 /\
               (err = None -> want_running (b_prefs b') = false)).
  { destruct Hc as [-> | ->]; cbn [run_command] in H; unfold plain in H.
    - destruct (down e actor (w_backend w)) as [b1 r] eqn:E. rewrite down_run in E.
      destruct (vet_disconnect e (w_backend w) actor) as [[]|x] eqn:Ev.
      + apply (disconnected_core e (w_backend w)) in E as (Hd & Hg & Hp); [|done|done].
        injection H as <- _ _. split_and!; [done|done|]. intros _. by rewrite Hp.
      + injection E as <- <-. injection H as _ <- _. specialize (Herr x eq_refl).
        by rewrite (vet_disconnect_refusal _ _ _ _ Ev) in Herr.
    - destruct (logout e actor (w_backend w)) as [b1 r] eqn:E. rewrite logout_run in E.
      destruct (vet_disconnect e (w_backend w) actor) as [[]|x] eqn:Ev.
      + cbv zeta in E. destruct (wipe_fails _ _).
        * injection E as <- <-. injection H as <- <- _. done.
        * apply (disconnected_core e (w_backend w)) in E as (Hd & Hg & Hp);
            [|by rewrite core_discarded|by rewrite core_discarded].
          injection H as <- _ _. split_and!; [done|done|]. intros _. by rewrite Hp.
      + injection E as <- <-. injection H as _ <- _. specialize (Herr x eq_refl).
        by rewrite (vet_disconnect_refusal _ _ _ _ Ev) in Herr. }
  destruct Hb as (Hd & Hg & Hw). split_and!; [done| |done].
  assert (Hi : idle (mkWorld b' (w_ups w))).
  { split; [done|]. cbn [w_backend w_ups]. rewrite Hg.
    pose proof (sd_ups _ _ (reachable_sound w Hr)) as Hu. apply in_flight_Forall in Hu.
    eapply Forall_impl; [exact Hu|]. intros p Hp.
    change (pending_generation p <= b_generation (w_backend w)) in Hp. lia. }
  clear -Hevs Hx Hi. generalize dependent (mkWorld b' (w_ups w)). intros w0 Hx Hi.
  revert w0 Hx Hi. induction evs as [|ev evs IH]; intros w0; cbn [exec_all].
  - intros [= <-] [Hd _]. exact Hd.
  - apply Forall_cons_iff in Hevs as [Hev Hevs]. destruct (exec ev w0) as [w1|] eqn:E; cbn; [|done].
    intros Hx Hi. apply (IH Hevs w1 Hx). by eapply idle_finish.
Qed.

Lemma disconnect_wins_witness :
  exists b' err begun w',
    run_command env_example (CDown (Operator None)) (w_backend race_world) = (b', err, begun) /\
    exec_all [EvFinish env_example 0 (Some 300)] (mkWorld b' (w_ups race_world)) = Some w' /\
    b_device (w_backend w') = None.
Proof.
  destruct (run_command env_example (CDown (Operator None)) (w_backend race_world))
    as [[b' err] begun] eqn:E.
  destruct (exec_all [EvFinish env_example 0 (Some 300)] (mkWorld b' (w_ups race_world))) as [w'|] eqn:Ex;
    [|vm_compute in E; injection E as <- _ _; vm_compute in Ex; discriminate Ex].
  exists b', err, begun, w'. split; [reflexivity|]. split; [exact Ex|].
  apply (disconnect_wins env_example (CDown (Operator None)) (Operator None) race_world b' err begun
           [EvFinish env_example 0 (Some 300)] w' race_world_reachable);
    [by left|exact E| |by repeat constructor|exact Ex].
  vm_compute in E. injection E as _ <- _. discriminate.
Defined.

(** ** A live [set] keeps the engine in step *)

(** The six settings a running engine takes live agree with the prefs. *)
Definition in_step (h : Host) (p : Prefs) (c : Config) : Prop :=
  cfg_exit_node c = exit_node p /\
  default "" (requested_hostname c) = default "" (hostname p) /\
  cfg_accept_routes c = accept_routes p /\
  cfg_accept_dns c = accept_dns p /\
  parse_routes (parse_net h) (advertise_routes p) = Ok (cfg_advertise_routes c) /\
  cfg_advertise_exit_node c = advertise_exit_node p.

(** An edit that names no exit node leaves the standing override alone. *)
Lemma unnamed_exit_edit e edit standing : vet_exit_node e None = Ok edit ->
  override_after edit standing = standing.
Proof.
  unfold vet_exit_node. destruct (check_exit_node_edit _ _) as [ed|] eqn:E; [|done].
  cbn. intros [= <-]. revert E. unfold check_exit_node_edit.
  destruct (exit_node_policy_in (e_policy e)) as [m x]. cbn. by intros [= <-].
Qed.

Lemma in_force_field {A} (f : Prefs -> A) s ov p : policy_prefs s ov p = p ->
  f (policy_prefs s ov p) = f p.
Proof. by intros ->. Qed.

(** Under a policy already in force, a [set] moves no live setting it did not
    name. *)
Lemma set_moves_only_named s ov ov' opts p :
  policy_prefs s ov p = p -> (set_exit_node opts = None -> ov_exit_node ov' = ov_exit_node ov) ->
  let q := policy_prefs s ov' (apply_set_overrides opts p) in
  (set_exit_node opts = None -> exit_node q = exit_node p) /\
  (set_hostname opts = None -> hostname q = hostname p) /\
  (set_accept_routes opts = None -> accept_routes q = accept_routes p) /\
  (set_accept_dns opts = None -> accept_dns q = accept_dns p) /\
  (set_advertise_routes opts = None -> advertise_routes q = advertise_routes p) /\
  (set_advertise_exit_node opts = None -> advertise_exit_node q = advertise_exit_node p).
Proof.
  intros Hf Hov. cbv zeta. split_and!; intros Hn.
  - rewrite <- (in_force_field exit_node _ _ _ Hf), !policy_exit_node, (Hov Hn).
    cbn. by rewrite Hn.
  - rewrite <- (in_force_field hostname _ _ _ Hf), !policy_hostname. cbn. by rewrite Hn.
  - rewrite <- (in_force_field accept_routes _ _ _ Hf), !policy_accept_routes. cbn. by rewrite Hn.
  - rewrite <- (in_force_field accept_dns _ _ _ Hf), !policy_accept_dns. cbn. by rewrite Hn.
  - cbn. by rewrite Hn.
  - rewrite <- (in_force_field advertise_exit_node _ _ _ Hf), !policy_advertise_exit_node. cbn. by rewrite Hn.
Qed.

Lemma live_config_in_step h opts p q routes c :
  in_step h p c ->
  (set_exit_node opts = None -> exit_node q = exit_node p) ->
  (set_hostname opts = None -> hostname q = hostname p) ->
  (set_accept_routes opts = None -> accept_routes q = accept_routes p) ->
  (set_accept_dns opts = None -> accept_dns q = accept_dns p) ->
  (set_advertise_routes opts = None -> advertise_routes q = advertise_routes p) ->
  (set_advertise_exit_node opts = None -> advertise_exit_node q = advertise_exit_node p) ->
  (is_some (set_advertise_routes opts) = true ->
   parse_routes (parse_net h) (advertise_routes q) = Ok routes) ->
  in_step h q (live_config opts q routes c).
Proof.
  intros (S1 & S2 & S3 & S4 & S5 & S6) H1 H2 H3 H4 H5 H6 Hr. unfold in_step, live_config. cbn.
  split_and!.
  - destruct (set_exit_node opts); cbn; [done|]. by rewrite H1.
  - destruct (set_hostname opts); cbn; [done|]. by rewrite H2.
  - destruct (set_accept_routes opts); cbn; [done|]. by rewrite H3.
  - destruct (set_accept_dns opts); cbn; [done|]. by rewrite H4.
  - destruct (set_advertise_routes opts); cbn; [by apply Hr|]. by rewrite H5.
  - destruct (set_advertise_exit_node opts); cbn; [done|]. by rewrite H6.
Qed.

(** C11: a live [set] cannot leave the engine behind.  With one policy in force
    and no declarative config, if the six live settings of the running engine
    agree with the prefs before a [set] that takes the live path, they agree
    with the new prefs after it, although only the named ones were pushed: the
    reconcile it runs can move no pref the request did not name. *)
Theorem live_set_keeps_engine_in_step (s : list PolicySetting) (w : World) (e : Env)
    (opts : SetOptions) (b' : Backend) (out : SetOutcome) (ops : list LiveSetOp) (dev : Device) :
  reachable (governed s) w -> e_policy e = s ->
  begin_set e opts (w_backend w) = (b', Ok out) -> so_action out = Live ops ->
  b_device (w_backend w) = Some dev ->
  in_step (e_host e) (b_prefs (w_backend w)) (dev_config dev) ->
  exists dev', b_device b' = Some dev' /\ dev_handle dev' = dev_handle dev /\
    in_step (e_host e) (b_prefs b') (dev_config dev').
Proof.
  intros Hr <- H Hl Hd Hin. pose proof (reachable_governed _ w Hr) as [_ Hf _ _].
  assert (Hlive : live (in_flight w) (core (w_backend w))) by (left; unfold core; by rewrite Hd).
  specialize (Hf Hlive). apply begin_set_ok in H as (_ & _ & (tags & edit & _ & He & Hp) & Hre).
  rewrite Hl in Hre. destruct Hre as (_ & dev0 & routes & Hd0 & Hroutes & Hd').
  rewrite Hd in Hd0. injection Hd0 as <-. eexists. split; [exact Hd'|]. split; [done|].
  cbn [dev_config]. set (b := w_backend w) in *.
  change (policy_prefs (e_policy e) (overrides_of b) (b_prefs b) = b_prefs b) in Hf.
  pose proof (set_moves_only_named (e_policy e) (overrides_of b)
    (mkPolicyOverrides (b_override_always_on b) (override_after edit (b_override_exit_node_policy b)))
    (opts <| set_advertise_tags := tags |>) (b_prefs b) Hf) as Hm.
  cbv zeta in Hm. rewrite <- Hp in Hm.
  destruct Hm as (M1 & M2 & M3 & M4 & M5 & M6).
  { intros Hn. change (set_exit_node opts = None) in Hn. rewrite Hn in He. cbn.
    by apply (unnamed_exit_edit _ _ _ He). }
  by apply (live_config_in_step _ opts (b_prefs b)).
Qed.

Lemma live_set_keeps_engine_in_step_witness :
  exists b' out dev', begin_set env_example live_opts (w_backend up_world) = (b', Ok out) /\
    b_device b' = Some dev' /\ in_step host_example (b_prefs b') (dev_config dev').
Proof.
  destruct (begin_set env_example live_opts (w_backend up_world)) as [b' [out|err]] eqn:E;
    [|vm_compute in E; discriminate E].
  destruct (so_action out) as [|ops|] eqn:Ea;
    [vm_compute in E; injection E as _ <-; discriminate Ea| |vm_compute in E; injection E as _ <-; discriminate Ea].
  destruct (b_device (w_backend up_world)) as [dev|] eqn:Ed; [|vm_compute in Ed; discriminate Ed].
  assert (Hin : in_step host_example (b_prefs (w_backend up_world)) (dev_config dev))
    by (vm_compute in Ed; injection Ed as <-; repeat split).
  destruct (live_set_keeps_engine_in_step [] up_world env_example live_opts b' out ops dev
              up_world_governed eq_refl E Ea Ed Hin) as (dev' & Hd & _ & Hs).
  exists b', out, dev'. split_and!; [reflexivity|exact Hd|exact Hs].
Defined.
