(* ===== verification/CheckPrefs.v ===== *)
(** * The dry run: [Backend::check_prefs]

    Everything that is wrong with the posture an edit would leave, in one
    answer, and how it compares with what [set] itself refuses. *)
From Stdlib Require Import ZArith Lia Ascii String List.
From stdpp Require Import base gmap list strings option.
From coqutil Require Datatypes.RecordSettersUsingExistingGetters.
Import coqutil.Datatypes.RecordSettersUsingExistingGetters.RecordSetNotations1.
From S2P Require Import Prelude NetAddr Prefs SysPolicy Routes Gates ExitNodeArg EngineConfig Edits Backend BackendFacts World Contracts.
Import AlwaysOn ExitNodeGate ControlUrl LifecycleState AutoUpdate.

Inductive PostureError : Type :=
| ExitSelector (e : ExitArgError)
| ExitUnresolved (e : ExitArgError)
| ExitConflict
| SshNotCompiled
| SshGateRefused
| AutoUpdateError (r : AutoUpdateRefusal)
| RouteSetError (e : RouteError).

(** The edit a dry run is asked about. *)
Record Posture : Type := mkPosture {
  cp_exit_node : option (option string);
  cp_advertise_exit_node : option bool;
  cp_advertise_routes : option (list string);
  cp_ssh : option bool;
  cp_auto_update : option bool
}.

(** [exit_node_facts] costs an engine query only for a named selector. *)
Definition posture_facts (e : Env) (q : Posture) : ExitNodeFacts :=
  match cp_exit_node q with Some (Some _) => e_facts e | _ => ExitNodeFacts_default end.

Definition exit_errors (facts : ExitNodeFacts) (p : Prefs) (q : Posture) : list PostureError :=
  match validate_exit_node_selector (default (exit_node p) (cp_exit_node q)) with
  | Err e => [ExitSelector e]
  | Ok _ =>
      match cp_exit_node q with
      | Some (Some sel) =>
          match resolve_exit_node_arg sel facts with Err e => [ExitUnresolved e] | Ok _ => [] end
      | _ => []
      end
  end.

Definition conflict_errors (p : Prefs) (q : Posture) : list PostureError :=
  match default (exit_node p) (cp_exit_node q) with
  | Some _ => if default (advertise_exit_node p) (cp_advertise_exit_node q) then [ExitConflict] else []
  | None => []
  end.

Definition ssh_errors (h : Host) (p : Prefs) (q : Posture) : list PostureError :=
  if prospective_ssh (cp_ssh q) p false
  then (if feature_ssh h then [] else [SshNotCompiled]) ++ (if can_run_ssh h then [] else [SshGateRefused])
  else [].

Definition auto_update_errors (gate : option AutoUpdateRefusal) (p : Prefs) (q : Posture) : list PostureError :=
  match check_auto_update_pref (prospective_auto_update (cp_auto_update q) p) gate with
  | Some r => [AutoUpdateError r]
  | None => []
  end.

Definition route_errors_of (e : Env) (p : Prefs) (q : Posture) : list PostureError :=
  match calc_advertise_routes (parse_net (e_host e)) (e_trunc e)
          (default (advertise_routes p) (cp_advertise_routes q))
          (default (advertise_exit_node p) (cp_advertise_exit_node q)) with
  | Ok _ => []
  | Err errs => map RouteSetError errs
  end.

(** [check_prefs_gated]: the empty list is the accepting answer. *)
Definition check_prefs_gated (e : Env) (facts : ExitNodeFacts) (p : Prefs) (q : Posture) : list PostureError :=
  exit_errors facts p q ++ conflict_errors p q ++ ssh_errors (e_host e) p q
  ++ auto_update_errors (e_auto_update_gate e) p q ++ route_errors_of e p q.

Definition check_prefs (e : Env) (b : Backend) (q : Posture) : list PostureError :=
  check_prefs_gated e (posture_facts e q) (b_prefs b) q.

(** ** Against [set] *)

(** The dry-run question a [set] asks itself. *)
Definition posture_of (opts : SetOptions) : Posture :=
  mkPosture (set_exit_node opts) (set_advertise_exit_node opts) (set_advertise_routes opts) (set_ssh opts)
    (set_auto_update opts).

Lemma calc_refusal_nonempty parse_net trunc routes exit es :
  calc_advertise_routes parse_net trunc routes exit = Err es -> es <> [].
Proof. rewrite calc_advertise_routes_spec. destruct (route_errors _ _ _ _); [done|]. by intros [= <-]. Qed.

Section Compare.
Context (e : Env) (p : Prefs) (opts : SetOptions).

Lemma vet_routes_errors :
  match vet_routes e p (set_advertise_routes opts) (set_advertise_exit_node opts) false with
  | Ok _ => route_errors_of e p (posture_of opts) = []
  | Err err => exists es, err = RoutesRefused es /\ es <> [] /\
      route_errors_of e p (posture_of opts) = map RouteSetError es
  end.
Proof.
  unfold vet_routes, route_errors_of, prospective_route_set, posture_of, validate_advertise_routes, map_err.
  cbn [cp_advertise_routes cp_advertise_exit_node].
  destruct (calc_advertise_routes _ _ _ _) as [nets|es] eqn:E; cbn; [done|].
  exists es. split_and!; [done|by eapply calc_refusal_nonempty|done].
Qed.

Lemma vet_exit_errors :
  match vet_exit_node e (set_exit_node opts) with
  | Ok _ => forall c, c ∈ exit_errors (posture_facts e (posture_of opts)) p (posture_of opts) ->
      set_exit_node opts = None /\ exists a, c = ExitSelector a
  | Err err => err = ExitNodeManagedByPolicy \/ exists a, err = ExitArgRefused a /\
      (ExitSelector a ∈ exit_errors (posture_facts e (posture_of opts)) p (posture_of opts) \/
       ExitUnresolved a ∈ exit_errors (posture_facts e (posture_of opts)) p (posture_of opts))
  end.
Proof.
  unfold vet_exit_node, exit_errors, posture_facts, posture_of, map_err. cbn [cp_exit_node].
  destruct (check_exit_node_edit _ _) as [edit|]; cbn [mbind result_bind]; [|by left].
  destruct (set_exit_node opts) as [[sel|]|]; cbn [from_option id].
  - unfold check_exit_node_arg. destruct (validate_exit_node_selector (Some sel)) as [[]|a]; cbn [mbind result_bind].
    + destruct (resolve_exit_node_arg sel (e_facts e)) as [[]|a]; cbn [mbind result_bind]; [by intros c ?%not_elem_of_nil|].
      right. exists a. split; [done|]. right. by left.
    + right. exists a. split; [done|]. left. by left.
  - cbn. by intros c ?%not_elem_of_nil.
  - cbn. destruct (validate_exit_node_selector (exit_node p)) as [[]|a]; [by intros c ?%not_elem_of_nil|].
    intros c ->%list_elem_of_singleton. split; [done|by exists a].
Qed.

Lemma vet_ssh_errors :
  match vet_ssh e p (set_ssh opts) false with
  | Ok _ => forall c, c ∈ ssh_errors (e_host e) p (posture_of opts) -> c = SshNotCompiled
  | Err err => err = SshRefused /\ SshGateRefused ∈ ssh_errors (e_host e) p (posture_of opts)
  end.
Proof.
  unfold vet_ssh, ssh_errors, posture_of, guard_err. cbn [cp_ssh].
  destruct (prospective_ssh _ _ _), (can_run_ssh (e_host e)), (feature_ssh (e_host e)); cbn;
    try (split; [done|apply elem_of_cons; (by left) || (right; by left)]);
    try (by intros c ?%not_elem_of_nil); by intros c ->%list_elem_of_singleton.
Qed.

Lemma vet_auto_update_errors :
  match check_auto_update_pref (prospective_auto_update (set_auto_update opts) p) (e_auto_update_gate e) with
  | Some r => auto_update_errors (e_auto_update_gate e) p (posture_of opts) = [AutoUpdateError r]
  | None => auto_update_errors (e_auto_update_gate e) p (posture_of opts) = []
  end.
Proof. unfold auto_update_errors, posture_of. cbn [cp_auto_update]. by destruct (check_auto_update_pref _ _). Qed.
End Compare.

(** ** Properties *)

(** C29: The dry run predicts [set].  When it finds nothing wrong with an edit,
    the only ways the same [set] can still be refused are the two it was not
    asked about: a tag and the exit-node policy.  When [set] goes through, all
    the dry run can have reported is what [set] does not judge at all: an exit
    node used and advertised at once, SSH in a build without it, or a
    selector already persisted that this edit does not touch. *)
Theorem dry_run_predicts_set (e : Env) (b b' : Backend) (opts : SetOptions) (r : result BackendError SetOutcome) :
  begin_set e opts b = (b', r) ->
  let errors := check_prefs e b (posture_of opts) in
  (errors = [] -> forall err, r = Err err -> is_refusal err = true ->
     err = ExitNodeManagedByPolicy \/ exists t, err = TagRefused t) /\
  (forall out, r = Ok out -> forall c, c ∈ errors ->
     c = ExitConflict \/ c = SshNotCompiled \/ (set_exit_node opts = None /\ exists a, c = ExitSelector a)).
Proof.
  intros H errors. subst errors. unfold check_prefs, check_prefs_gated. set (p := b_prefs b).
  pose proof (vet_routes_errors e p opts) as Hroutes. pose proof (vet_exit_errors e p opts) as Hexit.
  pose proof (vet_ssh_errors e p opts) as Hssh. pose proof (vet_auto_update_errors e p opts) as Hauto.
  split.
  - intros Hnil err -> Hr. apply begin_set_refused in H as [_ H]; [|done]. fold p in H.
    apply app_eq_nil in Hnil as [He Hnil]. apply app_eq_nil in Hnil as [_ Hnil].
    apply app_eq_nil in Hnil as [Hs Hnil]. apply app_eq_nil in Hnil as [Ha Hr'].
    rewrite He in Hexit. rewrite Hs in Hssh. rewrite Ha in Hauto. rewrite Hr' in Hroutes.
    unfold vet_set in H. destruct (vet_routes _ _ _ _ _) as [[]|err1]; cbn in H.
    2: { destruct Hroutes as ([|? ?] & _ & ? & ?); done. }
    destruct (vet_tags (set_advertise_tags opts)) as [tags|err1] eqn:Et; cbn in H.
    2: { injection H as <-. right. unfold vet_tags, map_err in Et. destruct (set_advertise_tags opts) as [l|]; [|done].
         destruct (complete_and_validate_advertise_tags l); cbn in Et; [done|]. injection Et as <-. by eexists. }
    destruct (vet_exit_node e (set_exit_node opts)) as [edit|err1]; cbn in H.
    2: { injection H as <-. destruct Hexit as [->|(a & _ & [?%not_elem_of_nil|?%not_elem_of_nil])]; [by left|done|done]. }
    destruct (vet_ssh e p (set_ssh opts) false) as [[]|err1]; cbn in H.
    2: { destruct Hssh as [_ ?%not_elem_of_nil]. done. }
    destruct (check_auto_update_pref _ _); [done|done].
  - intros out -> c Hc. rewrite begin_set_run in H. fold p in H.
    unfold vet_set in H. destruct (vet_routes _ _ _ _ _) as [[]|err1]; cbn in H; [|done].
    destruct (vet_tags (set_advertise_tags opts)) as [tags|err1]; cbn in H; [|done].
    destruct (vet_exit_node e (set_exit_node opts)) as [edit|err1]; cbn in H; [|done].
    destruct (vet_ssh e p (set_ssh opts) false) as [[]|err1]; cbn in H; [|done].
    destruct (check_auto_update_pref _ _); cbn in H; [done|]. clear H.
    rewrite Hauto, Hroutes, app_nil_r in Hc. apply elem_of_app in Hc as [Hc|Hc]; [by right; right; apply Hexit|].
    apply elem_of_app in Hc as [Hc|Hc].
    + left. unfold conflict_errors in Hc. destruct (default _ _); [|by apply not_elem_of_nil in Hc].
      destruct (default _ _); [by apply list_elem_of_singleton in Hc|by apply not_elem_of_nil in Hc].
    + right. left. by apply Hssh.
Qed.

Lemma dry_run_predicts_set_witness :
  exists b' r, begin_set env_example bad_routes (w_backend up_world) = (b', r) /\
    check_prefs env_example (w_backend up_world) (posture_of bad_routes) <> [].
Proof.
  destruct (begin_set env_example bad_routes (w_backend up_world)) as [b' r] eqn:E.
  exists b', r. split; [reflexivity|]. intros Hn.
  destruct r as [out|err]; [vm_compute in E; discriminate E|].
  destruct (proj1 (dry_run_predicts_set env_example (w_backend up_world) b' bad_routes (Err err) E) Hn err eq_refl)
    as [->|(t & ->)]; [vm_compute in E; injection E as _ <-; reflexivity| |]; vm_compute in E; discriminate E.
Defined.

(** [set] accepts what the dry run reports as impossible: using an exit node
    and being one. *)
Lemma set_accepts_exit_conflict :
  let b := w_backend up_world in
  let b := b <| b_prefs := (b_prefs b) <| exit_node := Some "100.64.0.9"%string |> |> in
  let opts := SetOptions_default <| set_advertise_exit_node := Some true |> in
  is_ok (snd (begin_set env_example opts b)) = true /\ check_prefs env_example b (posture_of opts) = [ExitConflict].
Proof. vm_compute. by split. Qed.
