(* ===== verification/Interleavings.v ===== *)
(** * Interleavings and failure paths that break a stated expectation

    Each theorem exhibits an execution of the model, or a class of runs, in
    which the daemon ends in a state its own comments rule out.  They bound
    what World.v and Contracts.v claim. *)
From Stdlib Require Import ZArith Lia Ascii String List.
From stdpp Require Import base gmap list strings option relations.
From coqutil Require Datatypes.RecordSettersUsingExistingGetters.
Import coqutil.Datatypes.RecordSettersUsingExistingGetters.RecordSetNotations1.
From S2P Require Import Prelude NetAddr Prefs SysPolicy RevertGuard Routes.
From S2P Require Import Gates ExitNodeArg Profiles EngineConfig Edits Conffile.
From S2P Require Import Backend BackendFacts Lifecycle World Contracts.
Import AlwaysOn ExitNodeGate ControlUrl LifecycleState AutoUpdate.

(** The phases of a rebuild ([rebuild_running_device]) as events: the
    preflight, the bring-up it begins, and its completion. *)
Definition rebuild_events (e : Env) (h : Z) : list Event :=
  [ EvCommand e CPreflight; ev_up e; EvFinish e 0 (Some h) ].

Definition shields_opts : SetOptions := SetOptions_default <| set_shields_up := Some true |>.

(** A [set] that lands while a bring-up's handshake is in flight is lost on
    the engine: it finds no engine, so it only persists, and the engine the
    handshake then installs runs the config built before it.  Here
    [--shields-up] is acknowledged and stored, nothing is left in flight, and
    the engine accepts incoming connections. *)
Theorem set_during_bringup_misses_engine :
  exists w dev,
    reachable lawful w /\
    exec_all [ ev_up env_example; EvCommand env_example (CSet shields_opts);
               EvFinish env_example 0 (Some 9) ] (boot_world env_example) = Some w /\
    w_ups w = [] /\ b_device (w_backend w) = Some dev /\ stored (w_backend w) /\
    shields_up (b_prefs (w_backend w)) = true /\ block_incoming (dev_config dev) = false.
Proof.
  set (evs := [ ev_up env_example; EvCommand env_example (CSet shields_opts);
                EvFinish env_example 0 (Some 9) ]).
  destruct (b_device (w_backend (run_from (boot_world env_example) evs))) as [dev|] eqn:Ed;
    [|vm_compute in Ed; discriminate Ed].
  exists (run_from (boot_world env_example) evs), dev.
  split; [unfold evs; run_lawful|]. split; [vm_compute; reflexivity|]. split; [vm_compute; reflexivity|].
  split; [exact Ed|]. split; [vm_compute; reflexivity|]. split; [vm_compute; reflexivity|].
  vm_compute in Ed. injection Ed as <-. reflexivity.
Qed.

(** A rebuild can bring a node up that its operator has just taken down.
    The [set] decides on the rebuild under one lock and begins the bring-up
    under another; a [down] that lands between them finds the node running,
    succeeds, and is then overwritten by the rebuild's bring-up, which records
    the intent to run. *)
Theorem rebuild_undoes_concurrent_down :
  exists b1 out w1 w2,
    begin_set env_example shields_opts (w_backend up_world) = (b1, Ok out) /\
    so_action out = Rebuild /\
    exec_all [ EvCommand env_example (CSet shields_opts); ev_down env_example ] up_world = Some w1 /\
    want_running (b_prefs (w_backend w1)) = false /\ b_device (w_backend w1) = None /\
    exec_all (rebuild_events env_example 11) w1 = Some w2 /\
    want_running (b_prefs (w_backend w2)) = true /\ b_device (w_backend w2) <> None.
Proof.
  destruct (begin_set env_example shields_opts (w_backend up_world)) as [b1 [out|err]] eqn:Es;
    [|vm_compute in Es; discriminate Es].
  destruct (exec_all [ EvCommand env_example (CSet shields_opts); ev_down env_example ] up_world)
    as [w1|] eqn:E1; [|vm_compute in E1; discriminate E1].
  destruct (exec_all (rebuild_events env_example 11) w1) as [w2|] eqn:E2;
    [|vm_compute in E1; injection E1 as <-; vm_compute in E2; discriminate E2].
  exists b1, out, w1, w2. split; [reflexivity|].
  split; [vm_compute in Es; injection Es as _ <-; reflexivity|]. split; [reflexivity|].
  vm_compute in E1. injection E1 as <-. vm_compute in E2. injection E2 as <-.
  split_and!; try reflexivity. vm_compute. discriminate.
Qed.

(** A policy that pins the exit node and lets the operator override it. *)
Definition pinned_override : list PolicySetting :=
  [ mkPolicySetting "ExitNode.AllowOverride" "" (Some "true") None;
    mkPolicySetting "ExitNodeIP" "" (Some "100.64.0.9") None ].

Definition override_opts : SetOptions :=
  shields_opts <| set_exit_node := Some (Some "100.64.0.1") |>.

(** A rebuild forgets the exit-node choice the policy permitted.  A [set]
    that overrides the administrator's exit node and also names a pref that
    needs a rebuild stores the operator's node; the rebuild's own bring-up
    then clears the override and the reconcile puts the administrator's node
    back, undoing the choice within the command that made it. *)
Theorem rebuild_drops_permitted_exit_node :
  let e := policy_example pinned_override in
  let w0 := run_from (boot_world e) [ ev_up e; EvFinish e 0 (Some 7) ] in
  exists b1 out w1,
    begin_set e override_opts (w_backend w0) = (b1, Ok out) /\ so_action out = Rebuild /\
    exit_node (b_prefs b1) = Some "100.64.0.1" /\ b_override_exit_node_policy b1 = true /\
    exec_all (EvCommand e (CSet override_opts) :: rebuild_events e 11) w0 = Some w1 /\
    exit_node (b_prefs (w_backend w1)) = Some "100.64.0.9" /\
    b_override_exit_node_policy (w_backend w1) = false.
Proof.
  cbv zeta. set (e := policy_example pinned_override).
  set (w0 := run_from (boot_world e) [ ev_up e; EvFinish e 0 (Some 7) ]).
  destruct (begin_set e override_opts (w_backend w0)) as [b1 [out|err]] eqn:Es;
    [|vm_compute in Es; discriminate Es].
  destruct (exec_all (EvCommand e (CSet override_opts) :: rebuild_events e 11) w0) as [w1|] eqn:E1;
    [|vm_compute in E1; discriminate E1].
  exists b1, out, w1. split; [reflexivity|]. vm_compute in Es. injection Es as <- <-.
  vm_compute in E1. injection E1 as <-. split_and!; reflexivity.
Qed.

(** A reload that turns the node off while a bring-up is in flight does not
    turn it off: it finds no engine to bring down, and the handshake then
    installs one, so the node runs against its stored intent to stay down. *)
Theorem reload_disable_misses_bringup :
  exists w,
    reachable lawful w /\
    exec_all [ ev_up env_example;
               EvCommand env_example (CReload (Some (Some (ConfigVAlpha_default <| cv_enabled := Some false |>))));
               EvFinish env_example 0 (Some 9) ] (boot_world env_example) = Some w /\
    w_ups w = [] /\ b_device (w_backend w) <> None /\ stored (w_backend w) /\
    want_running (b_prefs (w_backend w)) = false.
Proof.
  set (evs := [ ev_up env_example;
    EvCommand env_example (CReload (Some (Some (ConfigVAlpha_default <| cv_enabled := Some false |>))));
    EvFinish env_example 0 (Some 9) ]).
  exists (run_from (boot_world env_example) evs). split; [unfold evs; run_lawful|].
  do 2 (split; [vm_compute; reflexivity|]). split; [vm_compute; discriminate|].
  split; vm_compute; reflexivity.
Qed.

(** A superseded bring-up whose engine failed to start is not inert: it is
    taken for an installed one and the current prefs are persisted.  Here the
    profile was reset to empty meanwhile, which removed its prefs file; the
    stale failure writes it back, and after a restart the never-configured
    node counts as configured. *)
Theorem stale_failure_rewrites_prefs :
  exists w1 w2 w3,
    exec_all [ ev_up env_example; EvCommand env_example (CEmptyProfile draw_example) ]
      (boot_world env_example) = Some w1 /\
    disk_prefs (b_disk (w_backend w1)) !! "default" = None /\
    exec (EvFinish env_example 0 None) w1 = Some w2 /\
    disk_prefs (b_disk (w_backend w2)) !! "default" = Some (PrefsStored Prefs_default) /\
    exec (EvRestart env_example) w2 = Some w3 /\
    b_ever_configured (w_backend w2) = false /\ b_ever_configured (w_backend w3) = true.
Proof.
  set (w1 := run_from (boot_world env_example)
               [ ev_up env_example; EvCommand env_example (CEmptyProfile draw_example) ]).
  set (w2 := default w1 (exec (EvFinish env_example 0 None) w1)).
  exists w1, w2, (default w2 (exec (EvRestart env_example) w2)).
  split_and!; vm_compute; reflexivity.
Qed.
