(* ===== verification/ServeControl.v ===== *)
(** * Setting the serve configuration: [Backend::set_serve_config]

    The stored configurations, one per profile, beside the backend; the write
    with its four refusals, and what it promises. *)
From Stdlib Require Import ZArith Lia Ascii String List.
From stdpp Require Import base gmap list sets sorting strings option.
From coqutil Require Datatypes.RecordSettersUsingExistingGetters.
Import coqutil.Datatypes.RecordSettersUsingExistingGetters.RecordSetNotations1.
From S2P Require Import Prelude NetAddr Text BTree Prefs SysPolicy Backend BackendFacts World Serve ServeFacts.

(** A [serve-config.json]: what it decodes to, or nothing usable. *)
Inductive ServeFile : Type :=
| ServeStored (cfg : ServeConfig)
| ServeMalformed.

Record Serving : Type := mkServing {
  sv_backend : Backend;
  sv_files : gmap string ServeFile
}.

(** [serve::load]: missing, malformed or unreadable is empty. *)
Definition load_serve (files : gmap string ServeFile) (id : string) : ServeConfig :=
  match files !! id with Some (ServeStored cfg) => cfg | _ => ServeConfig_default end.

(** [serve::config_path], under the state directory. *)
Definition config_path (profile_id : string) : list string :=
  if String.eqb profile_id Profiles.DEFAULT_PROFILE_ID then ["serve-config.json"%string]
  else ["profiles"; profile_id; "serve-config.json"]%string.

Definition serve_config (s : Serving) : ServeConfig :=
  load_serve (sv_files s) (b_current_profile (sv_backend s)).

Section Control.
Context `{ServeEngine}.

Inductive ServeRefusal : Type :=
| FunnelUnderShields
| NoNetmap
| ServeConflict (c : Conflict)
| EngineRefuses (ports : list (Z * ServeConfigError))
| SaveServeFailed.

(** The refusals a write introduces over what is stored. *)
Definition newly_refused (existing incoming : ServeConfig) (fqdn : bytes) : list (Z * ServeConfigError) :=
  List.filter (fun r => negb (bool_decide (r ∈ refused (build_web_serve_state existing fqdn))))
    (refused (build_web_serve_state incoming fqdn)).

Definition set_serve_config (e : Env) (write_ok : bool) (cfg : ServeConfig) (s : Serving)
    : Serving * result ServeRefusal unit :=
  if bool_decide (funnel_ports cfg <> ∅) && shields_up (b_prefs (sv_backend s))
  then (s, Err FunnelUnderShields)
  else
    let '(b, name) := current_netmap_name e (sv_backend s) in
    let s := mkServing b (sv_files s) in
    match name with
    | Ok (Some fqdn) =>
        let fqdn := bs fqdn in
        let existing := serve_config s in
        match validate_serve_config_update existing cfg with
        | Err conflict => (s, Err (ServeConflict conflict))
        | Ok _ =>
            match newly_refused existing cfg fqdn with
            | _ :: _ as ports => (s, Err (EngineRefuses ports))
            | [] =>
                if write_ok
                then (mkServing (fst (rearm b)) (<[b_current_profile b := ServeStored cfg]> (sv_files s)), Ok tt)
                else (s, Err SaveServeFailed)
            end
        end
    | _ => (s, Err NoNetmap)
    end.

(** ** What a write promises *)

Lemma netmap_name_run e b :
  current_netmap_name e b = (b <| b_netmap_name := kept_netmap_name e b |>, Ok (kept_netmap_name e b)).
Proof.
  unfold current_netmap_name, kept_netmap_name.
  destruct b as [p c lp [dev|] st sv mo su ev g t sg bo k oa r rs ak oe ek nm d]; [|reflexivity].
  destruct (e_self_fqdn e) as [fqdn|]; [|reflexivity].
  unfold mbind, M_bind, get_state, modify, mret, M_ret. record_simpl.
  by destruct (String.eqb fqdn "").
Qed.

Lemma rearm_run b :
  fst (rearm b) = b <| b_serve_tasks := match b_device b with Some dev => [dev_handle dev] | None => b_serve_tasks b end |>.
Proof.
  unfold rearm. destruct b as [p c lp [dev|] st sv mo su ev g t sg bo k oa r rs ak oe ek nm d]; reflexivity.
Qed.

Lemma newly_refused_nil existing incoming fqdn : newly_refused existing incoming fqdn = [] <->
  forall r, In r (refused (build_web_serve_state incoming fqdn)) -> In r (refused (build_web_serve_state existing fqdn)).
Proof.
  unfold newly_refused. set (l := refused (build_web_serve_state incoming fqdn)). split.
  - intros Hn r Hr. destruct (decide (r ∈ refused (build_web_serve_state existing fqdn))) as [Hd|Hd];
      [by apply list_elem_of_In|].
    assert (Hin : In r []); [|done]. rewrite <- Hn. apply filter_In. split; [done|].
    by rewrite bool_decide_false.
  - intros Hall. induction l as [|r l IH]; cbn [List.filter]; [done|].
    rewrite bool_decide_true by (apply list_elem_of_In, Hall; by left). cbn [negb].
    apply IH. intros r' Hr'. apply Hall. by right.
Qed.

(** C28: a write of the serve configuration is all or nothing.  Refused, it
      leaves the stored configurations, the engine and its tasks and
      everything else as they were, but for the kept netmap name; accepted,
      the configuration is what the profile stores and a later read returns,
      the serve runtime of a running engine is replaced by one for it,
      Funnel is not on beside shields-up, no port changed its kind of serve,
      and every port the engine refuses was refused before too.  It is
      accepted exactly when those conditions hold, a netmap name is known and
      the file can be written. *)
Theorem set_serve_contract (e : Env) (write_ok : bool) (cfg : ServeConfig) (s s' : Serving)
      (r : result ServeRefusal unit) :
    set_serve_config e write_ok cfg s = (s', r) ->
    let b := sv_backend s in
    let named := b <| b_netmap_name := kept_netmap_name e b |> in
    (r <> Ok tt -> sv_files s' = sv_files s /\ (sv_backend s' = b \/ sv_backend s' = named)) /\
    (r = Ok tt ->
      serve_config s' = cfg /\
      (forall id, id <> b_current_profile b -> sv_files s' !! id = sv_files s !! id) /\
      sv_backend s' = named <| b_serve_tasks := match b_device b with
                                                | Some dev => [dev_handle dev]
                                                | None => b_serve_tasks b
                                                end |>) /\
    (r = Ok tt <->
      (shields_up (b_prefs b) = true -> funnel_ports cfg = ∅) /\
      validate_serve_config_update (serve_config s) cfg = Ok tt /\ write_ok = true /\
      exists fqdn, kept_netmap_name e b = Some fqdn /\
        forall p, In p (refused (build_web_serve_state cfg (bs fqdn))) ->
                  In p (refused (build_web_serve_state (serve_config s) (bs fqdn)))).
  Proof.
    unfold set_serve_config. set (b := sv_backend s).
    destruct (bool_decide (funnel_ports cfg <> ∅) && shields_up (b_prefs b)) eqn:Ef.
    { intros [= <- <-]. cbn zeta. apply andb_true_iff in Ef as [Ef Hs].
      apply bool_decide_eq_true in Ef. split_and!; [by left + auto|done|].
      split; [done|]. intros (Hf & _). by destruct Ef; auto. }
    rewrite netmap_name_run. cbn iota beta zeta. set (named := b <| b_netmap_name := kept_netmap_name e b |>).
    assert (Hcur : b_current_profile named = b_current_profile b) by by unfold named; destruct b.
    assert (Hload : serve_config (mkServing named (sv_files s)) = serve_config s)
      by (unfold serve_config; cbn [sv_files sv_backend]; by rewrite Hcur).
    rewrite Hload. intros Hrun.
    assert (Hcase : (exists err, r = Err err /\ s' = mkServing named (sv_files s) /\
        ~ (validate_serve_config_update (serve_config s) cfg = Ok tt /\ write_ok = true /\
           exists fqdn, kept_netmap_name e b = Some fqdn /\ newly_refused (serve_config s) cfg (bs fqdn) = [])) \/
      (r = Ok tt /\ s' = mkServing (fst (rearm named)) (<[b_current_profile b := ServeStored cfg]> (sv_files s)) /\
       validate_serve_config_update (serve_config s) cfg = Ok tt /\ write_ok = true /\
       exists fqdn, kept_netmap_name e b = Some fqdn /\ newly_refused (serve_config s) cfg (bs fqdn) = [])).
    { destruct (kept_netmap_name e b) as [fqdn|] eqn:Hk.
      2: { injection Hrun as <- <-. left. eexists. split_and!; [done..|]. by intros (_ & _ & ? & ? & _). }
      destruct (validate_serve_config_update (serve_config s) cfg) as [[]|c] eqn:Hv.
      2: { injection Hrun as <- <-. left. eexists. split_and!; [done..|]. by intros (? & _). }
      destruct (newly_refused (serve_config s) cfg (bs fqdn)) as [|p l] eqn:Hn.
      2: { injection Hrun as <- <-. left. eexists. split_and!; [done..|].
           intros (_ & _ & f & [= <-] & Hf). congruence. }
      destruct write_ok; injection Hrun as <- <-; [right|left].
      - split_and!; [done|by rewrite <- Hcur|done|done|by exists fqdn].
      - eexists. split_and!; [done..|]. by intros (_ & ? & _). }
    assert (Hshield : shields_up (b_prefs b) = true -> funnel_ports cfg = ∅).
    { intros Hs. rewrite Hs, andb_true_r in Ef. apply bool_decide_eq_false in Ef.
      destruct (decide (funnel_ports cfg = ∅)); [done|by destruct Ef]. }
    destruct Hcase as [(err & -> & -> & Hn)|(-> & -> & Hv & Hw & fqdn & Hk & Hn)].
    - split_and!; [intros _; split; [done|by right]|done|]. split; [done|].
      intros (_ & Hv & Hw & fqdn & Hk & Hp). destruct Hn. split_and!; [done..|]. exists fqdn.
      split; [done|by apply newly_refused_nil].
    - split_and!; [done| |].
      + intros _. rewrite rearm_run. split_and!.
        * unfold serve_config, load_serve; cbn [sv_files sv_backend].
          replace (b_current_profile _) with (b_current_profile b) by by unfold named; destruct b.
          by rewrite lookup_insert_eq.
        * intros id Hid. by apply lookup_insert_ne.
        * cbn [sv_backend]. unfold named. by destruct b.
      + split; [|done]. intros _. split_and!; [done..|]. exists fqdn. split; [done|by apply newly_refused_nil].
  Qed.
End Control.

(** ** At work *)

#[local] Existing Instance example_engine.

Definition named_env : Env := env_example <| e_self_fqdn := Some "n.ts.net"%string |>.

(** A web serve published by Funnel on the node that is up. *)
Definition funnel_example : ServeConfig :=
  set_funnel
    (mkServeConfig [(bs "443", mkTcpPortHandler true false [] [] 0 None None [])] []
       [(bs "n.ts.net:443", [(bs "/", mkHttpHandler [] (bs "127.0.0.1:3000") [] [])])])
    (bs "n.ts.net") 443 true.

Definition serving_example : Serving := mkServing (w_backend up_world) ∅.

Lemma set_serve_contract_witness :
  snd (set_serve_config named_env true funnel_example serving_example) = Ok tt /\
  serve_config (fst (set_serve_config named_env true funnel_example serving_example)) = funnel_example.
Proof.
  assert (Hr : snd (set_serve_config named_env true funnel_example serving_example) = Ok tt)
    by (vm_compute; reflexivity).
  split; [exact Hr|].
  exact (proj1 (proj1 (proj2 (set_serve_contract named_env true funnel_example serving_example
                                _ _ (surjective_pairing _))) Hr)).
Defined.

(** The refusal of Funnel beside shields-up guards one road only.
    The write that would create the pair is refused, but a [set --shields-up] on a
    node that has a public Funnel port is accepted, live or by a rebuild, and
    changes nothing of the stored configuration: the node then advertises a
    public endpoint on which it accepts nothing, the state the refusal exists
    to rule out, and the very configuration it stores could no longer be written. *)
Theorem shields_up_joins_funnel :
  let '(s1, r1) := set_serve_config named_env true funnel_example serving_example in
  let '(b2, r2) := begin_set named_env (SetOptions_default <| set_shields_up := Some true |>) (sv_backend s1) in
  let s2 := mkServing b2 (sv_files s1) in
  r1 = Ok tt /\ is_ok r2 = true /\ shields_up (b_prefs b2) = true /\ is_some (b_device b2) = true /\
  funnel_ports (serve_config s2) = {[ 443 ]} /\
  snd (set_serve_config named_env true (serve_config s2) s2) = Err FunnelUnderShields.
Proof.
  vm_cast_no_check (conj (eq_refl (Ok tt : result ServeRefusal unit)) (conj (eq_refl true) (conj (eq_refl true)
    (conj (eq_refl true) (conj (eq_refl ({[443]} : gset Z)) (eq_refl (Err FunnelUnderShields : result ServeRefusal unit))))))).
Qed.
