(* ===== verification/LocalApi.v ===== *)
(** * The LocalAPI's requests and answers: [src/localapi.rs]

    Every request a client can spell and the answers the server gives, with
    their sentences as constructors.  What an answer renders of the backend is
    the backend it was taken of; what the engine answers is the call made. *)
From Stdlib Require Import ZArith Lia Ascii String List.
From stdpp Require Import base list strings option.
From S2P Require Import Prelude Prefs SysPolicy RevertGuard Routes Gates ExitNodeArg EngineConfig Edits Conffile Serve Backend CheckPrefs ServeControl.
Import AlwaysOn LifecycleState.

(** ** Requests *)

Record WatchMask : Type := mkWatchMask {
  wm_initial_state : bool;
  wm_initial_netmap : bool;
  wm_prefs : bool;
  wm_policy : bool;
  wm_suggested_exit_node : bool;
  wm_initial_status : bool
}.

(** [Request::Up]: the pref fields are those of [UpOptions]. *)
Record UpRequest : Type := mkUpRequest {
  ur_authkey : option string;
  ur_opts : UpOptions;
  ur_client_id : option string;
  ur_client_secret : option string;
  ur_id_token : option string;
  ur_audience : option string
}.

Inductive WhoisProto : Type := WhoisTcp | WhoisUdp.
Inductive ConflictPolicy : Type := ConflictSkip | ConflictOverwrite | ConflictRename.

Inductive Request : Type :=
| RqStatus
| RqWatch (mask : WatchMask)
| RqUp (up : UpRequest)
| RqSet (fields : SetOptions)
| RqVersion
| RqGetPrefs
| RqProfileList
| RqMetrics
| RqLockStatus
| RqLockLog (limit : Z)
| RqLockInit (secret_hex : string)
| RqLockSign (node_key : string)
| RqLockDisable (secret_hex : string)
| RqDnsStatus
| RqDnsQuery (name : string) (qtype : Z)
| RqNetcheck
| RqSuggestExitNode
| RqServices
| RqSyspolicyList
| RqSyspolicyReload
| RqCheckIpForwarding
| RqCheckPrefs (fields : Posture)
| RqCert (domain : string) (min_validity_secs : option Z)
| RqBugReport (note : option string) (diagnose : bool)
| RqGetServeConfig
| RqSetServeConfig (config : ServeConfig)
| RqSwitchProfile (target : string)
| RqCreateProfile (id : string)
| RqSwitchToEmptyProfile
| RqDeleteProfile (target : string)
| RqNc (host : string) (port : Z)
| RqDown (reason : option (list Z))
| RqLogout (reason : option (list Z))
| RqIp
| RqWhois (ip : string) (port : option Z) (proto : option WhoisProto)
| RqIdToken (audience : string)
| RqPing (ip : string) (timeout_ms : option Z)
| RqFileCp (path peer : string) (name : option string)
| RqFileList
| RqFileGet (name dest : string) (delete_after : bool)
| RqFileGetDir (dir : string) (conflict : ConflictPolicy)
| RqFileTargets
| RqDebugCapture (path : string) (seconds : option Z)
| RqDebugRebind
| RqDebugReStun
| RqDebugStateDir
| RqDebugPortmap (duration_ms : Z) (ty : string) (gateway_and_self : option string) (log_http : bool)
| RqReloadConfig
| RqShutdown.

(** The [NotifyWatchOpt] bits a subscription spells. *)
Definition flag (on : bool) (bit : Z) : Z := if on then Z.shiftl 1 bit else 0.

Definition watch_upstream_mask (req : Request) : option Z :=
  match req with
  | RqWatch m =>
      Some (Z.lor (flag (wm_policy m) 17)
           (Z.lor (flag (wm_initial_status m) 14)
           (Z.lor (flag (wm_suggested_exit_node m) 10)
           (Z.lor (flag (wm_initial_netmap m) 3)
           (Z.lor (flag (wm_prefs m) 2) (flag (wm_initial_state m) 1))))))
  | _ => None
  end.

Definition NOTIFY_RATE_LIMIT_INCOMPATIBLE_BITS : Z :=
  Z.lor (Z.shiftl 1 12) (Z.lor (Z.shiftl 1 13) (Z.lor (Z.shiftl 1 14) (Z.shiftl 1 15))).

(** [watch_usage_refusal]: no subscription is refused on its content. *)
Definition watch_usage_refusal (req : Request) : option string :=
  _ ← watch_upstream_mask req; None.

(** The watch that is answered on the status stream. *)
Definition bare_watch (m : WatchMask) : bool :=
  negb (wm_initial_state m) && negb (wm_initial_netmap m) && negb (wm_prefs m) && negb (wm_policy m)
  && negb (wm_suggested_exit_node m) && negb (wm_initial_status m).

(** [WifCreds::from_wire]: whether any workload-identity field was sent. *)
Definition wif_sent (up : UpRequest) : bool :=
  is_some (ur_client_id up) || is_some (ur_client_secret up) || is_some (ur_id_token up)
  || is_some (ur_audience up).

(** ** Answers *)

Section Answers.
Context `{ServeEngine}.

Inductive ShutdownRefusal : Type := AccessDenied | DeniedByPolicy.

Inductive ErrorMessage : Type :=
| RequestTooLarge
| InvalidUtf8
| BadRequest
| PermissionDenied
| NcPermissionDenied
| PortmapPermissionDenied
| TooManyStreams
| ShutdownDenied (r : ShutdownRefusal)
| NodeNotUp
| NcConnectFailed
| PostureRefused (es : list PostureError)
| ServeRefused (r : ServeRefusal)
| FederationNotBuilt
| LoginServerChange
| NoPrefsNamed
| CommandFailed (e : BackendError)
| StrayStream.

Inductive OkMessage : Type :=
| PrefsValid
| ServeUpdated
| SwitchReport (o : SwitchOutcome)
| DeleteReport (o : DeleteOutcome)
| LoggedOut
| BroughtDown
| BroughtUp
| PrefsUpdated
| ShutdownAccepted
| Connected (host : string) (port : Z).

Record ProfileEntry : Type := mkProfileEntry {
  pe_id : string;
  pe_name : string;
  pe_current : bool
}.

Inductive Response : Type :=
| RsStatus (seen : Backend)
| RsPrefs (seen : Backend)
| RsBugReport (seen : Backend) (note : option string) (probed : bool)
| RsStateDir
| RsVersion
| RsSyspolicy (s : list PolicySetting)
| RsIpForwarding (tun_enabled : bool)
| RsProfiles (l : list ProfileEntry)
| RsServeConfig (cfg : ServeConfig)
| RsNoAddresses
| RsEngine (handle : Z) (call : Request)
| RsReloadConfig (reloaded : bool)
| RsRevertGuard (reverts : list RevertedPref)
| RsOk (m : OkMessage)
| RsError (m : ErrorMessage).
End Answers.
