(* ===== verification/Auth.v ===== *)
(** * Peer authorization: [src/auth.rs] *)
From Stdlib Require Import ZArith Lia List.
From stdpp Require Import base list option.
From S2P Require Import Prelude LocalApi.

Inductive Access : Type := ReadOnly | ReadWrite.

#[global] Instance Access_eq_dec : EqDecision Access.
Proof. solve_decision. Defined.

Definition can_write (a : Access) : bool := match a with ReadWrite => true | ReadOnly => false end.

(** [AuthPolicy::access_for_uid], of the policy's owner. *)
Definition access_for_uid (owner_euid peer_uid : Z) : Access :=
  if (peer_uid =? 0) || (peer_uid =? owner_euid) then ReadWrite else ReadOnly.

(** [AuthPolicy::for_peer]; [cred] is the peer's uid, [None] when the lookup
    failed. *)
Definition for_peer (owner_euid : Z) (cred : option Z) : Access * option Z :=
  match cred with
  | Some uid => (access_for_uid owner_euid uid, Some uid)
  | None => (ReadOnly, None)
  end.

Definition requires_write (req : Request) : bool :=
  match req with
  | RqStatus | RqWatch _ | RqIp | RqWhois _ _ _ | RqPing _ _ | RqVersion | RqGetPrefs | RqProfileList
  | RqLockStatus | RqLockLog _ | RqDnsStatus | RqDnsQuery _ _ | RqNetcheck | RqSuggestExitNode
  | RqServices | RqSyspolicyList | RqSyspolicyReload | RqCheckIpForwarding | RqBugReport _ _
  | RqGetServeConfig | RqFileList | RqFileTargets => false
  | RqUp _ | RqSet _ | RqDown _ | RqLogout _ | RqSwitchProfile _ | RqCreateProfile _
  | RqSwitchToEmptyProfile | RqDeleteProfile _ | RqNc _ _ | RqSetServeConfig _ | RqFileCp _ _ _
  | RqFileGet _ _ _ | RqFileGetDir _ _ | RqIdToken _ | RqMetrics | RqDebugCapture _ _ | RqDebugRebind
  | RqDebugReStun | RqDebugStateDir | RqDebugPortmap _ _ _ _ | RqReloadConfig | RqCert _ _
  | RqLockInit _ | RqLockSign _ | RqLockDisable _ | RqShutdown | RqCheckPrefs _ => true
  end.

Inductive Denied : Type := DeniedAccess.

Definition authorize (req : Request) (access : Access) : result Denied unit :=
  if requires_write req && negb (can_write access) then Err DeniedAccess else Ok tt.

Lemma authorize_writer req : authorize req ReadWrite = Ok tt.
Proof. unfold authorize. by rewrite andb_false_r. Qed.

Lemma authorize_reader req : is_ok (authorize req ReadOnly) = negb (requires_write req).
Proof. unfold authorize. by destruct (requires_write req). Qed.
