(* ===== verification/Server.v ===== *)
(** * The LocalAPI server: [src/server.rs]

    A connection's bytes as frames, what each frame is answered, and a request
    as the steps it takes on the backend: one under each lock the handler
    takes, with the engine's work between them.  The JSON decoder is a
    parameter, and so is everything the engine, the clock and the disk answer
    at a step.  Writes to the client succeed: a failed one only ends the
    connection. *)
From Stdlib Require Import ZArith Lia Ascii String List.
From stdpp Require Import base gmap list strings option.
From S2P Require Import Prelude Text Prefs SysPolicy RevertGuard Gates ExitNodeArg Profiles EngineConfig Edits Conffile Serve Backend World CheckPrefs ServeControl LocalApi Auth.
Import AlwaysOn LifecycleState.

(** ** Frames *)

Definition MAX_LINE_BYTES : nat := Z.to_nat (64 * 1024).

Inductive LineResult : Type :=
| Line (text : bytes)
| Eof
| TooLong.

(** What is left of a chunk is the next the reader holds. *)
Definition unread (rest : bytes) (chunks : list bytes) : list bytes :=
  match rest with [] => chunks | _ => rest :: chunks end.

(** [read_capped_line]; [chunks] is what each read of the socket yields, an
    empty one the end of the stream, and [out] the line so far. *)
Fixpoint read_capped_line (chunks : list bytes) (out : bytes) : LineResult * list bytes :=
  match chunks with
  | [] => (Eof, [])
  | [] :: _ => (Eof, chunks)
  | buf :: chunks' =>
      match split_once LF buf with
      | Some (text, rest) =>
          if Nat.ltb MAX_LINE_BYTES (length out + length text) then (TooLong, chunks)
          else (Line (out ++ text), unread rest chunks')
      | None =>
          if Nat.ltb MAX_LINE_BYTES (length out + length buf) then (TooLong, chunks)
          else read_capped_line chunks' (out ++ buf)
      end
  end.

(** Every frame of a connection, to its end. *)
Fixpoint frames_fuel (fuel : nat) (chunks : list bytes) : list LineResult :=
  match fuel with
  | O => []
  | S fuel' =>
      match read_capped_line chunks [] with
      | (Line text, chunks') => Line text :: frames_fuel fuel' chunks'
      | (last, _) => [last]
      end
  end.

Definition frames (chunks : list bytes) : list LineResult := frames_fuel (S (length (concat chunks))) chunks.

(** ** One connection *)

Definition PKEY_ALLOW_TAILSCALED_RESTART : string := "AllowTailscaledRestart".

Definition shutdown_allowed_by_policy (settings : list PolicySetting) : bool :=
  boolean_setting settings PKEY_ALLOW_TAILSCALED_RESTART false.

Definition shutdown_verdict (access : Access) (allowed_by_policy : bool) : result ShutdownRefusal unit :=
  match authorize RqShutdown access with
  | Err _ => Err AccessDenied
  | Ok _ => if negb allowed_by_policy then Err DeniedByPolicy else Ok tt
  end.

(** What the handler meets at one frame: the effective policy, whether a
    stream permit is free, and how [stream_nc] gets on: [None] with no device
    up, otherwise whether the dial succeeded. *)
Record Moment : Type := mkMoment {
  mo_policy : list PolicySetting;
  mo_permit : bool;
  mo_dial : option bool
}.

Section Server.
Context `{ServeEngine}.

Inductive Act : Type :=
| Write (r : Response)
| Handle (req : Request)
| Stream (req : Request)
| StopDaemon.

(** What one decoded request makes [handle_conn] do, and whether it reads on. *)
Definition on_request (access : Access) (mo : Moment) (req : Request) : list Act * bool :=
  match req with
  | RqWatch _ =>
      match watch_usage_refusal req with
      | Some _ => ([Write (RsError BadRequest)], true)
      | None => if mo_permit mo then ([Stream req], false) else ([Write (RsError TooManyStreams)], false)
      end
  | RqNc host port =>
      match authorize req access with
      | Err _ => ([Write (RsError NcPermissionDenied)], true)
      | Ok _ =>
          if negb (mo_permit mo) then ([Write (RsError TooManyStreams)], true)
          else match mo_dial mo with
               | None => ([Write (RsError NodeNotUp)], true)
               | Some false => ([Write (RsError NcConnectFailed)], true)
               | Some true => ([Write (RsOk (Connected host port)); Stream req], false)
               end
      end
  | RqDebugPortmap _ _ _ _ =>
      match authorize req access with
      | Err _ => ([Write (RsError PortmapPermissionDenied)], true)
      | Ok _ => if mo_permit mo then ([Stream req], false) else ([Write (RsError TooManyStreams)], true)
      end
  | RqShutdown =>
      match shutdown_verdict access (shutdown_allowed_by_policy (mo_policy mo)) with
      | Err refusal => ([Write (RsError (ShutdownDenied refusal))], true)
      | Ok _ => ([Write (RsOk ShutdownAccepted); StopDaemon], false)
      end
  | _ => ([Handle req], true)
  end.

Context (decode : bytes -> option Request).

Definition on_frame (access : Access) (mo : Moment) (f : LineResult) : list Act * bool :=
  match f with
  | Eof => ([], false)
  | TooLong => ([Write (RsError RequestTooLarge)], false)
  | Line text =>
      if negb (is_utf8 text) then ([Write (RsError InvalidUtf8)], true)
      else match trim text with
           | [] => ([], true)
           | _ => match decode text with
                  | None => ([Write (RsError BadRequest)], true)
                  | Some req => on_request access mo req
                  end
           end
  end.

(** [moments] is what each frame in turn meets. *)
Fixpoint handle_frames (access : Access) (moments : nat -> Moment) (i : nat) (fs : list LineResult) : list Act :=
  match fs with
  | [] => []
  | f :: fs' =>
      let '(acts, more) := on_frame access (moments i) f in
      acts ++ (if more then handle_frames access moments (S i) fs' else [])
  end.

Definition handle_conn (access : Access) (moments : nat -> Moment) (chunks : list bytes) : list Act :=
  handle_frames access moments 0 (frames chunks).

(** ** A request, lock by lock *)

(** What one step meets: the backend's surroundings, the engine's state for
    the login-server guard, whether the serve file can be written, what
    re-reading the config source gives, the random bytes, whether workload
    identity is compiled in, the engine a handshake yielded, and the engine's
    exit-node suggestion. *)
Record Turn : Type := mkTurn {
  tn_env : Env;
  tn_engine_state : State;
  tn_serve_write : bool;
  tn_config : option (option ConfigVAlpha);
  tn_draw : nat -> result unit (Z * Z);
  tn_federation_built : bool;
  tn_built : option Z;
  tn_suggestion : option string
}.

(** Which verb's rebuild it is, and what its answer still owes. *)
Inductive Cause : Type :=
| ForSet (rename_error : option BackendError)
| ForReload.

(** Where a request stands when the lock is free. *)
Inductive Job : Type :=
| Answered (r : Response)
| AskEngine (req : Request) (handle : option Z)
| UrlGuard (opts : UpOptions)
| UpBegin (opts : UpOptions)
| Building (pending : PendingUp)
| Preflight (c : Cause)
| RebuildBegin (c : Cause)
| Rebuilding (pending : PendingUp) (c : Cause)
| BringDown.

Definition error (m : ErrorMessage) : Job := Answered (RsError m).
Definition failed (e : BackendError) : Job := error (CommandFailed e).

(** [device_handle], and the engine call made on it without the lock. *)
Definition device_handle (b : Backend) : option Z := dev_handle <$> b_device b.

Definition on_engine (req : Request) (b : Backend) : Job :=
  match device_handle b with
  | Some h => AskEngine req (Some h)
  | None => error NodeNotUp
  end.

(** One command under the lock, and the job it leaves. *)
Definition under_lock {A} (m : M A) (next : A -> Job) (s : Serving) : Serving * Job :=
  let '(b, r) := m (sv_backend s) in
  (mkServing b (sv_files s), match r with Ok a => next a | Err err => failed err end).

Definition done_ok (m : OkMessage) : Job := Answered (RsOk m).

(** [list_profiles]. *)
Definition list_profiles (b : Backend) : list ProfileEntry :=
  let meta := disk_profiles (b_disk b) in
  let shown id name := if String.eqb name "" then id else name in
  mkProfileEntry DEFAULT_PROFILE_ID (shown DEFAULT_PROFILE_ID (default "" (pf_get meta DEFAULT_PROFILE_ID)))
    (String.eqb (b_current_profile b) DEFAULT_PROFILE_ID)
  :: omap (fun e => if String.eqb (fst e) DEFAULT_PROFILE_ID then None
                    else Some (mkProfileEntry (fst e) (shown (fst e) (snd e))
                                 (String.eqb (b_current_profile b) (fst e)))) meta.

Definition report_rename (rename_error : option BackendError) : Job :=
  match rename_error with Some err => failed err | None => done_ok PrefsUpdated end.

Definition settled (c : Cause) : Job :=
  match c with ForSet rename_error => report_rename rename_error | ForReload => Answered (RsReloadConfig true) end.

(** [drive_set] and [drive_reload_config], up to the end of their first lock. *)
Definition after_set (out : SetOutcome) : Job :=
  match so_action out with
  | Rebuild => Preflight (ForSet (so_rename_error out))
  | PersistedOnly | Live _ => report_rename (so_rename_error out)
  end.

Definition after_reload (action : option ReloadAction) : Job :=
  match action with
  | None => Answered (RsReloadConfig false)
  | Some ReloadPersistedOnly => Answered (RsReloadConfig true)
  | Some ReloadBringDown => BringDown
  | Some ReloadRebuild => Preflight ForReload
  end.

Definition dispatch_up (t : Turn) (up : UpRequest) (s : Serving) : Serving * Job :=
  let opts := ur_opts up in
  if wif_sent up && negb (tn_federation_built t) then (s, error FederationNotBuilt)
  else if up_reset opts then (s, UrlGuard opts)
  else match up_revert_guard (tn_env t) (sv_backend s) opts with
       | [] => (s, UrlGuard opts)
       | reverts => (s, Answered (RsRevertGuard reverts))
       end.

Definition dispatch_serve (t : Turn) (cfg : ServeConfig) (s : Serving) : Serving * Job :=
  let '(s, r) := set_serve_config (tn_env t) (tn_serve_write t) cfg s in
  (s, match r with Ok _ => done_ok ServeUpdated | Err refusal => error (ServeRefused refusal) end).

Definition dispatch (t : Turn) (access : Access) (req : Request) (s : Serving) : Serving * Job :=
  let e := tn_env t in
  let b := sv_backend s in
  match authorize req access with
  | Err _ => (s, error PermissionDenied)
  | Ok _ =>
      match req with
      | RqStatus | RqWatch _ => (s, Answered (RsStatus b))
      | RqNc _ _ | RqDebugPortmap _ _ _ _ | RqShutdown => (s, error StrayStream)
      | RqVersion => (s, Answered RsVersion)
      | RqGetPrefs => (s, Answered (RsPrefs b))
      | RqProfileList => (s, Answered (RsProfiles (list_profiles b)))
      | RqDebugStateDir => (s, Answered RsStateDir)
      | RqSyspolicyList | RqSyspolicyReload => (s, Answered (RsSyspolicy (e_policy e)))
      | RqCheckIpForwarding => (s, Answered (RsIpForwarding (tun_enabled (b_prefs b))))
      | RqGetServeConfig => (s, Answered (RsServeConfig (serve_config s)))
      | RqCheckPrefs q =>
          (s, match check_prefs e b q with [] => done_ok PrefsValid | es => error (PostureRefused es) end)
      | RqBugReport note diagnose =>
          (s, if diagnose then AskEngine req (device_handle b) else Answered (RsBugReport b note false))
      | RqIp =>
          (s, match device_handle b with Some h => AskEngine req (Some h) | None => Answered RsNoAddresses end)
      | RqReloadConfig => under_lock (reload_config e (tn_config t)) after_reload s
      | RqSetServeConfig cfg => dispatch_serve t cfg s
      | RqSwitchProfile target => under_lock (switch_profile e target) (fun o => done_ok (SwitchReport o)) s
      | RqCreateProfile id => under_lock (create_profile e id) (fun o => done_ok (SwitchReport o)) s
      | RqSwitchToEmptyProfile =>
          under_lock (switch_to_empty_profile e (tn_draw t)) (fun o => done_ok (SwitchReport o)) s
      | RqDeleteProfile target => under_lock (delete_profile e target) (fun o => done_ok (DeleteReport o)) s
      | RqLogout reason => under_lock (logout e (Operator reason)) (fun _ => done_ok LoggedOut) s
      | RqDown reason => under_lock (down e (Operator reason)) (fun _ => done_ok BroughtDown) s
      | RqUp up => dispatch_up t up s
      | RqSet opts =>
          if set_is_empty opts then (s, error NoPrefsNamed) else under_lock (begin_set e opts) after_set s
      | RqMetrics | RqLockStatus | RqLockLog _ | RqLockInit _ | RqLockSign _ | RqLockDisable _
      | RqDnsStatus | RqDnsQuery _ _ | RqNetcheck | RqSuggestExitNode | RqServices | RqCert _ _
      | RqWhois _ _ _ | RqIdToken _ | RqPing _ _ | RqFileCp _ _ _ | RqFileList | RqFileTargets
      | RqFileGet _ _ _ | RqFileGetDir _ _ | RqDebugCapture _ _ | RqDebugRebind | RqDebugReStun =>
          (s, on_engine req b)
      end
  end.

(** The next step of a job: [drive_up], [rebuild_running_device] and the rest,
    lock by lock.  A superseded engine is shut down outside the lock. *)
Definition resume (t : Turn) (j : Job) (s : Serving) : Serving * Job :=
  let e := tn_env t in
  let install pending next :=
    under_lock (settle_up e pending ((fun h => mkDevice h (pending_config pending)) <$> tn_built t))
      (fun _ => next) s in
  match j with
  | Answered r => (s, Answered r)
  | AskEngine RqSuggestExitNode (Some h) =>
      under_lock (publish_suggested_exit_node (tn_suggestion t))
        (fun _ => Answered (RsEngine h RqSuggestExitNode)) s
  | AskEngine (RqBugReport note _) _ => (s, Answered (RsBugReport (sv_backend s) note true))
  | AskEngine req (Some h) => (s, Answered (RsEngine h req))
  | AskEngine _ None => (s, error NodeNotUp)
  | UrlGuard opts =>
      (s, if up_control_url_guard (sv_backend s) (tn_engine_state t) opts then error LoginServerChange
          else UpBegin opts)
  | UpBegin opts => under_lock (begin_up e opts) Building s
  | Building pending => install pending (done_ok BroughtUp)
  | Preflight c => under_lock (rebuild_preflight e) (fun _ => RebuildBegin c) s
  | RebuildBegin c => under_lock (begin_up e UpOptions_default) (fun pending => Rebuilding pending c) s
  | Rebuilding pending c => install pending (settled c)
  | BringDown => under_lock (down e Daemon) (fun _ => Answered (RsReloadConfig true)) s
  end.

(** ** The server at work *)

Record Server : Type := mkServer {
  srv : Serving;
  srv_jobs : list (Access * Job)
}.

(** A request arrives, the [i]-th job takes its next step, or a background
    task (the policy loop, the reconnect timer, boot) runs a command or drives
    an [up] of its own. *)
Inductive Label : Type :=
| LRequest (t : Turn) (access : Access) (req : Request)
| LResume (t : Turn) (i : nat)
| LTask (e : Env) (c : Command)
| LDriveUp (opts : UpOptions).

Definition is_up (c : Command) : bool := match c with CUp _ => true | _ => false end.

Definition serve_step (l : Label) (sr : Server) : option Server :=
  match l with
  | LRequest t access req =>
      let '(s, j) := dispatch t access req (srv sr) in
      Some (mkServer s (srv_jobs sr ++ [(access, j)]))
  | LResume t i =>
      '(access, j) ← srv_jobs sr !! i;
      let '(s, j) := resume t j (srv sr) in
      Some (mkServer s (<[i := (access, j)]> (srv_jobs sr)))
  | LTask e c =>
      if is_up c then None
      else Some (mkServer (mkServing (fst (fst (run_command e c (sv_backend (srv sr))))) (sv_files (srv sr)))
                   (srv_jobs sr))
  | LDriveUp opts => Some (mkServer (srv sr) (srv_jobs sr ++ [(ReadWrite, UpBegin opts)]))
  end.

Definition pending_of (j : Job) : option PendingUp :=
  match j with Building pending | Rebuilding pending _ => Some pending | _ => None end.

Definition label_env (l : Label) : option Env :=
  match l with LRequest t _ _ | LResume t _ => Some (tn_env t) | LTask e _ => Some e | LDriveUp _ => None end.

(** Executions from a boot, the engine's key loader and the generator as
    documented. *)
Definition label_lawful (l : Label) : Prop :=
  match l with
  | LRequest t _ _ | LResume t _ => lawful (EvCommand (tn_env t) (CEmptyProfile (tn_draw t)))
  | LTask e c => lawful (EvCommand e c)
  | LDriveUp _ => True
  end.

Inductive served : Server -> Prop :=
| served_boot e d files b : lawful (EvRestart e) -> load e d = Ok b ->
    served (mkServer (mkServing b files) [])
| served_step l sr sr' : served sr -> label_lawful l -> serve_step l sr = Some sr' -> served sr'.
End Server.
