(* ===== verification/ServerFacts.v ===== *)
(** * The LocalAPI server: what holds of it

    A connection is read the same however its bytes arrive; the daemon is
    stopped only by a writer the policy allows; every request is answered; a
    reader changes nothing; and the server's executions are executions of the
    daemon ([World]), so every invariant of those holds of the server. *)
From Stdlib Require Import ZArith Lia Ascii String List.
From stdpp Require Import base gmap list strings option relations.
From coqutil Require Datatypes.RecordSettersUsingExistingGetters.
Import coqutil.Datatypes.RecordSettersUsingExistingGetters.RecordSetNotations1.
From S2P Require Import Prelude Text Prefs SysPolicy Gates Profiles EngineConfig Edits Serve ServeFacts Backend BackendFacts Lifecycle World CheckPrefs ServeControl LocalApi Auth Server.
Import AlwaysOn LifecycleState.

(** ** Frames *)

Lemma split_once_app_some c s a b t : split_once c s = Some (a, b) -> split_once c (s ++ t) = Some (a, b ++ t).
Proof.
  intros E. apply split_once_spec in E as [-> Hn]. rewrite <- app_assoc. by apply split_once_first.
Qed.

Lemma split_once_none c s : split_once c s = None <-> ~ In c s.
Proof.
  induction s as [|x s IH]; cbn [split_once In]; [tauto|].
  destruct (Ascii.eqb_spec c x) as [->|Hne]; [split; [done|tauto]|].
  destruct (split_once c s) as [[a b]|]; cbn; split; try done; intros H.
  - exfalso. apply H. right. destruct IH as [_ IH]. destruct (in_dec ascii_dec c s); [done|by discriminate IH].
  - intros [->|Hin]; [done|by apply IH].
Qed.

Lemma split_once_app_none c s t : split_once c s = None ->
  split_once c (s ++ t) = match split_once c t with Some (a, b) => Some (s ++ a, b) | None => None end.
Proof.
  intros Hs. apply split_once_none in Hs. destruct (split_once c t) as [[a b]|] eqn:E.
  - apply split_once_spec in E as [-> Hn]. rewrite app_assoc. apply split_once_first.
    rewrite in_app_iff. tauto.
  - apply split_once_none. apply split_once_none in E. rewrite in_app_iff. tauto.
Qed.

Definition filled (chunks : list bytes) : Prop := Forall (fun c => c <> []) chunks.

Lemma unread_filled rest chunks : filled chunks -> filled (unread rest chunks).
Proof. intros H. destruct rest; [done|]. by constructor. Qed.

Lemma concat_unread rest chunks : concat (unread rest chunks) = rest ++ concat chunks.
Proof. by destruct rest. Qed.

#[local] Opaque MAX_LINE_BYTES.

(** One line, over the bytes however they are cut up. *)
Lemma read_capped_line_spec chunks out : filled chunks -> (length out <= MAX_LINE_BYTES)%nat ->
  match split_once LF (concat chunks) with
  | Some (text, rest) =>
      if Nat.ltb MAX_LINE_BYTES (length out + length text) then fst (read_capped_line chunks out) = TooLong
      else exists chunks', read_capped_line chunks out = (Line (out ++ text), chunks') /\ filled chunks' /\
                           concat chunks' = rest
  | None =>
      fst (read_capped_line chunks out) =
        if Nat.ltb MAX_LINE_BYTES (length out + length (concat chunks)) then TooLong else Eof
  end.
Proof.
  revert out. induction chunks as [|buf chunks IH]; intros out Hf Hout.
  - cbn [concat split_once read_capped_line fst length].
    destruct (Nat.ltb_spec MAX_LINE_BYTES (length out + 0)); [lia|done].
  - inversion Hf as [|? ? Hb Hf']; subst. cbn [concat read_capped_line].
    destruct buf as [|x buf]; [done|]. set (chunk := x :: buf) in *.
    destruct (split_once LF chunk) as [[a b]|] eqn:E.
    + rewrite (split_once_app_some _ _ _ _ _ E). destruct (Nat.ltb _ _); [done|].
      eexists. split_and!; [done|by apply unread_filled|apply concat_unread].
    + rewrite (split_once_app_none _ _ _ E).
      assert (Hlen : forall t, length (chunk ++ t) = (length chunk + length t)%nat) by (intros; apply length_app).
      destruct (Nat.ltb_spec MAX_LINE_BYTES (length out + length chunk)) as [Hlt|Hle].
      * destruct (split_once LF (concat chunks)) as [[a b]|]; rewrite Hlen;
          match goal with |- context [Nat.ltb ?n ?m] => destruct (Nat.ltb_spec n m) end; (done || lia).
      * specialize (IH (out ++ chunk) Hf'). rewrite length_app in IH. specialize (IH Hle).
        destruct (split_once LF (concat chunks)) as [[a b]|]; rewrite Hlen, Nat.add_assoc; [|exact IH].
        rewrite app_assoc. exact IH.
Qed.

(** The reference: the bytes split at line feeds, and cut at the first line
    over the cap; the bytes after the last line feed are no line. *)
Fixpoint cut (parts : list bytes) : list LineResult :=
  match parts with
  | [] => []
  | p :: parts' =>
      if Nat.ltb MAX_LINE_BYTES (length p) then [TooLong]
      else match parts' with [] => [Eof] | _ => Line p :: cut parts' end
  end.

Lemma split_on_once c s :
  split_on c s = match split_once c s with Some (a, b) => a :: split_on c b | None => [s] end.
Proof.
  destruct (split_once c s) as [[a b]|] eqn:E.
  - apply split_once_spec in E as [-> Hn]. by apply split_on_cut.
  - apply split_once_none in E. induction s as [|x s IH]; [done|]. cbn [split_on].
    cbn [In] in E. destruct (Ascii.eqb_spec c x) as [->|_]; [exfalso; tauto|].
    by rewrite IH by tauto.
Qed.

Lemma frames_cut fuel chunks : filled chunks -> (length (concat chunks) < fuel)%nat ->
  frames_fuel fuel chunks = cut (split_on LF (concat chunks)).
Proof.
  revert chunks. induction fuel as [|fuel IH]; intros chunks Hf Hn; [lia|]. cbn [frames_fuel].
  pose proof (read_capped_line_spec chunks [] Hf (Nat.le_0_l _)) as H. cbn [length app Nat.add] in H.
  rewrite split_on_once. destruct (split_once LF (concat chunks)) as [[text rest]|] eqn:E; cbn [cut].
  - destruct (Nat.ltb _ _); [by destruct (read_capped_line chunks []) as [r ?]; cbn [fst] in H; subst|].
    destruct H as (chunks' & -> & Hf' & Hc). rewrite (IH chunks' Hf'), Hc.
    + destruct (split_on LF rest) eqn:Es; [by destruct (split_on_nonempty LF rest)|reflexivity].
    + apply split_once_spec in E as [E _]. rewrite E, length_app in Hn. cbn in Hn. rewrite Hc. lia.
  - destruct (read_capped_line chunks []) as [r ?]. cbn [fst] in H. subst. by destruct (Nat.ltb _ _).
Qed.

(** ** The answers, and the stop *)

Section Connection.
Context `{ServeEngine} (decode : bytes -> option Request).

(** C16: a connection's handling is a function of its bytes alone.  However
    the socket delivers them, the daemon acts on exactly the lines between
    line feeds, in order, up to the first one over the cap, which is refused
    and ends the connection; a line of exactly the cap is a line, and what
    follows the last line feed is not. *)
Theorem framing_independent_of_chunks (access : Access) (moments : nat -> Moment) (chunks : list bytes) :
  Forall (fun c => c <> []) chunks ->
  handle_conn decode access moments chunks =
  handle_frames decode access moments 0 (cut (split_on LF (concat chunks))).
Proof. intros Hf. unfold handle_conn, frames. rewrite frames_cut; [done|exact Hf|lia]. Qed.

(** What one request, and one frame, can make happen to the daemon. *)
Definition stop_allowed (access : Access) (mo : Moment) : Prop :=
  access = ReadWrite /\ shutdown_allowed_by_policy (mo_policy mo) = true.

Lemma shutdown_verdict_ok access allowed :
  shutdown_verdict access allowed = Ok tt <-> access = ReadWrite /\ allowed = true.
Proof. unfold shutdown_verdict, authorize. destruct access, allowed; cbn; naive_solver. Qed.

Definition stop_free (acts : list Act) : Prop := ~ In StopDaemon acts.

Lemma on_request_stop access mo req :
  stop_free (fst (on_request access mo req)) \/
  stop_allowed access mo /\
  on_request access mo req = ([Write (RsOk ShutdownAccepted); StopDaemon], false).
Proof.
  destruct req; try (left; unfold stop_free; cbn; by intros [?|[]]); cbn [on_request].
  - left. cbn. destruct (mo_permit mo); by intros [?|[]].
  - left. destruct (authorize _ access); [|by intros [?|[]]]. destruct (mo_permit mo); [|by intros [?|[]]].
    cbn. destruct (mo_dial mo) as [[]|]; unfold stop_free; cbn; naive_solver.
  - left. destruct (authorize _ access); [|by intros [?|[]]]. by destruct (mo_permit mo); intros [?|[]].
  - destruct (shutdown_verdict _ _) as [[]|r] eqn:E; [|left; by intros [?|[]]].
    right. by apply shutdown_verdict_ok in E.
Qed.

Lemma on_frame_stop access mo f :
  stop_free (fst (on_frame decode access mo f)) \/
  stop_allowed access mo /\
  on_frame decode access mo f = ([Write (RsOk ShutdownAccepted); StopDaemon], false).
Proof.
  destruct f as [text| |]; cbn [on_frame]; [|left; by intros []|left; by intros [?|[]]].
  destruct (is_utf8 text); cbn [negb]; [|left; by intros [?|[]]].
  destruct (trim text); [left; by intros []|]. destruct (decode text); [|left; by intros [?|[]]].
  apply on_request_stop.
Qed.

End Connection.

(** ** A request's steps *)

Section Requests.
Context `{ServeEngine}.

Lemma under_lock_run {A} (m : M A) next s s' j : under_lock m next s = (s', j) ->
  sv_backend s' = fst (m (sv_backend s)) /\ sv_files s' = sv_files s /\
  match snd (m (sv_backend s)) with Ok a => j = next a | Err err => j = failed err end.
Proof. unfold under_lock. destruct (m (sv_backend s)) as [b [a|err]]; intros [= <- <-]; done. Qed.

(** How many steps a job still takes at most. *)
Definition rank (j : Job) : nat :=
  match j with
  | Answered _ => 0
  | AskEngine _ _ | Building _ | Rebuilding _ _ | BringDown => 1
  | UpBegin _ | RebuildBegin _ => 2
  | UrlGuard _ | Preflight _ => 3
  end.

Lemma settled_answers c : rank (settled c) = O.
Proof. by destruct c as [[]|]. Qed.

Lemma under_lock_rank {A} (m : M A) next n s : (forall a, rank (next a) <= n)%nat ->
  (rank (snd (under_lock m next s)) <= n)%nat.
Proof. intros Hn. unfold under_lock. destruct (m (sv_backend s)) as [b [a|err]]; cbn; [apply Hn|lia]. Qed.

Lemma resume_rank t j s : (rank (snd (resume t j s)) <= rank j - 1)%nat.
Proof.
  destruct j as [r|req [h|]|opts|opts|pending|c|c|pending c|]; cbn [resume rank Nat.sub].
  all: try (apply under_lock_rank; intros; cbn; rewrite ?settled_answers; lia).
  - cbn. lia.
  - destruct req; try (cbn; lia). apply under_lock_rank. intros. cbn. lia.
  - destruct req; cbn; lia.
  - destruct (up_control_url_guard _ _ _); cbn; lia.
Qed.

Lemma dispatch_rank t access req s : (rank (snd (dispatch t access req s)) <= 3)%nat.
Proof.
  unfold dispatch. destruct (authorize req access); [|cbn; lia].
  destruct req; try (cbn; lia); try (apply under_lock_rank; intros; cbn; lia); cbn zeta.
  all: try (unfold on_engine; destruct (device_handle _); cbn; lia).
  - unfold dispatch_up. destruct (_ && _); [cbn; lia|]. destruct (up_reset _); [cbn; lia|].
    destruct (up_revert_guard _ _ _); cbn; lia.
  - destruct (set_is_empty _); [cbn; lia|]. apply under_lock_rank. intros out. unfold after_set, report_rename.
    destruct (so_action out), (so_rename_error out); cbn; lia.
  - destruct (check_prefs _ _ _); cbn; lia.
  - by destruct diagnose; cbn; lia.
  - unfold dispatch_serve. destruct (set_serve_config _ _ _ _) as [s1 [u|r]]; cbn; lia.
  - apply under_lock_rank. intros [[]|]; cbn; lia.
Qed.


(** ** Readers *)

(** A job that only reads, and asks the engine only for reads. *)
Definition reading (j : Job) : Prop :=
  match j with Answered _ => True | AskEngine req _ => requires_write req = false | _ => False end.

(** The same daemon, but for the exit-node suggestion it remembers. *)
Definition same_but_suggestion (s s' : Serving) : Prop :=
  sv_files s' = sv_files s /\ exists id, sv_backend s' = (sv_backend s) <| b_suggested_exit_node := id |>.

Lemma same_suggestion_refl s : same_but_suggestion s s.
Proof. split; [done|]. exists (b_suggested_exit_node (sv_backend s)). by destruct (sv_backend s). Qed.

Lemma dispatch_reader t req s : fst (dispatch t ReadOnly req s) = s /\ reading (snd (dispatch t ReadOnly req s)).
Proof.
  unfold dispatch, authorize. destruct (requires_write req) eqn:E; cbn [andb negb can_write]; [done|].
  destruct req; try discriminate E; cbn zeta; try done.
  all: try (unfold on_engine; by destruct (device_handle _)).
  by destruct diagnose.
Qed.

Lemma publish_suggestion_run answer b :
  exists id, fst (publish_suggested_exit_node answer b) = b <| b_suggested_exit_node := id |>.
Proof.
  unfold publish_suggested_exit_node. destruct answer as [id|]; [rewrite bind_get|].
  - destruct (String.eqb _ _); [|by exists id]. exists (b_suggested_exit_node b). by destruct b.
  - exists (b_suggested_exit_node b). by destruct b.
Qed.

Lemma resume_reader t j s : reading j ->
  same_but_suggestion s (fst (resume t j s)) /\ reading (snd (resume t j s)).
Proof.
  destruct j as [r|req h| | | | | | |]; try done; intros Hr; cbn [resume].
  { split; [apply same_suggestion_refl|done]. }
  destruct h as [h|], req; try discriminate Hr; cbn [fst snd];
    try (split; [apply same_suggestion_refl|done]).
  destruct (under_lock _ _ s) as [s' j] eqn:E. apply under_lock_run in E as (Hb & Hf & Hj). cbn [fst snd].
  destruct (publish_suggestion_run (tn_suggestion t) (sv_backend s)) as [id Hid]. split.
  - split; [done|]. exists id. by rewrite Hb, Hid.
  - by destruct (snd _); subst.
Qed.

Definition readers_read (sr : Server) : Prop :=
  Forall (fun aj => fst aj = ReadOnly -> reading (snd aj)) (srv_jobs sr).

Lemma serve_step_readers l sr sr' : readers_read sr -> serve_step l sr = Some sr' -> readers_read sr'.
Proof.
  unfold readers_read. intros Hr. destruct l as [t access req|t i|e c|opts]; cbn [serve_step].
  - destruct (dispatch t access req (srv sr)) as [s j] eqn:E. intros [= <-]. apply Forall_app. split; [done|].
    constructor; [|done]. cbn. intros ->. pose proof (dispatch_reader t req (srv sr)) as [_ Hd].
    by rewrite E in Hd.
  - destruct (srv_jobs sr !! i) as [[access j]|] eqn:Ei; cbn; [|done].
    destruct (resume t j (srv sr)) as [s j'] eqn:E. intros [= <-]. apply Forall_insert; [done|]. cbn. intros ->.
    rewrite Forall_lookup in Hr. pose proof (resume_reader t j (srv sr) (Hr _ _ Ei eq_refl)) as [_ Hd].
    by rewrite E in Hd.
  - destruct (is_up c); [done|]. by intros [= <-].
  - intros [= <-]. apply Forall_app. split; [done|]. by constructor.
Qed.

Lemma served_readers sr : served sr -> readers_read sr.
Proof. induction 1; [by constructor|]. by eapply serve_step_readers. Qed.

(** Whose step it is: the request's own, or a step of a job it left. *)
Definition step_of (l : Label) (sr : Server) (access : Access) : Prop :=
  match l with
  | LRequest _ a _ => a = access
  | LResume _ i => exists j, srv_jobs sr !! i = Some (access, j)
  | _ => False
  end.

(** C13: a peer that is neither root nor the daemon's owner, or that the
    kernel does not identify, changes nothing.  In any execution, no request
    it sends and no later step of one touches the backend, its engine, its
    disk or the serve files, but for the remembered exit-node suggestion; and
    the only engine calls it has made are reads. *)
Theorem reader_changes_nothing (owner : Z) (cred : option Z) (sr sr' : Server) (l : Label) :
  served sr -> (forall uid, cred = Some uid -> uid <> 0 /\ uid <> owner) ->
  step_of l sr (fst (for_peer owner cred)) -> serve_step l sr = Some sr' ->
  same_but_suggestion (srv sr) (srv sr') /\
  (forall i req h, srv_jobs sr' !! i = Some (ReadOnly, AskEngine req h) -> requires_write req = false).
Proof.
  intros Hs Hu Ho Hl.
  assert (Ha : fst (for_peer owner cred) = ReadOnly).
  { destruct cred as [uid|]; [|done]. destruct (Hu uid eq_refl) as [H0 H1]. cbn. unfold access_for_uid.
    by rewrite (proj2 (Z.eqb_neq _ _) H0), (proj2 (Z.eqb_neq _ _) H1). }
  rewrite Ha in Ho. pose proof (served_readers _ Hs) as Hr. split.
  - destruct l as [t access req|t i| |]; cbn in Ho, Hl; [|destruct Ho as [j Hj]|done..].
    + subst access. pose proof (dispatch_reader t req (srv sr)) as [Hd _].
      destruct (dispatch t ReadOnly req (srv sr)) as [s j]. injection Hl as <-. cbn in *. subst.
      apply same_suggestion_refl.
    + rewrite Hj in Hl. cbn in Hl. unfold readers_read in Hr. rewrite Forall_lookup in Hr.
      pose proof (resume_reader t j (srv sr) (Hr _ _ Hj eq_refl)) as [Hd _].
      destruct (resume t j (srv sr)) as [s j']. by injection Hl as <-.
  - intros i req h Hi. apply serve_step_readers in Hl; [|done]. unfold readers_read in Hl.
    rewrite Forall_lookup in Hl. exact (Hl _ _ Hi eq_refl).
Qed.

(** ** The server refines the daemon's executions *)

(** One command that begins no bring-up. *)
Definition ran (b b' : Backend) : Prop :=
  exists e c, lawful (EvCommand e c) /\ is_up c = false /\ b' = fst (fst (run_command e c b)).

Lemma ran_world w b : reachable lawful w -> rtc ran (w_backend w) b -> reachable lawful (mkWorld b (w_ups w)).
Proof.
  intros Hw Hr. remember (w_backend w) as b0 eqn:E. revert w Hw E.
  induction Hr as [b|b b1 b2 (e & c & Hl & Hc & ->) _ IH]; intros w Hw ->; [by destruct w|].
  apply (IH (mkWorld (fst (fst (run_command e c (w_backend w)))) (w_ups w))); [|done].
  apply (reach_step lawful (EvCommand e c) w _ Hw Hl). cbn [exec].
  destruct (run_command e c (w_backend w)) as [[b1 err] [p|]] eqn:E; cbn; [|by rewrite app_nil_r].
  destruct (command_begun e c (w_backend w) p) as (opts & -> & _); [by rewrite E|done].
Qed.

Lemma ran_once e c b : lawful (EvCommand e c) -> is_up c = false ->
  rtc ran b (fst (fst (run_command e c b))).
Proof. intros Hl Hc. apply rtc_once. by exists e, c. Qed.

Lemma ran_locked {A} e c (m : M A) next s s' j : lawful (EvCommand e c) -> is_up c = false ->
  (forall b, fst (fst (run_command e c b)) = fst (m b)) -> under_lock m next s = (s', j) ->
  rtc ran (sv_backend s) (sv_backend s').
Proof. intros Hl Hc Hm E. apply under_lock_run in E as (-> & _). rewrite <- Hm. by apply ran_once. Qed.

Lemma set_serve_ran e write_ok cfg s : HostLaws (e_host e) ->
  rtc ran (sv_backend s) (sv_backend (fst (set_serve_config e write_ok cfg s))).
Proof.
  intros Hl. unfold set_serve_config. destruct (_ && _); [done|].
  assert (H1 : rtc ran (sv_backend s) (fst (current_netmap_name e (sv_backend s)))).
  { rewrite <- (fst_plain (current_netmap_name e)). by apply (ran_once e CNetmapName). }
  destruct (current_netmap_name e (sv_backend s)) as [b [[fqdn|]|err]]; cbn [fst] in *; [|done|done].
  destruct (validate_serve_config_update _ _); [|done]. destruct (newly_refused _ _ _); [|done].
  destruct write_ok; [|done]. cbn. etrans; [exact H1|].
  rewrite <- (fst_plain rearm). by apply (ran_once e CRearm).
Qed.

Definition steady (j : Job) : Prop := pending_of j = None.

Lemma under_lock_steady {A} (m : M A) next s s' j : (forall a, steady (next a)) ->
  under_lock m next s = (s', j) -> steady j.
Proof. intros Hn E. apply under_lock_run in E as (_ & _ & Hj). destruct (snd _); subst; [apply Hn|done]. Qed.

Lemma steady_settled c : steady (settled c).
Proof. by destruct c as [[]|]. Qed.

Ltac by_lock e c E :=
  split; [apply (ran_locked e c) in E; [exact E|done|done|intros; apply fst_plain]
         |revert E; apply under_lock_steady; intros ?; try reflexivity].

Lemma dispatch_ran t access req s s' j : lawful (EvCommand (tn_env t) (CEmptyProfile (tn_draw t))) ->
  dispatch t access req s = (s', j) -> rtc ran (sv_backend s) (sv_backend s') /\ steady j.
Proof.
  intros Hl. pose proof Hl as [Hh Hd]. cbn [event_env] in Hh. unfold dispatch. cbn zeta.
  destruct (authorize req access); [|by intros [= <- <-]].
  destruct req; try (by intros [= <- <-]).
  all: try (unfold on_engine; intros [= <- <-]; split; [done|by destruct (device_handle _)]).
  - unfold dispatch_up. destruct (_ && _); [by intros [= <- <-]|]. destruct (up_reset _); [by intros [= <- <-]|].
    destruct (up_revert_guard _ _ _); by intros [= <- <-].
  - destruct (set_is_empty _); [by intros [= <- <-]|]. intros E. by_lock (tn_env t) (CSet fields) E.
    unfold after_set, report_rename. by destruct (so_action _), (so_rename_error _).
  - intros [= <- <-]. split; [done|]. by destruct (check_prefs _ _ _).
  - intros [= <- <-]. split; [done|]. by destruct diagnose.
  - unfold dispatch_serve. pose proof (set_serve_ran (tn_env t) (tn_serve_write t) config s Hh) as Hr.
    destruct (set_serve_config _ _ _ _) as [s1 [u|r]]; cbn in Hr; by intros [= <- <-].
  - intros E. by_lock (tn_env t) (CSwitch target) E.
  - intros E. by_lock (tn_env t) (CCreate id) E.
  - intros E. by_lock (tn_env t) (CEmptyProfile (tn_draw t)) E.
  - intros E. by_lock (tn_env t) (CDelete target) E.
  - intros E. by_lock (tn_env t) (CDown (Operator reason)) E.
  - intros E. by_lock (tn_env t) (CLogout (Operator reason)) E.
  - intros E. by_lock (tn_env t) (CReload (tn_config t)) E. unfold after_reload. by repeat case_match.
Qed.

(** The bring-ups in flight: the jobs whose handshake is under way. *)
Definition pendings (jobs : list (Access * Job)) : list PendingUp := omap (fun aj => pending_of (snd aj)) jobs.

Definition refines (w : World) (sr : Server) : Prop :=
  reachable lawful w /\ w_backend w = sv_backend (srv sr) /\ w_ups w ≡ₚ pendings (srv_jobs sr).

Lemma pendings_snoc jobs a j : pendings (jobs ++ [(a, j)]) = pendings jobs ++ option_list (pending_of j).
Proof. unfold pendings. rewrite omap_app. cbn. by destruct (pending_of j). Qed.

Lemma pendings_take jobs i a j : jobs !! i = Some (a, j) ->
  pendings jobs ≡ₚ option_list (pending_of j) ++ pendings (delete i jobs).
Proof.
  intros Hi. unfold pendings. rewrite (delete_Permutation jobs i (a, j)) at 1 by done. cbn.
  by destruct (pending_of j).
Qed.

Lemma delete_insert_same {A} (i : nat) (x : A) (l : list A) : delete i (<[i := x]> l) = delete i l.
Proof. revert i. induction l as [|y l IH]; intros [|i]; cbn; [done..|]. f_equal. apply IH. Qed.

Lemma pendings_swap jobs i a j j' : jobs !! i = Some (a, j) ->
  pendings (<[i := (a, j')]> jobs) ≡ₚ option_list (pending_of j') ++ pendings (delete i jobs).
Proof.
  intros Hi. rewrite (pendings_take (<[i := (a, j')]> jobs) i a j').
  - by rewrite delete_insert_same.
  - apply list_lookup_insert_eq. by eapply lookup_lt_Some.
Qed.

Lemma Sound_perm ups ups' c : ups ≡ₚ ups' -> Sound ups c -> Sound ups' c.
Proof.
  intros Hp [Hu He Ht Hk Htm Hpt]. assert (Hf : forall P : Z -> Prop, Forall P ups -> Forall P ups')
    by (intros P HP; by rewrite <- Hp).
  constructor; auto. intros t E. destruct (Htm t E) as (? & ? & ? & ? & ?). split_and!; auto.
Qed.

(** A job's step that neither begins nor settles a bring-up. *)
Definition calm (j : Job) : bool :=
  match j with UpBegin _ | RebuildBegin _ | Building _ | Rebuilding _ _ => false | _ => true end.

Lemma resume_ran t j s s' j' : lawful (EvCommand (tn_env t) (CEmptyProfile (tn_draw t))) -> calm j = true ->
  resume t j s = (s', j') -> rtc ran (sv_backend s) (sv_backend s') /\ steady j'.
Proof.
  intros [Hh Hd]. cbn [event_env] in Hh.
  destruct j as [r|req h|opts|opts|pending|c|c|pending c|]; intros Hc; try discriminate Hc; cbn [resume].
  - by intros [= <- <-].
  - destruct h as [h|], req; try (by intros [= <- <-]).
    intros E. by_lock (tn_env t) (CSuggest (tn_suggestion t)) E.
  - intros [= <- <-]. split; [done|]. by destruct (up_control_url_guard _ _ _).
  - intros E. by_lock (tn_env t) CPreflight E.
  - intros E. by_lock (tn_env t) (CDown Daemon) E.
Qed.

(** A begun bring-up is one more in flight; a failed one is none. *)
Lemma begin_job w e opts next s s' j :
  reachable lawful w -> w_backend w = sv_backend s -> HostLaws (e_host e) ->
  (forall pending, pending_of (next pending) = Some pending) ->
  under_lock (begin_up e opts) next s = (s', j) ->
  reachable lawful (mkWorld (sv_backend s') (w_ups w ++ option_list (pending_of j))).
Proof.
  intros Hw Hb Hh Hn E. apply (reach_step lawful (EvCommand e (CUp opts)) w); [done|by split|].
  apply under_lock_run in E as (Hb' & _ & Hj). cbn [exec run_command]. rewrite Hb.
  destruct (begin_up e opts (sv_backend s)) as [b1 [pending|err]]; cbn in *; subst; by rewrite ?Hn.
Qed.

(** A settled bring-up is one fewer. *)
Lemma settle_job w e pending built next s s' j i :
  reachable lawful w -> w_backend w = sv_backend s -> HostLaws (e_host e) -> w_ups w !! i = Some pending ->
  under_lock (settle_up e pending ((fun h => mkDevice h (pending_config pending)) <$> built))
    (fun _ => next) s = (s', j) ->
  reachable lawful (mkWorld (sv_backend s') (delete i (w_ups w))).
Proof.
  intros Hw Hb Hh Hi E. apply (reach_step lawful (EvFinish e i built) w); [done|by split|].
  apply under_lock_run in E as (Hb' & _ & _). cbn [exec]. rewrite Hi. cbn. by rewrite Hb, Hb'.
Qed.

Lemma refines_resume w sr t i a j s' j' :
  refines w sr -> lawful (EvCommand (tn_env t) (CEmptyProfile (tn_draw t))) ->
  srv_jobs sr !! i = Some (a, j) -> resume t j (srv sr) = (s', j') ->
  exists w', refines w' (mkServer s' (<[i := (a, j')]> (srv_jobs sr))).
Proof.
  intros (Hw & Hb & Hp) Hl Hi E. pose proof (proj1 Hl) as Hh. cbn [event_env] in Hh.
  assert (Hswap : forall w', reachable lawful w' -> w_backend w' = sv_backend s' ->
            w_ups w' ≡ₚ option_list (pending_of j') ++ pendings (delete i (srv_jobs sr)) ->
            exists w', refines w' (mkServer s' (<[i := (a, j')]> (srv_jobs sr)))).
  { intros w' H1 H2 H3. exists w'. split_and!; [done|done|]. cbn. by rewrite (pendings_swap _ _ _ _ _ Hi). }
  rewrite (pendings_take _ _ _ _ Hi) in Hp. destruct (calm j) eqn:Hc.
  - destruct (resume_ran t j _ _ _ Hl Hc E) as [Hr Hs]. apply (Hswap (mkWorld (sv_backend s') (w_ups w))); [|done|].
    + apply ran_world; [done|by rewrite Hb].
    + cbn. rewrite Hs. rewrite Hp. by destruct j.
  - assert (Hsettle : forall pending next, pending_of j = Some pending -> steady next ->
              under_lock (settle_up (tn_env t) pending
                ((fun h => mkDevice h (pending_config pending)) <$> tn_built t)) (fun _ => next) (srv sr) = (s', j') ->
              exists w', refines w' (mkServer s' (<[i := (a, j')]> (srv_jobs sr)))).
    { intros pending next Hj Hn E'. rewrite Hj in Hp. cbn in Hp.
      assert (Hin : pending ∈ w_ups w) by (rewrite Hp; by left). apply list_elem_of_lookup in Hin as [k Hk].
      eapply (Hswap (mkWorld _ (delete k (w_ups w)))); [by eapply settle_job|done|].
      assert (Hs : steady j') by (eapply under_lock_steady; [|exact E']; done). rewrite Hs. cbn.
      apply (Permutation_cons_inv (a := pending)). by rewrite <- (delete_Permutation _ _ _ Hk). }
    destruct j as [r|req h|opts|opts|pending|c|c|pending c|]; try discriminate Hc; cbn [resume] in E.
    + eapply Hswap; [eapply (begin_job w (tn_env t) opts Building); (done || exact E)|done|].
      cbn in Hp |- *. by rewrite Hp, Permutation_app_comm.
    + apply (Hsettle pending (done_ok BroughtUp)); [done|done|exact E].
    + eapply Hswap;
        [eapply (begin_job w (tn_env t) UpOptions_default (fun p => Rebuilding p c)); (done || exact E)|done|].
      cbn in Hp |- *. by rewrite Hp, Permutation_app_comm.
    + apply (Hsettle pending (settled c)); [done|apply steady_settled|exact E].
Qed.

(** C12: the server is the daemon of [World] under clients.  At every moment
    of every execution of the server, whatever requests are in progress, the
    backend is one that an execution of commands, finished bring-ups and
    restarts reaches, and the bring-ups in flight are exactly the ones whose
    requests are between their locks: so whatever holds of every reachable
    world holds of the server.  In particular the tasks of the installed
    engine are that engine's, and a cached node key is on disk. *)
Theorem serving_refines_world (sr : Server) : served sr ->
  (exists w, reachable lawful w /\ w_backend w = sv_backend (srv sr) /\
             w_ups w ≡ₚ pendings (srv_jobs sr)) /\
  Sound (map pending_generation (pendings (srv_jobs sr))) (core (sv_backend (srv sr))).
Proof.
  intros Hs. assert (Hw : exists w, refines w sr).
  { induction Hs as [e d files b Hl Hd|l sr sr' Hs [w (Hw & Hb & Hp)] Hl Hstep].
    - exists (mkWorld b []). split_and!; [by apply reach_boot with e d|done|done].
    - destruct l as [t access req|t i|e c|opts]; cbn in Hl, Hstep.
      + destruct (dispatch t access req (srv sr)) as [s j] eqn:E. injection Hstep as <-.
        destruct (dispatch_ran _ _ _ _ _ _ Hl E) as [Hr Hst].
        exists (mkWorld (sv_backend s) (w_ups w)). split_and!; [|done|].
        * apply ran_world; [done|by rewrite Hb].
        * cbn. rewrite pendings_snoc, Hst. cbn. by rewrite app_nil_r.
      + destruct (srv_jobs sr !! i) as [[a j]|] eqn:Hi; cbn in Hstep; [|done].
        destruct (resume t j (srv sr)) as [s' j'] eqn:E. injection Hstep as <-.
        by eapply refines_resume.
      + destruct (is_up c) eqn:Hc; [done|]. injection Hstep as <-.
        exists (mkWorld (fst (fst (run_command e c (w_backend w)))) (w_ups w)). split_and!; [|cbn; by rewrite Hb|done].
        apply ran_world; [done|]. by apply ran_once.
      + injection Hstep as <-. exists w. split_and!; [done|done|].
        cbn. by rewrite pendings_snoc, app_nil_r. }
  destruct Hw as [w (Hw & Hb & Hp)]. split; [by exists w|].
  rewrite <- Hb. apply reachable_sound in Hw. unfold in_flight in Hw.
  eapply Sound_perm; [|exact Hw]. by rewrite Hp.
Qed.
End Requests.

(** ** At work *)

#[local] Existing Instance example_engine.

Definition turn_example : Turn :=
  mkTurn env_example Stopped true None (fun _ => Ok (0, 0)) false (Some 7) None.

Definition up_request : Request := RqUp (mkUpRequest None UpOptions_default None None None None).

Fixpoint serve_all (ls : list Label) (sr : Server) : option Server :=
  match ls with
  | [] => Some sr
  | l :: ls' => sr' ← serve_step l sr; serve_all ls' sr'
  end.

Lemma serve_all_served ls sr sr' : served sr -> Forall label_lawful ls -> serve_all ls sr = Some sr' -> served sr'.
Proof.
  revert sr. induction ls as [|l ls IH]; intros sr Hs Hl; cbn [serve_all]; [by intros [= <-]|].
  inversion Hl; subst. destruct (serve_step l sr) as [sr1|] eqn:E; cbn; [|done].
  apply IH; [|done]. by eapply served_step.
Qed.

Definition boot_server : Server := mkServer (mkServing (w_backend (boot_world env_example)) ∅) [].

(** An [up] taken as far as its handshake, and one that then finished. *)
Definition begun_labels : list Label :=
  [ LRequest turn_example ReadWrite up_request; LResume turn_example 0; LResume turn_example 0 ].
Definition begun_server : Server := default boot_server (serve_all begun_labels boot_server).

Lemma turn_example_lawful : label_lawful (LResume turn_example 0).
Proof. split; [apply host_example_laws|]. intros n a b [= <- <-]. lia. Qed.

Lemma boot_server_served : served boot_server.
Proof.
  apply (served_boot env_example empty_disk); [split; [apply host_example_laws|exact I]|].
  vm_compute. reflexivity.
Qed.

Lemma begun_server_served : served begun_server.
Proof.
  apply (serve_all_served begun_labels boot_server); [apply boot_server_served| |].
  - repeat (apply Forall_cons; split); try apply Forall_nil_2; exact turn_example_lawful.
  - assert (Hb : bool_decide (is_Some (serve_all begun_labels boot_server)) = true) by (vm_compute; reflexivity).
    apply bool_decide_eq_true in Hb as [sr Hsr]. unfold begun_server. by rewrite Hsr.
Qed.

(** A handshake is under way, and it is the request's. *)
Lemma serving_refines_world_witness :
  served begun_server /\ length (pendings (srv_jobs begun_server)) = 1%nat /\
  Sound (map pending_generation (pendings (srv_jobs begun_server))) (core (sv_backend (srv begun_server))).
Proof.
  split; [exact begun_server_served|]. split; [vm_compute; reflexivity|].
  exact (proj2 (serving_refines_world begun_server begun_server_served)).
Defined.

(** A stranger's [down] on it: refused, and nothing has moved. *)
Definition refused_server : Server :=
  mkServer (srv begun_server) (srv_jobs begun_server ++ [(ReadOnly, error PermissionDenied)]).

Lemma down_refused t sr : serve_step (LRequest t ReadOnly (RqDown None)) sr
  = Some (mkServer (srv sr) (srv_jobs sr ++ [(ReadOnly, error PermissionDenied)])).
Proof. reflexivity. Qed.

Lemma reader_changes_nothing_witness :
  served begun_server /\
  serve_step (LRequest turn_example ReadOnly (RqDown None)) begun_server = Some refused_server /\
  same_but_suggestion (srv begun_server) (srv refused_server).
Proof.
  split; [exact begun_server_served|]. split; [apply down_refused|].
  refine (proj1 (reader_changes_nothing 501 (Some 1000) begun_server refused_server
    (LRequest turn_example ReadOnly (RqDown None)) begun_server_served _ _ _)).
  - intros uid E. injection E as <-. split; discriminate.
  - reflexivity.
  - apply down_refused.
Defined.


(** A decoder that knows two requests. *)
Definition decode_example (text : bytes) : option Request :=
  if bool_decide (text = bs "status") then Some RqStatus
  else if bool_decide (text = bs "shutdown") then Some RqShutdown else None.

Definition restart_policy : list PolicySetting := [ mkPolicySetting PKEY_ALLOW_TAILSCALED_RESTART "" (Some "true") None ].
Definition moment_example (s : list PolicySetting) (k : nat) : Moment := mkMoment s true None.

(** Two requests cut across three chunks, a blank line and an unfinished one. *)
Definition chunks_example : list bytes :=
  [ bs "stat"; bs "us" ++ [LF; LF] ++ bs "shut"; bs "down" ++ [LF] ++ bs "status" ].

Lemma framing_independent_of_chunks_witness :
  handle_conn decode_example ReadWrite (moment_example []) chunks_example =
    [Handle RqStatus; Write (RsError (ShutdownDenied DeniedByPolicy))] /\
  handle_conn decode_example ReadWrite (moment_example []) chunks_example =
  handle_frames decode_example ReadWrite (moment_example []) 0 (cut (split_on LF (concat chunks_example))).
Proof.
  split; [vm_compute; reflexivity|].
  apply framing_independent_of_chunks. repeat (apply Forall_cons; split); try apply Forall_nil_2; discriminate.
Defined.

