(* ===== verification/Captive.v ===== *)
(** * Captive-portal detection: [src/ipn/captive.rs] and its loop in [mod.rs]

    Which connectivity fact is unhealthy, the schedule of the probes of an
    episode, the endpoints a pass probes, the judgement of an answer, and the
    turns of [captive_portal_loop] over the health warning.  Instants and
    durations are nanoseconds.  URL parsing and the HTTP transport are
    parameters. *)
From Stdlib Require Import ZArith Lia Ascii String List Sorted.
From stdpp Require Import base gmap list sets sorting strings option.
From coqutil Require Datatypes.RecordSettersUsingExistingGetters.
Import coqutil.Datatypes.RecordSettersUsingExistingGetters.RecordSetNotations1.
From S2P Require Import Prelude NetAddr Text Gates.
Import LifecycleState.

Definition secs (n : Z) : Z := n * 1000000000.

Definition MAX_ENDPOINTS_PER_PASS : nat := 5.
Definition DETECTION_INTERVAL : Z := secs 2.
Definition NO_DERP_HOME_TIME_TO_VISIBLE : Z := secs 10.
Definition NETWORK_STATUS_TIME_TO_VISIBLE : Z := secs 5.
Definition RECHECK_INTERVAL : Z := secs 30.
Definition POLL_INTERVAL : Z := secs 1.

(** ** The warnables *)

Inductive ConnectivityWarnable : Type := NetworkStatus | NoDerpHome | IpForwardingOff.

#[global] Instance ConnectivityWarnable_eq_dec : EqDecision ConnectivityWarnable.
Proof. solve_decision. Defined.

Definition time_to_visible (w : ConnectivityWarnable) : Z :=
  match w with
  | NetworkStatus => NETWORK_STATUS_TIME_TO_VISIBLE
  | NoDerpHome => NO_DERP_HOME_TIME_TO_VISIBLE
  | IpForwardingOff => 0
  end.

Definition is_steady (w : ConnectivityWarnable) : bool :=
  match w with IpForwardingOff => true | _ => false end.

Definition settle_time (w : ConnectivityWarnable) : Z := time_to_visible w + DETECTION_INTERVAL.

(** Each signal is three-valued: unknown is never unhealthy. *)
Record ConnectivityHealth : Type := mkConnectivityHealth {
  any_interface_up : option bool;
  derp_home : option bool;
  ip_forwarding : option bool
}.

Definition health_unknown : ConnectivityHealth := mkConnectivityHealth None None None.

(** [min_by_key]: the first of the least. *)
Fixpoint min_by {A} (le : A -> A -> bool) (l : list A) : option A :=
  match l with
  | [] => None
  | x :: l' => match min_by le l' with
               | Some y => Some (if le x y then x else y)
               | None => Some x
               end
  end.

Definition warnable_le (a b : ConnectivityWarnable) : bool :=
  match is_steady a, is_steady b with
  | false, true => true
  | true, false => false
  | _, _ => time_to_visible a <=? time_to_visible b
  end.

Definition connectivity_impacted_from (st : State) (health : ConnectivityHealth) : option ConnectivityWarnable :=
  if negb (bool_decide (st = Running)) then None
  else
    min_by warnable_le
      (omap (fun row => if bool_decide (snd row = Some false) then Some (fst row) else None)
         [ (NetworkStatus, any_interface_up health); (NoDerpHome, derp_home health);
           (IpForwardingOff, ip_forwarding health) ]).

(** ** The schedule of an episode *)

Record EpisodeTimer : Type := mkEpisodeTimer {
  impacted : option (ConnectivityWarnable * Z);
  last_run : option Z
}.

Definition EpisodeTimer_default : EpisodeTimer := mkEpisodeTimer None None.

Definition recovered (t : EpisodeTimer) : EpisodeTimer := mkEpisodeTimer None None.

(** [Instant::duration_since] saturates. *)
Definition duration_since (now earlier : Z) : Z := Z.max 0 (now - earlier).

(** The onset the wait is measured from, and the timer with it noted. *)
Definition note_impacted (w : ConnectivityWarnable) (now : Z) (t : EpisodeTimer) : EpisodeTimer * Z :=
  let restart (steady_before : bool) :=
    (mkEpisodeTimer (Some (w, now)) (if is_steady w || steady_before then None else last_run t), now) in
  match impacted t with
  | Some (waiting_on, since) =>
      if bool_decide (waiting_on = w) then (t, since) else restart (is_steady waiting_on)
  | None => restart false
  end.

Definition probe_due (w : ConnectivityWarnable) (now : Z) (t : EpisodeTimer) : EpisodeTimer * bool :=
  let '(t, since) := note_impacted w now t in
  let due := match last_run t with
             | None => settle_time w <=? duration_since now since
             | Some ran => if is_steady w then false else RECHECK_INTERVAL <=? duration_since now ran
             end in
  (if due then mkEpisodeTimer (impacted t) (Some now) else t, due).

(** ** The loop *)

(** One turn of [captive_portal_loop]: the instant, the gate with the unhealthy
    warnable, what a pass would find, and the gate again after it. *)
Record Turn : Type := mkTurn {
  turn_now : Z;
  turn_impacted : option ConnectivityWarnable;
  turn_found : bool;
  turn_still : bool
}.

Record LoopState : Type := mkLoopState {
  timer : EpisodeTimer;
  captive_portal_detected : bool
}.

Definition LoopState_init : LoopState := mkLoopState EpisodeTimer_default false.

Definition set_captive_portal_detected (v : bool) (s : LoopState) : LoopState := mkLoopState (timer s) v.

(** The turn, and whether it probed. *)
Definition loop_turn (tr : Turn) (s : LoopState) : LoopState * bool :=
  match turn_impacted tr with
  | None => (mkLoopState (recovered (timer s)) false, false)
  | Some w =>
      let '(t, due) := probe_due w (turn_now tr) (timer s) in
      let s := mkLoopState t (captive_portal_detected s) in
      if due then (set_captive_portal_detected (turn_still tr && turn_found tr) s, true) else (s, false)
  end.

(** The turns of a run, with whether each probed. *)
Fixpoint run (turns : list Turn) (s : LoopState) : LoopState * list bool :=
  match turns with
  | [] => (s, [])
  | tr :: turns' =>
      let '(s, probed) := loop_turn tr s in
      let '(s', ps) := run turns' s in (s', probed :: ps)
  end.

Definition WARNABLE_TEXT : string := "This network requires you to log in using your web browser.".
Definition health_warnings (s : LoopState) : list string :=
  if captive_portal_detected s then [WARNABLE_TEXT] else [].

(** ** Endpoints and answers *)

Inductive EndpointProvider : Type := DerpMapPreferred | DerpMapOther | Tailscale.

Definition provider_rank (p : EndpointProvider) : Z :=
  match p with DerpMapPreferred => 0 | DerpMapOther => 1 | Tailscale => 2 end.

Record DerpNode : Type := mkDerpNode { ipv4 : bytes; can_port80 : bool }.
Record DerpRegion : Type := mkDerpRegion {
  region_id : Z;
  avoid : bool;
  no_measure_no_home : bool;
  nodes : list DerpNode
}.

(** [url::Url], as far as the detection uses it. *)
Class UrlApi : Type := {
  Url : Type;
  url_parse : bytes -> option Url;
  host_str : Url -> option bytes;
  url_port : Url -> option Z;
  append_pair : Url -> bytes -> bytes -> Url
}.

Section Endpoints.
Context `{UrlApi}.

Record Endpoint : Type := mkEndpoint {
  ep_url : Url;
  status_code : Z;
  expected_content : bytes;
  supports_tailscale_challenge : bool;
  provider : EndpointProvider
}.

Definition host (e : Endpoint) : bytes :=
  let h := default [] (host_str (ep_url e)) in
  match url_port (ep_url e) with Some p => h ++ bs ":" ++ show_dec p | None => h end.

Definition challenge (e : Endpoint) : bytes := bs "ts_" ++ host e.
Definition expected_response (e : Endpoint) : bytes := bs "response ts_" ++ host e.

Definition contains_subslice (haystack needle : bytes) : bool :=
  match needle with [] => true | _ => contains_bytes needle haystack end.

Definition response_looks_like_captive (e : Endpoint) (status : Z) (tailscale_response body : option bytes) : bool :=
  if negb (status =? status_code e) then true
  else if supports_tailscale_challenge e && negb (bool_decide (tailscale_response = Some (expected_response e)))
  then true
  else if bool_decide (expected_content e = []) then false
  else match body with
       | None => false
       | Some body => negb (contains_subslice body (expected_content e))
       end.

Definition derp_endpoint (preferred : option Z) (r : DerpRegion) (n : DerpNode) : option Endpoint :=
  if bool_decide (ipv4 n = []) || negb (can_port80 n) then None
  else
    url ← url_parse (bs "http://" ++ ipv4 n ++ bs "/generate_204");
    Some (mkEndpoint url 204 [] true
            (if bool_decide (Some (region_id r) = preferred) then DerpMapPreferred else DerpMapOther)).

Definition tailscale_endpoint (name : bytes) : option Endpoint :=
  url ← url_parse (bs "http://" ++ name ++ bs "/generate_204");
  Some (mkEndpoint url 204 [] false Tailscale).

(** [sort_by_key] is stable: the endpoints of each provider in turn. *)
Definition sort_by_provider (l : list Endpoint) : list Endpoint :=
  let only p := List.filter (fun e => provider_rank (provider e) =? provider_rank p) l in
  only DerpMapPreferred ++ only DerpMapOther ++ only Tailscale.

Definition available_endpoints (regions : list DerpRegion) (preferred : option Z) : list Endpoint :=
  sort_by_provider
    (flat_map (fun r => if avoid r || no_measure_no_home r then []
                        else omap (derp_endpoint preferred r) (nodes r)) regions
     ++ omap tailscale_endpoint [bs "controlplane.tailscale.com"; bs "login.tailscale.com"]).

Record ProbeRequest : Type := mkProbeRequest {
  rq_url : Url;
  rq_challenge : option bytes;
  wants_body : bool
}.
Record ProbeResponse : Type := mkProbeResponse {
  rs_status : Z;
  rs_tailscale_response : option bytes;
  rs_body : option bytes
}.

(** [probe_endpoint_with]; a transport failure is [None]. *)
Definition probe_endpoint_with (e : Endpoint) (now_unix : Z) (transport : ProbeRequest -> option ProbeResponse)
    : option bool :=
  let request := mkProbeRequest (append_pair (ep_url e) (bs "t") (show_dec now_unix))
                   (if supports_tailscale_challenge e then Some (challenge e) else None)
                   (negb (bool_decide (expected_content e = []))) in
  response ← transport request;
  Some (response_looks_like_captive e (rs_status response) (rs_tailscale_response response) (rs_body response)).

(** [detect]: whether the first answer that looks captive, in whatever order
    the answers come in, is among the pass's probes. *)
Fixpoint first_captive (outcomes : list (option bool)) : bool :=
  match outcomes with
  | [] => false
  | Some true :: _ => true
  | _ :: outcomes' => first_captive outcomes'
  end.

Definition pass (regions : list DerpRegion) (preferred : option Z) : list Endpoint :=
  take MAX_ENDPOINTS_PER_PASS (available_endpoints regions preferred).
End Endpoints.
