(* ===== verification/CaptiveFacts.v ===== *)
(** * Facts about captive-portal detection *)
From Stdlib Require Import ZArith Lia Ascii String List.
From stdpp Require Import base gmap list sets sorting strings option.
From S2P Require Import Prelude NetAddr Text Gates Captive.
Import LifecycleState.

(** ** Runs of the loop *)

Lemma run_snoc turns tr s :
  run (turns ++ [tr]) s =
    let '(s1, ps) := run turns s in let '(s2, p) := loop_turn tr s1 in (s2, ps ++ [p]).
Proof.
  revert s. induction turns as [|t turns IH]; intros s; cbn [app run].
  - by destruct (loop_turn tr s).
  - destruct (loop_turn t s) as [s1 p]. rewrite IH. destruct (run turns s1) as [s2 ps].
    by destruct (loop_turn tr s2).
Qed.

(** The [k]-th turn reports [w], or some warnable. *)
Definition reports (turns : list Turn) (k : nat) (w : ConnectivityWarnable) : Prop :=
  exists tr, turns !! k = Some tr /\ turn_impacted tr = Some w.
Definition impacted_at (turns : list Turn) (k : nat) : Prop := exists w, reports turns k w.

(** [w] is reported by every turn from the [j]-th, which is its onset. *)
Definition onset (turns : list Turn) (j : nat) (w : ConnectivityWarnable) : Prop :=
  (j < length turns)%nat /\
  (forall k, (j <= k < length turns)%nat -> reports turns k w) /\
  (forall i, S i = j -> ~ reports turns i w).

(** The [j]-th turn is at [now], and since it every turn reported something. *)
Definition episode_from (turns : list Turn) (j : nat) (now : Z) : Prop :=
  (exists tr, turns !! j = Some tr /\ turn_now tr = now) /\
  forall k, (j <= k < length turns)%nat -> impacted_at turns k.

Record schedule (turns : list Turn) (s : LoopState) (ps : list bool) : Prop := {
  sch_length : length ps = length turns;
  sch_idle : impacted (timer s) = None ->
    last_run (timer s) = None /\ forall i, S i = length turns -> ~ impacted_at turns i;
  sch_onset : forall w since, impacted (timer s) = Some (w, since) ->
    exists j tr, onset turns j w /\ turns !! j = Some tr /\ turn_now tr = since;
  sch_ran : forall ran, last_run (timer s) = Some ran ->
    exists j, ps !! j = Some true /\ episode_from turns j ran;
  sch_warning : captive_portal_detected s = true ->
    exists j tr, turns !! j = Some tr /\ ps !! j = Some true /\ turn_found tr = true /\ turn_still tr = true /\
      forall k, (j <= k < length turns)%nat -> impacted_at turns k
}.

Lemma reports_snoc_last turns tr w : turn_impacted tr = Some w -> reports (turns ++ [tr]) (length turns) w.
Proof. intros H. exists tr. by rewrite list_lookup_middle. Qed.

Lemma reports_snoc_old turns tr k w : (k < length turns)%nat -> reports turns k w <-> reports (turns ++ [tr]) k w.
Proof. intros H. unfold reports. by rewrite lookup_app_l. Qed.

Lemma snoc_index (turns : list Turn) tr k : (k < length (turns ++ [tr]))%nat -> k = length turns \/ (k < length turns)%nat.
Proof. rewrite length_app. cbn. lia. Qed.

Lemma onset_extend turns tr j w : onset turns j w -> turn_impacted tr = Some w -> onset (turns ++ [tr]) j w.
Proof.
  intros (Hj & Hall & Hmax) Hw. split_and!.
  - rewrite length_app. lia.
  - intros k [Hk1 Hk2]. destruct (snoc_index _ _ _ Hk2) as [->|Hk]; [by apply reports_snoc_last|].
    apply reports_snoc_old; [done|]. apply Hall. lia.
  - intros i Hi. rewrite <- reports_snoc_old by lia. by apply Hmax.
Qed.

Lemma onset_new turns tr w : turn_impacted tr = Some w ->
  (forall i, S i = length turns -> ~ reports turns i w) -> onset (turns ++ [tr]) (length turns) w.
Proof.
  intros Hw Hmax. split_and!.
  - rewrite length_app. cbn. lia.
  - intros k [Hk1 Hk2]. destruct (snoc_index _ _ _ Hk2) as [->|Hk]; [by apply reports_snoc_last|lia].
  - intros i Hi. rewrite <- reports_snoc_old by lia. by apply Hmax.
Qed.

Lemma impacted_extend (turns : list Turn) tr w (j : nat) :
  turn_impacted tr = Some w -> (forall k, (j <= k < length turns)%nat -> impacted_at turns k) ->
  forall k, (j <= k < length (turns ++ [tr]))%nat -> impacted_at (turns ++ [tr]) k.
Proof.
  intros Hw Hall k [Hk1 Hk2]. destruct (snoc_index _ _ _ Hk2) as [->|Hk].
  - exists w. by apply reports_snoc_last.
  - destruct (Hall k) as [w' Hw']; [lia|]. exists w'. by apply reports_snoc_old.
Qed.

Lemma episode_extend turns tr w j now :
  turn_impacted tr = Some w -> episode_from turns j now -> episode_from (turns ++ [tr]) j now.
Proof.
  intros Hw [(t & Ht & Hn) Hall]. split.
  - exists t. split; [|done]. apply lookup_app_l_Some. exact Ht.
  - by eapply impacted_extend.
Qed.

(** What [note_impacted] leaves: the reported warnable with its onset, and no
    probe remembered but one of this episode. *)
Lemma note_spec turns tr w s ps t since :
  schedule turns s ps -> turn_impacted tr = Some w -> note_impacted w (turn_now tr) (timer s) = (t, since) ->
  impacted t = Some (w, since) /\
  (exists j tr0, onset (turns ++ [tr]) j w /\ (turns ++ [tr]) !! j = Some tr0 /\ turn_now tr0 = since) /\
  (last_run t = None \/ last_run t = last_run (timer s)).
Proof.
  intros Hs Hw Hn.
  assert (Hnew : (forall i, S i = length turns -> ~ reports turns i w) ->
    exists j tr0, onset (turns ++ [tr]) j w /\ (turns ++ [tr]) !! j = Some tr0 /\ turn_now tr0 = turn_now tr).
  { intros Hmax. exists (length turns), tr. split_and!; [by apply onset_new|by rewrite list_lookup_middle|done]. }
  unfold note_impacted in Hn. destruct (impacted (timer s)) as [[w0 since0]|] eqn:Ei.
  - destruct (sch_onset _ _ _ Hs _ _ Ei) as (j & tr0 & Ho & Hl & Hn0). case_bool_decide as Hw0.
    + subst w0. injection Hn as <- <-. split_and!; [done| |by right].
      exists j, tr0. split_and!; [by apply onset_extend|by apply lookup_app_l_Some|done].
    + injection Hn as <- <-. split_and!; [done| |].
      * apply Hnew. intros i Hi Hr. destruct Ho as (Hj & Hall & _).
        destruct (Hall i) as (t1 & Ht1 & Hw1); [lia|]. destruct Hr as (t2 & Ht2 & Hw2). congruence.
      * cbn. by destruct (is_steady w || is_steady w0); [left|right].
  - destruct (sch_idle _ _ _ Hs Ei) as [Hr Hidle]. injection Hn as <- <-. split_and!; [done| |].
    + apply Hnew. intros i Hi Hrep. apply (Hidle i Hi). by exists w.
    + cbn. by destruct (is_steady w || false); [left|right].
Qed.

Lemma schedule_run turns s ps : run turns LoopState_init = (s, ps) -> schedule turns s ps.
Proof.
  revert s ps. induction turns as [|tr turns IH] using rev_ind; intros s ps.
  { intros [= <- <-]. by split. }
  rewrite run_snoc. destruct (run turns LoopState_init) as [s1 ps1] eqn:E1. specialize (IH _ _ eq_refl).
  destruct (loop_turn tr s1) as [s2 p] eqn:E2. intros [= <- <-].
  assert (Hlen : length (ps1 ++ [p]) = length (turns ++ [tr])) by (rewrite !length_app, (sch_length _ _ _ IH); done).
  unfold loop_turn in E2. destruct (turn_impacted tr) as [w|] eqn:Hw.
  2: { injection E2 as <- <-. split; [exact Hlen| |done|done|done]. intros _. split; [done|].
       intros i Hi (w & t & Ht & Hwt). rewrite length_app in Hi. cbn in Hi.
       replace i with (length turns) in Ht by lia. rewrite list_lookup_middle in Ht by done. congruence. }
  unfold probe_due in E2. destruct (note_impacted w (turn_now tr) (timer s1)) as [t since] eqn:En.
  destruct (note_spec _ _ _ _ _ _ _ IH Hw En) as (Hi & Ho & Hr). cbv zeta in E2.
  assert (Hkeep : forall j, ps1 !! j = Some true -> (ps1 ++ [p]) !! j = Some true) by (intros j ?; by apply lookup_app_l_Some).
  assert (Hlast : (turns ++ [tr]) !! length turns = Some tr) by by rewrite list_lookup_middle.
  assert (Hhere : forall k, (length turns <= k < length (turns ++ [tr]))%nat -> impacted_at (turns ++ [tr]) k)
    by (eapply impacted_extend; [done|lia]).
  assert (Hp : (ps1 ++ [p]) !! length turns = Some p)
    by (rewrite <- (sch_length _ _ _ IH); by rewrite list_lookup_middle).
  destruct (match last_run t with None => _ | Some _ => _ end); injection E2 as <- <-; split; cbn [timer captive_portal_detected impacted last_run set_captive_portal_detected].
  - exact Hlen.
  - rewrite Hi. done.
  - intros w' since'. rewrite Hi. intros [= <- <-]. destruct Ho as (j & tr0 & ? & ? & ?). by exists j, tr0.
  - intros ran [= <-]. exists (length turns). split; [exact Hp|]. split; [by exists tr|exact Hhere].
  - intros [Hst Hfo]%andb_true_iff. by exists (length turns), tr.
  - exact Hlen.
  - rewrite Hi. done.
  - intros w' since'. rewrite Hi. intros [= <- <-]. destruct Ho as (j & tr0 & ? & ? & ?). by exists j, tr0.
  - intros ran Hran. destruct Hr as [Hr|Hr]; [congruence|]. rewrite Hr in Hran.
    destruct (sch_ran _ _ _ IH _ Hran) as (j & Hj & He). exists j. split; [by apply Hkeep|by eapply episode_extend].
  - intros Hd. destruct (sch_warning _ _ _ IH Hd) as (j & t0 & Ht0 & Hj & Hf & Hst & Hall).
    exists j, t0. split_and!; [by apply lookup_app_l_Some|by apply Hkeep|done|done|by eapply impacted_extend].
Qed.

Lemma run_app a b s :
  run (a ++ b) s = let '(s1, ps) := run a s in let '(s2, qs) := run b s1 in (s2, ps ++ qs).
Proof.
  revert s. induction a as [|t a IH]; intros s; cbn [app run].
  - by destruct (run b s).
  - destruct (loop_turn t s) as [s1 p]. rewrite IH. destruct (run a s1) as [s2 ps]. by destruct (run b s2).
Qed.

(** The [n]-th turn of a run, from the state the earlier ones left. *)
Lemma run_at turns n tr : turns !! n = Some tr ->
  exists s1 ps1, run (take n turns) LoopState_init = (s1, ps1) /\
    schedule (take n turns) s1 ps1 /\ length (take n turns) = n /\
    (forall i, (i < n)%nat -> snd (run turns LoopState_init) !! i = ps1 !! i) /\
    snd (run turns LoopState_init) !! n = Some (snd (loop_turn tr s1)).
Proof.
  intros Hn. destruct (run (take n turns) LoopState_init) as [s1 ps1] eqn:E. exists s1, ps1.
  pose proof (schedule_run _ _ _ E) as Hs.
  assert (Hl : length (take n turns) = n) by (apply length_take_le, Nat.lt_le_incl; by eapply lookup_lt_Some).
  pose proof (take_drop_middle turns n tr Hn) as Ht.
  assert (Hr : snd (run turns LoopState_init) = ps1 ++ snd (run (tr :: drop (S n) turns) s1)).
  { rewrite <- Ht at 1. rewrite run_app, E. by destruct (run (tr :: drop (S n) turns) s1). }
  assert (Hlen : length ps1 = n) by by rewrite (sch_length _ _ _ Hs).
  split_and!; [done|done|done| |]; rewrite Hr.
  - intros i Hi. apply lookup_app_l. lia.
  - rewrite lookup_app_r by lia. rewrite Hlen, Nat.sub_diag. cbn [run].
    destruct (loop_turn tr s1) as [s2 p]. by destruct (run (drop (S n) turns) s2).
Qed.

Lemma reports_take turns n k w : (k < n)%nat -> reports (take n turns) k w <-> reports turns k w.
Proof. intros H. unfold reports. by rewrite lookup_take_lt. Qed.

Lemma impacted_take turns n k : (k < n)%nat -> impacted_at (take n turns) k <-> impacted_at turns k.
Proof. intros H. unfold impacted_at. split; intros (w & Hw); exists w; by apply (reports_take _ n). Qed.

(** Time does not run backwards over a run. *)
Definition chronological (turns : list Turn) : Prop :=
  forall i j a b, (i <= j)%nat -> turns !! i = Some a -> turns !! j = Some b -> turn_now a <= turn_now b.

(** The decision of the [n]-th turn, which reports [w]. *)
Lemma turn_decision turns n tr w : chronological turns -> turns !! n = Some tr -> turn_impacted tr = Some w ->
  exists j tr0 ran, (j <= n)%nat /\ turns !! j = Some tr0 /\
    (forall k, (j <= k <= n)%nat -> reports turns k w) /\ (forall i, S i = j -> ~ reports turns i w) /\
    (forall r, ran = Some r -> exists i p, (i < n)%nat /\ turns !! i = Some p /\ turn_now p = r /\
        snd (run turns LoopState_init) !! i = Some true /\ forall k, (i <= k <= n)%nat -> impacted_at turns k) /\
    snd (run turns LoopState_init) !! n =
      Some (match ran with
            | None => settle_time w <=? turn_now tr - turn_now tr0
            | Some r => if is_steady w then false else RECHECK_INTERVAL <=? turn_now tr - r
            end).
Proof.
  intros Hc Hn Hw. destruct (run_at turns n tr Hn) as (s1 & ps1 & Hrun & Hs & Hl & Hold & Hnow).
  destruct (note_impacted w (turn_now tr) (timer s1)) as [t since] eqn:En.
  destruct (note_spec _ _ _ _ _ _ _ Hs Hw En) as (Hi & (j & tr0 & Ho & Hj & Hsince) & Hr).
  pose proof (take_S_r turns n tr Hn) as HS. rewrite <- HS in Ho, Hj.
  assert (HlS : length (take (S n) turns) = S n) by (rewrite HS, length_app, Hl; cbn; lia).
  destruct Ho as (Hjl & Hall & Hmax). rewrite HlS in Hjl, Hall. rewrite lookup_take_lt in Hj by lia.
  assert (Hdur : forall a, a <= turn_now tr -> duration_since (turn_now tr) a = turn_now tr - a)
    by (unfold duration_since; lia).
  assert (Hran : forall r, last_run t = Some r -> exists i p, (i < n)%nat /\ turns !! i = Some p /\ turn_now p = r /\
        snd (run turns LoopState_init) !! i = Some true /\ forall k, (i <= k <= n)%nat -> impacted_at turns k).
  { intros r Hlr. assert (Hlr' : last_run (timer s1) = Some r) by (destruct Hr; congruence).
    destruct (sch_ran _ _ _ Hs _ Hlr') as (i & Hp & (p & Hpi & Hpn) & Hep).
    assert (Hin : (i < n)%nat) by (apply lookup_lt_Some in Hpi; lia).
    exists i, p. rewrite lookup_take_lt in Hpi by done. rewrite Hold by done. split_and!; [done..|].
    intros k Hk. destruct (decide (k = n)) as [->|?]; [exists w; by exists tr|].
    apply (impacted_take _ n); [lia|]. apply Hep. lia. }
  exists j, tr0, (last_run t). split_and!; [lia|done| | |exact Hran|].
  - intros k Hk. apply (reports_take _ (S n)); [lia|]. apply Hall. lia.
  - intros i Hij. rewrite <- (reports_take _ (S n)) by lia. by apply Hmax.
  - rewrite Hnow. f_equal. unfold loop_turn. rewrite Hw. unfold probe_due. rewrite En. cbv zeta.
    assert (Hd1 : duration_since (turn_now tr) since = turn_now tr - turn_now tr0).
    { rewrite Hdur; [by rewrite Hsince|]. rewrite <- Hsince. apply (Hc j n tr0 tr); [lia|done|done]. }
    destruct (last_run t) as [r|] eqn:Elr.
    + destruct (Hran r eq_refl) as (i & p & Hin & Hp & <- & _).
      rewrite Hdur by (apply (Hc i n p tr); [lia|done|done]).
      by destruct (is_steady w); [|destruct (RECHECK_INTERVAL <=? _)].
    + rewrite Hd1. by destruct (settle_time w <=? _).
Qed.

(** ** Properties *)

(** C32: A lasting outage is always noticed.  In any run of the detection loop,
    whatever came before, once one of the transient connectivity facts has been
    reported by every turn for its settle time, each further turn that reports
    it has a probe behind it that is less than the recheck interval old: the
    first pass comes with the first turn after the settle time at the latest and the
    passes never stop while the outage lasts. *)
Theorem sustained_outage_is_probed (turns : list Turn) (j n : nat) (tr0 tr : Turn) (w : ConnectivityWarnable) :
  chronological turns -> is_steady w = false -> (j <= n)%nat -> turns !! j = Some tr0 -> turns !! n = Some tr ->
  (forall k, (j <= k <= n)%nat -> reports turns k w) -> turn_now tr0 + settle_time w <= turn_now tr ->
  exists i p, (i <= n)%nat /\ turns !! i = Some p /\ snd (run turns LoopState_init) !! i = Some true /\
    turn_now tr - RECHECK_INTERVAL < turn_now p <= turn_now tr.
Proof.
  intros Hc Hst Hjn Hj Hn Hall Hsettle.
  assert (Hw : turn_impacted tr = Some w).
  { destruct (Hall n) as (t & Ht & Hw); [lia|]. congruence. }
  destruct (turn_decision turns n tr w Hc Hn Hw) as (j' & tr0' & ran & Hj'n & Hj' & _ & Hmax & Hran & Hd).
  assert (Hj'j : (j' <= j)%nat).
  { destruct (decide (j' <= j)%nat) as [?|Hgt]; [done|]. exfalso. destruct j' as [|i]; [lia|].
    apply (Hmax i eq_refl), Hall. lia. }
  pose proof (Hc j' j tr0' tr0 Hj'j Hj' Hj) as Hle.
  assert (Hnow : forall b, b = true -> snd (run turns LoopState_init) !! n = Some b ->
    exists i p, (i <= n)%nat /\ turns !! i = Some p /\ snd (run turns LoopState_init) !! i = Some true /\
      turn_now tr - RECHECK_INTERVAL < turn_now p <= turn_now tr).
  { intros b -> Hb. exists n, tr. split_and!; [lia|done|done| |lia]. unfold RECHECK_INTERVAL, secs. lia. }
  destruct ran as [r|].
  - rewrite Hst in Hd. destruct (Z.leb_spec RECHECK_INTERVAL (turn_now tr - r)) as [Hge|Hlt]; [by eapply Hnow|].
    destruct (Hran r eq_refl) as (i & p & Hin & Hp & <- & Hpi & _). exists i, p.
    split_and!; [lia|done|done|lia|]. apply (Hc i n p tr); [lia|done|done].
  - eapply Hnow; [|exact Hd]. apply Z.leb_le. lia.
Qed.

(** Twenty turns a second apart; the relay is lost from the third on. *)
Definition outage_example : list Turn :=
  map (fun i => mkTurn (secs i) (if i <? 2 then None else Some NoDerpHome) true true) (seqZ 0 20).

Lemma outage_chronological : chronological outage_example.
Proof.
  intros i j a b Hij Ha Hb. unfold outage_example in *. rewrite list_lookup_fmap in Ha, Hb.
  apply fmap_Some in Ha as (x & Hx & ->), Hb as (y & Hy & ->).
  apply lookup_seqZ in Hx as [-> _], Hy as [-> _]. cbn [turn_now]. unfold secs. lia.
Qed.

Lemma sustained_outage_is_probed_witness :
  exists i p, outage_example !! i = Some p /\ snd (run outage_example LoopState_init) !! i = Some true.
Proof.
  destruct (sustained_outage_is_probed outage_example 2 14
    (mkTurn (secs 2) (Some NoDerpHome) true true) (mkTurn (secs 14) (Some NoDerpHome) true true) NoDerpHome)
    as (i & p & _ & Hp & Hr & _).
  - exact outage_chronological.
  - reflexivity.
  - lia.
  - vm_compute. reflexivity.
  - vm_compute. reflexivity.
  - intros k Hk. do 15 (destruct k as [|k]; [try lia; eexists; split; vm_compute; reflexivity|]). lia.
  - vm_compute. discriminate.
  - exists i, p. split; [exact Hp|exact Hr].
Defined.

(** The daemon probes, and warns, only with reason.  Each probe of a run
    comes at a turn that reports a connectivity fact which either every turn
    has reported for its whole settle time, or is transient and comes at
    least the recheck interval after an earlier probe of the same unbroken
    episode.  The warning stands after a run only if some probe found a
    portal, the gate was still open when it had, and every turn since
    reported something; so one healthy turn always clears it. *)
Theorem captive_warning_warranted (turns : list Turn) :
  chronological turns ->
  (forall n, snd (run turns LoopState_init) !! n = Some true ->
    exists tr w, turns !! n = Some tr /\ turn_impacted tr = Some w /\
      ((exists j tr0, (j <= n)%nat /\ turns !! j = Some tr0 /\
          (forall k, (j <= k <= n)%nat -> reports turns k w) /\ turn_now tr0 + settle_time w <= turn_now tr) \/
       (is_steady w = false /\ exists j tr0, (j < n)%nat /\ turns !! j = Some tr0 /\
          snd (run turns LoopState_init) !! j = Some true /\ turn_now tr0 + RECHECK_INTERVAL <= turn_now tr /\
          forall k, (j <= k <= n)%nat -> impacted_at turns k))) /\
  (captive_portal_detected (fst (run turns LoopState_init)) = true ->
    exists j tr, turns !! j = Some tr /\ snd (run turns LoopState_init) !! j = Some true /\
      turn_found tr = true /\ turn_still tr = true /\
      forall k, (j <= k < length turns)%nat -> impacted_at turns k).
Proof.
  intros Hc. destruct (run turns LoopState_init) as [s ps] eqn:E. cbn [fst snd].
  pose proof (schedule_run _ _ _ E) as Hs. split; [|by apply sch_warning].
  intros n Hn. assert (Hlt : (n < length turns)%nat)
    by (rewrite <- (sch_length _ _ _ Hs); by eapply lookup_lt_Some).
  destruct (lookup_lt_is_Some_2 turns n Hlt) as [tr Htr]. destruct (turn_impacted tr) as [w|] eqn:Hw.
  2: { destruct (run_at turns n tr Htr) as (s1 & ps1 & _ & _ & _ & _ & Hd). rewrite E in Hd. cbn [snd] in Hd.
       unfold loop_turn in Hd. rewrite Hw in Hd. cbn in Hd. congruence. }
  exists tr, w. split_and!; [done|done|].
  destruct (turn_decision turns n tr w Hc Htr Hw) as (j & tr0 & ran & Hjn & Hj & Hall & _ & Hran & Hd).
  rewrite E in Hran, Hd. cbn [snd] in Hran, Hd. rewrite Hn in Hd. injection Hd as Hd. destruct ran as [r|].
  - right. destruct (is_steady w); [done|]. symmetry in Hd. apply Z.leb_le in Hd. split; [done|].
    destruct (Hran r eq_refl) as (i & p & Hin & Hp & <- & Hpi & Himp). exists i, p. split_and!; [done..|lia|done].
  - left. symmetry in Hd. apply Z.leb_le in Hd. exists j, tr0. split_and!; [done..|lia].
Qed.

Lemma captive_warning_warranted_witness :
  exists j tr, outage_example !! j = Some tr /\ turn_found tr = true.
Proof.
  destruct (proj2 (captive_warning_warranted outage_example outage_chronological)) as (j & tr & Hj & _ & Hf & _).
  - vm_compute. reflexivity.
  - exists j, tr. split; [exact Hj|exact Hf].
Defined.

(** The pass's verdict does not depend on the order of the answers, and a
    failed transport is never evidence of a portal. *)
Lemma first_captive_iff outcomes : first_captive outcomes = true <-> Some true ∈ outcomes.
Proof.
  induction outcomes as [|[[]|] outcomes IH]; cbn [first_captive]; rewrite ?elem_of_cons.
  - split; [done|by intros ?%not_elem_of_nil].
  - split; [by left|done].
  - rewrite IH. naive_solver.
  - rewrite IH. naive_solver.
Qed.
