(* ===== verification/HostNet.v ===== *)
(** * The host's network: [src/ipn/linkmon.rs] and [src/ipforward.rs]

    What the daemon reads of the host's interfaces: the address snapshot the
    link monitor compares, whether any interface could reach the Internet,
    the state [debug --ifconfig] prints, and whether the kernel forwards what
    the node advertises; then the health of a turn of the captive-portal loop
    assembled from them.  Enumerating interfaces and reading a sysctl are
    parameters. *)
From Stdlib Require Import ZArith Lia Ascii String List.
From stdpp Require Import base gmap sets list strings option sorting.
From coqutil Require Datatypes.RecordSettersUsingExistingGetters.
Import coqutil.Datatypes.RecordSettersUsingExistingGetters.RecordSetNotations1.
From S2P Require Import Prelude NetAddr Routes Prefs Gates Captive.
Import LifecycleState.

#[global] Instance IpAddr_countable : Countable IpAddr.
Proof.
  refine (inj_countable' (fun a => match a with V4 b => inl b | V6 b => inr b end)
            (fun s : Z + Z => match s with inl b => V4 b | inr b => V6 b end) _).
  by intros [].
Defined.

(** ** Address classes *)

Definition segment (b : Z) (i : nat) : Z := nth i (segments b) 0.
Definition octet (b : Z) (i : nat) : Z := nth i (octets4 b) 0.

(** [IpAddr::is_loopback]. *)
Definition is_loopback (a : IpAddr) : bool :=
  match a with V4 b => octet b 0 =? 127 | V6 b => b =? 1 end.

Definition is_tailnet_v4 (b : Z) : bool := (octet b 0 =? 100) && (Z.land (octet b 1) 192 =? 64).
Definition is_tailnet_v6 (b : Z) : bool :=
  (segment b 0 =? 0xfd7a) && (segment b 1 =? 0x115c) && (segment b 2 =? 0xa1e0).

Definition is_tailscale_ip (a : IpAddr) : bool :=
  match a with V4 b => is_tailnet_v4 b | V6 b => is_tailnet_v6 b end.

Definition is_path_relevant (a : IpAddr) : bool :=
  if is_loopback a then false
  else match a with
       | V6 b => if Z.land (segment b 0) 0xffc0 =? 0xfe80 then false else negb (is_tailnet_v6 b)
       | V4 b => negb (is_tailnet_v4 b)
       end.

(** [Ipv4Addr::is_link_local]: [169.254.0.0/16]. *)
Definition is_usable_v4 (a : IpAddr) : bool :=
  match a with
  | V4 b => negb (is_loopback a) && negb ((octet b 0 =? 169) && (octet b 1 =? 254))
  | V6 _ => false
  end.

Definition is_usable_v6 (a : IpAddr) : bool :=
  match a with
  | V6 b =>
      (Z.land (segment b 0) 0xe000 =? 0x2000)
      || ((Z.land (segment b 0) 0xfe00 =? 0xfc00) && negb (is_tailnet_v6 b))
  | V4 _ => false
  end.

(** ** The link monitor *)

(** [LinkSnapshot]. *)
Definition LinkSnapshot : Type := gset IpAddr.

Definition from_addrs (addrs : list IpAddr) : LinkSnapshot :=
  list_to_set (List.filter is_path_relevant addrs).

Definition changed (last now : LinkSnapshot) : bool := negb (bool_decide (last = now)).

(** [snapshot]: an enumeration that fails reads as no address at all. *)
Definition snapshot (enumerated : option (list IpAddr)) : LinkSnapshot :=
  from_addrs (default [] enumerated).

(** One turn of [link_monitor_loop], after its sleep: the snapshot kept and
    whether the engine is told to rebind.  The answer of [rebind] is logged. *)
Definition monitor_turn (last : LinkSnapshot) (enumerated : option (list IpAddr)) (rebind_ok : bool)
    : LinkSnapshot * bool :=
  let now := snapshot enumerated in
  if changed last now then (now, true) else (last, false).

(** [link_monitor_loop]: the rebinds of its polls, from a baseline. *)
Fixpoint monitor (last : LinkSnapshot) (polls : list (option (list IpAddr) * bool)) : list bool :=
  match polls with
  | [] => []
  | (enumerated, rebind_ok) :: polls' =>
      let '(last', rebinds) := monitor_turn last enumerated rebind_ok in rebinds :: monitor last' polls'
  end.

Definition link_monitor_loop (baseline : option (list IpAddr)) (polls : list (option (list IpAddr) * bool))
    : list bool := monitor (snapshot baseline) polls.

(** ** Whether any interface is up *)

Record InterfaceAddr : Type := mkInterfaceAddr {
  ia_name : string;
  ia_ip : IpAddr;
  ia_prefix_len : Z;
  ia_index : option Z;
  ia_oper_up : bool;
  ia_point_to_point : bool
}.

(** [macos]: [cfg!(any(target_os = "macos", target_os = "ios"))]. *)
Definition is_tailscale_interface (macos : bool) (name : string) (ips : list IpAddr) : bool :=
  (macos && String.prefix "utun" name && existsb is_tailscale_ip ips)
  || String.eqb name "Tailscale" || String.prefix "tailscale" name.

Definition join_row (m : gmap string (bool * list IpAddr)) (a : InterfaceAddr) : gmap string (bool * list IpAddr) :=
  let '(up, ips) := default (false, []) (m !! ia_name a) in
  <[ia_name a := (up || ia_oper_up a, ips ++ [ia_ip a])]> m.

Definition any_interface_up_from (macos : bool) (addrs : list InterfaceAddr) : bool :=
  existsb (fun '(name, (up, ips)) =>
             up && negb (is_tailscale_interface macos name ips)
             && existsb (fun ip => is_usable_v4 ip || is_usable_v6 ip) ips)
    (map_to_list (fold_left join_row addrs ∅)).

Definition any_interface_up (macos : bool) (enumerated : option (list InterfaceAddr)) : option bool :=
  any_interface_up_from macos <$> enumerated.

Definition interface_ips (enumerated : option (list InterfaceAddr)) : option (list (string * IpAddr)) :=
  map (fun a => (ia_name a, ia_ip a)) <$> enumerated.

(** ** The state [debug --ifconfig] prints *)

Record InterfaceInfo : Type := mkInterfaceInfo {
  ii_index : option Z;
  ii_up : bool;
  ii_loopback : bool;
  ii_point_to_point : bool
}.

Record NetworkState : Type := mkNetworkState {
  ns_interface_ips : gmap string (list (IpAddr * Z));
  ns_interfaces : gmap string InterfaceInfo;
  ns_have_v4 : bool;
  ns_have_v6 : bool;
  ns_path : LinkSnapshot
}.

Definition merge_info (a : InterfaceAddr) (i : InterfaceInfo) : InterfaceInfo :=
  mkInterfaceInfo (match ii_index i with Some n => Some n | None => ia_index a end)
    (ii_up i || ia_oper_up a) (ii_loopback i || is_loopback (ia_ip a))
    (ii_point_to_point i || ia_point_to_point a).

Definition InterfaceInfo_default : InterfaceInfo := mkInterfaceInfo None false false false.

Definition from_interfaces (addrs : list InterfaceAddr) : NetworkState :=
  let path := from_addrs (map ia_ip addrs) in
  mkNetworkState
    (fold_left (fun m a => <[ia_name a := default [] (m !! ia_name a) ++ [(ia_ip a, ia_prefix_len a)]]> m) addrs ∅)
    (fold_left (fun m a => <[ia_name a := merge_info a (default InterfaceInfo_default (m !! ia_name a))]> m) addrs ∅)
    (existsb is_ipv4 (elements path))
    (existsb (fun ip => negb (is_ipv4 ip)) (elements path))
    path.

Definition path_changed (a b : NetworkState) : bool := changed (ns_path a) (ns_path b).

(** ** IP forwarding *)

Inductive Protocol : Type := P_V4 | P_V6.

Inductive Os : Type := Linux | Bsd | OtherOs.

(** [r.prefix_len() == r.max_prefix_len()]. *)
Definition single_ip (r : IpNet) : bool :=
  net_len r =? (if is_ipv4 (net_addr r) then 32 else 128).

Definition protocols_required_for_forwarding (routes : list IpNet) (ips : list (string * IpAddr)) : bool * bool :=
  fold_left (fun '(v4, v6) r =>
      if single_ip r && existsb (fun '(_, ip) => bool_decide (ip = net_addr r)) ips then (v4, v6)
      else if is_ipv4 (net_addr r) then (true, v6) else (v4, true))
    routes (false, false).

(** The names, each once; their order does not matter to the answer. *)
Definition names_of (ips : list (string * IpAddr)) : list string :=
  elements (list_to_set (map fst ips) : gset string).

(** The interfaces' flags: [None] when one cannot be read, otherwise whether
    any is enabled and whether the warning stands. *)
Fixpoint interface_flags (read : Protocol -> string -> result unit bool) (names : list string)
    (any_enabled warnings : bool) : option (bool * bool) :=
  match names with
  | [] => Some (any_enabled, warnings)
  | name :: names' =>
      if String.eqb name "lo" then interface_flags read names' any_enabled warnings
      else match read P_V4 name with
           | Err _ => None
           | Ok false => interface_flags read names' any_enabled true
           | Ok true => interface_flags read names' true warnings
           end
  end.

Definition ip_forwarding_broken_linux (routes : list IpNet) (ips : list (string * IpAddr))
    (read : Protocol -> string -> result unit bool) : bool :=
  let '(want_v4, want_v6) := protocols_required_for_forwarding routes ips in
  if negb want_v4 && negb want_v6 then false
  else match read P_V4 "", read P_V6 "" with
       | Ok v4e, Ok v6e =>
           if v4e && v6e then false
           else if negb want_v4 then false
           else match interface_flags read (names_of ips) false (want_v6 && negb v6e) with
                | None => false
                | Some (any_enabled, warnings) => negb any_enabled || warnings
                end
       | _, _ => false
       end.

Definition ip_forwarding_broken_os (os : Os) (routes : list IpNet) (ips : option (list (string * IpAddr)))
    (read : Protocol -> string -> result unit bool) : bool :=
  match os with
  | Linux => match ips with Some l => ip_forwarding_broken_linux routes l read | None => false end
  | Bsd => true
  | OtherOs => false
  end.

Definition ip_forwarding_broken (os : Os) (tun : bool) (routes : list IpNet)
    (ips : option (list (string * IpAddr))) (read : Protocol -> string -> result unit bool) : bool :=
  if negb tun || match routes with [] => true | _ => false end then false
  else ip_forwarding_broken_os os routes ips read.

Definition ip_forward_sysctl_key (p : Protocol) (iface : string) : string :=
  match p, iface with
  | P_V4, "" => "net/ipv4/ip_forward"
  | P_V6, "" => "net/ipv6/conf/all/forwarding"
  | P_V4, _ => "net/ipv4/conf/" ++ iface ++ "/forwarding"
  | P_V6, _ => "net/ipv6/conf/" ++ iface ++ "/forwarding"
  end%string.

(** ** The health of a turn *)

(** What a turn of the captive-portal loop reads: the platform, the
    interfaces, a sysctl, the engine's home relay when the report came, and
    the route parser. *)
Record HostView : Type := mkHostView {
  hv_macos : bool;
  hv_os : Os;
  hv_interfaces : option (list InterfaceAddr);
  hv_read : Protocol -> string -> result unit bool;
  hv_derp_home : option bool;
  hv_parse_net : string -> option IpNet;
  hv_trunc : IpNet -> IpNet
}.

(** [Backend::ip_forwarding_broken]. *)
Definition forwarding_broken_for (hv : HostView) (p : Prefs) : bool :=
  let routes := match calc_advertise_routes (hv_parse_net hv) (hv_trunc hv) (advertise_routes p) (advertise_exit_node p) with
                | Ok l => l
                | Err _ => []
                end in
  ip_forwarding_broken (hv_os hv) (tun_enabled p) routes (interface_ips (hv_interfaces hv)) (hv_read hv).

(** [connectivity_impacted]; [engine] is the installed engine's state, and
    [derived] what the backend reports without one. *)
Definition connectivity_impacted (hv : HostView) (p : Prefs) (engine : option State) (derived : State)
    : option ConnectivityWarnable :=
  if negb (want_running p) then None
  else
    let st := default derived engine in
    let health :=
      match st, engine with
      | Running, Some _ =>
          mkConnectivityHealth (any_interface_up (hv_macos hv) (hv_interfaces hv)) (hv_derp_home hv)
            (Some (negb (forwarding_broken_for hv p)))
      | _, _ => health_unknown
      end in
    connectivity_impacted_from st health.

(** * What holds of it *)

(** ** Interfaces, row by row *)

Definition ips_of (name : string) (addrs : list InterfaceAddr) : list IpAddr :=
  map ia_ip (List.filter (fun a => String.eqb (ia_name a) name) addrs).
Definition up_of (name : string) (addrs : list InterfaceAddr) : bool :=
  existsb (fun a => String.eqb (ia_name a) name && ia_oper_up a) addrs.

Lemma join_rows addrs m name :
  fold_left join_row addrs m !! name =
  match m !! name, ips_of name addrs with
  | None, [] => None
  | o, ips => Some (fst (default (false, []) o) || up_of name addrs, snd (default (false, []) o) ++ ips)
  end.
Proof.
  revert m. induction addrs as [|a addrs IH]; intros m.
  - cbn. destruct (m !! name) as [[u l]|]; [|done]. cbn. by rewrite orb_false_r, app_nil_r.
  - cbn [fold_left]. rewrite IH. unfold join_row, up_of, ips_of. cbn [List.filter existsb].
    destruct (String.eqb_spec (ia_name a) name) as [->|Hne].
    + destruct (m !! name) as [[u l]|] eqn:E; cbn; rewrite lookup_insert_eq; cbn;
        by rewrite ?orb_assoc, <- ?app_assoc.
    + destruct (default (false, []) (m !! ia_name a)) as [u l]. rewrite lookup_insert_ne by done.
      reflexivity.
Qed.

Lemma ips_of_spec name addrs ip : ip ∈ ips_of name addrs <-> exists a, a ∈ addrs /\ ia_name a = name /\ ia_ip a = ip.
Proof.
  unfold ips_of. rewrite list_elem_of_In, in_map_iff. split.
  - intros (a & <- & [Ha E%String.eqb_eq]%filter_In). exists a. by rewrite list_elem_of_In.
  - intros (a & Ha & <- & <-). exists a. split; [done|]. apply filter_In.
    rewrite String.eqb_refl. by rewrite <- list_elem_of_In.
Qed.

Lemma up_of_spec name addrs : up_of name addrs = true <-> exists a, a ∈ addrs /\ ia_name a = name /\ ia_oper_up a = true.
Proof.
  unfold up_of. rewrite existsb_exists. split.
  - intros (a & Ha & [E%String.eqb_eq Hu]%andb_true_iff). exists a. by rewrite list_elem_of_In.
  - intros (a & Ha & <- & Hu). exists a. by rewrite <- list_elem_of_In, String.eqb_refl.
Qed.

(** A path to the Internet, as the rows show it: an address that could carry
    one, on an interface that some row reports up and that is not the
    tailnet's own by its name and all its addresses. *)
Definition internet_path (macos : bool) (addrs : list InterfaceAddr) : Prop :=
  exists a, a ∈ addrs /\ (is_usable_v4 (ia_ip a) || is_usable_v6 (ia_ip a)) = true /\
    (exists u, u ∈ addrs /\ ia_name u = ia_name a /\ ia_oper_up u = true) /\
    is_tailscale_interface macos (ia_name a) (ips_of (ia_name a) addrs) = false.

Lemma any_interface_up_spec macos addrs : any_interface_up_from macos addrs = true <-> internet_path macos addrs.
Proof.
  unfold any_interface_up_from, internet_path. rewrite existsb_exists. split.
  - intros ([name [up ips]] & Hin & H). apply andb_true_iff in H as [H Hips].
    apply andb_true_iff in H as [Hup Hts]. apply list_elem_of_In, elem_of_map_to_list in Hin.
    rewrite join_rows, lookup_empty in Hin. cbn in Hin.
    destruct (ips_of name addrs) as [|i0 l0] eqn:Ei; [done|]. injection Hin as Hu <-.
    apply existsb_exists in Hips as (ip & Hip & Husable). rewrite <- Ei in Hip, Hts.
    apply list_elem_of_In, ips_of_spec in Hip as (a & Ha & Hn & <-). exists a. split; [done|].
    split; [done|]. rewrite Hn. split; [|by apply negb_true_iff in Hts].
    apply up_of_spec. by rewrite Hu.
  - intros (a & Ha & Husable & Hup & Hts).
    assert (Hip : ia_ip a ∈ ips_of (ia_name a) addrs) by (apply ips_of_spec; by exists a).
    exists (ia_name a, (true, ips_of (ia_name a) addrs)). split.
    + apply list_elem_of_In, elem_of_map_to_list. rewrite join_rows, lookup_empty. cbn.
      apply up_of_spec in Hup. rewrite Hup.
      destruct (ips_of (ia_name a) addrs); [by apply elem_of_nil in Hip|done].
    + rewrite Hts. cbn. apply existsb_exists. exists (ia_ip a). by rewrite <- list_elem_of_In.
Qed.

(** ** Forwarding *)

(** A route whose packets the kernel has to forward: not one of the host's
    own addresses. *)
Definition needs_forwarding (ips : list (string * IpAddr)) (r : IpNet) : Prop :=
  ~ (single_ip r = true /\ exists name, (name, net_addr r) ∈ ips).

Lemma own_address ips r : (single_ip r && existsb (fun '(_, ip) => bool_decide (ip = net_addr r)) ips) = false <->
  needs_forwarding ips r.
Proof.
  unfold needs_forwarding. rewrite <- not_true_iff_false, andb_true_iff, existsb_exists.
  apply not_iff_compat, and_iff_compat_l. split.
  - intros ([n ip] & Hin & ->%bool_decide_eq_true). exists n. by apply list_elem_of_In.
  - intros (n & Hin). exists (n, net_addr r). rewrite <- list_elem_of_In. split; [done|]. by apply bool_decide_eq_true.
Qed.

Definition wants (v4 : bool) (ips : list (string * IpAddr)) (r : IpNet) : bool :=
  negb (single_ip r && existsb (fun '(_, ip) => bool_decide (ip = net_addr r)) ips)
  && Bool.eqb (is_ipv4 (net_addr r)) v4.

Lemma protocols_fold routes ips v4 v6 : fold_left (fun '(v4, v6) r =>
      if single_ip r && existsb (fun '(_, ip) => bool_decide (ip = net_addr r)) ips then (v4, v6)
      else if is_ipv4 (net_addr r) then (true, v6) else (v4, true)) routes (v4, v6) =
  (v4 || existsb (wants true ips) routes, v6 || existsb (wants false ips) routes).
Proof.
  revert v4 v6. induction routes as [|r routes IH]; intros v4 v6; cbn [fold_left existsb];
    [by rewrite !orb_false_r|].
  unfold wants at 1 3. destruct (single_ip r && _); [apply IH|].
  destruct (is_ipv4 (net_addr r)); rewrite IH; cbn; by rewrite ?orb_true_r.
Qed.

Lemma wants_spec v4 ips routes : existsb (wants v4 ips) routes = true <->
  exists r, r ∈ routes /\ is_ipv4 (net_addr r) = v4 /\ needs_forwarding ips r.
Proof.
  rewrite existsb_exists. unfold wants. split.
  - intros (r & Hr & [Ho%negb_true_iff Hv%eqb_prop]%andb_true_iff). exists r. rewrite list_elem_of_In.
    by rewrite own_address in Ho.
  - intros (r & Hr & Hv & Hn). exists r. rewrite <- list_elem_of_In. split; [done|].
    apply own_address in Hn. rewrite Hn, Hv. apply eqb_reflx.
Qed.

Lemma protocols_required routes ips :
  protocols_required_for_forwarding routes ips = (existsb (wants true ips) routes, existsb (wants false ips) routes).
Proof. apply protocols_fold. Qed.

Lemma interface_flags_spec read names any w : interface_flags read names any w =
  let others := List.filter (fun n => negb (String.eqb n "lo")) names in
  if forallb (fun n => is_ok (read P_V4 n)) others
  then Some (any || existsb (fun n => match read P_V4 n with Ok b => b | Err _ => false end) others,
             w || existsb (fun n => match read P_V4 n with Ok b => negb b | Err _ => false end) others)
  else None.
Proof.
  revert any w. induction names as [|n names IH]; intros any w; cbn; [by rewrite !orb_false_r|].
  destruct (String.eqb n "lo"); cbn; [apply IH|].
  destruct (read P_V4 n) as [[|]|]; cbn; [| |done]; rewrite IH; cbn; by rewrite ?orb_true_r.
Qed.

(** The interfaces the check reads. *)
Definition routed_name (ips : list (string * IpAddr)) (n : string) : Prop :=
  n <> "lo"%string /\ exists ip, (n, ip) ∈ ips.

Lemma names_of_spec ips n :
  In n (List.filter (fun n => negb (String.eqb n "lo")) (names_of ips)) <-> routed_name ips n.
Proof.
  unfold routed_name, names_of. rewrite filter_In, negb_true_iff, String.eqb_neq, <- list_elem_of_In,
    elem_of_elements, elem_of_list_to_set, list_elem_of_In, in_map_iff. split.
  - intros [([n' ip] & <- & Hin) Hlo]. split; [done|]. exists ip. by apply list_elem_of_In.
  - intros [Hlo [ip Hin]]. split; [|done]. exists (n, ip). by rewrite <- list_elem_of_In.
Qed.

(** The node's advertised IPv4 routes will not be forwarded, as the sysctls
    themselves show it. *)
Definition unforwarded (routes : list IpNet) (ips : list (string * IpAddr))
    (read : Protocol -> string -> result unit bool) : Prop :=
  (exists r, r ∈ routes /\ is_ipv4 (net_addr r) = true /\ needs_forwarding ips r) /\
  exists v4e v6e, read P_V4 "" = Ok v4e /\ read P_V6 "" = Ok v6e /\ v4e && v6e = false /\
    (forall n, routed_name ips n -> is_ok (read P_V4 n) = true) /\
    ((forall n, routed_name ips n -> read P_V4 n = Ok false) \/
     (exists n, routed_name ips n /\ read P_V4 n = Ok false) \/
     (v6e = false /\ exists r, r ∈ routes /\ is_ipv4 (net_addr r) = false /\ needs_forwarding ips r)).

Lemma ip_forwarding_broken_linux_spec routes ips read :
  ip_forwarding_broken_linux routes ips read = true <-> unforwarded routes ips read.
Proof.
  unfold ip_forwarding_broken_linux, unforwarded. rewrite protocols_required, <- (wants_spec true). setoid_rewrite <- (wants_spec false).
  set (w4 := existsb (wants true ips) routes). set (w6 := existsb (wants false ips) routes).
  destruct (negb w4 && negb w6) eqn:Ew.
  { apply andb_true_iff in Ew as [->%negb_true_iff _]. split; [done|]. by intros [? _]. }
  destruct (read P_V4 "") as [v4e|[]]; [|split; [done|by intros (_ & v4 & v6 & ? & _)]].
  destruct (read P_V6 "") as [v6e|[]]; [|split; [done|by intros (_ & v4 & v6 & _ & ? & _)]].
  destruct (v4e && v6e) eqn:Ee.
  { split; [done|]. intros (_ & v4 & v6 & [= <-] & [= <-] & E & _). by rewrite Ee in E. }
  destruct w4 eqn:E4; cbn [negb]; [|by split; [|intros [? _]]].
  rewrite interface_flags_spec. cbn zeta.
  destruct (forallb _ _) eqn:Ef.
  - rewrite forallb_forall in Ef. setoid_rewrite names_of_spec in Ef.
    rewrite !orb_false_l, !orb_true_iff, negb_true_iff, <- not_true_iff_false, !existsb_exists, andb_true_iff.
    setoid_rewrite names_of_spec. split.
    + intros H. split; [done|]. exists v4e, v6e. split_and!; [done..|].
      destruct H as [H|[[H6 ->%negb_true_iff]|(n & Hn & H)]]; [left|by right; right|right; left].
      * intros n Hn. specialize (Ef n Hn). destruct (read P_V4 n) as [[|]|] eqn:En; [|done..].
        exfalso. apply H. exists n. by rewrite En.
      * exists n. by destruct (read P_V4 n) as [[|]|].
    + intros (_ & v4 & v6 & [= <-] & [= <-] & _ & _ & [H|[(n & Hn & H)|[-> H6]]]).
      * left. intros (n & Hn & Hb). by rewrite (H n Hn) in Hb.
      * right; right. exists n. by rewrite H.
      * right; left. by split.
  - split; [done|]. intros (_ & v4 & v6 & _ & _ & _ & Hok & _). exfalso.
    rewrite <- not_true_iff_false, forallb_forall in Ef. apply Ef. intros n Hn%names_of_spec. by apply Hok.
Qed.

(** ** The verdict of a turn *)

(** What each warnable's evidence is. *)
Definition evidence (hv : HostView) (p : Prefs) (w : ConnectivityWarnable) : Prop :=
  match w with
  | NetworkStatus => exists addrs, hv_interfaces hv = Some addrs /\ ~ internet_path (hv_macos hv) addrs
  | NoDerpHome => hv_derp_home hv = Some false
  | IpForwardingOff =>
      tun_enabled p = true /\
      exists routes, calc_advertise_routes (hv_parse_net hv) (hv_trunc hv) (advertise_routes p) (advertise_exit_node p)
                     = Ok routes /\ routes <> [] /\
        match hv_os hv with
        | Linux => exists addrs, hv_interfaces hv = Some addrs /\
                     unforwarded routes (map (fun a => (ia_name a, ia_ip a)) addrs) (hv_read hv)
        | Bsd => True
        | OtherOs => False
        end
  end.

(** The order in which they are told: the sooner visible first, the steady
    condition last. *)
Definition precedes (w w' : ConnectivityWarnable) : Prop :=
  match w, w' with
  | NetworkStatus, (NoDerpHome | IpForwardingOff) | NoDerpHome, IpForwardingOff => True
  | _, _ => False
  end.

Lemma network_evidence hv p : any_interface_up (hv_macos hv) (hv_interfaces hv) = Some false <-> evidence hv p NetworkStatus.
Proof.
  cbn. unfold any_interface_up. destruct (hv_interfaces hv) as [addrs|]; cbn;
    [|split; [done|by intros (? & ? & _)]].
  split.
  - intros [= H]. exists addrs. split; [done|]. rewrite <- any_interface_up_spec. by rewrite H.
  - intros (? & [= <-] & H). rewrite <- any_interface_up_spec in H. by apply not_true_is_false in H as ->.
Qed.

Lemma forwarding_evidence hv p : forwarding_broken_for hv p = true <-> evidence hv p IpForwardingOff.
Proof.
  cbn. unfold forwarding_broken_for, ip_forwarding_broken, interface_ips.
  destruct (tun_enabled p); cbn [negb orb]; [|split; [done|by intros []]].
  destruct (calc_advertise_routes _ _ _ _) as [routes|]; cbn;
    [|split; [done|by intros (_ & ? & ? & _)]].
  destruct routes as [|r routes]; [split; [done|by intros (_ & ? & [= <-] & ? & _)]|].
  unfold ip_forwarding_broken_os. destruct (hv_os hv).
  - destruct (hv_interfaces hv) as [addrs|]; cbn.
    + rewrite ip_forwarding_broken_linux_spec. split.
      * intros H. split; [done|]. eexists. split; [done|]. split; [done|]. by eexists.
      * by intros (_ & ? & [= <-] & _ & ? & [= <-] & H).
    + split; [done|]. by intros (_ & ? & _ & _ & ? & ? & _).
  - split; [|done]. intros _. split; [done|]. by eexists.
  - split; [done|]. by intros (_ & ? & _ & _ & []).
Qed.


(** ** The link monitor *)

Definition path_of (enumerated : option (list IpAddr)) : list IpAddr :=
  List.filter is_path_relevant (default [] enumerated).

Lemma changed_spec a b : changed (snapshot a) (snapshot b) = true <-> ~ (forall ip, ip ∈ path_of a <-> ip ∈ path_of b).
Proof.
  unfold changed, snapshot, from_addrs, path_of. rewrite negb_true_iff, bool_decide_eq_false.
  apply not_iff_compat. rewrite set_eq. setoid_rewrite elem_of_list_to_set. done.
Qed.

Lemma monitor_turn_keeps last e ok : fst (monitor_turn last e ok) = snapshot e.
Proof.
  unfold monitor_turn, changed. destruct (decide (last = snapshot e)) as [->|Hne].
  - by rewrite (bool_decide_eq_true_2 _ eq_refl).
  - by rewrite (bool_decide_eq_false_2 _ Hne).
Qed.

Lemma monitor_edges polls last : monitor last polls =
  zip_with changed (last :: map (fun p => snapshot (fst p)) polls) (map (fun p => snapshot (fst p)) polls).
Proof.
  revert last. induction polls as [|[e ok] polls IH]; intros last; [done|]. cbn [monitor map zip_with fst].
  pose proof (monitor_turn_keeps last e ok) as Hk. destruct (monitor_turn last e ok) as [last' r] eqn:E.
  cbn [fst] in Hk. subst last'. rewrite IH. f_equal.
  unfold monitor_turn in E. destruct (changed last (snapshot e)); by inversion E.
Qed.


(** A rebind that fails is not tried again while the path stays as it is. *)
Lemma failed_rebind_not_retried :
  link_monitor_loop (Some [V4 (NetAddr.ipv4 192 168 1 2)])
    [(Some [V4 (NetAddr.ipv4 10 0 0 2)], false); (Some [V4 (NetAddr.ipv4 10 0 0 2)], true)] = [true; false].
Proof. vm_compute. reflexivity. Qed.

(** ** At work *)

Definition eth0_example : InterfaceAddr := mkInterfaceAddr "eth0" (V4 (NetAddr.ipv4 192 168 1 2)) 24 (Some 2) true false.
Definition subnet_example : IpNet := mkIpNet (V4 (NetAddr.ipv4 10 9 0 0)) 16.
Definition router_prefs : Prefs :=
  Prefs_default <| want_running := true |> <| tun_enabled := true |> <| advertise_routes := ["10.9.0.0/16"%string] |>.

(** A Linux router whose only uplink does not forward. *)
Definition router_view : HostView :=
  mkHostView false Linux (Some [eth0_example])
    (fun proto iface => Ok (match proto with P_V4 => String.eqb iface "" | P_V6 => false end))
    (Some true) (fun _ => Some subnet_example) (fun n => n).


