(* ===== verification/HostGates.v ===== *)
(** * What this build and host allow: [src/tunflag.rs] and [src/featureknob.rs]

    The [--tun] flag resolved over its list of candidates, who may create a
    kernel TUN device, and whether the machine may run the SSH server.  The
    platform, the effective uid, the build's features and the environment are
    arguments. *)
From Stdlib Require Import ZArith Lia Ascii String List.
From stdpp Require Import base list strings option.
From coqutil Require Datatypes.RecordSettersUsingExistingGetters.
Import coqutil.Datatypes.RecordSettersUsingExistingGetters.RecordSetNotations1.
From S2P Require Import Prelude NetAddr Text Prefs EngineConfig Backend.

(** ** [--tun] *)

Definition USERSPACE_NETWORKING : bytes := bs "userspace-networking".
Definition DARWIN : bytes := bs "darwin".

(** The reasons, one per sentence; [NoCandidate] lists every candidate's. *)
Inductive CandidateError : Type :=
| EmptyName
| TapUnsupported (name : bytes)
| NoTunFeature
| DarwinNotRoot.

Inductive TunRefusal : Type :=
| DarwinRootRefusal
| NoTunValue
| NoCandidate (reasons : list (bytes * CandidateError)).

Definition darwin_root_refusal (value goos : bytes) (euid : Z) : option TunRefusal :=
  if bool_decide (goos = DARWIN) && negb (euid =? 0) && negb (contains_bytes USERSPACE_NETWORKING value)
  then Some DarwinRootRefusal else None.

Definition kernel_tun_privilege (goos : bytes) (euid : Z) : result CandidateError unit :=
  guard_err (bool_decide (goos = DARWIN) && negb (euid =? 0)) DarwinNotRoot.

Definition candidate (name : bytes) (tun_feature : bool) (goos : bytes) (euid : Z)
    : result CandidateError TunTransport :=
  if bool_decide (name = USERSPACE_NETWORKING) then Ok TransportNetstack
  else match name with
  | [] => Err EmptyName
  | _ =>
    if starts_with (bs "tap:") name then Err (TapUnsupported name)
    else if negb tun_feature then Err NoTunFeature
    else
      _ ← kernel_tun_privilege goos euid;
      Ok (TransportTun (if bool_decide (goos = DARWIN) && bool_decide (name = bs "utun") then None
                        else Some (string_of_list_ascii name)))
  end.

(** The loop over the candidates, with the reasons so far. *)
Fixpoint first_usable (names : list bytes) (tun_feature : bool) (goos : bytes) (euid : Z)
    (reasons : list (bytes * CandidateError)) : result TunRefusal TunTransport :=
  match names with
  | [] => Err (NoCandidate reasons)
  | name :: names' =>
      match candidate name tun_feature goos euid with
      | Ok transport => Ok transport
      | Err why => first_usable names' tun_feature goos euid (reasons ++ [(name, why)])
      end
  end.

Definition resolve_with (value : bytes) (tun_feature : bool) (goos : bytes) (euid : Z)
    : result TunRefusal TunTransport :=
  match darwin_root_refusal value goos euid with
  | Some line => Err line
  | None =>
      match value with
      | [] => Err NoTunValue
      | _ => first_usable (split_on "," value) tun_feature goos euid []
      end
  end.

(** ** The SSH server *)

Definition SSH_SUPPORTED_OS : list string := ["linux"; "macos"; "freebsd"; "openbsd"; "plan9"]%string.

Definition parse_go_bool (value : string) : option bool :=
  if bool_decide (value ∈ ["1"; "t"; "T"; "TRUE"; "true"; "True"]%string) then Some true
  else if bool_decide (value ∈ ["0"; "f"; "F"; "FALSE"; "false"; "False"]%string) then Some false
  else None.

Definition can_sshd (value : option string) : bool :=
  match value with
  | None => true
  | Some v =>
      if String.eqb v "" then true
      else match parse_go_bool v with Some disabled => negb disabled | None => false end
  end.

Inductive SshRefusal : Type :=
| SshUnsupportedOs (os : string)
| SshAdministrativelyDisabled.

Definition can_run_tailscale_ssh_in (os : string) (disable_ssh_server : option string) : result SshRefusal unit :=
  _ ← guard_err (negb (bool_decide (os ∈ SSH_SUPPORTED_OS))) (SshUnsupportedOs os);
  guard_err (negb (can_sshd disable_ssh_server)) SshAdministrativelyDisabled.

(** The gates of a host, as the engine configuration reads them. *)
Definition host_gates (tun_feature : bool) (goos os : bytes) (euid : Z) (disable_ssh_server : option string)
    (h : Host) : Host :=
  h <| feature_tun := tun_feature |>
    <| tun_privileged := is_ok (kernel_tun_privilege goos euid) |>
    <| can_run_ssh := is_ok (can_run_tailscale_ssh_in (string_of_list_ascii os) disable_ssh_server) |>
    <| is_root := euid =? 0 |>.

(** * What holds of it *)

(** ** The flag *)

Lemma first_usable_spec names feature goos euid reasons :
  match first_usable names feature goos euid reasons with
  | Ok t => exists before name after, names = before ++ name :: after /\
              Forall (fun n => is_ok (candidate n feature goos euid) = false) before /\
              candidate name feature goos euid = Ok t
  | Err r => exists whys, r = NoCandidate (reasons ++ combine names whys) /\
               Forall2 (fun n why => candidate n feature goos euid = Err why) names whys
  end.
Proof.
  revert reasons. induction names as [|n names IH]; intros reasons; cbn [first_usable].
  - exists []. by rewrite app_nil_r.
  - destruct (candidate n feature goos euid) as [t|why] eqn:E.
    + exists [], n, names. by split_and!.
    + specialize (IH (reasons ++ [(n, why)])). destruct (first_usable _ _ _ _ _) as [t|r].
      * destruct IH as (before & name & after & -> & Hb & Hc). exists (n :: before), name, after.
        split_and!; [done| |done]. constructor; [by rewrite E|done].
      * destruct IH as (whys & -> & H2). exists (why :: whys). cbn. rewrite <- app_assoc. split; [done|].
        by constructor.
Qed.

(** What the flag's transport leaves in the prefs ([apply_tun_flag]). *)
Definition with_transport (t : TunTransport) (p : Prefs) : Prefs :=
  match t with
  | TransportNetstack => p <| tun_enabled := false |>
  | TransportTun name => p <| tun_enabled := true |> <| tun_name := name |>
  end.

Lemma candidate_tun name feature goos euid n : candidate name feature goos euid = Ok (TransportTun n) ->
  feature = true /\ kernel_tun_privilege goos euid = Ok tt.
Proof.
  unfold candidate. case_bool_decide; [done|]. destruct name; [done|].
  destruct (starts_with _ _); [done|]. destruct feature; [|done]. cbn [negb].
  intros (u & Hu & _)%bind_ok. by destruct u.
Qed.


(** ** The SSH knob *)

(** The server may run only where the platform supports it and the knob is
    absent, empty or a false the parser knows: a value it does not know
    refuses. *)
Lemma ssh_knob_fails_closed os knob : is_ok (can_run_tailscale_ssh_in os knob) = true <->
  os ∈ SSH_SUPPORTED_OS /\
  (knob = None \/ exists v, knob = Some v /\ (v = ""%string \/ parse_go_bool v = Some false)).
Proof.
  unfold can_run_tailscale_ssh_in. destruct (bool_decide (os ∈ SSH_SUPPORTED_OS)) eqn:E.
  2:{ apply bool_decide_eq_false in E. split; [done|]. by intros [? _]. }
  apply bool_decide_eq_true in E. cbn. unfold can_sshd. destruct knob as [v|]; cbn; [|by intuition left].
  destruct (String.eqb_spec v "") as [->|Hv]; cbn.
  { split; [|done]. intros _. split; [done|]. right. exists ""%string. auto. }
  split.
  - destruct (parse_go_bool v) as [[|]|] eqn:Ev; [done| |done]. intros _. split; [done|]. right. exists v. auto.
  - intros [_ [?|(? & [= <-] & [?|H])]]; [done|done|]. by rewrite H.
Qed.

(** ** At work *)

Lemma tun_flag_falls_back :
  resolve_with (bs "tailscale0,userspace-networking") false (bs "linux") 1000 = Ok TransportNetstack /\
  resolve_with (bs "tap:t0,tailscale0") true (bs "linux") 1000 = Ok (TransportTun (Some "tailscale0"%string)) /\
  resolve_with (bs "utun") true (bs "darwin") 0 = Ok (TransportTun None) /\
  resolve_with (bs "tap:t0,") true (bs "linux") 0
    = Err (NoCandidate [(bs "tap:t0", TapUnsupported (bs "tap:t0")); ([], EmptyName)]).
Proof. vm_compute. done. Qed.
