(* ===== verification/HostReap.v ===== *)
(** * The startup reaper of stale host state: [src/hostreap.rs]

    The routing table as [netstat] prints it, which of its entries a hard
    kill left behind, and the commands the pass runs to remove them and the
    resolver dictionary.  The commands' answers, the interfaces that exist
    and the platform are parameters. *)
From Stdlib Require Import ZArith Lia Ascii String List.
From stdpp Require Import base list strings option.
From S2P Require Import Prelude NetAddr Text Routes.

Definition DNS_KEY : bytes := bs "State:/Network/Service/tailscale-rs/DNS".
Definition TUN_IF_PREFIX : bytes := bs "utun".

Record FibEntry : Type := mkFibEntry {
  destination : IpNet;
  gateway : bytes;
  flags : bytes;
  netif : bytes
}.

Record ReapReport : Type := mkReapReport {
  skipped : bool;
  routes_reaped : list (IpNet * bytes);
  routes_failed : list (IpNet * bytes);
  dns_key_reaped : bool
}.

Definition ReapReport_default : ReapReport := mkReapReport false [] [] false.

(** ** The table *)

(** [Ipv4Net::new]. *)
Definition ipv4_net (b len : Z) : option IpNet := if len <=? 32 then Some (mkIpNet (V4 b) len) else None.

Definition parse_u8 (s : bytes) : option Z := from_str_radix 10 256 s.

(** The octets of the address column, at most four. *)
Fixpoint parse_octets (parts : list bytes) (count : nat) : option (list Z) :=
  match parts with
  | [] => Some []
  | part :: parts' =>
      if Nat.eqb count 4 || match part with [] => true | _ => false end || negb (forallb is_ascii_digit part)
      then None
      else
        octet ← parse_u8 part;
        rest ← parse_octets parts' (S count);
        Some (octet :: rest)
  end.

Definition parse_destination (token : bytes) : option IpNet :=
  if bool_decide (token = bs "default") then ipv4_net 0 0
  else
    '(addr_part, explicit_prefix) ←
      match split_once "/" token with
      | Some (addr, len) => len ← parse_u8 len; Some (addr, Some len)
      | None => Some (token, None)
      end;
    octets ← parse_octets (split_on "." addr_part) 0;
    ipv4_net (be_value 256 (take 4 (octets ++ [0; 0; 0; 0])))
      (default (Z.of_nat (length octets) * 8) explicit_prefix).

Definition netstat_row (line : bytes) : option FibEntry :=
  match split_whitespace line with
  | dest :: gw :: fl :: nif :: _ => d ← parse_destination dest; Some (mkFibEntry d gw fl nif)
  | _ => None
  end.

Definition parse_netstat_inet (output : bytes) : list FibEntry := omap netstat_row (lines output).

(** ** What a hard kill leaves *)

Definition is_interface_scoped_utun_route (entry : FibEntry) : bool :=
  starts_with TUN_IF_PREFIX (netif entry) && bool_decide (gateway entry = netif entry)
  && existsb (Ascii.eqb "S") (flags entry).

Definition stale_utun_routes (entries : list FibEntry) (iface_exists : bytes -> bool) : list FibEntry :=
  List.filter (fun e => is_interface_scoped_utun_route e && negb (iface_exists (netif e))) entries.

(** ** The commands *)

(** [Ipv4Net]'s Display. *)
Definition show_net (n : IpNet) : bytes :=
  match net_addr n with V4 b => show_ipv4 b | V6 b => show_ipv6 b end ++ bs "/" ++ show_dec (net_len n).

Definition route_delete_argv (if_name : bytes) (net : IpNet) : list bytes :=
  [bs "-n"; bs "-q"; bs "delete"; bs "-inet"; show_net net; bs "-interface"; if_name].

Definition route_delete_dest_argv (net : IpNet) : list bytes :=
  [bs "-n"; bs "-q"; bs "delete"; bs "-inet"; show_net net].

Definition scutil_show_script : bytes := bs "open" ++ [LF] ++ bs "show " ++ DNS_KEY ++ [LF] ++ bs "quit" ++ [LF].
Definition scutil_remove_script : bytes := bs "open" ++ [LF] ++ bs "remove " ++ DNS_KEY ++ [LF] ++ bs "quit" ++ [LF].

Inductive KeyState : Type := KeyPresent | KeyAbsent | KeyUnknown.

Definition scutil_key_state (stdout : bytes) : KeyState :=
  if contains_bytes (bs "No such key") stdout then KeyAbsent
  else if contains_bytes (bs "<dictionary>") stdout then KeyPresent
  else KeyUnknown.

(** What the pass runs. *)
Inductive HostCommand : Type :=
| RunNetstat
| RunRoute (argv : list bytes)
| RunScutil (script : bytes).

(** The host as the pass meets it: its answers to the [n]-th command. *)
Record ReapHost : Type := mkReapHost {
  rh_netstat : option bytes;
  rh_iface_exists : bytes -> bool;
  rh_route : nat -> list bytes -> bool;
  rh_scutil : bytes -> option bytes
}.

(** [delete_route], at the [n]-th command: the commands and whether the route
    is gone. *)
Definition delete_route (h : ReapHost) (n : nat) (entry : FibEntry) : list HostCommand * bool :=
  let scoped := route_delete_argv (netif entry) (destination entry) in
  if rh_route h n scoped then ([RunRoute scoped], true)
  else
    let by_dest := route_delete_dest_argv (destination entry) in
    ([RunRoute scoped; RunRoute by_dest], rh_route h (S n) by_dest).

Fixpoint delete_routes (h : ReapHost) (n : nat) (entries : list FibEntry) (report : ReapReport)
    : list HostCommand * ReapReport :=
  match entries with
  | [] => ([], report)
  | e :: entries' =>
      let '(cmds, gone) := delete_route h n e in
      let row := (destination e, netif e) in
      let report :=
        if (gone : bool)
        then mkReapReport (skipped report) (routes_reaped report ++ [row]) (routes_failed report) (dns_key_reaped report)
        else mkReapReport (skipped report) (routes_reaped report) (routes_failed report ++ [row]) (dns_key_reaped report) in
      let '(cmds', report) := delete_routes h (n + length cmds) entries' report in
      (cmds ++ cmds', report)
  end.

Definition reap_routes (h : ReapHost) (report : ReapReport) : list HostCommand * ReapReport :=
  match rh_netstat h with
  | None => ([RunNetstat], report)
  | Some table =>
      let '(cmds, report) :=
        delete_routes h 1 (stale_utun_routes (parse_netstat_inet table) (rh_iface_exists h)) report in
      (RunNetstat :: cmds, report)
  end.

Definition reap_dns_key (h : ReapHost) (report : ReapReport) : list HostCommand * ReapReport :=
  match rh_scutil h scutil_show_script with
  | None => ([RunScutil scutil_show_script], report)
  | Some stdout =>
      match scutil_key_state stdout with
      | KeyPresent =>
          ([RunScutil scutil_show_script; RunScutil scutil_remove_script],
           match rh_scutil h scutil_remove_script with
           | Some _ => mkReapReport (skipped report) (routes_reaped report) (routes_failed report) true
           | None => report
           end)
      | _ => ([RunScutil scutil_show_script], report)
      end
  end.

Definition reap_disabled (value : option string) : bool := bool_decide (value = Some "1"%string).

Definition reap_stale_host_state (no_reap : option string) (macos : bool) (euid : Z) (h : ReapHost)
    : list HostCommand * ReapReport :=
  if reap_disabled no_reap || negb macos || negb (euid =? 0) then ([], mkReapReport true [] [] false)
  else
    let '(cmds, report) := reap_routes h ReapReport_default in
    let '(cmds', report) := reap_dns_key h report in
    (cmds ++ cmds', report).

Definition reaped_anything (r : ReapReport) : bool :=
  dns_key_reaped r || match routes_reaped r with [] => false | _ => true end.

(** * What holds of it *)

(** ** What the pass may run *)

(** A route the engine leaves behind, of an interface that is gone. *)
Definition leftover (h : ReapHost) (e : FibEntry) : Prop :=
  (exists table, rh_netstat h = Some table /\ In e (parse_netstat_inet table)) /\
  (exists unit, netif e = TUN_IF_PREFIX ++ unit) /\ gateway e = netif e /\ In "S"%char (flags e) /\
  rh_iface_exists h (netif e) = false.

Lemma stale_spec table exists_ e : In e (stale_utun_routes (parse_netstat_inet table) exists_) <->
  In e (parse_netstat_inet table) /\ (exists unit, netif e = TUN_IF_PREFIX ++ unit) /\ gateway e = netif e /\
  In "S"%char (flags e) /\ exists_ (netif e) = false.
Proof.
  unfold stale_utun_routes, is_interface_scoped_utun_route.
  rewrite filter_In, !andb_true_iff, negb_true_iff, starts_with_iff, bool_decide_eq_true, existsb_exists.
  setoid_rewrite Ascii.eqb_eq. split.
  - intros (Hin & ((Hp & Hg) & (c & Hc & <-)) & Hx). done.
  - intros (Hin & Hp & Hg & Hs & Hx). split_and!; [done..| |done]. by exists "S"%char.
Qed.

Definition permitted (h : ReapHost) (cmd : HostCommand) : Prop :=
  match cmd with
  | RunNetstat => True
  | RunRoute argv => exists e, leftover h e /\
      (argv = route_delete_argv (netif e) (destination e) \/ argv = route_delete_dest_argv (destination e))
  | RunScutil script =>
      script = scutil_show_script \/
      (script = scutil_remove_script /\ exists out, rh_scutil h scutil_show_script = Some out /\
         contains_bytes (bs "<dictionary>") out = true /\ contains_bytes (bs "No such key") out = false)
  end.

Definition row_of (e : FibEntry) : IpNet * bytes := (destination e, netif e).

Lemma delete_routes_spec h n es r : let '(cmds, r') := delete_routes h n es r in
  (forall cmd, In cmd cmds -> exists argv e, cmd = RunRoute argv /\ In e es /\
     (argv = route_delete_argv (netif e) (destination e) \/ argv = route_delete_dest_argv (destination e))) /\
  skipped r' = skipped r /\ dns_key_reaped r' = dns_key_reaped r /\
  routes_reaped r' ++ routes_failed r' ≡ₚ routes_reaped r ++ routes_failed r ++ map row_of es.
Proof.
  revert n r. induction es as [|e es IH]; intros n r; cbn [delete_routes]; [by rewrite app_nil_r|].
  destruct (delete_route h n e) as [cmds gone] eqn:E.
  assert (Hc : forall cmd, In cmd cmds -> exists argv, cmd = RunRoute argv /\
    (argv = route_delete_argv (netif e) (destination e) \/ argv = route_delete_dest_argv (destination e))).
  { unfold delete_route in E. destruct (rh_route h n _); injection E as <- _; intros cmd; cbn; naive_solver. }
  set (r1 := if gone then _ else _). specialize (IH (n + length cmds)%nat r1).
  destruct (delete_routes h (n + length cmds) es r1) as [cmds' r']. destruct IH as (Hi & Hs & Hd & Hp).
  split_and!.
  - intros cmd [H|H]%in_app_iff.
    + destruct (Hc _ H) as (argv & -> & Ha). exists argv, e. split_and!; [done|by left|done].
    + destruct (Hi _ H) as (argv & e' & -> & He & Ha). exists argv, e'. split_and!; [done|by right|done].
  - rewrite Hs. by destruct gone.
  - rewrite Hd. by destruct gone.
  - rewrite Hp. subst r1. destruct gone; cbn; unfold row_of at 2; cbn; solve_Permutation.
Qed.


(** ** The table reads back *)

(** How [netstat] may print a destination: [default], or the leading octets
    of the address with the trailing zeros dropped, the prefix length left
    out where it is eight times their number. *)
Definition netstat_prints (token : bytes) (b len : Z) : Prop :=
  (token = bs "default" /\ b = 0 /\ len = 0) \/
  exists k suffix, (0 < k <= 4)%nat /\ drop k (octets4 b) = repeat 0 (4 - k) /\
    token = join_bytes (bs ".") (map show_dec (take k (octets4 b))) ++ suffix /\
    (suffix = bs "/" ++ show_dec len \/ (suffix = [] /\ len = Z.of_nat k * 8)).

Lemma u8_text z : 0 <= z < 256 ->
  parse_u8 (show_dec z) = Some z /\ forallb is_ascii_digit (show_dec z) = true /\ show_dec z <> [].
Proof.
  intros H.
  assert (Hall : forallb (fun n => let z := Z.of_nat n in
    bool_decide (parse_u8 (show_dec z) = Some z) && forallb is_ascii_digit (show_dec z)
    && negb (bool_decide (show_dec z = []))) (seq 0 256) = true) by (vm_compute; reflexivity).
  rewrite forallb_forall in Hall. specialize (Hall (Z.to_nat z)). cbn zeta in Hall.
  rewrite Z2Nat.id in Hall by lia.
  assert (Hin : In (Z.to_nat z) (seq 0 256)) by (apply in_seq; lia).
  apply Hall in Hin as [[H1 H2]%andb_true_iff H3]%andb_true_iff.
  apply bool_decide_eq_true in H1. by apply negb_true_iff, bool_decide_eq_false in H3.
Qed.

Lemma digits_no c s : forallb is_ascii_digit s = true -> is_ascii_digit c = false -> ~ In c s.
Proof. rewrite forallb_forall. intros H Hc Hin. apply H in Hin. congruence. Qed.

Lemma digits_printable s : forallb is_ascii_digit s = true -> Forall (fun c => printable c = true) s.
Proof.
  rewrite forallb_forall, List.Forall_forall. intros H c Hc. apply H in Hc. unfold is_ascii_digit in Hc.
  unfold printable. lia.
Qed.

Lemma split_on_none c s : ~ In c s -> split_on c s = [s].
Proof.
  induction s as [|d s IH]; [done|]. cbn [split_on In]. intros H.
  destruct (Ascii.eqb_spec c d) as [->|Hne]; [tauto|]. rewrite IH by tauto. done.
Qed.

Lemma split_join c l : l <> [] -> Forall (fun s => ~ In c s) l -> split_on c (join_bytes [c] l) = l.
Proof.
  intros Hne Hl. induction Hl as [|s l Hs Hl IH]; [done|]. destruct l as [|s' l].
  - cbn. by apply split_on_none.
  - change (join_bytes [c] (s :: s' :: l)) with (s ++ c :: join_bytes [c] (s' :: l)).
    rewrite split_on_cut by done. f_equal. by apply IH.
Qed.

Lemma parse_octets_show l count : Forall (fun z => 0 <= z < 256) l -> (count + length l <= 4)%nat ->
  parse_octets (map show_dec l) count = Some l.
Proof.
  intros Hl. revert count. induction Hl as [|z l Hz Hl IH]; intros count Hc; [done|]. cbn [map parse_octets].
  cbn in Hc. destruct (u8_text z Hz) as (Hp & Hd & Hne). rewrite (proj2 (Nat.eqb_neq count 4)) by lia.
  rewrite Hd, Hp. destruct (show_dec z) eqn:E; [done|]. cbn. by rewrite IH by lia.
Qed.

Lemma octets_bytes b k : Forall (fun z => 0 <= z < 256) (take k (octets4 b)).
Proof.
  apply List.Forall_forall. intros z Hz. apply (be_digits_range 256 4 b z); [lia|].
  apply list_elem_of_In in Hz. by eapply subseteq_take.
Qed.

Lemma octets_no c b k : is_ascii_digit c = false -> Forall (fun s => ~ In c s) (map show_dec (take k (octets4 b))).
Proof.
  intros Hc. apply List.Forall_map. eapply List.Forall_impl; [|apply octets_bytes]. intros z Hz.
  apply digits_no; [by apply u8_text|done].
Qed.

Lemma join_not_in c sep l : ~ In c sep -> Forall (fun s => ~ In c s) l -> ~ In c (join_bytes sep l).
Proof.
  intros Hs Hl. induction Hl as [|s l Hn Hl IH]; [by intros []|]. destruct l as [|s' l]; [exact Hn|].
  change (join_bytes sep (s :: s' :: l)) with (s ++ sep ++ join_bytes sep (s' :: l)).
  rewrite !in_app_iff. tauto.
Qed.

Lemma join_head c s sep l : exists t, join_bytes sep ((c :: s) :: l) = c :: t.
Proof. destruct l; by eexists. Qed.

Lemma parse_destination_prints token b len : 0 <= b < 2 ^ 32 -> 0 <= len <= 32 ->
  netstat_prints token b len -> parse_destination token = Some (mkIpNet (V4 b) len).
Proof.
  intros Hb Hlen [(-> & -> & ->)|(k & suffix & Hk & Hz & -> & Hs)]; [done|].
  set (parts := map show_dec (take k (octets4 b))).
  assert (Hne : parts <> []) by (subst parts; destruct k; [lia|]; by destruct b).
  assert (Hdots : ~ In "/"%char (join_bytes (bs ".") parts)).
  { apply join_not_in; [by intros [|[]]|by apply octets_no]. }
  assert (Hhead : exists c s, join_bytes (bs ".") parts = c :: s /\ is_ascii_digit c = true).
  { subst parts. destruct k as [|k]; [lia|]. cbn [octets4 be_digits app take map].
    match goal with |- context [show_dec ?z :: ?r] => destruct (u8_text z) as (_ & Hd & Hn);
      [by apply Z.mod_pos_bound|]; destruct (show_dec z) as [|c s] eqn:E; [done|] end.
    cbn in Hd. apply andb_true_iff in Hd as [Hd _].
    match goal with |- context [join_bytes ?sep (_ :: ?r)] => destruct (join_head c s sep r) as [t Ht] end.
    by exists c, t. }
  assert (Hlenk : length (take k (octets4 b)) = k) by (rewrite length_take; unfold octets4; rewrite length_be_digits; lia).
  assert (Hval : be_value 256 (take 4 (take k (octets4 b) ++ [0; 0; 0; 0])) = b).
  { assert (E : take 4 (take k (octets4 b) ++ [0; 0; 0; 0]) = octets4 b).
    { rewrite <- (take_drop k (octets4 b)) at 2. rewrite Hz, take_app, Hlenk.
      rewrite take_ge by lia. f_equal. assert (k = 1 \/ k = 2 \/ k = 3 \/ k = 4)%nat as Hc by lia.
      by repeat destruct Hc as [->|Hc]; subst. }
    rewrite E. unfold octets4. rewrite be_value_digits by lia. by apply Z.mod_small. }
  unfold parse_destination. rewrite bool_decide_eq_false_2.
  2:{ destruct Hhead as (c & s & -> & Hc). intros [= -> _]. done. }
  destruct Hs as [->|[-> ->]].
  - change (bs "/" ++ show_dec len) with ("/"%char :: show_dec len). rewrite split_once_first by done. cbv beta iota.
    destruct (u8_text len) as (-> & _ & _); [lia|]. cbn [mbind option_bind].
    change (bs ".") with ["."%char]. rewrite split_join by (done || by apply octets_no).
    subst parts. rewrite parse_octets_show; [|apply octets_bytes|rewrite Hlenk; lia].
    cbn [mbind option_bind default]. unfold id. rewrite Hval. unfold ipv4_net.
    destruct (Z.leb_spec len 32); [done|lia].
  - rewrite app_nil_r. destruct (split_once "/" (join_bytes (bs ".") parts)) as [[? ?]|] eqn:E.
    { apply split_once_spec in E as [E _]. exfalso. apply Hdots. rewrite E. apply in_app_iff. right. by left. }
    cbn [mbind option_bind]. change (bs ".") with ["."%char]. rewrite split_join by (done || by apply octets_no).
    subst parts. rewrite parse_octets_show; [|apply octets_bytes|rewrite Hlenk; lia].
    cbn [mbind option_bind default]. unfold id. rewrite Hval, Hlenk. unfold ipv4_net.
    destruct (Z.leb_spec (Z.of_nat k * 8) 32); [done|lia].
Qed.

(** A line of the table: the four columns and whatever follows, apart by
    spaces. *)
Record Row : Type := mkRow {
  row_token : bytes;
  row_entry : FibEntry;
  row_gaps : nat * nat * nat;
  row_tail : bytes
}.

Definition word (w : bytes) : Prop := w <> [] /\ Forall (fun c => printable c = true) w.

Definition row_wf (r : Row) : Prop :=
  (exists b len, 0 <= b < 2 ^ 32 /\ 0 <= len <= 32 /\ destination (row_entry r) = mkIpNet (V4 b) len /\
                 netstat_prints (row_token r) b len) /\
  word (gateway (row_entry r)) /\ word (flags (row_entry r)) /\ word (netif (row_entry r)) /\
  ~ In LF (row_tail r) /\ ~ In CR (row_tail r).

Definition gap (n : nat) : bytes := repeat SPACE (S n).

Definition print_row (r : Row) : bytes :=
  let '(g1, g2, g3) := row_gaps r in
  row_token r ++ gap g1 ++ gateway (row_entry r) ++ gap g2 ++ flags (row_entry r) ++ gap g3
  ++ netif (row_entry r) ++ SPACE :: row_tail r.

Lemma token_word token b len : 0 <= len < 256 -> netstat_prints token b len -> word token.
Proof.
  intros Hlen [(-> & _ & _)|(k & suffix & Hk & _ & -> & Hs)]; [by split; [|repeat constructor]|].
  assert (Hj : forall l, Forall (fun z => 0 <= z < 256) l -> Forall (fun c => printable c = true) (join_bytes (bs ".") (map show_dec l))).
  { intros l Hl. induction Hl as [|z l Hz Hl IH]; [by constructor|].
    destruct (u8_text z Hz) as (_ & Hd & _). apply digits_printable in Hd.
    cbn [map join_bytes]. destruct (map show_dec l); [done|]. apply Forall_app_2; [done|].
    apply Forall_app_2; [by repeat constructor|done]. }
  specialize (Hj _ (octets_bytes b k)). split.
  - destruct k as [|k]; [lia|]. cbn [octets4 be_digits app take map].
    match goal with |- context [join_bytes _ (show_dec ?z :: ?r)] =>
      destruct (u8_text z) as (_ & _ & Hne); [by apply Z.mod_pos_bound|];
      destruct (show_dec z) as [|c s]; [done|]; destruct (join_head c s (bs ".") r) as [t Ht] end.
    by rewrite Ht.
  - apply Forall_app_2; [done|]. destruct Hs as [->|[-> _]]; [|constructor].
    apply Forall_app_2; [by repeat constructor|]. by apply digits_printable, u8_text.
Qed.

Lemma netstat_row_print r : row_wf r -> netstat_row (print_row r) = Some (row_entry r).
Proof.
  intros ((b & len & Hb & Hl & Hd & Hp) & Hg & Hf & Hn & _). unfold netstat_row, print_row, gap.
  destruct (row_gaps r) as [[g1 g2] g3].
  assert (Hl8 : 0 <= len < 256) by lia. destruct (token_word _ _ _ Hl8 Hp) as [Ht1 Ht2].
  destruct Hg as [Hg1 Hg2], Hf as [Hf1 Hf2], Hn as [Hn1 Hn2].
  rewrite !split_whitespace_word by done.
  change (SPACE :: row_tail r) with (repeat SPACE 1 ++ row_tail r). rewrite split_whitespace_word by done.
  rewrite (parse_destination_prints _ b len) by done. cbn. rewrite <- Hd. by destruct (row_entry r).
Qed.

Lemma print_row_clean r c : row_wf r -> c = LF \/ c = CR -> ~ In c (print_row r).
Proof.
  intros ((b & len & Hb & Hl & Hd & Hp) & Hg & Hf & Hn & Ht1 & Ht2) Hc.
  assert (Hw : forall w, word w -> ~ In c w).
  { intros w [_ Hw] Hin. rewrite List.Forall_forall in Hw. apply Hw in Hin. by destruct Hc as [->| ->]. }
  assert (Hgap : forall n, ~ In c (gap n)).
  { intros n Hin. apply repeat_spec in Hin. by destruct Hc as [->| ->]. }
  unfold print_row. destruct (row_gaps r) as [[g1 g2] g3]. rewrite !in_app_iff. cbn [In].
  assert (Hl8 : 0 <= len < 256) by lia. pose proof (token_word _ _ _ Hl8 Hp) as Htok.
  apply Hw in Htok, Hg, Hf, Hn. pose proof (Hgap g1). pose proof (Hgap g2). pose proof (Hgap g3).
  assert (SPACE <> c) by (by destruct Hc as [->| ->]).
  assert (~ In c (row_tail r)) by (by destruct Hc as [->| ->]). tauto.
Qed.

Lemma strip_cr_id l : ~ In CR l -> strip_cr l = l.
Proof.
  intros H. unfold strip_cr. destruct (rev l) as [|c r] eqn:E; [done|].
  destruct (Ascii.eqb_spec c CR) as [->|]; [|done]. exfalso. apply H, in_rev. rewrite E. by left.
Qed.

(** A table: rows, and lines that are none (the banner, the headings). *)
Definition item_line (it : bytes + Row) : bytes := match it with inl l => l | inr r => print_row r end.
Definition item_wf (it : bytes + Row) : Prop :=
  match it with
  | inl l => netstat_row l = None /\ ~ In LF l /\ ~ In CR l
  | inr r => row_wf r
  end.
Definition item_entry (it : bytes + Row) : option FibEntry :=
  match it with inl _ => None | inr r => Some (row_entry r) end.
Definition print_table (items : list (bytes + Row)) : bytes := concat (map (fun it => item_line it ++ [LF]) items).

(** The reaper reads every row of the table [netstat] prints, however it
    abbreviates the destination and pads the columns, and nothing else of
    it: the banner and the headings are no rows. *)
Theorem netstat_table_reads_back (items : list (bytes + Row)) :
  Forall item_wf items -> parse_netstat_inet (print_table items) = omap item_entry items.
Proof.
  unfold parse_netstat_inet, print_table. induction 1 as [|it items Hit _ IH]; [done|].
  assert (Hc : ~ In LF (item_line it) /\ ~ In CR (item_line it) /\ netstat_row (item_line it) = item_entry it).
  { destruct it as [l|r]; cbn in Hit |- *; [tauto|].
    split_and!; [apply print_row_clean; [done|by left]|apply print_row_clean; [done|by right]|by apply netstat_row_print]. }
  destruct Hc as (H1 & H2 & H3). cbn [map concat]. rewrite <- app_assoc. cbn [app].
  rewrite lines_cut by done. rewrite strip_cr_id by done. cbn [omap list_omap]. rewrite H3.
  by destruct (item_entry it); rewrite <- IH.
Qed.

(** ** At work *)

Definition stale_row_example : Row :=
  mkRow (bs "100.64/10") (mkFibEntry (mkIpNet (V4 (ipv4 100 64 0 0)) 10) (bs "utun4") (bs "USc") (bs "utun4")) (8, 11, 11)%nat [].
Definition live_row_example : Row :=
  mkRow (bs "default") (mkFibEntry (mkIpNet (V4 0) 0) (bs "192.168.1.1") (bs "UGScg") (bs "en0")) (12, 8, 12)%nat [].
Definition table_example : list (bytes + Row) :=
  [inl (bs "Routing tables"); inl []; inl (bs "Internet:");
   inl (bs "Destination        Gateway            Flags               Netif Expire");
   inr live_row_example; inr stale_row_example].

Lemma netstat_table_reads_back_witness :
  parse_netstat_inet (print_table table_example) = [row_entry live_row_example; row_entry stale_row_example].
Proof.
  apply (netstat_table_reads_back table_example).
  assert (Hw : forall w, forallb printable w = true -> w <> [] -> word w).
  { intros w H Hne. split; [done|]. apply List.Forall_forall. by apply forallb_forall. }
  assert (Hno : forall c l, existsb (Ascii.eqb c) l = false -> ~ In c l).
  { intros c l H Hin. apply not_true_iff_false in H. apply H, existsb_exists. exists c. by rewrite Ascii.eqb_refl. }
  assert (Hl : forall l, netstat_row l = None -> existsb (Ascii.eqb LF) l = false ->
    existsb (Ascii.eqb CR) l = false -> item_wf (inl l)) by (intros l H1 H2 H3; split_and!; auto).
  repeat (apply List.Forall_cons; [try (by apply Hl)|]); [| |apply List.Forall_nil].
  - split_and!; [|by apply Hw..|by intros []|by intros []]. exists 0, 0. split_and!; [lia|lia|lia|lia|done|by left].
  - split_and!; [|by apply Hw..|by intros []|by intros []]. exists (ipv4 100 64 0 0), 10.
    split_and!; [done..|]. right. exists 2%nat, (bs "/10"). split_and!; [lia|lia|done|done|by left].
Defined.

(** A crashed node's host: the dead [utun4] route and the resolver key go,
    the default route stays. *)
Lemma crashed_host_reaped :
  reap_stale_host_state None true 0
    (mkReapHost (Some (print_table table_example)) (fun n => bool_decide (n = bs "en0")) (fun n _ => Nat.eqb n 2)
       (fun s => Some (bs "<dictionary> {}"))) =
  ([RunNetstat; RunRoute (route_delete_argv (bs "utun4") (mkIpNet (V4 (ipv4 100 64 0 0)) 10));
    RunRoute (route_delete_dest_argv (mkIpNet (V4 (ipv4 100 64 0 0)) 10));
    RunScutil scutil_show_script; RunScutil scutil_remove_script],
   mkReapReport false [(mkIpNet (V4 (ipv4 100 64 0 0)) 10, bs "utun4")] [] true).
Proof. vm_compute. reflexivity. Qed.
