(* ===== verification/NotifyStream.v ===== *)
(** * The watch streams: [stream_notify] and [stream_watch] of [src/server.rs]

    A masked watch as a machine: where it is parked, what wakes it, and the
    frames it has written, over the device epochs it outlives.  The engine's
    bus, the suggestion computed for a new watcher and what the daemon-built
    feeds read are parameters of each event.  Writes succeed: a failed one
    ends the stream. *)
From Stdlib Require Import ZArith Lia Ascii String List.
From stdpp Require Import base list strings option.
From S2P Require Import Prelude Prefs SysPolicy Gates LocalApi.
Import LifecycleState.

Section Notify.
Context {RegistrationError Node Peer SelfReport StatusReport PrefsView : Type}.
Context (is_permanent : RegistrationError -> bool) (show_error : RegistrationError -> string).
Context (peer_report_from_status_node : Node -> Peer).
Context (NOTIFY_VERSION : string).

Abbreviation DeviceState := (@DeviceState RegistrationError).

(** [tailscale::Notify]. *)
Record Notify : Type := mkNotify {
  nt_state : option DeviceState;
  nt_browse_to_url : option string;
  nt_net_map : option (list Node)
}.

Record NotifyView : Type := mkNotifyView {
  nv_version : option string;
  nv_session_id : option string;
  nv_state : option string;
  nv_error : option string;
  nv_browse_to_url : option string;
  nv_net_map : option (list Peer);
  nv_self_change : option SelfReport;
  nv_prefs : option PrefsView;
  nv_policy : option (list PolicySetting);
  nv_suggested_exit_node : option string;
  nv_initial_status : option StatusReport
}.

Definition NotifyView_default : NotifyView :=
  mkNotifyView None None None None None None None None None None None.

Definition prefs_frame (v : PrefsView) : NotifyView :=
  mkNotifyView None None None None None None None (Some v) None None None.
Definition policy_frame (v : list PolicySetting) : NotifyView :=
  mkNotifyView None None None None None None None None (Some v) None None.
Definition suggestion_frame (id : string) : NotifyView :=
  mkNotifyView None None None None None None None None None (Some id) None.

(** ** Engine frames *)

Definition retain_requested_initial (n : Notify) (initial_state initial_netmap : bool) : Notify :=
  mkNotify (if initial_state then nt_state n else None)
           (if initial_state then nt_browse_to_url n else None)
           (if initial_netmap then nt_net_map n else None).

Definition project_notify (n : Notify) (self_change : option SelfReport) : option NotifyView :=
  let '(state, error) :=
    match nt_state n with
    | Some ds => let '(state, error) := notify_state_from_device is_permanent show_error ds in (Some state, error)
    | None => (None, None)
    end in
  let net_map := map peer_report_from_status_node <$> nt_net_map n in
  let self_change := match net_map with Some _ => self_change | None => None end in
  match state, error, nt_browse_to_url n, net_map with
  | None, None, None, None => None
  | _, _, _, _ => Some (mkNotifyView None None state error (nt_browse_to_url n) net_map self_change None None None None)
  end.

Definition with_initial_status (engine_initial : option NotifyView) (report : StatusReport) : NotifyView :=
  let v := default NotifyView_default engine_initial in
  mkNotifyView (nv_version v) (nv_session_id v) (nv_state v) (nv_error v) (nv_browse_to_url v) (nv_net_map v)
    (nv_self_change v) (nv_prefs v) (nv_policy v) (nv_suggested_exit_node v) (Some report).

(** [fetch_self_report]: the engine's state at the tick, and its answer. *)
Definition fetch_self_report (engine : option (DeviceState * option SelfReport)) (had_self : bool) : option SelfReport :=
  match engine with
  | Some (ds, answer) => if should_query_self_node ds had_self then answer else None
  | None => None
  end.

(** ** The stream's own state *)

(** [NotifySession], the front-loads still owed, the suggestion channel as
    this receiver sees it (the cell and whether it holds a push unseen), and
    the frames written. *)
Record Watch : Type := mkWatch {
  pending_id : option string;
  status_pending : bool;
  suggestion_pending : bool;
  cell : string;
  unseen : bool;
  out : list NotifyView
}.

Definition stamp (pending : option string) (v : NotifyView) : NotifyView :=
  mkNotifyView (match nv_version v with Some x => Some x | None => Some NOTIFY_VERSION end) pending
    (nv_state v) (nv_error v) (nv_browse_to_url v) (nv_net_map v) (nv_self_change v) (nv_prefs v) (nv_policy v)
    (nv_suggested_exit_node v) (nv_initial_status v).

Definition write_notify (v : NotifyView) (w : Watch) : Watch :=
  mkWatch None (status_pending w) (suggestion_pending w) (cell w) (unseen w) (out w ++ [stamp (pending_id w) v]).

Definition flush_session_id (w : Watch) : Watch :=
  match pending_id w with None => w | Some _ => write_notify NotifyView_default w end.

(** What the daemon's own feeds read at a moment. *)
Record Reads : Type := mkReads { rd_prefs : PrefsView; rd_policy : list PolicySetting; rd_status : StatusReport }.

Definition set_status_pending (v : bool) (w : Watch) : Watch :=
  mkWatch (pending_id w) v (suggestion_pending w) (cell w) (unseen w) (out w).
Definition set_suggestion_pending (v : bool) (w : Watch) : Watch :=
  mkWatch (pending_id w) (status_pending w) v (cell w) (unseen w) (out w).

(** The channel: a publication that differs is announced; forgetting is not. *)
Definition publish (id : string) (w : Watch) : Watch :=
  if String.eqb (cell w) id then w
  else mkWatch (pending_id w) (status_pending w) (suggestion_pending w) id true (out w).
Definition forget (w : Watch) : Watch :=
  mkWatch (pending_id w) (status_pending w) (suggestion_pending w) "" (unseen w) (out w).
Definition borrow_and_update (w : Watch) : Watch :=
  mkWatch (pending_id w) (status_pending w) (suggestion_pending w) (cell w) false (out w).

Definition emit_suggested (w : Watch) : Watch :=
  let w := borrow_and_update w in write_notify (suggestion_frame (cell w)) w.

(** The front-load computation: [None] when it was not run, [Some None] when
    the engine failed, otherwise its answer and what others publish between
    it and the read of the channel. *)
Record FrontLoad : Type := mkFrontLoad { fl_answer : option (option string); fl_racing : list string }.

Definition emit_suggestion_front_load (fl : FrontLoad) (w : Watch) : Watch :=
  match fl_answer fl with
  | Some (Some id) =>
      let w := borrow_and_update (fold_left (fun w x => publish x w) (fl_racing fl) (publish id w)) in
      let current := cell w in
      let w := write_notify (suggestion_frame id) w in
      if String.eqb current id then w else write_notify (suggestion_frame current) w
  | _ => w
  end.

(** [if std::mem::take(&mut suggestion_pending) { ... }]. *)
Definition settle_suggestion (fl : FrontLoad) (w : Watch) : Watch :=
  if suggestion_pending w then emit_suggestion_front_load fl (set_suggestion_pending false w) else w.

Definition emit_status_front_loads (m : WatchMask) (rd : Reads) (engine_initial : option NotifyView) (w : Watch) : Watch :=
  let w := write_notify (with_initial_status engine_initial (rd_status rd)) (set_status_pending false w) in
  let w := if wm_prefs m then write_notify (prefs_frame (rd_prefs rd)) w else w in
  if wm_policy m then write_notify (policy_frame (rd_policy rd)) w else w.

(** ** The loop *)

Inductive Pos : Type :=
| Top
| NoDevice
| NoBus
| Streaming (had_self : bool).

(** A device in hand at the top of the loop: whether its bus is subscribed
    to, the suggestion computed on it, the bus's first frame ([None]: closed)
    and the engine's self node. *)
Record Epoch : Type := mkEpoch {
  ep_bus : bool;
  ep_front_load : FrontLoad;
  ep_first : option Notify;
  ep_self : option (DeviceState * option SelfReport)
}.

Inductive Event : Type :=
| Derive (device : option Epoch)
| LifecycleChanged
| PrefsChanged
| PolicyChanged
| SuggestionChanged
| BusNext (next : option Notify) (engine : option (DeviceState * option SelfReport))
| Publish (id : string)
| Forget.

(** From the start to the top of the loop. *)
Definition open_stream (m : WatchMask) (session : string) (rd : Reads) (cell : string) : Watch :=
  let w := mkWatch (if wm_initial_state m then Some session else None) (wm_initial_status m)
             (wm_suggested_exit_node m) cell false [] in
  let w := if wm_prefs m && negb (status_pending w) then write_notify (prefs_frame (rd_prefs rd)) w else w in
  if wm_policy m && negb (status_pending w) then write_notify (policy_frame (rd_policy rd)) w else w.

Definition derive_device (m : WatchMask) (rd : Reads) (device : option Epoch) (w : Watch) : Pos * Watch :=
  match device with
  | None =>
      let w := if status_pending w then emit_status_front_loads m rd None w else w in
      (NoDevice, set_suggestion_pending false (flush_session_id w))
  | Some ep =>
      let w := if negb (status_pending w) then settle_suggestion (ep_front_load ep) w else w in
      if negb (ep_bus ep) then
        let w := if status_pending w
                 then settle_suggestion (ep_front_load ep) (emit_status_front_loads m rd None w) else w in
        (NoBus, flush_session_id w)
      else if status_pending w then
        let '(engine_initial, had_self) :=
          match ep_first ep with
          | None => (None, false)
          | Some n =>
              let n := retain_requested_initial n (wm_initial_state m) (wm_initial_netmap m) in
              let self := match nt_net_map n with Some _ => fetch_self_report (ep_self ep) false | None => None end in
              (project_notify n self, is_some self)
          end in
        let w := settle_suggestion (ep_front_load ep) (emit_status_front_loads m rd engine_initial w) in
        (match ep_first ep with None => Top | Some _ => Streaming had_self end, w)
      else (Streaming false, w)
  end.

Definition stream_step (m : WatchMask) (rd : Reads) (e : Event) (pos : Pos) (w : Watch) : option (Pos * Watch) :=
  match e, pos with
  | Publish id, _ => Some (pos, publish id w)
  | Forget, _ => Some (pos, forget w)
  | Derive d, Top => Some (derive_device m rd d w)
  | LifecycleChanged, (NoDevice | NoBus | Streaming _) => Some (Top, w)
  | PrefsChanged, NoDevice => if wm_prefs m then Some (Top, write_notify (prefs_frame (rd_prefs rd)) w) else None
  | PrefsChanged, Streaming _ => if wm_prefs m then Some (pos, write_notify (prefs_frame (rd_prefs rd)) w) else None
  | PolicyChanged, NoDevice => if wm_policy m then Some (Top, write_notify (policy_frame (rd_policy rd)) w) else None
  | PolicyChanged, Streaming _ => if wm_policy m then Some (pos, write_notify (policy_frame (rd_policy rd)) w) else None
  | SuggestionChanged, NoDevice => if unseen w then Some (Top, emit_suggested w) else None
  | SuggestionChanged, Streaming _ => if unseen w then Some (pos, emit_suggested w) else None
  | BusNext None _, Streaming _ => Some (Top, w)
  | BusNext (Some n) engine, Streaming had_self =>
      let self := match nt_net_map n with Some _ => fetch_self_report engine had_self | None => None end in
      let w := match project_notify n self with Some v => write_notify v w | None => w end in
      Some (Streaming (had_self || is_some self), w)
  | _, _ => None
  end.

(** The executions of a stream. *)
Inductive streams (m : WatchMask) (session : string) (cell0 : string) : list Event -> Pos -> Watch -> Prop :=
| streams_open rd : streams m session cell0 [] Top (open_stream m session rd cell0)
| streams_step es e rd pos w pos' w' : streams m session cell0 es pos w ->
    stream_step m rd e pos w = Some (pos', w') -> streams m session cell0 (es ++ [e]) pos' w'.

(** ** The bare watch *)

(** [stream_watch]: parked with or without a device; each frame is the status
    read when it is written. *)
Inductive BareEvent : Type := BareLifecycle (device : bool) | BareTransition | BareDeviceGone (device : bool).

Definition bare_step (e : BareEvent) (status : StatusReport) (device : bool) (frames : list StatusReport)
    : option (bool * list StatusReport) :=
  match e, device with
  | BareLifecycle d, _ => Some (d, frames ++ [status])
  | BareTransition, true => Some (true, frames ++ [status])
  | BareDeviceGone d, true => Some (d, frames ++ [status])
  | _, false => None
  end.

(** * What holds of it *)

(** ** Frames *)

Definition carries (f : NotifyView) : bool :=
  is_some (nv_state f) || is_some (nv_error f) || is_some (nv_browse_to_url f) || is_some (nv_net_map f)
  || is_some (nv_prefs f) || is_some (nv_policy f) || is_some (nv_suggested_exit_node f)
  || is_some (nv_initial_status f).

(** What the daemon-built feeds and the engine's projection make: only what
    was asked for, the self node only beside the peers, and something. *)
Record asked (m : WatchMask) (v : NotifyView) : Prop := mkAsked {
  asked_version : nv_version v = None;
  asked_prefs : is_some (nv_prefs v) = true -> wm_prefs m = true;
  asked_policy : is_some (nv_policy v) = true -> wm_policy m = true;
  asked_self : is_some (nv_self_change v) = true -> is_some (nv_net_map v) = true
}.

(** The [i]-th frame of a stream. *)
Record frame_ok (m : WatchMask) (session : string) (i : nat) (f : NotifyView) : Prop := mkFrameOk {
  ok_version : nv_version f = Some NOTIFY_VERSION;
  ok_session : nv_session_id f = if wm_initial_state m && Nat.eqb i 0 then Some session else None;
  ok_status : is_some (nv_initial_status f) = wm_initial_status m && Nat.eqb i 0;
  ok_front : wm_initial_status m = true -> i = O ->
    (is_some (nv_state f) || is_some (nv_error f) || is_some (nv_browse_to_url f) = true -> wm_initial_state m = true) /\
    (is_some (nv_net_map f) = true -> wm_initial_netmap m = true);
  ok_prefs : is_some (nv_prefs f) = true -> wm_prefs m = true;
  ok_policy : is_some (nv_policy f) = true -> wm_policy m = true;
  ok_self : is_some (nv_self_change f) = true -> is_some (nv_net_map f) = true;
  ok_carries : carries f || is_some (nv_session_id f) = true
}.

Record stream_ok (m : WatchMask) (session : string) (w : Watch) : Prop := mkStreamOk {
  so_id : pending_id w = match out w with [] => if wm_initial_state m then Some session else None | _ => None end;
  so_owed : status_pending w = true -> out w = [] /\ wm_initial_status m = true;
  so_paid : wm_initial_status m = true -> status_pending w = false -> out w <> [];
  so_frames : forall i f, out w !! i = Some f -> frame_ok m session i f
}.

Lemma stamp_id m session w i : stream_ok m session w -> i = length (out w) ->
  pending_id w = if wm_initial_state m && Nat.eqb i 0 then Some session else None.
Proof.
  intros H ->. rewrite (so_id _ _ _ H). destruct (out w); cbn; [by rewrite andb_true_r|by rewrite andb_false_r].
Qed.

(** A frame that is not the status frame. *)
Lemma write_plain m session w v : stream_ok m session w -> status_pending w = false -> asked m v ->
  nv_initial_status v = None -> carries v || is_some (pending_id w) = true ->
  stream_ok m session (write_notify v w).
Proof.
  intros H Hp Ha Hs Hc. pose proof (stamp_id m session w _ H eq_refl) as Hid. split; cbn.
  - by destruct (out w).
  - congruence.
  - intros _ _. by destruct (out w).
  - intros i f Hf. apply lookup_app_Some in Hf as [Hf|[Hge Hf]]; [by apply (so_frames _ _ _ H)|].
    destruct (i - length (out w))%nat eqn:Ei; cbn in Hf; [|by destruct n]. injection Hf as <-.
    assert (i = length (out w)) as -> by lia. destruct Ha as [Hv Hpr Hpo Hse].
    assert (Hst : wm_initial_status m && Nat.eqb (length (out w)) 0 = false).
    { destruct (wm_initial_status m) eqn:E; [|done]. pose proof (so_paid _ _ _ H E Hp). by destruct (out w). }
    split; cbn; [by rewrite Hv|done|by rewrite Hs|..].
    + intros E Hz. rewrite E, Hz in Hst. done.
    + done.
    + done.
    + done.
    + exact Hc.
Qed.

Lemma write_pending v w : status_pending (write_notify v w) = status_pending w /\ out (write_notify v w) <> [] /\
  pending_id (write_notify v w) = None.
Proof. cbn. split_and!; [done|by destruct (out w)|done]. Qed.

Definition engine_part (m : WatchMask) (v : option NotifyView) : Prop :=
  match v with
  | None => True
  | Some f => asked m f /\ nv_prefs f = None /\ nv_policy f = None /\
      (is_some (nv_state f) || is_some (nv_error f) || is_some (nv_browse_to_url f) = true -> wm_initial_state m = true) /\
      (is_some (nv_net_map f) = true -> wm_initial_netmap m = true)
  end.

Lemma prefs_asked m v : wm_prefs m = true -> asked m (prefs_frame v).
Proof. by split. Qed.
Lemma policy_asked m v : wm_policy m = true -> asked m (policy_frame v).
Proof. by split. Qed.
Lemma suggestion_asked m id : asked m (suggestion_frame id).
Proof. by split. Qed.
#[local] Hint Resolve prefs_asked policy_asked suggestion_asked : core.

Lemma feed_ok (c : bool) m session w v : stream_ok m session w -> status_pending w = false -> (c = true -> asked m v) ->
  nv_initial_status v = None -> carries v = true ->
  stream_ok m session (if c then write_notify v w else w) /\ status_pending (if c then write_notify v w else w) = false.
Proof.
  intros H Hp Ha Hs Hc. destruct c; [|done]. split; [|done]. apply write_plain; auto. by rewrite Hc.
Qed.

Lemma status_front_loads_ok m session rd v w : stream_ok m session w -> status_pending w = true -> engine_part m v ->
  let w' := emit_status_front_loads m rd v w in stream_ok m session w' /\ status_pending w' = false.
Proof.
  intros H Hp Hv. destruct (so_owed _ _ _ H Hp) as [Ho Hm]. unfold emit_status_front_loads.
  assert (Hw : stream_ok m session (write_notify (with_initial_status v (rd_status rd)) (set_status_pending false w))).
  { split; cbn; rewrite Ho; cbn; [done|done|done|]. intros [|i] f; [|done]. intros [= <-].
    rewrite (so_id _ _ _ H), Ho. destruct v as [f|].
    - destruct Hv as ([Ha1 Ha2 Ha3 Ha4] & H1 & H2 & H3 & H4). split; cbn; rewrite ?Hm, ?Ha1, ?H1, ?H2; try done.
      + by rewrite andb_true_r.
      + unfold carries. cbn. by rewrite !orb_true_r.
    - split; cbn; rewrite ?Hm; try done. by rewrite andb_true_r. }
  destruct (feed_ok (wm_prefs m) m session _ (prefs_frame (rd_prefs rd)) Hw) as [Hw2 Hp2]; [done|auto|done|done|].
  apply (feed_ok (wm_policy m) m session _ (policy_frame (rd_policy rd)) Hw2); auto.
Qed.

(** ** The engine's frames *)

Lemma project_asked m n self v : project_notify n self = Some v ->
  asked m v /\ nv_initial_status v = None /\ carries v = true /\ nv_prefs v = None /\ nv_policy v = None /\
  (is_some (nv_state v) || is_some (nv_error v) = true -> nt_state n <> None) /\
  nv_browse_to_url v = nt_browse_to_url n /\ (is_some (nv_net_map v) = true -> nt_net_map n <> None).
Proof.
  unfold project_notify. destruct (nt_state n) as [ds|].
  - destruct (notify_state_from_device is_permanent show_error ds) as [st err]. intros [= <-].
    split_and!; cbn; try done; [|by destruct (nt_net_map n)]. split; cbn; try done. by destruct (nt_net_map n).
  - destruct (nt_browse_to_url n) as [u|], (nt_net_map n) as [l|]; cbn; try done; intros [= <-];
      (split_and!; cbn; try done; split; cbn; done).
Qed.

Lemma first_engine_part m ep (had : bool) self :
  engine_part m (project_notify (retain_requested_initial ep (wm_initial_state m) (wm_initial_netmap m)) self).
Proof.
  destruct (project_notify _ self) as [v|] eqn:E; [|done].
  apply (project_asked m) in E as (Ha & _ & _ & H1 & H2 & H3 & H4 & H5). split_and!; [done..| |].
  - intros H. apply orb_true_iff in H as [H|H]; [apply H3 in H|rewrite H4 in H]; cbn in H;
      destruct (wm_initial_state m); done.
  - intros H. apply H5 in H. cbn in H. by destruct (wm_initial_netmap m).
Qed.

(** ** Parked *)

Lemma publish_ok m session id w : stream_ok m session w ->
  stream_ok m session (publish id w) /\ status_pending (publish id w) = status_pending w /\
  pending_id (publish id w) = pending_id w.
Proof. intros [H1 H2 H3 H4]. unfold publish. destruct (String.eqb (cell w) id); split_and!; first [done|by split]. Qed.

Lemma publishes_ok m session l w : stream_ok m session w ->
  stream_ok m session (fold_left (fun w x => publish x w) l w) /\
  status_pending (fold_left (fun w x => publish x w) l w) = status_pending w.
Proof.
  revert w. induction l as [|x l IH]; intros w H; [done|]. cbn [fold_left].
  destruct (publish_ok m session x w H) as (H1 & H2 & _). destruct (IH _ H1) as [H3 H4].
  split; [done|congruence].
Qed.

Lemma borrow_ok m session w : stream_ok m session w -> stream_ok m session (borrow_and_update w).
Proof. intros [H1 H2 H3 H4]. by split. Qed.

Lemma front_load_ok m session fl w : stream_ok m session w -> status_pending w = false ->
  stream_ok m session (emit_suggestion_front_load fl w) /\ status_pending (emit_suggestion_front_load fl w) = false.
Proof.
  intros H Hp. unfold emit_suggestion_front_load. destruct (fl_answer fl) as [[id|]|]; [|done..].
  destruct (publish_ok m session id w H) as (H1 & H2 & _).
  destruct (publishes_ok m session (fl_racing fl) _ H1) as [H3 H4]. apply borrow_ok in H3.
  rewrite H2, Hp in H4. set (w1 := borrow_and_update _) in *.
  assert (Hw : stream_ok m session (write_notify (suggestion_frame id) w1)).
  { apply write_plain; [done|exact H4|apply suggestion_asked|done|done]. }
  destruct (String.eqb (cell w1) id); [by split|]. split; [|done].
  by apply write_plain; auto.
Qed.

Lemma settle_ok m session fl w : stream_ok m session w -> status_pending w = false ->
  stream_ok m session (settle_suggestion fl w) /\ status_pending (settle_suggestion fl w) = false.
Proof.
  intros H Hp. unfold settle_suggestion. destruct (suggestion_pending w); [|done].
  apply front_load_ok; [|done]. destruct H as [H1 H2 H3 H4]. by split.
Qed.

Lemma flush_ok m session w : stream_ok m session w -> status_pending w = false ->
  stream_ok m session (flush_session_id w) /\ status_pending (flush_session_id w) = false /\
  pending_id (flush_session_id w) = None.
Proof.
  intros H Hp. unfold flush_session_id. destruct (pending_id w) as [id|] eqn:E; [|done].
  split; [|done]. apply write_plain; [done|done|by split|done|]. by rewrite E.
Qed.

(** Where a stream waits, the snapshot is out; where no engine frame can
    come, so is the session id. *)
Definition parked_ok (pos : Pos) (w : Watch) : Prop :=
  match pos with
  | Top => True
  | NoDevice | NoBus => status_pending w = false /\ pending_id w = None
  | Streaming _ => status_pending w = false
  end.

Lemma derive_ok m session rd d w : stream_ok m session w ->
  stream_ok m session (snd (derive_device m rd d w)) /\ parked_ok (fst (derive_device m rd d w)) (snd (derive_device m rd d w)).
Proof.
  intros H. unfold derive_device. destruct d as [ep|]; cbn zeta.
  - destruct (status_pending w) eqn:Hp; cbn [negb].
    + destruct (ep_bus ep); cbn [negb].
      * rewrite Hp. destruct (ep_first ep) as [n|]; cbn iota beta zeta.
        -- destruct (status_front_loads_ok m session rd _ w H Hp (first_engine_part m n false
             (match nt_net_map (retain_requested_initial n (wm_initial_state m) (wm_initial_netmap m)) with
              | Some _ => fetch_self_report (ep_self ep) false | None => None end))) as [H1 H2].
           destruct (settle_ok m session (ep_front_load ep) _ H1 H2). by split.
        -- destruct (status_front_loads_ok m session rd None w H Hp I) as [H1 H2].
           destruct (settle_ok m session (ep_front_load ep) _ H1 H2). by split.
      * destruct (status_front_loads_ok m session rd None w H Hp I) as [H1 H2].
        destruct (settle_ok m session (ep_front_load ep) _ H1 H2) as [H3 H4].
        destruct (flush_ok _ _ _ H3 H4) as (? & ? & ?). rewrite Hp. by split.
    + destruct (settle_ok m session (ep_front_load ep) w H Hp) as [H1 H2].
      destruct (ep_bus ep); cbn [negb]; rewrite H2; [by split|].
      destruct (flush_ok _ _ _ H1 H2) as (? & ? & ?). by split.
  - assert (Hs : let w1 := if status_pending w then emit_status_front_loads m rd None w else w in
      stream_ok m session w1 /\ status_pending w1 = false).
    { destruct (status_pending w) eqn:Hp; [|done]. by apply status_front_loads_ok. }
    destruct Hs as [H1 H2]. apply flush_ok in H1 as (H3 & H4 & H5); [|done]. cbn. split; [|by split].
    destruct H3 as [A B C D]. by split.
Qed.

Lemma stream_invariant m session cell0 es pos w : streams m session cell0 es pos w ->
  stream_ok m session w /\ parked_ok pos w.
Proof.
  induction 1 as [rd|es e rd pos w pos' w' _ [IH Hpk] Hstep].
  - split; [|exact I]. unfold open_stream. cbn zeta.
    set (w0 := mkWatch _ _ _ _ _ _). assert (Hp0 : status_pending w0 = wm_initial_status m) by done.
    assert (H0 : stream_ok m session w0) by (subst w0; split; cbn; [done|by intros ->|by intros ->|done]).
    clearbody w0. rewrite Hp0. destruct (wm_initial_status m) eqn:Es; cbn [negb].
    + by rewrite andb_false_r, Hp0, andb_false_r.
    + rewrite andb_true_r.
      destruct (feed_ok (wm_prefs m) m session w0 (prefs_frame (rd_prefs rd)) H0) as [H1 H2]; [done|auto|done|done|].
      rewrite H2. cbn [negb]. rewrite andb_true_r.
      apply (feed_ok (wm_policy m) m session _ (policy_frame (rd_policy rd)) H1); auto.
  - destruct e as [d| | | | |next engine|id|].
    7:{ injection Hstep as <- <-. destruct (publish_ok m session id w IH) as (H1 & H2 & H3). split; [done|].
        destruct pos; cbn; by rewrite ?H2, ?H3. }
    7:{ injection Hstep as <- <-. split; [destruct IH as [A B C D]; by split|by destruct pos]. }
    all: destruct pos; cbn in Hstep; try done; try (by injection Hstep as <- <-); try (by destruct next).
    + injection Hstep as Hstep. pose proof (derive_ok m session rd d w IH) as Hd. rewrite Hstep in Hd. exact Hd.
    + destruct (wm_prefs m) eqn:E; [|done]. injection Hstep as <- <-. split; [|done].
      apply write_plain; [done|apply Hpk|auto|done|done].
    + destruct (wm_prefs m) eqn:E; [|done]. injection Hstep as <- <-. split; [|done].
      by apply write_plain; auto.
    + destruct (wm_policy m) eqn:E; [|done]. injection Hstep as <- <-. split; [|done].
      apply write_plain; [done|apply Hpk|auto|done|done].
    + destruct (wm_policy m) eqn:E; [|done]. injection Hstep as <- <-. split; [|done].
      by apply write_plain; auto.
    + destruct (unseen w); [|done]. injection Hstep as <- <-. split; [|done].
      apply write_plain; [by apply borrow_ok|apply Hpk|auto|done|done].
    + destruct (unseen w); [|done]. injection Hstep as <- <-. split; [|done].
      apply write_plain; [by apply borrow_ok|done|auto|done|done].
    + destruct next as [n|]; [|by injection Hstep as <- <-]. injection Hstep as <- <-.
      destruct (project_notify n _) as [v|] eqn:Ev; [|done].
      apply (project_asked m) in Ev as (Ha & Hs & Hc & _). split; [|done].
      apply write_plain; [done|done|done|done|by rewrite Hc].
Qed.

(** C35: the frames of a watch.  In every execution, over any number of
    device epochs: each frame states the daemon's version; the session id is
    on the first frame and no other, and only if the initial state was asked
    for; a status snapshot that was asked for is on the first frame and no
    other, beside the engine's initial state and peers only as far as those
    were asked for; prefs and policy go only to a watch that asked; the self
    node only goes with the peers; and no frame is empty but one that brings
    the session id.  Whenever no frame can be coming from the engine, the
    session id and the snapshot are out. *)
Theorem watch_frames_lawful (m : WatchMask) (session cell0 : string) (es : list Event) (pos : Pos) (w : Watch) :
  streams m session cell0 es pos w ->
  (forall i f, out w !! i = Some f -> frame_ok m session i f) /\
  (wm_initial_state m = true -> pos = NoDevice \/ pos = NoBus -> exists f, head (out w) = Some f /\ nv_session_id f = Some session) /\
  (wm_initial_status m = true -> pos <> Top -> exists f, head (out w) = Some f /\ is_some (nv_initial_status f) = true).
Proof.
  intros H. apply stream_invariant in H as [H Hpk]. split; [apply (so_frames _ _ _ H)|].
  assert (Hhead : out w <> [] -> exists f, head (out w) = Some f /\ frame_ok m session 0 f).
  { destruct (out w) as [|f l] eqn:E; [done|]. intros _. exists f. split; [done|].
    apply (so_frames _ _ _ H). by rewrite E. }
  split.
  - intros Hm Hpos. assert (Hid : pending_id w = None) by (by destruct Hpos as [->| ->]; destruct Hpk).
    rewrite (so_id _ _ _ H), Hm in Hid. destruct Hhead as (f & Hf & Hok); [by destruct (out w)|].
    exists f. split; [done|]. rewrite (ok_session _ _ _ _ Hok). by rewrite Hm.
  - intros Hm Hpos. assert (Hp : status_pending w = false) by (destruct pos; [done|by destruct Hpk..|done]).
    destruct Hhead as (f & Hf & Hok); [by apply (so_paid _ _ _ H)|].
    exists f. split; [done|]. rewrite (ok_status _ _ _ _ Hok). by rewrite Hm.
Qed.

(** ** The suggestion a watcher holds *)

Definition suggestions (l : list NotifyView) : list string := omap nv_suggested_exit_node l.

(** It is the cell's, or none was sent and the cell has not moved since the
    watch began, or the daemon has forgotten its own. *)
Definition current (cell0 : string) (forgotten : Prop) (w : Watch) : Prop :=
  list.last (suggestions (out w)) = Some (cell w) \/
  (suggestions (out w) = [] /\ cell w = cell0) \/ (forgotten /\ cell w = ""%string).

Definition held (cell0 : string) (forgotten : Prop) (w : Watch) : Prop := unseen w = true \/ current cell0 forgotten w.

Lemma suggestions_snoc l v : suggestions (l ++ [v]) = suggestions l ++ option_list (nv_suggested_exit_node v).
Proof. unfold suggestions. rewrite omap_app. cbn. by destruct (nv_suggested_exit_node v). Qed.

Lemma write_quiet cell0 F v w : nv_suggested_exit_node v = None -> held cell0 F w -> held cell0 F (write_notify v w).
Proof.
  unfold held, current. intros Hq. cbn [write_notify unseen out cell]. rewrite suggestions_snoc. cbn. by rewrite Hq, app_nil_r.
Qed.

Lemma write_suggestion cell0 F w : held cell0 F (write_notify (suggestion_frame (cell w)) (borrow_and_update w)).
Proof.
  right. left. cbn [write_notify borrow_and_update out cell]. rewrite suggestions_snoc. cbn. apply last_snoc.
Qed.

Lemma publish_held cell0 F id w : held cell0 F w -> held cell0 F (publish id w).
Proof. unfold publish. destruct (String.eqb (cell w) id); [done|]. by left. Qed.

Lemma front_load_held cell0 F fl w : held cell0 F w -> held cell0 F (emit_suggestion_front_load fl w).
Proof.
  intros H. unfold emit_suggestion_front_load. destruct (fl_answer fl) as [[id|]|]; [|done..]. cbn zeta.
  set (w1 := fold_left _ (fl_racing fl) _). clearbody w1.
  destruct (String.eqb_spec (cell (borrow_and_update w1)) id) as [E|_].
  - right. left. cbn [write_notify borrow_and_update out cell]. rewrite suggestions_snoc. cbn. rewrite last_snoc.
    by rewrite <- E.
  - right. left. cbn [write_notify borrow_and_update out cell]. rewrite suggestions_snoc. cbn. apply last_snoc.
Qed.

Lemma settle_held cell0 F fl w : held cell0 F w -> held cell0 F (settle_suggestion fl w).
Proof. intros H. unfold settle_suggestion. destruct (suggestion_pending w); [by apply front_load_held|done]. Qed.

Lemma flush_held cell0 F w : held cell0 F w -> held cell0 F (flush_session_id w).
Proof. intros H. unfold flush_session_id. destruct (pending_id w); [by apply write_quiet|done]. Qed.

Lemma status_front_loads_held cell0 F m rd v w : match v with Some f => nv_suggested_exit_node f = None | None => True end ->
  held cell0 F w -> held cell0 F (emit_status_front_loads m rd v w).
Proof.
  intros Hv H. unfold emit_status_front_loads.
  assert (H1 : held cell0 F (write_notify (with_initial_status v (rd_status rd)) (set_status_pending false w)))
    by (apply write_quiet; [by destruct v|done]).
  destruct (wm_prefs m), (wm_policy m); repeat (apply write_quiet; [done|]); done.
Qed.

Lemma project_quiet n self v : project_notify n self = Some v -> nv_suggested_exit_node v = None.
Proof.
  unfold project_notify. destruct (nt_state n) as [ds|].
  - destruct (notify_state_from_device is_permanent show_error ds) as [st err]. by intros [= <-].
  - destruct (nt_browse_to_url n), (nt_net_map n); cbn; try done; by intros [= <-].
Qed.

Lemma derive_held cell0 F m rd d w : held cell0 F w -> held cell0 F (snd (derive_device m rd d w)).
Proof.
  intros H. unfold derive_device. destruct d as [ep|]; cbn zeta.
  - set (w1 := if negb (status_pending w) then _ else w).
    assert (H1 : held cell0 F w1) by (subst w1; destruct (status_pending w); cbn [negb]; [done|by apply settle_held]).
    clearbody w1. destruct (ep_bus ep); cbn [negb].
    + destruct (status_pending w1); [|done]. destruct (ep_first ep) as [n|]; cbn iota beta zeta.
      * apply settle_held, status_front_loads_held; [|done]. destruct (project_notify _ _) eqn:E; [|done].
        by apply project_quiet in E.
      * by apply settle_held, status_front_loads_held.
    + apply flush_held. destruct (status_pending w1); [|done]. by apply settle_held, status_front_loads_held.
  - assert (Hx : held cell0 F (flush_session_id (if status_pending w then emit_status_front_loads m rd None w else w))).
    { apply flush_held. destruct (status_pending w); [by apply status_front_loads_held|done]. }
    exact Hx.
Qed.

Lemma held_weaken cell0 (F G : Prop) w : (F -> G) -> held cell0 F w -> held cell0 G w.
Proof. unfold held, current. tauto. Qed.


(** After a subscription to the bus that failed, the stream waits for a
    lifecycle change alone: neither prefs, policy nor a suggestion wake it. *)
Lemma no_bus_is_deaf m rd w : stream_step m rd PrefsChanged NoBus w = None /\
  stream_step m rd PolicyChanged NoBus w = None /\ stream_step m rd SuggestionChanged NoBus w = None.
Proof. done. Qed.
End Notify.

(** A bare watch's every wake ends in the status read then, and with a
    device it wakes on anything. *)
Lemma bare_watch_current {S} e (status : S) device frames :
  (device = true -> is_some (bare_step e status device frames) = true) /\
  (forall device' frames', bare_step e status device frames = Some (device', frames') -> list.last frames' = Some status).
Proof.
  split; [intros ->; by destruct e|]. intros d' f' H. destruct e, device; cbn in H; try done; injection H as <- <-; apply last_snoc.
Qed.

(** ** At work *)

Definition mask_example : WatchMask := mkWatchMask true false false true true true.

Abbreviation event_example := (@Event unit unit unit).

(** A watch that asked for everything begins before the first [up]; a pick
    races the front-load of the device that comes. *)
Definition events_example : list (event_example) :=
  [ Derive (Some (mkEpoch true (mkFrontLoad (Some (Some "n1"%string)) ["n2"%string])
              (Some (mkNotify (Some DsRunning) None (Some [tt]))) (Some (DsRunning, Some tt))));
    Publish "n3"; SuggestionChanged ].

Definition reads_example : Reads := mkReads tt [] tt.

Fixpoint run_events (es : list event_example) (pos : Pos) (w : Watch) : option (Pos * Watch) :=
  match es with
  | [] => Some (pos, w)
  | e :: es' =>
      match stream_step (fun _ => true) (fun _ => ""%string) (fun n : unit => n) "1.0" mask_example reads_example e pos w with
      | Some (pos', w') => run_events es' pos' w'
      | None => None
      end
  end.

Lemma run_events_streams es es0 pos w pos' w' :
  streams (fun _ => true) (fun _ => ""%string) (fun n : unit => n) "1.0" mask_example "5e55" "n0" es0 pos w ->
  run_events es pos w = Some (pos', w') ->
  streams (fun _ => true) (fun _ => ""%string) (fun n : unit => n) "1.0" mask_example "5e55" "n0" (es0 ++ es) pos' w'.
Proof.
  revert es0 pos w. induction es as [|e es IH]; intros es0 pos w H; cbn [run_events].
  - intros [= <- <-]. by rewrite app_nil_r.
  - destruct (stream_step _ _ _ _ _ _ e pos w) as [[p1 w1]|] eqn:E; [|done]. intros Hr.
    change (e :: es) with ([e] ++ es). rewrite app_assoc. apply (IH _ p1 w1); [|done].
    by apply streams_step with reads_example pos w.
Qed.

Definition final_example : Pos * Watch :=
  default (Top, open_stream "1.0" mask_example "5e55" reads_example "n0")
    (run_events events_example Top (open_stream "1.0" mask_example "5e55" reads_example "n0")).

Lemma final_streams : streams (fun _ => true) (fun _ => ""%string) (fun n : unit => n) "1.0" mask_example "5e55" "n0"
  events_example (fst final_example) (snd final_example).
Proof.
  apply (run_events_streams events_example [] Top (open_stream "1.0" mask_example "5e55" reads_example "n0"));
    [apply streams_open|]. vm_compute. reflexivity.
Qed.

(** The frames, and what is on the first. *)
Lemma watch_frames_lawful_witness :
  map (fun f => (nv_session_id f, is_some (nv_initial_status f), nv_state f, is_some (nv_net_map f),
                 is_some (nv_policy f), nv_suggested_exit_node f)) (out (snd final_example)) =
  [ (Some "5e55", true, Some "Running", false, false, None); (None, false, None, false, true, None);
    (None, false, None, false, false, Some "n1"); (None, false, None, false, false, Some "n2");
    (None, false, None, false, false, Some "n3") ]%string /\
  exists f, head (out (snd final_example)) = Some f /\ is_some (nv_initial_status f) = true.
Proof.
  split; [vm_compute; reflexivity|].
  apply (proj2 (proj2 (watch_frames_lawful _ _ _ _ _ _ _ _ _ _ final_streams)) eq_refl).
  vm_compute. discriminate.
Defined.

