(* ===== verification/Proxy.v ===== *)
(** * The local proxies: [src/socks5.rs] and [src/httpproxy.rs]

    What a client sends as bytes, what is answered, and what the tunnel is
    left to carry.  SOCKS5 reads exact counts straight from the socket; the
    HTTP proxy reads lines through a [BufReader], so its input is the list of
    chunks the socket yields and its state the part of a chunk already read.
    Writes to the client succeed and the handshake's deadline does not pass:
    either would only end the connection.  The dial over the tailnet is a
    parameter. *)
From Stdlib Require Import ZArith Lia Ascii String List.
From stdpp Require Import base list strings option.
From S2P Require Import Prelude NetAddr Text.

(** How a client's connection ends up: closed with an error, or carrying what
    is left of the client's stream to the dialed peer. *)
Inductive Outcome : Type :=
| Closed
| Tunnel (host : bytes) (port : Z) (stream : bytes).

(** What the handshake is answered by: whether a device is up, and the dial. *)
Record Dialer : Type := mkDialer {
  device_up : bool;
  connect_by_name : bytes -> Z -> result bytes unit
}.

Definition byte (z : Z) : ascii := byte_of_Z z.

(** ** SOCKS5 *)

Module Socks.

Definition SOCKS5_VERSION : Z := 5.
Definition METHOD_NO_AUTH : Z := 0.
Definition METHOD_NO_ACCEPTABLE : Z := 255.
Definition CMD_CONNECT : Z := 1.
Definition SUCCEEDED : Z := 0.
Definition GENERAL_FAILURE : Z := 1.
Definition HOST_UNREACHABLE : Z := 4.
Definition COMMAND_NOT_SUPPORTED : Z := 7.
Definition ADDRESS_TYPE_NOT_SUPPORTED : Z := 8.
Definition ATYP_IPV4 : Z := 1.
Definition ATYP_DOMAINNAME : Z := 3.
Definition ATYP_IPV6 : Z := 4.

(** [read_exact]: the next [n] bytes, or the connection ends. *)
Definition read_exact (n : nat) (s : bytes) : option (bytes * bytes) :=
  if Nat.leb n (length s) then Some (take n s, drop n s) else None.

Definition be_bytes (l : bytes) : Z := be_value 256 (map byte_val l).

(** The method negotiation: what is written, and the rest of the stream if
    it goes on. *)
Definition negotiate_method (s : bytes) : bytes * option bytes :=
  match read_exact 2 s with
  | Some ([ver; nmethods], s) =>
      if negb (byte_val ver =? SOCKS5_VERSION) then ([], None)
      else
        match read_exact (Z.to_nat (byte_val nmethods)) s with
        | None => ([], None)
        | Some (methods, s) =>
            if existsb (fun m => byte_val m =? METHOD_NO_AUTH) methods
            then ([byte SOCKS5_VERSION; byte METHOD_NO_AUTH], Some s)
            else ([byte SOCKS5_VERSION; byte METHOD_NO_ACCEPTABLE], None)
        end
  | _ => ([], None)
  end.

Definition send_reply (rep : Z) : bytes :=
  map byte [SOCKS5_VERSION; rep; 0; ATYP_IPV4; 0; 0; 0; 0; 0; 0].

(** The destination of a request: the host as text and the stream after it;
    an unknown address type is answered, a short or undecodable one is not. *)
Definition read_host (address_type : Z) (s : bytes) : bytes * option (bytes * bytes) :=
  if address_type =? ATYP_IPV4 then
    ([], '(b, s) ← read_exact 4 s; Some (show_ipv4 (be_bytes b), s))
  else if address_type =? ATYP_IPV6 then
    ([], '(b, s) ← read_exact 16 s; Some (show_ipv6 (be_bytes b), s))
  else if address_type =? ATYP_DOMAINNAME then
    ([], '(len, s) ← read_exact 1 s;
         '(name, s) ← read_exact (Z.to_nat (be_bytes len)) s;
         if is_utf8 name then Some (name, s) else None)
  else (send_reply ADDRESS_TYPE_NOT_SUPPORTED, None).

Definition read_connect_request (s : bytes) : bytes * option (bytes * Z * bytes) :=
  match read_exact 4 s with
  | Some ([ver; cmd; _; address_type], s) =>
      if negb (byte_val ver =? SOCKS5_VERSION) then ([], None)
      else if negb (byte_val cmd =? CMD_CONNECT) then (send_reply COMMAND_NOT_SUPPORTED, None)
      else
        let '(out, host) := read_host (byte_val address_type) s in
        (out, '(host, s) ← host; '(port, s) ← read_exact 2 s; Some (host, be_bytes port, s))
  | _ => ([], None)
  end.

(** [handle_connection]: everything written to the client, and the outcome. *)
Definition handle_connection (d : Dialer) (s : bytes) : bytes * Outcome :=
  let '(out1, r) := negotiate_method s in
  match r with
  | None => (out1, Closed)
  | Some s =>
      let '(out2, r) := read_connect_request s in
      match r with
      | None => (out1 ++ out2, Closed)
      | Some (host, port, s) =>
          if negb (device_up d) then (out1 ++ out2 ++ send_reply GENERAL_FAILURE, Closed)
          else
            match connect_by_name d host port with
            | Ok _ => (out1 ++ out2 ++ send_reply SUCCEEDED, Tunnel host port s)
            | Err _ => (out1 ++ out2 ++ send_reply HOST_UNREACHABLE, Closed)
            end
      end
  end.

(** *** The listen address *)

(** [str::parse::<SocketAddr>()]; a scope id is read and dropped here. *)
Definition read_port (s : bytes) : option (Z * bytes) :=
  s ← read_given_char ":" s; read_number 10 65536 (length s) true s.

Definition read_scope_id (s : bytes) : option bytes :=
  match read_given_char "%" s with
  | Some s' => snd <$> read_number 10 (2 ^ 32) (length s') true s'
  | None => None
  end.

Definition parse_socket_addr (s : bytes) : option (IpAddr * Z) :=
  let v4 := '(a, s) ← read_ipv4_addr s; '(p, s) ← read_port s; Some (V4 a, p, s) in
  let v6 := s ← read_given_char "[" s;
            '(a, s) ← read_ipv6_addr s;
            s ← read_given_char "]" (default s (read_scope_id s));
            '(p, s) ← read_port s; Some (V6 a, p, s) in
  match v4 with
  | Some (a, p, []) => Some (a, p)
  | _ => match v6 with Some (a, p, []) => Some (a, p) | _ => None end
  end.

Inductive ListenError : Type := ListenEmpty | ListenPortZero | ListenNeither (addr : bytes).

Definition normalize_listen_addr (addr : bytes) : result ListenError bytes :=
  let addr := trim addr in
  match addr with
  | [] => Err ListenEmpty
  | _ =>
      match parse_socket_addr addr with
      | Some _ => Ok addr
      | None =>
          match parse_u16 addr with
          | Some port => if port =? 0 then Err ListenPortZero else Ok (bs "127.0.0.1:" ++ show_dec port)
          | None => Err (ListenNeither addr)
          end
      end
  end.
End Socks.

(** ** HTTP CONNECT *)

Module Http.

Definition MAX_HEAD_BYTES : nat := Z.to_nat (64 * 1024).
Definition MAX_ERROR_HEADER_LEN : nat := 256.

(** [BufReader<TcpStream>]: what of the last chunk is not consumed yet, and
    the chunks the socket has still to yield; no chunk is end of file. *)
Record BufReader : Type := mkBufReader { buffer : bytes; chunks : list bytes }.

(** The bytes up to and including the first line feed, at most [limit]. *)
Fixpoint scan (limit : nat) (s : bytes) : bytes * bytes * bool :=
  match limit, s with
  | S limit', c :: s' =>
      if Ascii.eqb c LF then ([c], s', true)
      else let '(line, rest, found) := scan limit' s' in (c :: line, rest, found)
  | _, _ => ([], s, false)
  end.

(** [Take::read_until(b'\n')] over the reader. *)
Fixpoint read_until (limit : nat) (buf : bytes) (cs : list bytes) : bytes * BufReader :=
  let '(line, rest, found) := scan limit buf in
  if found || Nat.eqb (length line) limit then (line, mkBufReader rest cs)
  else
    match cs with
    | [] => (line, mkBufReader rest [])
    | c :: cs' => let '(more, r) := read_until (limit - length line) c cs' in (line ++ more, r)
    end.

Definition read_line_capped (cap : nat) (r : BufReader) : option (bytes * BufReader) :=
  let '(raw, r) := read_until (S cap) (buffer r) (chunks r) in
  if Nat.ltb cap (length raw) then None else Some (raw, r).

Definition CRLF : bytes := [CR; LF].

(** [drain_headers]: the reader at the end of the head, or an error for a
    head too long.  Every turn consumes a byte, so the cap is fuel enough. *)
Fixpoint drain_headers_fuel (fuel total : nat) (r : BufReader) : option BufReader :=
  match fuel with
  | O => None
  | S f =>
      match read_line_capped (MAX_HEAD_BYTES - total) r with
      | None => None
      | Some ([], r) => Some r
      | Some (line, r) =>
          if bool_decide (line = CRLF) || bool_decide (line = [LF]) then Some r
          else if Nat.leb MAX_HEAD_BYTES (total + length line) then None
          else drain_headers_fuel f (total + length line) r
      end
  end.
Definition drain_headers (r : BufReader) : option BufReader :=
  drain_headers_fuel (S MAX_HEAD_BYTES) 0 r.

Definition strip_char (c : ascii) (s : bytes) : option bytes := read_given_char c s.

Definition parse_authority (target : bytes) : option (bytes * Z) :=
  let target := trim target in
  '(host, port) ←
    (match strip_char "[" target with
     | Some rest => '(host, after) ← split_once "]" rest; port ← strip_char ":" after; Some (host, port)
     | None => rsplit_once ":" target
     end);
  port ← parse_u16 port;
  if bool_decide (host = []) || (port =? 0) then None else Some (host, port).

(** The characters of a text, each as its bytes. *)
Fixpoint chars_fuel (fuel : nat) (s : bytes) : list bytes :=
  match fuel, s with
  | S f, c :: _ => take (char_len c) s :: chars_fuel f (drop (char_len c) s)
  | _, _ => []
  end.
Definition chars (s : bytes) : list bytes := chars_fuel (length s) s.

(** [char::is_control]: C0, DEL and C1. *)
Definition is_control (ch : bytes) : bool :=
  match ch with
  | [c] => between 0 31 c || between 127 127 c
  | [c; d] => between 194 194 c && between 128 159 d
  | _ => false
  end.

Definition SPACE : ascii := " "%char.

Definition sanitize_header_value (err : bytes) : bytes :=
  trim (concat (take MAX_ERROR_HEADER_LEN (map (fun ch => if is_control ch then [SPACE] else ch) (chars err)))).

Definition connect_error (err : bytes) : bytes :=
  bs "HTTP/1.1 500 Internal Server Error" ++ CRLF ++
  bs "Tailscale-Connect-Error: " ++ sanitize_header_value err ++ CRLF ++
  bs "Connection: close" ++ CRLF ++ bs "Content-Length: 0" ++ CRLF ++ CRLF.

Definition simple_status (code : Z) (reason body : bytes) : bytes :=
  bs "HTTP/1.1 " ++ show_dec code ++ bs " " ++ reason ++ CRLF ++
  bs "Content-Length: " ++ show_dec (Z.of_nat (length body)) ++ CRLF ++
  bs "Connection: close" ++ CRLF ++ CRLF ++ body.

Definition NOT_IMPLEMENTED : bytes :=
  bs "501 Not Implemented: this proxy currently supports only the CONNECT method (HTTPS tunneling). Plain absolute-form HTTP forwarding is not yet implemented (tsd-httpfwd); use CONNECT, or the SOCKS5 proxy (--socks5-server).".

Definition not_implemented_reply : bytes :=
  bs "HTTP/1.1 501 Not Implemented" ++ CRLF ++
  bs "Content-Length: " ++ show_dec (Z.of_nat (length NOT_IMPLEMENTED)) ++ CRLF ++
  bs "Connection: close" ++ CRLF ++ CRLF ++ NOT_IMPLEMENTED.

Definition OK_REPLY : bytes := bs "HTTP/1.1 200 OK" ++ CRLF ++ CRLF.

(** [BufReader::into_inner]: the socket alone; what was buffered is dropped. *)
Definition into_inner (r : BufReader) : bytes := concat (chunks r).

Definition handle_connect (d : Dialer) (r : BufReader) (target : bytes) : bytes * Outcome :=
  match parse_authority target with
  | None => (simple_status 400 (bs "Bad Request") (bs "bogus CONNECT target (want host:port)"), Closed)
  | Some (host, port) =>
      match drain_headers r with
      | None => ([], Closed)
      | Some r =>
          if negb (device_up d) then (connect_error (bs "node is not up"), Closed)
          else
            match connect_by_name d host port with
            | Ok _ => (OK_REPLY, Tunnel host port (into_inner r))
            | Err e => (connect_error e, Closed)
            end
      end
  end.

Section Decode.
(** [String::from_utf8_lossy]. *)
Context (lossy : bytes -> bytes).

Definition handle_request_head (d : Dialer) (client : list bytes) : bytes * Outcome :=
  match read_line_capped MAX_HEAD_BYTES (mkBufReader [] client) with
  | None | Some ([], _) => ([], Closed)
  | Some (line, r) =>
      let parts := split_whitespace (lossy line) in
      let method := default [] (parts !! 0%nat) in
      let target := default [] (parts !! 1%nat) in
      if eq_ignore_ascii_case method (bs "CONNECT") then handle_connect d r target
      else (not_implemented_reply, Closed)
  end.
End Decode.
End Http.
