(* ===== verification/ProxyFacts.v ===== *)
(** * Facts about the local proxies *)
From Stdlib Require Import ZArith Lia Ascii String List.
From stdpp Require Import base list strings option.
From S2P Require Import Prelude NetAddr Text Proxy.

(** ** SOCKS5 *)

Section SocksFacts.
  Import Socks.

(** A destination, as a client writes it in a request. *)
Inductive Dest : Type :=
| DestV4 (bits : Z)
| DestV6 (bits : Z)
| DestName (name : bytes).

Definition dest_wf (dst : Dest) : Prop :=
  match dst with
  | DestV4 b => 0 <= b < 2 ^ 32
  | DestV6 b => 0 <= b < 2 ^ 128
  | DestName n => is_utf8 n = true /\ (length n <= 255)%nat
  end.

Definition dest_wire (dst : Dest) : bytes :=
  match dst with
  | DestV4 b => byte ATYP_IPV4 :: map byte (octets4 b)
  | DestV6 b => byte ATYP_IPV6 :: map byte (octets16 b)
  | DestName n => byte ATYP_DOMAINNAME :: byte (Z.of_nat (length n)) :: n
  end.

(** The text the dialer is given. *)
Definition dest_text (dst : Dest) : bytes :=
  match dst with
  | DestV4 b => show_ipv4 b
  | DestV6 b => show_ipv6 b
  | DestName n => n
  end.

Definition greeting (methods : bytes) : bytes :=
  byte SOCKS5_VERSION :: byte (Z.of_nat (length methods)) :: methods.
Definition request (rsv : ascii) (dst : Dest) (port : Z) : bytes :=
  [byte SOCKS5_VERSION; byte CMD_CONNECT; rsv] ++ dest_wire dst ++ map byte (be_digits 256 2 port).

Lemma byte_small z : 0 <= z < 256 -> byte_val (byte z) = z.
Proof. intros H. unfold byte. rewrite byte_val_of_Z. by apply Z.mod_small. Qed.

Lemma read_exact_app n a s : length a = n -> read_exact n (a ++ s) = Some (a, s).
Proof.
  intros <-. unfold read_exact. rewrite length_app.
  rewrite (proj2 (Nat.leb_le _ _)) by lia. by rewrite take_app_length, drop_app_length.
Qed.

Lemma be_bytes_digits n z : be_bytes (map byte (be_digits 256 n z)) = z mod 256 ^ Z.of_nat n.
Proof.
  unfold be_bytes. rewrite map_map.
  rewrite (map_ext_in _ id).
  - rewrite map_id. apply be_value_digits. lia.
  - intros d Hd. apply byte_small. eapply be_digits_range; [|apply list_elem_of_In, Hd]. lia.
Qed.

Lemma read_exact_cons2 a b s : read_exact 2 (a :: b :: s) = Some ([a; b], s).
Proof. apply (read_exact_app 2 [a; b]). done. Qed.

Lemma negotiate_greeting methods s :
  (length methods <= 255)%nat -> In (byte METHOD_NO_AUTH) methods ->
  negotiate_method (greeting methods ++ s) = ([byte SOCKS5_VERSION; byte METHOD_NO_AUTH], Some s).
Proof.
  intros Hl Hin. unfold negotiate_method, greeting. cbn [app]. rewrite read_exact_cons2.
  rewrite (byte_small (Z.of_nat _)) by lia. rewrite Nat2Z.id, read_exact_app by done.
  assert (existsb (fun m => byte_val m =? METHOD_NO_AUTH) methods = true) as ->.
  { apply existsb_exists. by exists (byte METHOD_NO_AUTH). }
  done.
Qed.

Lemma read_port_wire p s : 0 <= p < 2 ^ 16 ->
  read_exact 2 (map byte (be_digits 256 2 p) ++ s) = Some (map byte (be_digits 256 2 p), s) /\
  be_bytes (map byte (be_digits 256 2 p)) = p.
Proof.
  intros H. split; [by apply read_exact_app|]. rewrite be_bytes_digits. apply Z.mod_small. lia.
Qed.

Lemma read_dest dst s : dest_wf dst -> exists atyp wire,
  dest_wire dst = atyp :: wire /\ read_host (byte_val atyp) (wire ++ s) = ([], Some (dest_text dst, s)).
Proof.
  destruct dst as [b|b|n]; cbn [dest_wf]; intros H; eexists _, _; (split; [reflexivity|]).
  - change (read_host (byte_val (byte ATYP_IPV4)) (map byte (octets4 b) ++ s))
      with (@nil ascii, '(b, s) ← read_exact 4 (map byte (octets4 b) ++ s); Some (show_ipv4 (be_bytes b), s)).
    unfold octets4. rewrite read_exact_app by by rewrite length_map, length_be_digits.
    cbn [mbind option_bind]. by rewrite be_bytes_digits, Z.mod_small by lia.
  - change (read_host (byte_val (byte ATYP_IPV6)) (map byte (octets16 b) ++ s))
      with (@nil ascii, '(b, s) ← read_exact 16 (map byte (octets16 b) ++ s); Some (show_ipv6 (be_bytes b), s)).
    unfold octets16. rewrite read_exact_app by by rewrite length_map, length_be_digits.
    cbn [mbind option_bind]. by rewrite be_bytes_digits, Z.mod_small by lia.
  - destruct H as [Hu Hl]. cbn [app]. unfold read_host.
    change (byte_val (byte ATYP_DOMAINNAME) =? ATYP_IPV4) with false.
    change (byte_val (byte ATYP_DOMAINNAME) =? ATYP_IPV6) with false.
    change (byte_val (byte ATYP_DOMAINNAME) =? ATYP_DOMAINNAME) with true. cbn iota.
    pose proof (read_exact_app 1 [byte (Z.of_nat (length n))] (n ++ s) eq_refl) as E1. cbn [app] in E1.
    rewrite E1. cbn [mbind option_bind].
    assert (be_bytes [byte (Z.of_nat (length n))] = Z.of_nat (length n)) as ->.
    { unfold be_bytes. cbn [map]. rewrite byte_small by lia. done. }
    rewrite Nat2Z.id, read_exact_app by done. cbn [mbind option_bind]. by rewrite Hu.
Qed.

Lemma read_request rsv dst port s : dest_wf dst -> 0 <= port < 2 ^ 16 ->
  read_connect_request (request rsv dst port ++ s) = ([], Some (dest_text dst, port, s)).
Proof.
  intros Hd Hp. unfold request. rewrite <- !app_assoc.
  destruct (read_dest dst (map byte (be_digits 256 2 port) ++ s) Hd) as (atyp & wire & -> & Hh).
  unfold read_connect_request. cbn [app].
  pose proof (read_exact_app 4 [byte SOCKS5_VERSION; byte CMD_CONNECT; rsv; atyp]
                (wire ++ map byte (be_digits 256 2 port) ++ s) eq_refl) as E4.
  cbn [app] in E4. rewrite E4.
  change (negb (byte_val (byte SOCKS5_VERSION) =? SOCKS5_VERSION)) with false.
  change (negb (byte_val (byte CMD_CONNECT) =? CMD_CONNECT)) with false. cbn iota.
  rewrite Hh. cbn [mbind option_bind]. destruct (read_port_wire port s Hp) as [E5 E6].
  rewrite E5. cbn [mbind option_bind]. by rewrite E6.
Qed.

(** Every outcome that is a tunnel. *)
Lemma read_exact_inv n s a s' : read_exact n s = Some (a, s') -> s = a ++ s'.
Proof. unfold read_exact. destruct (Nat.leb n (length s)); [|done]. intros [= <- <-]. by rewrite take_drop. Qed.

Lemma negotiate_inv s out s' : negotiate_method s = (out, Some s') ->
  out = [byte SOCKS5_VERSION; byte METHOD_NO_AUTH] /\ exists head, s = head ++ s'.
Proof.
  unfold negotiate_method. destruct (read_exact 2 s) as [[[|ver [|nm [|? ?]]] s1]|] eqn:E1; try done.
  destruct (negb _); [done|]. destruct (read_exact (Z.to_nat (byte_val nm)) s1) as [[ms s2]|] eqn:E2; [|done].
  destruct (existsb _ ms); [|done]. intros [= <- <-]. split; [done|].
  apply read_exact_inv in E1 as ->, E2 as ->. exists ([ver; nm] ++ ms). by rewrite app_assoc.
Qed.

Lemma read_host_inv atyp s out host s' : read_host atyp s = (out, Some (host, s')) ->
  out = [] /\ exists head, s = head ++ s'.
Proof.
  unfold read_host.
  destruct (atyp =? ATYP_IPV4); [|destruct (atyp =? ATYP_IPV6); [|destruct (atyp =? ATYP_DOMAINNAME); [|done]]].
  1,2: match goal with |- context [read_exact ?n ?x] => destruct (read_exact n x) as [[b s1]|] eqn:E1 end;
    cbn [mbind option_bind]; [|done]; intros [= <- _ <-]; split; [done|];
    exists b; by eapply read_exact_inv.
  destruct (read_exact 1 s) as [[len s1]|] eqn:E1; cbn [mbind option_bind]; [|done].
  destruct (read_exact (Z.to_nat (be_bytes len)) s1) as [[name s2]|] eqn:E2; cbn [mbind option_bind]; [|done].
  destruct (is_utf8 name); [|done]. intros [= <- _ <-]. split; [done|].
  apply read_exact_inv in E1 as ->, E2 as ->. exists (len ++ name). by rewrite app_assoc.
Qed.

Lemma read_connect_request_inv s out host port s' : read_connect_request s = (out, Some (host, port, s')) ->
  out = [] /\ exists head, s = head ++ s'.
Proof.
  unfold read_connect_request.
  destruct (read_exact 4 s) as [[[|ver [|cmd [|rsv [|atyp [|? ?]]]]] s1]|] eqn:E1; try done.
  destruct (negb (byte_val ver =? _)); [done|]. destruct (negb (byte_val cmd =? _)); [done|].
  destruct (read_host (byte_val atyp) s1) as [out1 [[h s2]|]] eqn:Eh; cbn [mbind option_bind]; [|done].
  destruct (read_exact 2 s2) as [[p s3]|] eqn:Ep; cbn [mbind option_bind]; [|done].
  intros [= <- _ _ <-]. apply read_host_inv in Eh as [-> (h1 & ->)]. split; [done|].
  apply read_exact_inv in E1 as ->, Ep as ->.
  exists ([ver; cmd; rsv; atyp] ++ h1 ++ p). by rewrite <- !app_assoc.
Qed.
End SocksFacts.

(** ** HTTP CONNECT: the buffered reader *)

Section HttpFacts.
  Import Http.
#[local] Opaque MAX_HEAD_BYTES.

(** What the reader has still to give. *)
Definition pending (r : BufReader) : bytes := buffer r ++ concat (chunks r).

Lemma scan_spec limit s line rest found : scan limit s = (line, rest, found) ->
  s = line ++ rest /\ (length line <= limit)%nat /\
  (found = true -> exists l, line = l ++ [LF] /\ ~ In LF l) /\
  (found = false -> ~ In LF line /\ (rest = [] \/ length line = limit)).
Proof.
  revert s line rest found. induction limit as [|limit IH]; intros s line rest found; cbn [scan].
  { intros [= <- <- <-]. split_and!; [done|cbn; lia|done|]. intros _. split; [by intros []|by right]. }
  destruct s as [|c s]; [intros [= <- <- <-]; split_and!; [done|cbn; lia|done|intros _; split; [by intros []|by left]]|].
  destruct (Ascii.eqb_spec c LF) as [->|Hc].
  { intros [= <- <- <-]. split_and!; [done|cbn; lia| |done]. intros _. exists []. by split; [|intros []]. }
  destruct (scan limit s) as [[l r] f] eqn:E. intros [= <- <- <-].
  destruct (IH _ _ _ _ E) as (-> & Hl & Ht & Hf). split_and!; [done|cbn; lia| |].
  - intros H. destruct (Ht H) as (l' & -> & Hn). exists (c :: l'). split; [done|]. intros [?|?]; [congruence|done].
  - intros H. destruct (Hf H) as [Hn Hr]. split; [intros [?|?]; [congruence|done]|].
    destruct Hr as [?|?]; [by left|right; cbn; lia].
Qed.

(** Text without a line feed before a line's end is a part of the line. *)
Lemma line_prefix a t l rest : a ++ t = (l ++ [LF]) ++ rest -> ~ In LF a ->
  exists l1, l = a ++ l1 /\ t = (l1 ++ [LF]) ++ rest.
Proof.
  rewrite <- app_assoc. intros E Hn. destruct (app_eq_app _ _ _ _ E) as (x & [[-> Ex]|[-> Ex]]).
  - destruct x as [|c x]; [exists []; by rewrite !app_nil_r|]. injection Ex as <- Ex.
    destruct Hn. apply in_app_iff. right. by left.
  - exists x. split; [done|]. by rewrite <- app_assoc.
Qed.

Lemma scan_line limit l rest : ~ In LF l -> (S (length l) <= limit)%nat ->
  scan limit ((l ++ [LF]) ++ rest) = (l ++ [LF], rest, true).
Proof.
  revert limit. induction l as [|x l IH]; intros [|limit] Hl Hlim; cbn [length] in *; [lia| |lia|]; cbn [app scan].
  - by rewrite Ascii.eqb_refl.
  - destruct (Ascii.eqb_spec x LF) as [->|_]; [destruct Hl; by left|].
    rewrite IH by ((intros ?; apply Hl; by right) || lia). done.
Qed.

(** A line that ends within the limit is read whole, what is left is what
    follows it, and a boundary between chunks still to come stays one. *)
Lemma read_until_line limit l buf cs cs' rest :
  ~ In LF l -> (S (length l) <= limit)%nat -> buf ++ concat cs = (l ++ [LF]) ++ rest ->
  exists r cs1, read_until limit buf (cs ++ cs') = (l ++ [LF], r) /\ chunks r = cs1 ++ cs' /\
    buffer r ++ concat cs1 = rest.
Proof.
  revert limit l buf. induction cs as [|c cs IH]; intros limit l buf Hl Hlim E.
  { cbn [concat] in E. rewrite app_nil_r in E. subst buf. exists (mkBufReader rest cs'), [].
    split_and!; [|done|by rewrite app_nil_r].
    destruct cs'; cbn [app read_until]; by rewrite scan_line. }
  destruct (scan limit buf) as [[line0 rest0] found] eqn:Es.
  destruct (scan_spec _ _ _ _ _ Es) as (-> & Hlen & Ht & Hf).
  cbn [app read_until]. rewrite Es. rewrite <- app_assoc in E. destruct found; cbn [orb].
  - destruct (Ht eq_refl) as (l0 & -> & Hn0). exists (mkBufReader rest0 (c :: cs ++ cs')), (c :: cs).
    rewrite <- !app_assoc in E. pose proof (split_once_first LF l0 (rest0 ++ concat (c :: cs)) Hn0) as E0.
    cbn [app] in E, E0. rewrite E, (split_once_first LF l rest Hl) in E0.
    assert (l = l0 /\ rest = rest0 ++ concat (c :: cs)) as [-> ->] by (injection E0; done). done.
  - destruct (Hf eq_refl) as [Hn0 Hr]. destruct (line_prefix _ _ _ _ E Hn0) as (l1 & -> & E1).
    rewrite length_app in Hlim. destruct Hr as [->|?]; [|lia]. cbn [app] in E1.
    rewrite (proj2 (Nat.eqb_neq _ _)) by lia.
    destruct (IH (limit - length line0)%nat l1 c) as (r & cs1 & Hr & Hc & Hbuf); [|lia|done|].
    { intros ?. apply Hl, in_app_iff. by right. }
    rewrite Hr. exists r, cs1. split_and!; [by rewrite <- app_assoc|done|done].
Qed.

(** A head's lines after the first, as a client writes them. *)
Definition header_line (h : bytes) : Prop := ~ In LF h /\ h <> [] /\ h <> [CR].
Definition header_block (hs : list bytes) : bytes := concat (map (fun h => h ++ [LF]) hs) ++ CRLF.

Lemma header_block_cons h hs : header_block (h :: hs) = (h ++ [LF]) ++ header_block hs.
Proof. unfold header_block. cbn [map concat]. by rewrite <- app_assoc. Qed.

Lemma read_line_line cap l r cs cs' rest :
  ~ In LF l -> (S (length l) <= cap)%nat -> chunks r = cs ++ cs' -> buffer r ++ concat cs = (l ++ [LF]) ++ rest ->
  exists r' cs1, read_line_capped cap r = Some (l ++ [LF], r') /\ chunks r' = cs1 ++ cs' /\
    buffer r' ++ concat cs1 = rest.
Proof.
  intros Hl Hcap Hc E. unfold read_line_capped. rewrite Hc.
  destruct (read_until_line (S cap) l (buffer r) cs cs' rest Hl) as (r' & cs1 & -> & Hc1 & Hb); [lia|done|].
  exists r', cs1. rewrite (proj2 (Nat.ltb_ge _ _)) by (rewrite length_app; cbn; lia). done.
Qed.

Lemma drain_block fuel total hs r cs cs' rest :
  Forall header_line hs -> (length hs < fuel)%nat -> (total + length (header_block hs) <= MAX_HEAD_BYTES)%nat ->
  chunks r = cs ++ cs' -> buffer r ++ concat cs = header_block hs ++ rest ->
  exists r' cs1, drain_headers_fuel fuel total r = Some r' /\ chunks r' = cs1 ++ cs' /\
    buffer r' ++ concat cs1 = rest.
Proof.
  intros Hh. revert fuel total r cs. induction Hh as [|h hs (Hn & Hne & Hncr) Hh IH];
    intros [|fuel] total r cs Hf Ht Hc E; [cbn in Hf; lia| |cbn in Hf; lia|].
  - cbn [drain_headers_fuel]. change (header_block []) with ([CR] ++ [LF]) in *.
    destruct (read_line_line (MAX_HEAD_BYTES - total) [CR] r cs cs' rest) as (r' & cs1 & -> & Hc1 & Hb);
      [intros [?|[]]; discriminate|cbn in Ht |- *; lia|done|done|].
    exists r', cs1. done.
  - rewrite header_block_cons in *. rewrite length_app in Ht. rewrite <- (app_assoc _ _ rest) in E.
    assert (Hb2 : (2 <= length (header_block hs))%nat).
    { unfold header_block. rewrite length_app. cbn [length CRLF]. lia. }
    cbn [drain_headers_fuel].
    destruct (read_line_line (MAX_HEAD_BYTES - total) h r cs cs' (header_block hs ++ rest) Hn) as (r' & cs1 & -> & Hc1 & Hb);
      [rewrite length_app in Ht; cbn in Ht; lia|exact Hc|exact E|].
    destruct (h ++ [LF]) as [|x line] eqn:El; [by destruct h|]. rewrite <- El.
    rewrite !bool_decide_false; cycle 1.
    { intros Heq. apply Hne. by apply (app_inv_tail [LF] h []). }
    { intros Heq. apply Hncr. by apply (app_inv_tail [LF] h [CR]). }
    cbn [orb]. rewrite El in *. rewrite (proj2 (Nat.leb_gt _ _)) by lia.
    apply (IH fuel _ r' cs1); [cbn in Hf; lia|lia|done|done].
Qed.

(** Everything a client's [CONNECT] request is answered with, and what its
    tunnel carries of the stream. *)
Definition connect_outcome (d : Dialer) (host : bytes) (port : Z) (stream : bytes) : bytes * Outcome :=
  if device_up d then
    match connect_by_name d host port with
    | Ok _ => (OK_REPLY, Tunnel host port stream)
    | Err e => (connect_error e, Closed)
    end
  else (connect_error (bs "node is not up"), Closed).

Lemma connect_request_outcome (lossy : bytes -> bytes) (d : Dialer) (l : bytes) (hs cs1 cs2 : list bytes)
    (early target host : bytes) (port : Z) (method : bytes) (more : list bytes) :
  ~ In LF l -> (S (length l) <= MAX_HEAD_BYTES)%nat ->
  Forall header_line hs -> (length (header_block hs) <= MAX_HEAD_BYTES)%nat ->
  split_whitespace (lossy (l ++ [LF])) = method :: target :: more ->
  eq_ignore_ascii_case method (bs "CONNECT") = true -> parse_authority target = Some (host, port) ->
  concat cs1 = (l ++ [LF]) ++ header_block hs ++ early ->
  exists lost kept, early = lost ++ kept /\
    handle_request_head lossy d (cs1 ++ cs2) = connect_outcome d host port (kept ++ concat cs2).
Proof.
  intros Hl Hlen Hh Hblock Hsplit Hm Hp E. unfold handle_request_head.
  destruct (read_line_line MAX_HEAD_BYTES l (mkBufReader [] (cs1 ++ cs2)) cs1 cs2 (header_block hs ++ early)
              Hl Hlen eq_refl E)
    as (r & csr & -> & Hc & Hb).
  destruct (l ++ [LF]) as [|x line] eqn:El; [by destruct l|]. rewrite Hsplit. cbv zeta.
  change (default [] ((method :: target :: more) !! 0%nat)) with method.
  change (default [] ((method :: target :: more) !! 1%nat)) with target. rewrite Hm. unfold handle_connect. rewrite Hp. unfold drain_headers.
  assert (Hcount : (length hs < S MAX_HEAD_BYTES)%nat).
  { assert (Hle : (length hs <= length (header_block hs))%nat); [|lia].
    clear. induction hs as [|h hs IH]; [cbn; lia|]. rewrite header_block_cons, !length_app. cbn [length]. lia. }
  destruct (drain_block (S MAX_HEAD_BYTES) 0 hs r csr cs2 early Hh Hcount) as (r' & cs' & -> & Hc' & Hb');
    [lia|done|done|].
  exists (buffer r'), (concat cs'). split; [done|]. unfold connect_outcome, into_inner.
  rewrite Hc', concat_app. by destruct (device_up d).
Qed.

(** *** The error header *)

(** No C0 control and no DEL. *)
Definition header_safe (c : ascii) : Prop := 32 <= byte_val c /\ byte_val c <> 127.

Lemma continuation_high c : continuation c = true -> 128 <= byte_val c.
Proof. unfold continuation. lia. Qed.
Lemma between_range lo hi c : between lo hi c = true -> lo <= byte_val c <= hi.
Proof. unfold between. lia. Qed.
Lemma high_safe c : 128 <= byte_val c -> header_safe c.
Proof. unfold header_safe. lia. Qed.

(** The characters of well-formed text that are not controls are safe. *)
Lemma chars_safe fuel s : is_utf8_fuel fuel s = true ->
  Forall (fun ch => is_control ch = false -> Forall header_safe ch) (chars_fuel fuel s).
Proof.
  revert s. induction fuel as [fuel IH] using lt_wf_ind. intros s H.
  destruct fuel as [|f]; [constructor|]. destruct s as [|a s1]; [constructor|].
  cbn [is_utf8_fuel] in H. cbn [chars_fuel]. unfold char_len.
  assert (Hmore : forall g s', is_utf8_fuel f s' = true -> (g <= f)%nat ->
    Forall (fun ch => is_control ch = false -> Forall header_safe ch) (chars_fuel f s')).
  { intros g s' Hs _. by apply IH; [lia|]. }
  specialize (fun s' Hs => Hmore f s' Hs (le_n f)). cbv zeta.
  destruct (between 0 127 a) eqn:Ea.
  { apply between_range in Ea. rewrite (proj2 (Z.ltb_lt _ _)) by lia. rewrite ?firstn_cons, ?firstn_O, ?skipn_cons, ?skipn_O. constructor; [|by apply Hmore].
    unfold is_control. intros Hc. constructor; [|constructor]. unfold between in Hc. unfold header_safe. lia. }
  assert (Hna : 128 <= byte_val a) by (pose proof (byte_val_range a); unfold between in Ea; lia).
  rewrite (proj2 (Z.ltb_ge _ _)) by lia.
  destruct s1 as [|b s2]; [done|]. destruct (between 194 223 a) eqn:Eb.
  { apply between_range in Eb. rewrite (proj2 (Z.ltb_lt _ _)) by lia. rewrite ?firstn_cons, ?firstn_O, ?skipn_cons, ?skipn_O.
    apply andb_true_iff in H as [Hb H]. apply continuation_high in Hb.
    constructor; [|by apply Hmore]. intros _. repeat constructor; apply high_safe; lia. }
  destruct s2 as [|c s3]; [done|]. destruct (between 224 239 a) eqn:Ec.
  { apply between_range in Ec. rewrite (proj2 (Z.ltb_ge _ _)), (proj2 (Z.ltb_lt _ _)) by lia. rewrite ?firstn_cons, ?firstn_O, ?skipn_cons, ?skipn_O.
    apply andb_true_iff in H as [H Hs]. apply andb_true_iff in H as [Hc Hb]. apply continuation_high in Hc.
    assert (128 <= byte_val b).
    { destruct (byte_val a =? 224); [apply between_range in Hb; lia|].
      destruct (byte_val a =? 237); [apply between_range in Hb; lia|by apply continuation_high]. }
    constructor; [|by apply Hmore]. intros _. repeat constructor; apply high_safe; lia. }
  destruct s3 as [|d s4]; [done|].
  apply andb_true_iff in H as [H Hs]. apply andb_true_iff in H as [H Hb]. apply andb_true_iff in H as [H Hd].
  apply andb_true_iff in H as [Ha Hc]. apply between_range in Ha. apply continuation_high in Hc, Hd.
  rewrite !(proj2 (Z.ltb_ge _ _)) by lia. rewrite ?firstn_cons, ?firstn_O, ?skipn_cons, ?skipn_O.
  assert (128 <= byte_val b).
  { destruct (byte_val a =? 240); [apply between_range in Hb; lia|].
    destruct (byte_val a =? 244); [apply between_range in Hb; lia|by apply continuation_high]. }
  constructor; [|by apply Hmore]. intros _. repeat constructor; apply high_safe; lia.
Qed.

Lemma sanitized_safe err : is_utf8 err = true -> Forall header_safe (sanitize_header_value err).
Proof.
  intros H. unfold sanitize_header_value. set (l := map _ (chars err)).
  assert (Hl : Forall (Forall header_safe) l).
  { subst l. apply Forall_map. eapply List.Forall_impl; [|exact (chars_safe _ _ H)].
    intros ch Hc. cbn. destruct (is_control ch) eqn:E; [|by apply Hc].
    repeat constructor; by vm_compute. }
  apply (Forall_take _ MAX_ERROR_HEADER_LEN) in Hl. set (l' := take MAX_ERROR_HEADER_LEN l) in *. clearbody l'.
  assert (Hc : Forall header_safe (concat l')) by (induction Hl; cbn [concat]; [constructor|by apply Forall_app]).
  destruct (trim_infix (concat l')) as (x & y & E). rewrite E in Hc.
  apply Forall_app in Hc as [_ Hc]. by apply Forall_app in Hc as [Hc _].
Qed.
End HttpFacts.

(** ** Properties *)

(** C33: The SOCKS5 handshake is exact in both directions.  A client that
    offers no authentication and asks for an IPv4, IPv6 or UTF-8 named
    destination gets the no-auth choice, and then success exactly when a
    device is up and the dial over the tailnet of that very host and port
    succeeds, a general failure with no device and host-unreachable for a
    failed dial; and the tunnel carries every byte it sent after the request,
    whether or not it waited for the answers.  Conversely any input at all
    that ends in a tunnel was answered by exactly those two replies, was
    dialed with success, and its tunnel is a suffix of the input. *)
Theorem socks_handshake_exact (d : Dialer) (s : bytes) (methods payload : bytes) (rsv : ascii)
    (dst : Dest) (port : Z) :
  (length methods <= 255)%nat -> In (byte Socks.METHOD_NO_AUTH) methods -> dest_wf dst -> 0 <= port < 2 ^ 16 ->
  let chosen := map byte [Socks.SOCKS5_VERSION; Socks.METHOD_NO_AUTH] in
  Socks.handle_connection d (greeting methods ++ request rsv dst port ++ payload) =
    (if device_up d then
       match connect_by_name d (dest_text dst) port with
       | Ok _ => (chosen ++ Socks.send_reply Socks.SUCCEEDED, Tunnel (dest_text dst) port payload)
       | Err _ => (chosen ++ Socks.send_reply Socks.HOST_UNREACHABLE, Closed)
       end
     else (chosen ++ Socks.send_reply Socks.GENERAL_FAILURE, Closed)) /\
  forall out host port' rest, Socks.handle_connection d s = (out, Tunnel host port' rest) ->
    device_up d = true /\ is_ok (connect_by_name d host port') = true /\
    out = chosen ++ Socks.send_reply Socks.SUCCEEDED /\ exists head, s = head ++ rest.
Proof.
  intros Hl Hin Hd Hp. cbv zeta. split.
  - unfold Socks.handle_connection. rewrite negotiate_greeting by done. rewrite read_request by done.
    by destruct (device_up d), (connect_by_name d (dest_text dst) port).
  - intros out host port' rest. unfold Socks.handle_connection.
    destruct (Socks.negotiate_method s) as [out1 [s1|]] eqn:E1; [|done].
    apply negotiate_inv in E1 as [-> (h1 & ->)].
    destruct (Socks.read_connect_request s1) as [out2 [[[h p] s2]|]] eqn:E2; [|done].
    apply read_connect_request_inv in E2 as [-> (h2 & ->)].
    destruct (device_up d); cbn [negb]; [|done]. destruct (connect_by_name d h p) eqn:Ec; [|done].
    intros [= <- <- <- <-]. split_and!; [done|by rewrite Ec|done|]. exists (h1 ++ h2). by rewrite app_assoc.
Qed.

Definition example_dialer : Dialer := mkDialer true (fun host _ => if bool_decide (host = bs "peer") then Ok tt else Err (bs "no")).

Lemma socks_handshake_exact_witness :
  let wire := greeting [byte 2; byte 0] ++ request (byte 0) (DestName (bs "peer")) 443 ++ bs "hello" in
  snd (Socks.handle_connection example_dialer wire) = Tunnel (bs "peer") 443 (bs "hello").
Proof.
  cbv zeta.
  rewrite (proj1 (socks_handshake_exact example_dialer [] [byte 2; byte 0] (bs "hello") (byte 0) (DestName (bs "peer")) 443
    ltac:(cbn; lia) ltac:(right; left; reflexivity) ltac:(split; [vm_compute; reflexivity|cbn; lia]) ltac:(lia))).
  reflexivity.
Defined.


Definition connect_line : bytes := bs "CONNECT peer:443 HTTP/1.1" ++ [CR].
Definition connect_head : bytes := (connect_line ++ [LF]) ++ header_block [bs "Host: peer:443" ++ [CR]].


(** Bytes that reach the proxy in one piece with the head, as those of a
    client that does not wait for the answer do, never reach the peer. *)
Lemma pipelined_bytes_lost :
  Http.handle_request_head id example_dialer [connect_head ++ bs "hello"] =
    (Http.OK_REPLY, Tunnel (bs "peer") 443 []).
Proof. vm_compute. reflexivity. Qed.

(** Whatever the failed dial reports, the error reply is one well-formed
    response: the reason becomes the value of one header, without a control
    character that could end the line or start another, and the reply reads
    back as its status line, that header, the two fixed headers and the blank
    line. *)
Theorem connect_error_one_header (err : bytes) : is_utf8 err = true ->
  Forall header_safe (Http.sanitize_header_value err) /\
  lines (Http.connect_error err) =
    [bs "HTTP/1.1 500 Internal Server Error"; bs "Tailscale-Connect-Error: " ++ Http.sanitize_header_value err;
     bs "Connection: close"; bs "Content-Length: 0"; []].
Proof.
  intros H. pose proof (sanitized_safe err H) as Hs. split; [exact Hs|].
  unfold Http.connect_error, Http.CRLF. set (v := Http.sanitize_header_value err) in *. clearbody v.
  assert (Hline : forall x s, ~ In LF x -> lines (x ++ [CR; LF] ++ s) = x :: lines s).
  { intros x s Hx. replace (x ++ [CR; LF] ++ s) with ((x ++ [CR]) ++ LF :: s) by by rewrite <- app_assoc.
    rewrite lines_cut, strip_cr_snoc; [done|]. rewrite in_app_iff. intros [?|[?|[]]]; done. }
  assert (Hv : ~ In LF v).
  { intros Hin. rewrite List.Forall_forall in Hs. apply Hs in Hin as [Hin _]. by vm_compute in Hin. }
  rewrite (Hline (bs "HTTP/1.1 500 Internal Server Error")) by (vm_compute; intuition discriminate).
  rewrite (app_assoc (bs "Tailscale-Connect-Error: ") v).
  rewrite Hline by (rewrite in_app_iff; intros [Hin|?]; [vm_compute in Hin; intuition discriminate|done]).
  rewrite (Hline (bs "Connection: close")) by (vm_compute; intuition discriminate).
  rewrite (Hline (bs "Content-Length: 0")) by (vm_compute; intuition discriminate). reflexivity.
Qed.

Lemma connect_error_one_header_witness :
  let err := bs "boom" ++ [CR; LF] ++ bs "X-Evil: 1" in
  length (lines (Http.connect_error err)) = 5%nat.
Proof.
  cbv zeta. rewrite (proj2 (connect_error_one_header (bs "boom" ++ [CR; LF] ++ bs "X-Evil: 1") ltac:(vm_compute; reflexivity))).
  reflexivity.
Defined.

Example listen_examples :
  map Socks.normalize_listen_addr [bs " 1055 "; bs "0.0.0.0:1055"; bs "[::1%2]:80"; bs "0"; bs "nope"; []] =
  [Ok (bs "127.0.0.1:1055"); Ok (bs "0.0.0.0:1055"); Ok (bs "[::1%2]:80"); Err Socks.ListenPortZero;
   Err (Socks.ListenNeither (bs "nope")); Err Socks.ListenEmpty].
Proof. vm_compute. reflexivity. Qed.
