(* ===== verification/PortmapWire.v ===== *)
(** * The port-mapping wire formats: [src/portmap.rs]

    NAT-PMP (RFC 6886) and PCP (RFC 6887) datagrams as lists of octets: the
    request builders, the response parsers with every refusal, and how an
    address travels in PCP.  Reading a slice past its end is a panic in the
    source; the parsers check lengths first, and [field] is only used below
    the length they checked. *)
From Stdlib Require Import ZArith Lia Ascii String List.
From stdpp Require Import base list strings option.
From S2P Require Import Prelude NetAddr.

(** A datagram is its octets. *)
Abbreviation datagram := (list Z).

Definition octet (z : Z) : Prop := 0 <= z < 256.

(** [to_be_bytes] of a [u16] and a [u32], and [from_be_bytes] of [n] octets
    at [off]. *)
Definition be16 (z : Z) : datagram := be_digits 256 2 z.
Definition be32 (z : Z) : datagram := be_digits 256 4 z.
Definition slice (pkt : datagram) (off n : nat) : datagram := take n (drop off pkt).
Definition field (pkt : datagram) (off n : nat) : Z := be_value 256 (slice pkt off n).

(** ** NAT-PMP *)

Definition PXP_PORT : Z := 5351.
Definition MAP_LIFETIME_SEC : Z := 7200.
Definition MAP_LIFETIME_DELETE : Z := 0.
Definition PMP_VERSION : Z := 0.
Definition PMP_OP_MAP_PUBLIC_ADDR : Z := 0.
Definition PMP_OP_MAP_UDP : Z := 1.
Definition PMP_OP_REPLY : Z := 0x80.
Definition PMP_REQ_EXTERNAL_ADDR_PACKET : datagram := [PMP_VERSION; PMP_OP_MAP_PUBLIC_ADDR].

(** [PmpResultCode]'s named values. *)
Definition PMP_OK : Z := 0.
Definition PMP_NOT_AUTHORIZED : Z := 2.
Definition PMP_NETWORK_FAILURE : Z := 3.
Definition PMP_OUT_OF_RESOURCES : Z := 4.

Definition build_pmp_request_mapping_packet (local_port prev_port lifetime_sec : Z) : datagram :=
  [PMP_VERSION; PMP_OP_MAP_UDP; 0; 0] ++ be16 local_port ++ be16 prev_port ++ be32 lifetime_sec.

Record PmpResponse : Type := mkPmpResponse {
  pmp_op_code : Z;
  pmp_result_code : Z;
  pmp_seconds_since_epoch : Z;
  pmp_mapping_valid_seconds : Z;
  pmp_internal_port : Z;
  pmp_external_port : Z;
  pmp_public_addr : option Z
}.

(** The two replies with a body of their own have a length of their own. *)
Definition parse_pmp_response (pkt : datagram) : option PmpResponse :=
  if Nat.ltb (length pkt) 12 then None
  else if negb (field pkt 0 1 =? PMP_VERSION) then None
  else
    let op := field pkt 1 1 in
    let head := mkPmpResponse op (field pkt 2 2) (field pkt 4 4) in
    if op =? Z.lor PMP_OP_REPLY PMP_OP_MAP_UDP then
      if Nat.eqb (length pkt) 16
      then Some (head (field pkt 12 4) (field pkt 8 2) (field pkt 10 2) None)
      else None
    else if op =? Z.lor PMP_OP_REPLY PMP_OP_MAP_PUBLIC_ADDR then
      if Nat.eqb (length pkt) 12
      then Some (head 0 0 0 (let addr := field pkt 8 4 in if addr =? 0 then None else Some addr))
      else None
    else Some (head 0 0 0 None).

(** ** PCP *)

Definition PCP_VERSION : Z := 2.
Definition PCP_OP_REPLY : Z := 0x80.
Definition PCP_OP_ANNOUNCE : Z := 0.
Definition PCP_OP_MAP : Z := 1.
Definition PCP_UDP_MAPPING : Z := 17.

(** [PcpResultCode]'s named values. *)
Definition PCP_OK : Z := 0.
Definition PCP_NOT_AUTHORIZED : Z := 2.
Definition PCP_ADDRESS_MISMATCH : Z := 12.

(** [as16]: IPv4 travels in its IPv4-mapped form. *)
Definition as16 (ip : IpAddr) : datagram :=
  match ip with
  | V4 b => repeat 0 10 ++ [255; 255] ++ octets4 b
  | V6 b => octets16 b
  end.

Definition unmap (b : Z) : IpAddr :=
  if b / 2 ^ 32 =? 0xffff then V4 (b mod 2 ^ 32) else V6 b.

Definition pcp_announce_request (my_ip : IpAddr) : datagram :=
  [PCP_VERSION; PCP_OP_ANNOUNCE; 0; 0; 0; 0; 0; 0] ++ as16 my_ip.

Definition build_pcp_request_mapping_packet (nonce : datagram) (my_ip : IpAddr)
    (local_port prev_port lifetime_sec : Z) (prev_external_ip : IpAddr) : datagram :=
  [PCP_VERSION; PCP_OP_MAP; 0; 0] ++ be32 lifetime_sec ++ as16 my_ip ++
  nonce ++ [PCP_UDP_MAPPING; 0; 0; 0] ++ be16 local_port ++ be16 prev_port ++ as16 prev_external_ip.

Record PcpResponse : Type := mkPcpResponse {
  pcp_op_code : Z;
  pcp_result_code : Z;
  pcp_lifetime : Z;
  pcp_epoch : Z
}.

Definition parse_pcp_response (b : datagram) : option PcpResponse :=
  if Nat.ltb (length b) 24 || negb (field b 0 1 =? PCP_VERSION) then None
  else Some (mkPcpResponse (field b 1 1) (field b 3 1) (field b 4 4) (field b 8 4)).

Record SocketAddr : Type := mkSocketAddr { sa_ip : IpAddr; sa_port : Z }.

#[global] Instance SocketAddr_eq_dec : EqDecision SocketAddr.
Proof. solve_decision. Defined.

Record PcpMapResponse : Type := mkPcpMapResponse {
  grant_external : SocketAddr;
  grant_lifetime : Z;
  grant_epoch : Z
}.

Inductive PcpMapError : Type :=
| NotAMapResponse
| InvalidCommonHeader
| PcpNotEnabled
| PcpResponseNotOk (code : Z).

Definition parse_pcp_map_response (resp : datagram) : result PcpMapError PcpMapResponse :=
  _ ← guard_err (Nat.ltb (length resp) 60) NotAMapResponse;
  res ← ok_or InvalidCommonHeader (parse_pcp_response (take 24 resp));
  _ ← guard_err (pcp_result_code res =? PCP_NOT_AUTHORIZED) PcpNotEnabled;
  _ ← guard_err (negb (pcp_result_code res =? PCP_OK)) (PcpResponseNotOk (pcp_result_code res));
  Ok (mkPcpMapResponse (mkSocketAddr (unmap (field resp 44 16)) (field resp 42 2))
        (pcp_lifetime res) (pcp_epoch res)).

(** ** Octets *)

Lemma length_be16 z : length (be16 z) = 2%nat.
Proof. apply length_be_digits. Qed.
Lemma length_be32 z : length (be32 z) = 4%nat.
Proof. apply length_be_digits. Qed.
Lemma length_as16 ip : length (as16 ip) = 16%nat.
Proof.
  destruct ip; unfold as16, octets4, octets16; rewrite ?length_app, length_be_digits; reflexivity.
Qed.

#[export] Hint Rewrite @length_app length_be16 length_be32 length_as16 @length_cons @length_nil
  : octets.

(** The field laid at its offset. *)
Lemma slice_at (a x b : datagram) : slice (a ++ x ++ b) (length a) (length x) = x.
Proof. unfold slice. by rewrite drop_app_length, take_app_length. Qed.

Lemma field_be (a b : datagram) n z off :
  off = length a -> 0 <= z < 256 ^ Z.of_nat n ->
  field (a ++ be_digits 256 n z ++ b) off n = z.
Proof.
  intros -> Hz. unfold field. rewrite <- (length_be_digits 256 n z) at 2. rewrite slice_at.
  rewrite be_value_digits by lia. by apply Z.mod_small.
Qed.

Lemma octets4_value b : 0 <= b < 2 ^ 32 -> be_value 256 (octets4 b) = b.
Proof. intros H. unfold octets4. rewrite be_value_digits by lia. by apply Z.mod_small. Qed.

(** What travels as sixteen octets comes back as the address it was. *)
Definition canonical_ip (ip : IpAddr) : Prop :=
  ip_wf ip /\ match ip with V4 _ => True | V6 b => b / 2 ^ 32 <> 0xffff end.

Lemma be_value_prefix (l r : list Z) :
  be_value 256 (l ++ r) = be_value 256 l * 256 ^ Z.of_nat (length r) + be_value 256 r.
Proof.
  induction r as [|d r IH] using rev_ind; cbn [length].
  - rewrite app_nil_r, Z.pow_0_r. cbn. lia.
  - rewrite app_assoc, !be_value_app, IH, length_app, Nat2Z.inj_add, Z.pow_add_r by lia.
    change (256 ^ Z.of_nat (length [d])) with 256. lia.
Qed.

Lemma as16_value ip : ip_wf ip ->
  be_value 256 (as16 ip) = match ip with V4 b => 0xffff * 2 ^ 32 + b | V6 b => b end.
Proof.
  destruct ip as [b|b]; cbn [ip_wf as16]; intros H.
  - rewrite app_assoc, be_value_prefix, octets4_value by done.
    unfold octets4. rewrite length_be_digits. reflexivity.
  - unfold octets16. rewrite be_value_digits by lia. by apply Z.mod_small.
Qed.

Lemma unmap_as16 ip : canonical_ip ip -> unmap (be_value 256 (as16 ip)) = ip.
Proof.
  intros [Hw Hc]. rewrite as16_value by done. unfold unmap. destruct ip as [b|b]; cbn [ip_wf] in Hw.
  - rewrite Z.div_add_l, (Z.div_small b), (Z.add_comm (_ * _) b), Z.mod_add, Z.mod_small by lia.
    reflexivity.
  - destruct (Z.eqb_spec (b / 2 ^ 32) 0xffff); [by exfalso|reflexivity].
Qed.

(** ** What a gateway sends *)

(** RFC 6886, section 3: the two success replies of NAT-PMP, and RFC 6887,
    sections 7.2 and 11.1: a MAP response, with the fields the client does not
    read left arbitrary. *)
Definition pmp_addr_reply (code epoch addr : Z) : datagram :=
  [PMP_VERSION; Z.lor PMP_OP_REPLY PMP_OP_MAP_PUBLIC_ADDR] ++ be16 code ++ be32 epoch ++ be32 addr.
Definition pmp_map_reply (code epoch internal external lifetime : Z) : datagram :=
  [PMP_VERSION; Z.lor PMP_OP_REPLY PMP_OP_MAP_UDP] ++ be16 code ++ be32 epoch ++
  be16 internal ++ be16 external ++ be32 lifetime.
Definition pcp_map_reply (code lifetime epoch : Z) (reserved nonce proto : datagram)
    (internal external : Z) (ip : IpAddr) (options : datagram) : datagram :=
  [PCP_VERSION; Z.lor PCP_OP_REPLY PCP_OP_MAP; 0; code] ++ be32 lifetime ++ be32 epoch ++
  reserved ++ nonce ++ proto ++ be16 internal ++ be16 external ++ as16 ip ++ options.

Definition u16 (z : Z) : Prop := 0 <= z < 2 ^ 16.
Definition u32 (z : Z) : Prop := 0 <= z < 2 ^ 32.

(** The octets of a built datagram, by position: skip the parts before the
    offset, then read the field. *)
Lemma field_skip (a x : datagram) off n :
  (length a <= off)%nat -> field (a ++ x) off n = field x (off - length a) n.
Proof. intros H. unfold field, slice. by rewrite drop_app_ge. Qed.

Lemma field_cons (d : Z) (x : datagram) off n : field (d :: x) (S off) n = field x off n.
Proof. reflexivity. Qed.

Lemma field_head (x : Z) (l : datagram) : field (x :: l) 0 1 = x.
Proof. change (0 * 256 + x = x). lia. Qed.

Lemma field_whole (x b : datagram) n : n = length x -> field (x ++ b) 0 n = be_value 256 x.
Proof. intros ->. unfold field. f_equal. apply (slice_at [] x b). Qed.

Lemma field_be16 z b : u16 z -> field (be16 z ++ b) 0 2 = z.
Proof. intros H. rewrite field_whole by (by rewrite length_be16). unfold be16.
  rewrite be_value_digits by lia. by apply Z.mod_small. Qed.
Lemma field_be32 z b : u32 z -> field (be32 z ++ b) 0 4 = z.
Proof. intros H. rewrite field_whole by (by rewrite length_be32). unfold be32.
  rewrite be_value_digits by lia. by apply Z.mod_small. Qed.

Ltac octets := autorewrite with octets; cbn [length Nat.add].
Ltac fields :=
  cbn [app];
  repeat first
    [ rewrite field_cons
    | rewrite field_head
    | rewrite field_be16 by assumption
    | rewrite field_be32 by assumption
    | rewrite field_skip by (octets; lia); octets; cbn [Nat.sub] ].

Lemma parse_pmp_addr_reply code epoch addr : u16 code -> u32 epoch -> u32 addr ->
  parse_pmp_response (pmp_addr_reply code epoch addr)
  = Some (mkPmpResponse 0x80 code epoch 0 0 0 (if addr =? 0 then None else Some addr)).
Proof.
  intros Hc He Ha. unfold parse_pmp_response, pmp_addr_reply. octets.
  rewrite <- (app_nil_r (be32 addr)). cbn [Nat.ltb Nat.leb Nat.eqb]. fields. reflexivity.
Qed.

Lemma parse_pmp_map_reply code epoch internal external lifetime :
  u16 code -> u32 epoch -> u16 internal -> u16 external -> u32 lifetime ->
  parse_pmp_response (pmp_map_reply code epoch internal external lifetime)
  = Some (mkPmpResponse 0x81 code epoch lifetime internal external None).
Proof.
  intros Hc He Hi Hx Hl. unfold parse_pmp_response, pmp_map_reply. octets.
  rewrite <- (app_nil_r (be32 lifetime)). cbn [Nat.ltb Nat.leb Nat.eqb]. fields. reflexivity.
Qed.

Lemma parse_pcp_header op code lifetime epoch tail :
  u32 lifetime -> u32 epoch -> (12 <= length tail)%nat ->
  parse_pcp_response ([PCP_VERSION; op; 0; code] ++ be32 lifetime ++ be32 epoch ++ tail)
  = Some (mkPcpResponse op code lifetime epoch).
Proof.
  intros Hl He Ht. unfold parse_pcp_response. octets.
  replace (Nat.ltb _ 24) with false by (symmetry; apply Nat.ltb_ge; lia).
  fields. rewrite Z.eqb_refl. reflexivity.
Qed.

(** The response the RFC lays out, read back. *)
Lemma parse_pcp_map_reply code lifetime epoch reserved nonce proto internal external ip options :
  u32 lifetime -> u32 epoch -> u16 external -> canonical_ip ip ->
  length reserved = 12%nat -> length nonce = 12%nat -> length proto = 4%nat ->
  parse_pcp_map_response
    (pcp_map_reply code lifetime epoch reserved nonce proto internal external ip options)
  = if code =? PCP_NOT_AUTHORIZED then Err PcpNotEnabled
    else if code =? PCP_OK
    then Ok (mkPcpMapResponse (mkSocketAddr ip external) lifetime epoch)
    else Err (PcpResponseNotOk code).
Proof.
  intros Hl He Hx Hip Hr Hn Hp. unfold parse_pcp_map_response, pcp_map_reply.
  set (rest := be16 internal ++ be16 external ++ as16 ip ++ options).
  assert (Hrest : length rest = (20 + length options)%nat) by (unfold rest; octets; lia).
  replace (take 24 _) with ([PCP_VERSION; Z.lor PCP_OP_REPLY PCP_OP_MAP; 0; code] ++
                            be32 lifetime ++ be32 epoch ++ reserved).
  2: { rewrite !app_assoc, <- (app_assoc _ nonce), <- (app_assoc _ (nonce ++ proto)).
       symmetry. apply take_app_length'. octets. by rewrite Hr. }
  rewrite parse_pcp_header by (done || lia). octets. rewrite Hrest, Hr, Hn, Hp.
  cbn [Nat.ltb Nat.leb Nat.add guard_err mbind result_bind ok_or pcp_result_code pcp_lifetime pcp_epoch].
  fields. rewrite Hr, Hn, Hp. cbn [Nat.sub].
  destruct (code =? PCP_NOT_AUTHORIZED); [reflexivity|].
  destruct (code =? PCP_OK); [|reflexivity]. cbn [negb guard_err mbind result_bind].
  unfold rest. do 3 f_equal; fields; [|reflexivity].
  rewrite field_whole by (by rewrite length_as16). by rewrite unmap_as16.
Qed.

(** ** Properties *)

(** The client understands every answer a conforming gateway can give, in
    both protocols: an external-address reply and a mapping reply of NAT-PMP
    and a MAP response of PCP, laid out as their RFCs say with any values of
    the fields, parse back to exactly those values; the unusable address
    [0.0.0.0] is read as none, an IPv4 address sent in PCP's IPv4-mapped form
    comes back as IPv4, and each refusal keeps its code. *)
Theorem gateway_replies_decode (code epoch lifetime internal external addr : Z) (ip : IpAddr)
    (reserved nonce proto options : datagram) :
  u16 code -> u32 epoch -> u32 lifetime -> u16 internal -> u16 external -> u32 addr ->
  canonical_ip ip -> length reserved = 12%nat -> length nonce = 12%nat -> length proto = 4%nat ->
  parse_pmp_response (pmp_addr_reply code epoch addr)
  = Some (mkPmpResponse 0x80 code epoch 0 0 0 (if addr =? 0 then None else Some addr)) /\
  parse_pmp_response (pmp_map_reply code epoch internal external lifetime)
  = Some (mkPmpResponse 0x81 code epoch lifetime internal external None) /\
  parse_pcp_map_response
    (pcp_map_reply code lifetime epoch reserved nonce proto internal external ip options)
  = (if code =? PCP_NOT_AUTHORIZED then Err PcpNotEnabled
     else if code =? PCP_OK then Ok (mkPcpMapResponse (mkSocketAddr ip external) lifetime epoch)
     else Err (PcpResponseNotOk code)).
Proof.
  intros. split_and!; [by apply parse_pmp_addr_reply|by apply parse_pmp_map_reply|].
  by apply parse_pcp_map_reply.
Qed.

Lemma gateway_replies_decode_witness :
  parse_pmp_response (pmp_addr_reply 0 500 0) = Some (mkPmpResponse 0x80 0 500 0 0 0 None) /\
  parse_pmp_response (pmp_map_reply 0 500 41641 50000 7200)
  = Some (mkPmpResponse 0x81 0 500 7200 41641 50000 None) /\
  parse_pcp_map_response
    (pcp_map_reply 0 7200 500 (repeat 0 12) (repeat 7 12) [17; 0; 0; 0] 41641 50000
       (V4 (ipv4 203 0 113 9)) [])
  = Ok (mkPcpMapResponse (mkSocketAddr (V4 (ipv4 203 0 113 9)) 50000) 7200 500).
Proof.
  apply (gateway_replies_decode 0 500 7200 41641 50000 0 (V4 (ipv4 203 0 113 9))
           (repeat 0 12) (repeat 7 12) [17; 0; 0; 0] []);
    try reflexivity; try (vm_compute; split; congruence).
  vm_compute. split; [split; congruence|done].
Defined.

Lemma field_range pkt off n : Forall octet pkt -> 0 <= field pkt off n < 256 ^ Z.of_nat n.
Proof.
  intros H. unfold field, slice.
  assert (Hs : Forall octet (take n (drop off pkt))) by (by apply Forall_take, Forall_drop).
  assert (Hl : (length (take n (drop off pkt)) <= n)%nat) by (rewrite length_take; lia).
  revert Hs Hl. generalize (take n (drop off pkt)). intros l Hs Hl.
  assert (Hv : 0 <= be_value 256 l < 256 ^ Z.of_nat (length l)).
  { clear Hl. induction l as [|d l IH] using rev_ind; [done|]. apply Forall_app in Hs as [Hs Hd].
    specialize (IH Hs). apply Forall_inv in Hd. unfold octet in Hd.
    rewrite be_value_app, length_app, Nat2Z.inj_add, Z.pow_add_r by lia.
    change (256 ^ Z.of_nat (length [d])) with 256. nia. }
  assert (256 ^ Z.of_nat (length l) <= 256 ^ Z.of_nat n) by (apply Z.pow_le_mono_r; lia). lia.
Qed.

(** Nothing that arrives on the shared port is misread: a datagram is
    never both a NAT-PMP and a PCP response, one shorter than its protocol's
    header is neither, a mapping reply and an address reply have exactly their
    length, and whatever the octets are, every port, code, epoch, lifetime and
    address read from them is in range for its type. *)
Theorem response_read_once (pkt : datagram) (r : PmpResponse) :
  Forall octet pkt -> parse_pmp_response pkt = Some r ->
  parse_pcp_response pkt = None /\ (12 <= length pkt)%nat /\
  (pmp_op_code r = 0x81 -> length pkt = 16%nat) /\ (pmp_op_code r = 0x80 -> length pkt = 12%nat) /\
  octet (pmp_op_code r) /\ u16 (pmp_result_code r) /\ u32 (pmp_seconds_since_epoch r) /\
  u32 (pmp_mapping_valid_seconds r) /\ u16 (pmp_internal_port r) /\ u16 (pmp_external_port r) /\
  (forall a, pmp_public_addr r = Some a -> 0 < a < 2 ^ 32).
Proof.
  intros Ho H. unfold parse_pmp_response in H.
  destruct (Nat.ltb_spec (length pkt) 12); [done|].
  destruct (Z.eqb_spec (field pkt 0 1) PMP_VERSION) as [Hv|]; [|done]. cbn [negb] in H.
  assert (Hpcp : parse_pcp_response pkt = None).
  { unfold parse_pcp_response. rewrite Hv. change (PMP_VERSION =? PCP_VERSION) with false.
    by rewrite orb_true_r. }
  pose proof (fun off => field_range pkt off 1 Ho) as F1. pose proof (fun off => field_range pkt off 2 Ho) as F2.
  pose proof (fun off => field_range pkt off 4 Ho) as F4. cbn [Z.of_nat] in F1, F2, F4.
  change (256 ^ 1) with 256 in F1. change (256 ^ Z.of_nat 2) with (2 ^ 16) in F2.
  change (256 ^ Z.of_nat 4) with (2 ^ 32) in F4.
  change (Z.lor PMP_OP_REPLY PMP_OP_MAP_UDP) with 0x81 in H.
  change (Z.lor PMP_OP_REPLY PMP_OP_MAP_PUBLIC_ADDR) with 0x80 in H.
  assert (Z0 : u16 0 /\ u32 0) by (unfold u16, u32; lia). destruct Z0 as [Z16 Z32].
  destruct (Z.eqb_spec (field pkt 1 1) 0x81) as [Ho1|Ho1].
  - destruct (Nat.eqb_spec (length pkt) 16); [|done]. injection H as <-. cbn.
    split_and!; try done; try apply F1; try apply F2; try apply F4. congruence.
  - destruct (Z.eqb_spec (field pkt 1 1) 0x80) as [Ho2|Ho2].
    + destruct (Nat.eqb_spec (length pkt) 12); [|done]. injection H as <-. cbn.
      split_and!; try done; try apply F1; try apply F2; try apply F4.
      destruct (Z.eqb_spec (field pkt 8 4) 0); [done|]. intros a [= <-]. specialize (F4 8%nat). lia.
    + injection H as <-. cbn. split_and!; try done; try apply F1; try apply F2; apply F4.
Qed.

Lemma response_read_once_witness :
  let pkt := pmp_map_reply 0 500 41641 50000 7200 in
  let r := mkPmpResponse 0x81 0 500 7200 41641 50000 None in
  parse_pmp_response pkt = Some r /\ parse_pcp_response pkt = None /\ (12 <= length pkt)%nat /\
  (pmp_op_code r = 0x81 -> length pkt = 16%nat) /\ (pmp_op_code r = 0x80 -> length pkt = 12%nat) /\
  octet (pmp_op_code r) /\ u16 (pmp_result_code r) /\ u32 (pmp_seconds_since_epoch r) /\
  u32 (pmp_mapping_valid_seconds r) /\ u16 (pmp_internal_port r) /\ u16 (pmp_external_port r) /\
  (forall a, pmp_public_addr r = Some a -> 0 < a < 2 ^ 32).
Proof.
  cbv zeta. split; [reflexivity|].
  apply (response_read_once (pmp_map_reply 0 500 41641 50000 7200)); [|reflexivity].
  vm_compute. repeat constructor; congruence.
Defined.
