(* ===== verification/PortmapDisco.v ===== *)
(** * Discovery and the default gateway: [src/portmap.rs]

    The SSDP side of the port-mapping client (the M-SEARCH probes, the parse
    of a discovery response, the order and deduplication of several) and the
    scan of Linux's [/proc/net/route] for the home router. *)
From Stdlib Require Import ZArith Lia Ascii String List Sorting.
From stdpp Require Import base list strings option.
From S2P Require Import Prelude NetAddr Text.

(** ** Probes *)

Definition SSDP_MULTICAST : IpAddr := V4 (ipv4 239 255 255 250).
Definition UPNP_PORT : Z := 1900.
Definition SSDP_ST_ALL : bytes := bs "ssdp:all".
Definition SSDP_ST_IGD : bytes := bs "urn:schemas-upnp-org:device:InternetGatewayDevice:1".
Definition IGD_MARKER : bytes := bs ":InternetGatewayDevice:".

Definition CRLF : bytes := [CR; LF].
Definition DQUOTE : ascii := ascii_of_N 34.

Definition upnp_packet (st : bytes) : bytes :=
  bs "M-SEARCH * HTTP/1.1" ++ CRLF ++
  bs "HOST: " ++ bs (show_ip SSDP_MULTICAST) ++ bs ":" ++ show_dec UPNP_PORT ++ CRLF ++
  bs "ST: " ++ st ++ CRLF ++
  bs "MAN: " ++ [DQUOTE] ++ bs "ssdp:discover" ++ [DQUOTE] ++ CRLF ++
  bs "MX: 2" ++ CRLF ++ CRLF.

(** ** Responses *)

Record UpnpDiscoResponse : Type := mkUpnpDiscoResponse {
  upnp_location : bytes;
  upnp_server : bytes;
  upnp_usn : bytes
}.

#[global] Instance UpnpDiscoResponse_eq_dec : EqDecision UpnpDiscoResponse.
Proof. solve_decision. Defined.

Inductive UpnpError : Type :=
| NotUtf8
| MalformedStatusLine (status : bytes)
| MalformedStatusCode (code : bytes)
| MalformedHeader (line : bytes).

(** [text.split(CRLF).flat_map(split(LF))]: cutting at each CRLF and each
    piece at every LF cuts at each LF, a CR before it going with it. *)
Fixpoint split_crlf (s : bytes) : list bytes :=
  match s with
  | [] => [[]]
  | c :: s' =>
      match s' with
      | d :: s'' => if Ascii.eqb c CR && Ascii.eqb d LF then [] :: split_crlf s''
                    else match split_crlf s' with
                         | [] => [[c]]
                         | part :: parts => (c :: part) :: parts
                         end
      | [] => [[c]]
      end
  end.
Definition response_lines (text : bytes) : list bytes :=
  flat_map (split_on LF) (split_crlf text).

Definition header_field (key value : bytes) (r : UpnpDiscoResponse) : UpnpDiscoResponse :=
  let key := map to_ascii_lowercase key in
  if bool_decide (key = bs "location") then mkUpnpDiscoResponse value (upnp_server r) (upnp_usn r)
  else if bool_decide (key = bs "server") then mkUpnpDiscoResponse (upnp_location r) value (upnp_usn r)
  else if bool_decide (key = bs "usn") then mkUpnpDiscoResponse (upnp_location r) (upnp_server r) value
  else r.

(** The header block, up to its blank line. *)
Fixpoint parse_headers (ls : list bytes) (r : UpnpDiscoResponse) : result UpnpError UpnpDiscoResponse :=
  match ls with
  | [] => Ok r
  | line :: ls' =>
      if bool_decide (line = []) then Ok r
      else
        '(key, value) ← ok_or (MalformedHeader line) (split_once ":" line);
        parse_headers ls' (header_field key (trim value) r)
  end.

(** [HTTP/<version> <code>[ reason]]: the second of [splitn(3, ' ')]. *)
Definition check_status (status : bytes) : result UpnpError unit :=
  let '(proto, rest) := match split_once " " status with
                        | Some (p, rest) => (p, Some rest)
                        | None => (status, None)
                        end in
  _ ← guard_err (negb (starts_with (bs "HTTP/") proto)) (MalformedStatusLine status);
  rest ← ok_or (MalformedStatusLine status) rest;
  let code := match split_once " " rest with Some (code, _) => code | None => rest end in
  guard_err (negb (Nat.eqb (length code) 3) || negb (forallb is_ascii_digit code))
    (MalformedStatusCode code).

Definition parse_upnp_disco_response (body : bytes) : result UpnpError UpnpDiscoResponse :=
  _ ← guard_err (negb (is_utf8 body)) NotUtf8;
  match response_lines body with
  | [] => Err (MalformedStatusLine [])
  | status :: headers =>
      _ ← check_status status;
      parse_headers headers (mkUpnpDiscoResponse [] [] [])
  end.

(** [str]'s order: lexicographic on bytes. *)
Fixpoint bytes_cmp (a b : bytes) : comparison :=
  match a, b with
  | [], [] => Eq
  | [], _ => Lt
  | _, [] => Gt
  | x :: a', y :: b' => match byte_val x ?= byte_val y with Eq => bytes_cmp a' b' | c => c end
  end.
Definition cmp_then (c d : comparison) : comparison := match c with Eq => d | _ => c end.

(** The USN in reverse, then the location, then the server. *)
Definition upnp_cmp (a b : UpnpDiscoResponse) : comparison :=
  cmp_then (bytes_cmp (upnp_usn b) (upnp_usn a))
    (cmp_then (bytes_cmp (upnp_location a) (upnp_location b))
       (bytes_cmp (upnp_server a) (upnp_server b))).

(** [sort_by] is stable: an element goes before the later ones it equals. *)
Fixpoint upnp_insert (x : UpnpDiscoResponse) (l : list UpnpDiscoResponse) : list UpnpDiscoResponse :=
  match l with
  | [] => [x]
  | y :: l' => match upnp_cmp x y with Gt => y :: upnp_insert x l' | _ => x :: l end
  end.
Definition upnp_sort (l : list UpnpDiscoResponse) : list UpnpDiscoResponse := fold_right upnp_insert [] l.

Definition same_device (a b : UpnpDiscoResponse) : bool :=
  bool_decide (upnp_location a = upnp_location b) && bool_decide (upnp_server a = upnp_server b).

(** [dedup_by]: an element goes when it matches the one kept before it. *)
Fixpoint dedup_devices (last : option UpnpDiscoResponse) (l : list UpnpDiscoResponse)
    : list UpnpDiscoResponse :=
  match l with
  | [] => []
  | x :: l' =>
      if match last with Some y => same_device x y | None => false end then dedup_devices last l'
      else x :: dedup_devices (Some x) l'
  end.

Definition process_upnp_responses (metas : list UpnpDiscoResponse) : list UpnpDiscoResponse :=
  dedup_devices None (upnp_sort metas).

(** ** [/proc/net/route] *)

Definition MAX_PROC_NET_ROUTE_READ : nat := 1000.
Definition RTF_UP : Z := 1.
Definition RTF_GATEWAY : Z := 2.

(** [Ipv4Addr::is_private]. *)
Definition is_private (b : Z) : bool :=
  (b / 2 ^ 24 =? 10)
  || ((b / 2 ^ 24 =? 172) && (16 <=? b / 2 ^ 16 mod 256) && (b / 2 ^ 16 mod 256 <=? 31))
  || (b / 2 ^ 16 =? 192 * 256 + 168).

(** The address as the file writes it: its low byte is the first octet. *)
Definition swap_octets (v : Z) : Z :=
  ipv4 (v mod 256) (Z.shiftr v 8 mod 256) (Z.shiftr v 16 mod 256) (Z.shiftr v 24 mod 256).

(** One line of the table: the gateway and the interface, or skip it. *)
Definition route_line (line : bytes) : option (Z * bytes) :=
  match split_whitespace line with
  | iface :: _ :: gateway :: flags :: _ =>
      flags ← from_str_radix 16 (2 ^ 16) flags;
      if negb (Z.land flags (Z.lor RTF_UP RTF_GATEWAY) =? Z.lor RTF_UP RTF_GATEWAY) then None
      else
        v ← from_str_radix 16 (2 ^ 32) gateway;
        let ip := swap_octets v in
        if is_private ip then Some (ip, iface) else None
  | _ => None
  end.

(** The lines after the header, at most [MAX_PROC_NET_ROUTE_READ] of them. *)
Fixpoint first_gateway (ls : list bytes) : option (Z * bytes) :=
  match ls with
  | [] => None
  | line :: ls' => match route_line line with Some found => Some found | None => first_gateway ls' end
  end.
Definition parse_proc_net_route (contents : bytes) : option (Z * bytes) :=
  first_gateway (take MAX_PROC_NET_ROUTE_READ (drop 1 (lines contents))).
