(* ===== verification/PortmapClient.v ===== *)
(** * The port-mapping client: [Client] of [src/portmap.rs]

    Everything the client remembers between calls, and its operations as the
    steps they take under the state lock: a probe and a mapping attempt hold no
    lock while they wait for the gateway, so other operations run between
    their steps.  Log lines are not modelled; what is sent is. *)
From Stdlib Require Import ZArith Lia Ascii String List.
From stdpp Require Import base list strings option.
From coqutil Require Datatypes.RecordSettersUsingExistingGetters.
Import coqutil.Datatypes.RecordSettersUsingExistingGetters.RecordSetNotations1.
From S2P Require Import Prelude NetAddr Text PortmapWire PortmapDisco.

(** Times are nanoseconds since the epoch. *)
Definition SECONDS (n : Z) : Z := n * 10 ^ 9.
Definition TRUST_SERVICE_STILL_AVAILABLE : Z := SECONDS (10 * 60).
Definition MAX_UPNP_RESPONSES : nat := 10.

Inductive PortmapError : Type :=
| NoPortMappingServices
| GatewayRange
| GatewayIPv6
| PortMappingDisabled
| NoMapping (cause : MappingCause)
| PortmapIo
with MappingCause : Type :=
| Cause (e : PortmapError)
| ClosedClient
| PmpRefused (op res : Z).

(** [TS_DISABLE_PORTMAPPER] counts as [disable_all]. *)
Record DebugKnobs : Type := mkDebugKnobs {
  disable_upnp : bool;
  disable_pmp : bool;
  disable_pcp : bool;
  disable_all : bool
}.

Record ProbeResult : Type := mkProbeResult { pr_pcp : bool; pr_pmp : bool; pr_upnp : bool }.

(** ** Mappings *)

Inductive MappingKind : Type := Pmp | Pcp.
#[global] Instance MappingKind_eq_dec : EqDecision MappingKind.
Proof. solve_decision. Defined.

Record Mapping : Type := mkMapping {
  m_kind : MappingKind;
  m_gw : SocketAddr;
  m_internal : SocketAddr;
  m_external : SocketAddr;
  m_renew_after : Z;
  m_good_until : Z;
  m_epoch : Z;
  m_nonce : option datagram
}.

#[global] Instance Mapping_eq_dec : EqDecision Mapping.
Proof. solve_decision. Defined.

Definition release_packet (m : Mapping) : datagram :=
  match m_kind m with
  | Pmp => build_pmp_request_mapping_packet (sa_port (m_internal m)) (sa_port (m_external m))
             MAP_LIFETIME_DELETE
  | Pcp => build_pcp_request_mapping_packet (default (repeat 0 12) (m_nonce m))
             (sa_ip (m_internal m)) (sa_port (m_internal m)) 0 MAP_LIFETIME_DELETE (V4 0)
  end.

(** ** What the client remembers *)

Record State : Type := mkState {
  last_gw : option IpAddr;
  last_my_ip : option IpAddr;
  closed : bool;
  running_create : bool;
  last_probe : option Z;
  pmp_pub_ip : option Z;
  pmp_pub_ip_time : option Z;
  pmp_last_epoch : Z;
  pcp_saw_time : option Z;
  pcp_last_epoch : Z;
  upnp_saw_time : option Z;
  upnp_metas : list UpnpDiscoResponse;
  local_port : Z;
  mapping : option Mapping
}.

Definition State_default : State :=
  mkState None None false false None None None 0 None 0 None [] 0 None.

(** With what it has sent, to whom, oldest first. *)
Record Client : Type := mkClient { st : State; sent : list (SocketAddr * datagram) }.

Definition Client_new : Client := mkClient State_default [].

Definition on_state (f : State -> State) (c : Client) : Client := mkClient (f (st c)) (sent c).
Definition send (to : SocketAddr) (pkt : datagram) (c : Client) : Client :=
  mkClient (st c) (sent c ++ [(to, pkt)]).

Definition release_mapping (m : Mapping) (c : Client) : Client :=
  send (m_gw m) (release_packet m) c.

Definition forget_services (s : State) : State :=
  s <| pmp_pub_ip := None |> <| pmp_pub_ip_time := None |> <| pmp_last_epoch := 0 |>
    <| pcp_saw_time := None |> <| pcp_last_epoch := 0 |> <| upnp_saw_time := None |>
    <| upnp_metas := [] |>.

Definition invalidate_mappings_locked (release_old : bool) (c : Client) : Client :=
  let held := mapping (st c) in
  let c := on_state (fun s => s <| mapping := None |>) c in
  let c := match held with
           | Some m => if release_old then release_mapping m c else c
           | None => c
           end in
  on_state forget_services c.

Definition set_local_port (port : Z) (c : Client) : Client :=
  if local_port (st c) =? port then c
  else invalidate_mappings_locked true (on_state (fun s => s <| local_port := port |>) c).

Definition note_network_down (c : Client) : Client := invalidate_mappings_locked false c.

Definition close (c : Client) : Client :=
  if closed (st c) then c
  else invalidate_mappings_locked true (on_state (fun s => s <| closed := true |>) c).

(** [gateway_and_self_ip], over the lookup's answer. *)
Definition gateway_and_self_ip (found : option (IpAddr * IpAddr)) (c : Client) : Client :=
  let gw := fst <$> found in
  let my_ip := snd <$> found in
  if negb (bool_decide (gw = last_gw (st c))) || negb (bool_decide (my_ip = last_my_ip (st c)))
     || negb (bool_decide (is_Some found))
  then invalidate_mappings_locked true
         (on_state (fun s => s <| last_my_ip := my_ip |> <| last_gw := gw |>) c)
  else c.

Definition recent (now : Z) (t : option Z) : bool :=
  match t with Some t => now - TRUST_SERVICE_STILL_AVAILABLE <? t | None => false end.
Definition saw_pmp_recently (now : Z) (s : State) : bool :=
  bool_decide (is_Some (pmp_pub_ip s)) && recent now (pmp_pub_ip_time s).
Definition saw_pcp_recently (now : Z) (s : State) : bool := recent now (pcp_saw_time s).
Definition saw_upnp_recently (now : Z) (s : State) : bool := recent now (upnp_saw_time s).

(** The gateway's epoch went backwards: it has forgotten our mapping. *)
Definition epoch_lost (kind : MappingKind) (epoch : Z) (s : State) : bool :=
  negb (epoch =? 0)
  && match mapping s with
     | Some m => bool_decide (m_kind m = kind) && (epoch <? m_epoch m)
     | None => false
     end.
Definition maybe_invalidate_pmp_mapping_locked (epoch : Z) (s : State) : State :=
  if epoch_lost Pmp epoch s
  then s <| mapping := None |> <| pmp_pub_ip := None |> <| pmp_pub_ip_time := None |>
         <| pmp_last_epoch := 0 |>
  else s.
Definition maybe_invalidate_pcp_mapping_locked (epoch : Z) (s : State) : State :=
  if epoch_lost Pcp epoch s
  then s <| mapping := None |> <| pcp_saw_time := None |> <| pcp_last_epoch := 0 |>
  else s.

(** ** Probing *)

(** A probe waiting for answers. *)
Record ProbeRun : Type := mkProbeRun {
  pb_gw : IpAddr;
  pb_res : ProbeResult;
  pb_pcp_heard : bool;
  pb_upnp_responses : list UpnpDiscoResponse
}.

Definition octets_of (b : bytes) : datagram := map byte_val b.

Definition pxp_addr (gw : IpAddr) : SocketAddr := mkSocketAddr gw PXP_PORT.

Definition send_when (go : bool) (to : SocketAddr) (pkt : datagram) (c : Client) : Client :=
  if go then send to pkt c else c.

(** Up to the receive loop. *)
Definition probe_begin (knobs : DebugKnobs) (now : Z) (found : option (IpAddr * IpAddr))
    (bound : bool) (c : Client) : Client * result PortmapError ProbeRun :=
  if disable_all knobs then (c, Err PortMappingDisabled)
  else
    let c := gateway_and_self_ip found c in
    match found with
    | None => (c, Err GatewayRange)
    | Some (gw, my_ip) =>
        if negb bound then (c, Err PortmapIo)
        else
          let saw_pmp := saw_pmp_recently now (st c) in
          let saw_pcp := saw_pcp_recently now (st c) in
          let saw_upnp := saw_upnp_recently now (st c) in
          let multicast := mkSocketAddr SSDP_MULTICAST UPNP_PORT in
          let ask_upnp := negb saw_upnp && negb (disable_upnp knobs) in
          let generic := octets_of (upnp_packet SSDP_ST_ALL) in
          let igd := octets_of (upnp_packet SSDP_ST_IGD) in
          let c := send_when (negb saw_pmp && negb (disable_pmp knobs)) (pxp_addr gw)
                     PMP_REQ_EXTERNAL_ADDR_PACKET c in
          let c := send_when (negb saw_pcp && negb (disable_pcp knobs)) (pxp_addr gw)
                     (pcp_announce_request my_ip) c in
          let c := send_when ask_upnp (mkSocketAddr gw UPNP_PORT) generic c in
          let c := send_when ask_upnp multicast generic c in
          let c := send_when ask_upnp multicast igd c in
          (c, Ok (mkProbeRun gw (mkProbeResult saw_pcp saw_pmp saw_upnp) false []))
    end.

Definition handle_upnp_response (pkt : datagram) (run : ProbeRun) : ProbeRun :=
  match parse_upnp_disco_response (map byte_of_Z pkt) with
  | Err _ => run
  | Ok meta =>
      let run := run <| pb_res := (pb_res run) <| pr_upnp := true |> |> in
      if Nat.ltb MAX_UPNP_RESPONSES (length (pb_upnp_responses run)) then run
      else run <| pb_upnp_responses := pb_upnp_responses run ++ [meta] |>
  end.

Definition pmp_probe_response (now : Z) (pkt : datagram) (run : ProbeRun) (s : State)
    : ProbeRun * State :=
  match parse_pmp_response pkt with
  | None => (run, s)
  | Some pres =>
      if negb (pmp_op_code pres =? Z.lor PMP_OP_REPLY PMP_OP_MAP_PUBLIC_ADDR) then (run, s)
      else if pmp_result_code pres =? PMP_OK then
        (run <| pb_res := (pb_res run) <| pr_pmp := true |> |>,
         (maybe_invalidate_pmp_mapping_locked (pmp_seconds_since_epoch pres) s)
           <| pmp_pub_ip := pmp_public_addr pres |> <| pmp_pub_ip_time := Some now |>
           <| pmp_last_epoch := pmp_seconds_since_epoch pres |>)
      else (run, s)
  end.

Definition handle_pxp_response (now : Z) (pkt : datagram) (run : ProbeRun) (s : State)
    : ProbeRun * State :=
  match parse_pcp_response pkt with
  | None => pmp_probe_response now pkt run s
  | Some pres =>
      if pcp_op_code pres =? Z.lor PCP_OP_REPLY PCP_OP_ANNOUNCE then
        let run := run <| pb_pcp_heard := true |> in
        let s := (maybe_invalidate_pcp_mapping_locked (pcp_epoch pres) s)
                   <| pcp_saw_time := Some now |> <| pcp_last_epoch := pcp_epoch pres |> in
        if pcp_result_code pres =? PCP_OK
        then (run <| pb_res := (pb_res run) <| pr_pcp := true |> |>, s)
        else if (pcp_result_code pres =? PCP_NOT_AUTHORIZED)
                || (pcp_result_code pres =? PCP_ADDRESS_MISMATCH)
        then (run <| pb_res := (pb_res run) <| pr_pcp := false |> |>, s)
        else pmp_probe_response now pkt run s
      else pmp_probe_response now pkt run s
  end.

(** [contains(pkt, IGD_MARKER)]. *)
Definition has_igd_marker (pkt : datagram) : bool := contains_bytes IGD_MARKER (map byte_of_Z pkt).

(** One datagram of the receive loop. *)
Definition probe_datagram (now : Z) (src : SocketAddr) (pkt : datagram) (run : ProbeRun) (c : Client)
    : Client * ProbeRun :=
  if sa_port src =? UPNP_PORT then
    (c, if has_igd_marker pkt then handle_upnp_response pkt run else run)
  else if sa_port src =? PXP_PORT then
    let '(run, s) := handle_pxp_response now pkt run (st c) in (mkClient s (sent c), run)
  else (c, if has_igd_marker pkt then handle_upnp_response pkt run else run).

(** The loop has nothing more to learn. *)
Definition probe_satisfied (run : ProbeRun) (settled : bool) : bool :=
  pb_pcp_heard run && pr_pmp (pb_res run) && pr_upnp (pb_res run) && settled.

(** After the loop; [io_error] when a read failed. *)
Definition probe_finish (now : Z) (io_error : bool) (run : ProbeRun) (c : Client)
    : Client * result PortmapError ProbeResult :=
  let c :=
    if pr_upnp (pb_res run) && negb (bool_decide (pb_upnp_responses run = [])) then
      let found := process_upnp_responses (pb_upnp_responses run) in
      on_state (fun s => (s <| upnp_saw_time := Some now |>) <| upnp_metas := found |>) c
    else c in
  if io_error then (c, Err PortmapIo)
  else (on_state (fun s => s <| last_probe := Some now |>) c, Ok (pb_res run)).

(** ** Mapping *)

(** Whether a background attempt starts. *)
Definition maybe_start_mapping (c : Client) : Client * bool :=
  if closed (st c) || running_create (st c) then (c, false)
  else (on_state (fun s => s <| running_create := true |>) c, true).

Definition have_mapping (now : Z) (c : Client) : bool :=
  match mapping (st c) with Some m => now <? m_good_until m | None => false end.

Definition get_cached_mapping_or_start_creating_one (now : Z) (c : Client)
    : Client * option SocketAddr :=
  match mapping (st c) with
  | Some m =>
      if now <? m_good_until m then
        (if m_renew_after m <? now then fst (maybe_start_mapping c) else c, Some (m_external m))
      else (fst (maybe_start_mapping c), None)
  | None => (fst (maybe_start_mapping c), None)
  end.

(** The background attempt's epilogue. *)
Definition create_finished (c : Client) : Client :=
  on_state (fun s => s <| running_create := false |>) c.

(** A mapping attempt waiting for the gateway. *)
Record Attempt : Type := mkAttempt {
  at_gw : IpAddr;
  at_internal : SocketAddr;
  at_nonce : option datagram;
  at_external_ip : option IpAddr;
  at_external_port : Z;
  at_good_until : Z;
  at_renew_after : Z;
  at_epoch : Z
}.

Definition store_mapping (m : Mapping) (c : Client) : Client * bool :=
  if closed (st c) then (release_mapping m c, false)
  else (on_state (fun s => s <| mapping := Some m |>) c, true).

(** UPnP mapping is not implemented: the fallback only fails. *)
Definition upnp_fallback : PortmapError := NoMapping (Cause NoPortMappingServices).

Inductive SendOutcome : Type := SendOk | SendLost | SendFailed.

Definition send_or_no_mapping (outcome : SendOutcome) (to : SocketAddr) (pkt : datagram) (c : Client)
    : Client * result PortmapError unit :=
  match outcome with
  | SendOk => (send to pkt c, Ok tt)
  | SendLost => (c, Err (NoMapping (Cause NoPortMappingServices)))
  | SendFailed => (c, Err PortmapIo)
  end.

(** [Next]: what a mapping attempt does after reading the state once. *)
Inductive Next : Type :=
| Reuse (external : SocketAddr)
| Upnp (prev_port : Z)
| Ask (prev_port : Z) (have_recent_pmp have_recent_pcp : bool) (known_external_ip : option Z).

Definition decide_next (knobs : DebugKnobs) (now : Z) (s : State) : Next :=
  let ask prev_port :=
    if disable_pcp knobs && disable_pmp knobs then Upnp prev_port
    else
      let have_recent_pmp := saw_pmp_recently now s in
      let have_recent_pcp := saw_pcp_recently now s in
      let probed_just_now := match last_probe s with
                             | Some t => (t <=? now) && (now - t <? SECONDS 5)
                             | None => false
                             end in
      if probed_just_now && negb have_recent_pmp && negb have_recent_pcp then Upnp prev_port
      else Ask prev_port have_recent_pmp have_recent_pcp
             (if have_recent_pmp then pmp_pub_ip s else None) in
  match mapping s with
  | Some m => if now <? m_renew_after m then Reuse (m_external m) else ask (sa_port (m_external m))
  | None => ask 0
  end.

Definition prefer_pcp (knobs : DebugKnobs) (have_recent_pmp have_recent_pcp : bool) : bool :=
  negb (disable_pcp knobs) && (disable_pmp knobs || (negb have_recent_pmp && have_recent_pcp)).

(** What the attempt meets outside the client: the lookup's answer, whether
    the socket binds, the random nonce if it could be read, and what becomes
    of each send. *)
Record Surroundings : Type := mkSurroundings {
  sr_found : option (IpAddr * IpAddr);
  sr_bound : bool;
  sr_nonce : option datagram;
  sr_send : datagram -> SendOutcome
}.

(** The requests of one attempt, in order; [None] if they were all sent. *)
Definition send_requests (pcp : bool) (sr : Surroundings) (gw my_ip : IpAddr) (internal_port prev_port : Z)
    (known_external_ip : option Z) (c : Client) : Client * result PortmapError (option datagram) :=
  let ask pkt c := send_or_no_mapping (sr_send sr pkt) (pxp_addr gw) pkt c in
  if pcp then
    match sr_nonce sr with
    | None => (c, Err PortmapIo)
    | Some nonce =>
        let pkt := build_pcp_request_mapping_packet nonce my_ip internal_port prev_port
                     MAP_LIFETIME_SEC (V4 0) in
        let '(c, r) := ask pkt c in
        (c, _ ← r; Ok (Some nonce))
    end
  else
    let '(c, r) := match known_external_ip with
                   | None => ask PMP_REQ_EXTERNAL_ADDR_PACKET c
                   | Some _ => (c, Ok tt)
                   end in
    match r with
    | Err e => (c, Err e)
    | Ok _ =>
        let '(c, r) := ask (build_pmp_request_mapping_packet internal_port prev_port MAP_LIFETIME_SEC) c in
        (c, _ ← r; Ok None)
    end.

(** [create_or_get_mapping] up to its receive loop: an answer, or the attempt
    now waiting for one. *)
Definition create_begin (knobs : DebugKnobs) (now : Z) (sr : Surroundings) (c : Client)
    : Client * (result PortmapError SocketAddr + Attempt) :=
  let fail c cause := (c, inl (Err (NoMapping cause))) in
  if closed (st c) then fail c ClosedClient
  else if disable_all knobs then fail c (Cause PortMappingDisabled)
  else if disable_upnp knobs && disable_pcp knobs && disable_pmp knobs
  then fail c (Cause NoPortMappingServices)
  else
    let c := gateway_and_self_ip (sr_found sr) c in
    match sr_found sr with
    | None => fail c (Cause GatewayRange)
    | Some (gw, my_ip) =>
        if negb (is_ipv4 gw) then fail c (Cause GatewayIPv6)
        else
          let internal := mkSocketAddr my_ip (local_port (st c)) in
          match decide_next knobs now (st c) with
          | Reuse external => (c, inl (Ok external))
          | Upnp _ => (c, inl (Err upnp_fallback))
          | Ask prev_port have_recent_pmp have_recent_pcp known_external_ip =>
              if negb (sr_bound sr) then (c, inl (Err PortmapIo))
              else
                let pcp := prefer_pcp knobs have_recent_pmp have_recent_pcp in
                let '(c, r) := send_requests pcp sr gw my_ip (sa_port internal) prev_port
                                 known_external_ip c in
                match r with
                | Err e => (c, inl (Err e))
                | Ok nonce =>
                    (c, inr (mkAttempt gw internal nonce (V4 <$> known_external_ip) 0 now now 0))
                end
          end
    end.

(** A mapping was granted: keep it, or give it straight back. *)
Definition obtain (m : Mapping) (c : Client) : Client * (result PortmapError SocketAddr + Attempt) :=
  let '(c, stored) := store_mapping m c in
  (c, inl (if stored then Ok (m_external m) else Err (NoMapping ClosedClient))).

Definition attempt_pmp (now : Z) (pres : PmpResponse) (a : Attempt) : Attempt :=
  let a := if pmp_op_code pres =? Z.lor PMP_OP_REPLY PMP_OP_MAP_PUBLIC_ADDR
           then a <| at_external_ip := V4 <$> pmp_public_addr pres |> else a in
  if pmp_op_code pres =? Z.lor PMP_OP_REPLY PMP_OP_MAP_UDP
  then a <| at_external_port := pmp_external_port pres |>
         <| at_good_until := now + SECONDS (pmp_mapping_valid_seconds pres) |>
         <| at_renew_after := now + SECONDS (pmp_mapping_valid_seconds pres) / 2 |>
         <| at_epoch := pmp_seconds_since_epoch pres |>
  else a.

(** Both halves of the NAT-PMP answer are in. *)
Definition attempt_settled (a : Attempt) : option Mapping :=
  match at_external_ip a with
  | Some ip =>
      if at_external_port a =? 0 then None
      else Some (mkMapping Pmp (pxp_addr (at_gw a)) (at_internal a)
                   (mkSocketAddr ip (at_external_port a)) (at_renew_after a) (at_good_until a)
                   (at_epoch a) None)
  | None => None
  end.

Definition unmap_socket_addr (a : SocketAddr) : IpAddr :=
  match sa_ip a with V6 b => unmap b | v4 => v4 end.

(** One datagram of the receive loop. *)
Definition attempt_datagram (now : Z) (src : SocketAddr) (pkt : datagram) (a : Attempt) (c : Client)
    : Client * (result PortmapError SocketAddr + Attempt) :=
  if negb (bool_decide (unmap_socket_addr src = at_gw a)) || negb (sa_port src =? PXP_PORT)
  then (c, inr a)
  else
    match pkt with
    | v :: _ =>
        if v =? PMP_VERSION then
          match parse_pmp_response pkt with
          | None => (c, inr a)
          | Some pres =>
              if negb (pmp_result_code pres =? PMP_OK) then
                (c, inl (Err (NoMapping (PmpRefused (pmp_op_code pres) (pmp_result_code pres)))))
              else
                let a := attempt_pmp now pres a in
                match attempt_settled a with Some m => obtain m c | None => (c, inr a) end
          end
        else if v =? PCP_VERSION then
          match parse_pcp_map_response pkt with
          | Err _ => (c, inl (Err (NoMapping (Cause NoPortMappingServices))))
          | Ok grant =>
              obtain (mkMapping Pcp (pxp_addr (at_gw a)) (at_internal a) (grant_external grant)
                        (now + SECONDS (grant_lifetime grant) / 2)
                        (now + SECONDS (grant_lifetime grant)) (grant_epoch grant) (at_nonce a)) c
          end
        else (c, inl (Err (NoMapping (Cause NoPortMappingServices))))
    | [] => (c, inl (Err (NoMapping (Cause NoPortMappingServices))))
    end.

(** The loop's deadline, or a failed read. *)
Definition attempt_timeout (c : Client) : Client * result PortmapError SocketAddr :=
  (c, Err upnp_fallback).

(** ** Executions *)

Record Session : Type := mkSession {
  client : Client;
  probes : list ProbeRun;
  attempts : list Attempt
}.

Inductive Op : Type :=
| OSetLocalPort (port : Z)
| ONetworkDown
| OClose
| OProbe (now : Z) (found : option (IpAddr * IpAddr)) (bound : bool)
| OProbeDatagram (i : nat) (now : Z) (src : SocketAddr) (pkt : datagram)
| OProbeFinish (i : nat) (now : Z) (io_error : bool)
| OGetCached (now : Z)
| OCreate (now : Z) (sr : Surroundings)
| OAttemptDatagram (i : nat) (now : Z) (src : SocketAddr) (pkt : datagram)
| OAttemptTimeout (i : nat)
| OCreateFinished.

(** A datagram an attempt ends on takes it out of flight. *)
Definition after_datagram (i : nat) (outcome : result PortmapError SocketAddr + Attempt)
    (l : list Attempt) : list Attempt :=
  match outcome with inl _ => delete i l | inr a => <[i := a]> l end.

Definition step (knobs : DebugKnobs) (op : Op) (s : Session) : option Session :=
  let c := client s in
  match op with
  | OSetLocalPort port => Some (mkSession (set_local_port port c) (probes s) (attempts s))
  | ONetworkDown => Some (mkSession (note_network_down c) (probes s) (attempts s))
  | OClose => Some (mkSession (close c) (probes s) (attempts s))
  | OProbe now found bound =>
      let '(c, r) := probe_begin knobs now found bound c in
      Some (mkSession c (probes s ++ match r with Ok run => [run] | Err _ => [] end) (attempts s))
  | OProbeDatagram i now src pkt =>
      run ← probes s !! i;
      let '(c, run) := probe_datagram now src pkt run c in
      Some (mkSession c (<[i := run]> (probes s)) (attempts s))
  | OProbeFinish i now io_error =>
      run ← probes s !! i;
      Some (mkSession (fst (probe_finish now io_error run c)) (delete i (probes s)) (attempts s))
  | OGetCached now =>
      Some (mkSession (fst (get_cached_mapping_or_start_creating_one now c)) (probes s) (attempts s))
  | OCreate now sr =>
      let '(c, outcome) := create_begin knobs now sr c in
      Some (mkSession c (probes s)
              (attempts s ++ match outcome with inr a => [a] | inl _ => [] end))
  | OAttemptDatagram i now src pkt =>
      a ← attempts s !! i;
      let '(c, outcome) := attempt_datagram now src pkt a c in
      Some (mkSession c (probes s) (after_datagram i outcome (attempts s)))
  | OAttemptTimeout i =>
      _ ← attempts s !! i;
      Some (mkSession (fst (attempt_timeout c)) (probes s) (delete i (attempts s)))
  | OCreateFinished => Some (mkSession (create_finished c) (probes s) (attempts s))
  end.

Fixpoint steps (knobs : DebugKnobs) (ops : list Op) (s : Session) : option Session :=
  match ops with
  | [] => Some s
  | op :: ops' => s' ← step knobs op s; steps knobs ops' s'
  end.

Definition Session_new : Session := mkSession Client_new [] [].

Inductive reached (knobs : DebugKnobs) : Session -> Prop :=
| reached_new : reached knobs Session_new
| reached_step op s s' : reached knobs s -> step knobs op s = Some s' -> reached knobs s'.
