(* ===== verification/PortmapFacts.v ===== *)
(** * What the port-mapping client guarantees

    A closed client holds nothing; no mapping is lost without being given back,
    except for the three reasons the client has; a release names the mapping
    the request asked for; and three executions that bound these claims. *)
From Stdlib Require Import ZArith Lia Ascii String List.
From stdpp Require Import base list strings option.
From coqutil Require Datatypes.RecordSettersUsingExistingGetters.
Import coqutil.Datatypes.RecordSettersUsingExistingGetters.RecordSetNotations1.
From S2P Require Import Prelude NetAddr Text PortmapWire PortmapDisco PortmapClient.

(** ** What the steps do to the mapping and to the sent log *)

(** The log of [c'] extends that of [c] by [l]. *)
Definition sends (c c' : Client) (l : list (SocketAddr * datagram)) : Prop := sent c' = sent c ++ l.

(** A client operation either keeps the mapping, or drops it after sending its
    release, or drops it for a stated reason [why], or stores a [new] one. *)
Inductive fate (why new : Mapping -> Prop) (c c' : Client) : Prop :=
| Kept l (_ : sends c c' l) (_ : mapping (st c') = mapping (st c))
| Released m l (_ : mapping (st c) = Some m) (_ : mapping (st c') = None)
    (_ : sends c c' l) (_ : (m_gw m, release_packet m) ∈ l)
| Dropped m l (_ : mapping (st c) = Some m) (_ : mapping (st c') = None) (_ : sends c c' l) (_ : why m)
| Stored m l (_ : closed (st c) = false) (_ : mapping (st c') = Some m) (_ : sends c c' l) (_ : new m).

Lemma sends_nil c : sends c c [].
Proof. unfold sends. by rewrite app_nil_r. Qed.

Lemma sends_trans c1 c2 c3 l1 l2 : sends c1 c2 l1 -> sends c2 c3 l2 -> sends c1 c3 (l1 ++ l2).
Proof. unfold sends. intros H1 H2. by rewrite H2, H1, app_assoc. Qed.

Lemma fate_same why new c : fate why new c c.
Proof. by apply Kept with []; [apply sends_nil|]. Qed.

(** Only the mapping, the closed flag and the log matter. *)
Lemma invalidate_fate release c0 c : mapping (st c) = mapping (st c0) -> sent c = sent c0 ->
  fate (fun _ => release = false) (fun _ => False) c0 (invalidate_mappings_locked release c) /\
  mapping (st (invalidate_mappings_locked release c)) = None /\
  closed (st (invalidate_mappings_locked release c)) = closed (st c).
Proof.
  intros Hm Hs. unfold invalidate_mappings_locked. rewrite Hm.
  destruct (mapping (st c0)) as [m|] eqn:E; [destruct release|]; (split; [|done]).
  - eapply Released with (l := [(m_gw m, release_packet m)]); try done.
    + unfold sends. cbn. by rewrite Hs.
    + by apply list_elem_of_singleton.
  - eapply Dropped with (l := []); try done. unfold sends. cbn. by rewrite Hs, app_nil_r.
  - apply Kept with []; [|by rewrite E]. unfold sends. cbn. by rewrite Hs, app_nil_r.
Qed.

Lemma fate_weaken (P Q P' Q' : Mapping -> Prop) c c' : (forall m, P m -> Q m) ->
  (forall m, P' m -> Q' m) -> fate P P' c c' -> fate Q Q' c c'.
Proof.
  intros H H' []; [eapply Kept|eapply Released|eapply Dropped|eapply Stored]; eauto.
Qed.

(** Sending more, and touching other fields, keeps the fate. *)
Lemma fate_then why new c c1 c2 l :
  fate why new c c1 -> sends c1 c2 l -> mapping (st c2) = mapping (st c1) -> fate why new c c2.
Proof.
  intros H Hs Hm. destruct H as [l1 H1 H2|m l1 H1 H2 H3 H4|m l1 H1 H2 H3 H4|m l1 H1 H2 H3 H4].
  - apply Kept with (l1 ++ l); [by eapply sends_trans|by rewrite Hm].
  - apply Released with m (l1 ++ l); try done; [by rewrite Hm|by eapply sends_trans|].
    apply elem_of_app. by left.
  - apply Dropped with m (l1 ++ l); try done; [by rewrite Hm|by eapply sends_trans].
  - apply Stored with m (l1 ++ l); try done; [by rewrite Hm|by eapply sends_trans].
Qed.

Record tidy (why new : Mapping -> Prop) (c c' : Client) : Prop := {
  td_fate : fate why new c c';
  td_closed : closed (st c) = true -> closed (st c') = true;
  td_empty : (closed (st c) = true -> mapping (st c) = None) ->
             closed (st c') = true -> mapping (st c') = None
}.

Lemma tidy_same why new c : tidy why new c c.
Proof. split; [apply fate_same|done|done]. Qed.

Lemma tidy_then why new c c1 c2 l : tidy why new c c1 -> sends c1 c2 l ->
  mapping (st c2) = mapping (st c1) -> closed (st c2) = closed (st c1) -> tidy why new c c2.
Proof.
  intros [H1 H2 H3] Hs Hm Hc. split; [by eapply fate_then|by rewrite Hc|by rewrite Hc, Hm].
Qed.

Lemma tidy_invalidate release (c0 c : Client) : mapping (st c) = mapping (st c0) -> sent c = sent c0 ->
  (closed (st c0) = true -> closed (st c) = true) ->
  tidy (fun _ => release = false) (fun _ => False) c0 (invalidate_mappings_locked release c).
Proof.
  intros Hm Hs Hc. destruct (invalidate_fate release c0 c Hm Hs) as (Hf & Hn & Hcl).
  split; [done| |done]. by rewrite Hcl.
Qed.

Definition never : Mapping -> Prop := fun _ => False.

Lemma tidy_weaken (P Q P' Q' : Mapping -> Prop) c c' : (forall m, P m -> Q m) ->
  (forall m, P' m -> Q' m) -> tidy P P' c c' -> tidy Q Q' c c'.
Proof. intros H H' [H1 H2 H3]. split; [|done|done]. by eapply fate_weaken. Qed.

Lemma tidy_release c0 c : mapping (st c) = mapping (st c0) -> sent c = sent c0 ->
  (closed (st c0) = true -> closed (st c) = true) ->
  tidy never never c0 (invalidate_mappings_locked true c).
Proof.
  intros Hm Hs Hc. destruct (tidy_invalidate true c0 c Hm Hs Hc) as [H1 H2 H3].
  split; [|done|done]. eapply fate_weaken; [| |exact H1]; by intros m H.
Qed.

Lemma set_local_port_tidy port c : tidy never never c (set_local_port port c).
Proof.
  unfold set_local_port. destruct (_ =? _); [apply tidy_same|]. by apply tidy_release.
Qed.

Lemma close_tidy c : tidy never never c (close c).
Proof.
  unfold close. destruct (closed (st c)) eqn:E; [apply tidy_same|]. by apply tidy_release.
Qed.

Lemma gateway_tidy found c : tidy never never c (gateway_and_self_ip found c).
Proof.
  unfold gateway_and_self_ip. destruct (_ || _); [|apply tidy_same]. by apply tidy_release.
Qed.

Lemma sends_when go to pkt c : exists l, sends c (send_when go to pkt c) l.
Proof. destruct go; [by exists [(to, pkt)]|exists []; apply sends_nil]. Qed.

Lemma st_send_when go to pkt c : st (send_when go to pkt c) = st c.
Proof. by destruct go. Qed.

Lemma tidy_send_when why new go to pkt c0 c : tidy why new c0 c -> tidy why new c0 (send_when go to pkt c).
Proof.
  intros H. destruct (sends_when go to pkt c) as [l Hl].
  eapply tidy_then; [exact H|exact Hl|by rewrite st_send_when|by rewrite st_send_when].
Qed.

Lemma probe_begin_tidy knobs now found bound c : tidy never never c (fst (probe_begin knobs now found bound c)).
Proof.
  unfold probe_begin. destruct (disable_all knobs); [apply tidy_same|].
  destruct found as [[gw my_ip]|]; [|apply gateway_tidy].
  destruct (negb bound); [apply gateway_tidy|]. cbn [fst].
  repeat apply tidy_send_when. apply gateway_tidy.
Qed.

(** The epoch a probe reply reports. *)
Definition reported_epoch (pkt : datagram) (epoch : Z) : Prop :=
  (exists r, parse_pcp_response pkt = Some r /\ epoch = pcp_epoch r) \/
  (exists r, parse_pmp_response pkt = Some r /\ epoch = pmp_seconds_since_epoch r).

Definition rebooted (pkt : datagram) (m : Mapping) : Prop :=
  exists epoch, reported_epoch pkt epoch /\ epoch < m_epoch m.

(** A state step of the probe: the closed flag stays, and the mapping is kept
    or dropped for its epoch. *)
Definition state_tidy (pkt : datagram) (s s' : State) : Prop :=
  closed s' = closed s /\
  (mapping s' = mapping s \/ exists m, mapping s = Some m /\ mapping s' = None /\ rebooted pkt m).

Lemma epoch_lost_drop kind epoch s : epoch_lost kind epoch s = true ->
  exists m, mapping s = Some m /\ epoch < m_epoch m.
Proof.
  unfold epoch_lost. intros [_ H]%andb_true_iff. destruct (mapping s) as [m|]; [|done].
  apply andb_true_iff in H as [_ H%Z.ltb_lt]. eauto.
Qed.

Lemma pmp_probe_tidy now pkt run s s0 : state_tidy pkt s0 s ->
  state_tidy pkt s0 (snd (pmp_probe_response now pkt run s)).
Proof.
  intros [Hc Hm]. unfold pmp_probe_response. destruct (parse_pmp_response pkt) as [r|] eqn:Ep; [|done].
  destruct (negb _); [done|]. destruct (_ =? PMP_OK); [|done]. cbn [snd].
  unfold maybe_invalidate_pmp_mapping_locked.
  destruct (epoch_lost Pmp _ s) eqn:El; [|done].
  apply epoch_lost_drop in El as (m & Em & Hlt). split; [done|].
  destruct Hm as [Hm|(m0 & _ & Hn & _)]; [|congruence].
  right. exists m. split; [congruence|]. split; [done|]. eexists. split; [right; eauto|done].
Qed.

Lemma pxp_tidy now pkt run s : state_tidy pkt s (snd (handle_pxp_response now pkt run s)).
Proof.
  assert (Hsame : state_tidy pkt s s) by (split; [done|by left]).
  unfold handle_pxp_response. destruct (parse_pcp_response pkt) as [r|] eqn:Ep;
    [|by apply pmp_probe_tidy].
  destruct (pcp_op_code r =? _); [|by apply pmp_probe_tidy]. cbv zeta.
  set (s1 := (maybe_invalidate_pcp_mapping_locked (pcp_epoch r) s) <| pcp_saw_time := Some now |>
               <| pcp_last_epoch := pcp_epoch r |>).
  assert (H1 : state_tidy pkt s s1).
  { unfold s1, maybe_invalidate_pcp_mapping_locked. destruct (epoch_lost Pcp _ s) eqn:El; [|done].
    apply epoch_lost_drop in El as (m & Em & Hlt). split; [done|]. right. exists m.
    split_and!; [done|done|]. eexists. split; [left; eauto|done]. }
  clearbody s1. destruct (_ =? PCP_OK); [done|]. destruct (_ || _); [done|by apply pmp_probe_tidy].
Qed.

Lemma probe_datagram_tidy now src pkt run c :
  tidy (rebooted pkt) never c (fst (probe_datagram now src pkt run c)).
Proof.
  unfold probe_datagram. destruct (_ =? UPNP_PORT); [apply tidy_same|].
  destruct (_ =? PXP_PORT); [|apply tidy_same].
  destruct (pxp_tidy now pkt run (st c)) as [Hc Hm]. destruct (handle_pxp_response _ _ _ _) as [run' s'].
  cbn [fst snd] in *. destruct Hm as [Hm|(m & Hm & Hn & Hw)].
  - split; cbn [st]; [|by rewrite Hc|by rewrite Hc, Hm].
    apply Kept with []; [unfold sends; by rewrite app_nil_r|done].
  - split; cbn [st]; [|by rewrite Hc|done].
    apply Dropped with m []; try done. unfold sends. by rewrite app_nil_r.
Qed.

(** A step that leaves the mapping, the closed flag and the log alone. *)
Lemma tidy_quiet why new c c' : mapping (st c') = mapping (st c) -> closed (st c') = closed (st c) ->
  sent c' = sent c -> tidy why new c c'.
Proof.
  intros Hm Hc Hs. apply (tidy_then why new c c c' []); [apply tidy_same|..]; try done.
  unfold sends. by rewrite app_nil_r.
Qed.

Lemma probe_finish_tidy now io run c : tidy never never c (fst (probe_finish now io run c)).
Proof. unfold probe_finish. destruct (_ && _), io; by apply tidy_quiet. Qed.

Lemma maybe_start_tidy c : tidy never never c (fst (maybe_start_mapping c)).
Proof. unfold maybe_start_mapping. destruct (_ || _); [apply tidy_same|by apply tidy_quiet]. Qed.

Lemma get_cached_tidy now c :
  tidy never never c (fst (get_cached_mapping_or_start_creating_one now c)).
Proof.
  unfold get_cached_mapping_or_start_creating_one. destruct (mapping (st c)) as [m|];
    [destruct (_ <? _); [destruct (_ <? _)|]|]; try apply maybe_start_tidy. apply tidy_same.
Qed.

(** ** Requests *)

(** The request that asks for a mapping of [internal]: with a nonce over PCP,
    and over NAT-PMP otherwise. *)
Definition request (nonce : option datagram) (internal : SocketAddr) (prev_port : Z) : datagram :=
  match nonce with
  | Some n => build_pcp_request_mapping_packet n (sa_ip internal) (sa_port internal) prev_port
                MAP_LIFETIME_SEC (V4 0)
  | None => build_pmp_request_mapping_packet (sa_port internal) prev_port MAP_LIFETIME_SEC
  end.

Lemma send_outcome_state o to pkt c : st (fst (send_or_no_mapping o to pkt c)) = st c /\
  (exists l, sends c (fst (send_or_no_mapping o to pkt c)) l) /\
  (snd (send_or_no_mapping o to pkt c) = Ok tt -> (to, pkt) ∈ sent (fst (send_or_no_mapping o to pkt c))).
Proof.
  destruct o; cbn [send_or_no_mapping fst snd]; split_and!; try done; try (by exists []; apply sends_nil).
  - by exists [(to, pkt)].
  - intros _. cbn. apply elem_of_app. right. by apply list_elem_of_singleton.
Qed.

Lemma send_requests_facts pcp sr gw my_ip port prev known c :
  let '(c', r) := send_requests pcp sr gw my_ip port prev known c in
  st c' = st c /\ (exists l, sends c c' l) /\
  forall nonce, r = Ok nonce ->
    (pxp_addr gw, request nonce (mkSocketAddr my_ip port) prev) ∈ sent c'.
Proof.
  unfold send_requests. destruct pcp.
  - destruct (sr_nonce sr) as [n|]; [|split_and!; [done|by exists []; apply sends_nil|done]].
    pose proof (send_outcome_state (sr_send sr (request (Some n) (mkSocketAddr my_ip port) prev))
      (pxp_addr gw) (request (Some n) (mkSocketAddr my_ip port) prev) c) as (H1 & H2 & H3).
    cbn [request sa_ip sa_port] in *.
    destruct (send_or_no_mapping _ _ _ c) as [c' [[]|e]]; cbn [fst snd mbind result_bind] in *;
      split_and!; try done. intros nonce [= <-]. by apply H3.
  - set (ask := fun pkt c => send_or_no_mapping (sr_send sr pkt) (pxp_addr gw) pkt c).
    set (first := match known with None => _ | Some _ => (c, Ok tt) end).
    assert (Hf : st (fst first) = st c /\ exists l, sends c (fst first) l).
    { unfold first. destruct known; [split; [done|by exists []; apply sends_nil]|].
      destruct (send_outcome_state (sr_send sr PMP_REQ_EXTERNAL_ADDR_PACKET) (pxp_addr gw)
        PMP_REQ_EXTERNAL_ADDR_PACKET c) as (H1 & H2 & _). done. }
    destruct first as [c1 [[]|e]]; cbn [fst] in Hf; [|by destruct Hf].
    destruct Hf as [Hs1 [l1 Hl1]].
    pose proof (send_outcome_state (sr_send sr (request None (mkSocketAddr my_ip port) prev))
      (pxp_addr gw) (request None (mkSocketAddr my_ip port) prev) c1) as (H1 & [l2 H2] & H3).
    cbn [request sa_port] in *.
    destruct (send_or_no_mapping _ _ _ c1) as [c2 [[]|e]]; cbn [fst snd mbind result_bind] in *;
      (split_and!; [congruence|eexists; by eapply sends_trans|]); [|done].
    intros nonce [= <-]. by apply H3.
Qed.

(** The request an attempt, or the mapping it obtained, goes back to. *)
Definition asked (gw internal : SocketAddr) (nonce : option datagram) (c : Client) : Prop :=
  exists prev_port, (gw, request nonce internal prev_port) ∈ sent c.

Definition attempt_asked (a : Attempt) (c : Client) : Prop :=
  asked (pxp_addr (at_gw a)) (at_internal a) (at_nonce a) c.

(** A PCP mapping carries the nonce it was asked under. *)
Definition mapping_asked (m : Mapping) (c : Client) : Prop :=
  exists nonce, asked (m_gw m) (m_internal m) nonce c /\ (m_kind m = Pcp -> m_nonce m = nonce).

Lemma asked_more gw internal nonce c c' l : sends c c' l ->
  asked gw internal nonce c -> asked gw internal nonce c'.
Proof. intros Hs [p H]. exists p. rewrite Hs. apply elem_of_app. by left. Qed.

Lemma fate_sends why new c c' : fate why new c c' -> exists l, sends c c' l.
Proof. intros []; eauto. Qed.

Lemma create_begin_facts knobs now sr c :
  let '(c', r) := create_begin knobs now sr c in
  tidy never never c c' /\ forall a, r = inr a -> attempt_asked a c'.
Proof.
  unfold create_begin. destruct (closed (st c)); [by split; [apply tidy_same|]|].
  destruct (disable_all knobs); [by split; [apply tidy_same|]|].
  destruct (_ && _ && _); [by split; [apply tidy_same|]|].
  pose proof (gateway_tidy (sr_found sr) c) as Hg. set (c1 := gateway_and_self_ip (sr_found sr) c) in *.
  clearbody c1. destruct (sr_found sr) as [[gw my_ip]|]; [|done].
  destruct (negb (is_ipv4 gw)); [done|]. destruct (decide_next knobs now (st c1)) as [x|p|p hp hc known]; [done..|].
  destruct (negb (sr_bound sr)); [done|]. cbv zeta. cbn [sa_port].
  pose proof (send_requests_facts (prefer_pcp knobs hp hc) sr gw my_ip (local_port (st c1)) p known c1) as H.
  destruct (send_requests _ _ _ _ _ _ _ _) as [c2 r]. destruct H as (Hs & [l Hl] & Hr).
  assert (Ht : tidy never never c c2) by (apply (tidy_then _ _ _ c1 c2 l); by rewrite ?Hs).
  destruct r as [nonce|e]; [|done]. split; [done|]. intros a [= <-]. exists p. by apply Hr.
Qed.

Lemma obtain_facts m c :
  let '(c', r) := obtain m c in
  tidy never (eq m) c c' /\
  (r = inl (Ok (m_external m)) /\ mapping (st c') = Some m \/
   r = inl (Err (NoMapping ClosedClient)) /\ closed (st c) = true /\ mapping (st c') = mapping (st c) /\
   (m_gw m, release_packet m) ∈ sent c').
Proof.
  unfold obtain, store_mapping. destruct (closed (st c)) eqn:E.
  - split.
    + apply (tidy_then _ _ c c _ [(m_gw m, release_packet m)]); [apply tidy_same|done..].
    + right. split_and!; try done. apply elem_of_app. right. by apply list_elem_of_singleton.
  - split; [|by left]. split; [|by rewrite E|cbn; by rewrite E].
    apply Stored with m []; try done. unfold sends. cbn. by rewrite app_nil_r.
Qed.

Definition same_request (a a' : Attempt) : Prop :=
  at_gw a' = at_gw a /\ at_internal a' = at_internal a /\ at_nonce a' = at_nonce a.

Lemma attempt_pmp_same now pres a : same_request a (attempt_pmp now pres a).
Proof. unfold attempt_pmp. destruct (_ =? _), (_ =? _); done. Qed.

(** The mapping an attempt can obtain. *)
Definition grant_of (a : Attempt) (m : Mapping) : Prop :=
  m_gw m = pxp_addr (at_gw a) /\ m_internal m = at_internal a /\
  (m_kind m = Pcp -> m_nonce m = at_nonce a).

Lemma attempt_datagram_facts now src pkt a c :
  let '(c', r) := attempt_datagram now src pkt a c in
  tidy never (grant_of a) c c' /\
  (c' = c /\ (forall a', r = inr a' -> same_request a a') \/
   exists m, grant_of a m /\ (c', r) = obtain m c).
Proof.
  assert (Hrefl : same_request a a) by done.
  unfold attempt_datagram. destruct (_ || _).
  { split; [apply tidy_same|]. left. split; [done|]. by intros a' [= <-]. }
  destruct pkt as [|v pkt]; [by split; [apply tidy_same|left]|].
  destruct (v =? PMP_VERSION).
  - destruct (parse_pmp_response _) as [pres|].
    2:{ split; [apply tidy_same|]. left. split; [done|]. by intros a' [= <-]. }
    destruct (negb _); [by split; [apply tidy_same|left]|]. cbv zeta.
    destruct (attempt_pmp_same now pres a) as (Hg & Hi & Hn). set (a1 := attempt_pmp now pres a) in *.
    clearbody a1. unfold attempt_settled. destruct (at_external_ip a1) as [ip|].
    2:{ split; [apply tidy_same|]. left. split; [done|]. by intros a' [= <-]. }
    destruct (at_external_port a1 =? 0).
    { split; [apply tidy_same|]. left. split; [done|]. by intros a' [= <-]. }
    match goal with |- context [obtain ?m c] => set (m0 := m); pose proof (obtain_facts m0 c) as Ho end.
    destruct (obtain m0 c) as [c' r] eqn:Eo. destruct Ho as [Ht _].
    assert (Hgr : grant_of a m0) by (unfold grant_of, m0; cbn; by rewrite Hg, Hi).
    split; [|right; by exists m0]. eapply tidy_weaken; [| |exact Ht]; [done|by intros m <-].
  - destruct (v =? PCP_VERSION); [|by split; [apply tidy_same|left]].
    destruct (parse_pcp_map_response _) as [g|]; [|by split; [apply tidy_same|left]].
    match goal with |- context [obtain ?m c] => set (m0 := m); pose proof (obtain_facts m0 c) as Ho end.
    destruct (obtain m0 c) as [c' r] eqn:Eo. destruct Ho as [Ht _].
    assert (Hgr : grant_of a m0) by done.
    split; [|right; by exists m0]. eapply tidy_weaken; [| |exact Ht]; [done|by intros m <-].
Qed.

(** ** The invariant of every execution *)

Record Held (s : Session) : Prop := {
  hd_closed : closed (st (client s)) = true -> mapping (st (client s)) = None;
  hd_mapping : forall m, mapping (st (client s)) = Some m -> mapping_asked m (client s);
  hd_attempts : Forall (fun a => attempt_asked a (client s)) (attempts s)
}.

(** Why a step may drop a mapping without releasing it. *)
Definition may_drop (op : Op) (m : Mapping) : Prop :=
  match op with
  | ONetworkDown => True
  | OProbeDatagram _ _ _ pkt => rebooted pkt m
  | _ => False
  end.

(** What a step may store. *)
Definition may_store (op : Op) (s : Session) (m : Mapping) : Prop :=
  match op with
  | OAttemptDatagram i _ _ _ => exists a, attempts s !! i = Some a /\ grant_of a m
  | _ => False
  end.

Lemma step_tidy knobs op s s' : step knobs op s = Some s' ->
  tidy (may_drop op) (may_store op s) (client s) (client s').
Proof.
  assert (Hn : forall c c', tidy never never c c' -> tidy (may_drop op) (may_store op s) c c')
    by (intros c c'; apply tidy_weaken; by intros m []).
  destruct op; cbn [step]; intros H.
  - injection H as <-. apply Hn, set_local_port_tidy.
  - injection H as <-. cbn [client]. unfold note_network_down.
    eapply tidy_weaken; [| |by apply (tidy_invalidate false (client s))]; [done|by intros m []].
  - injection H as <-. apply Hn, close_tidy.
  - pose proof (probe_begin_tidy knobs now found bound (client s)) as Ht.
    destruct (probe_begin _ _ _ _ _). injection H as <-. by apply Hn.
  - destruct (probes s !! i) as [run|]; cbn in H; [|done].
    pose proof (probe_datagram_tidy now src pkt run (client s)) as Ht.
    destruct (probe_datagram _ _ _ _ _). injection H as <-.
    eapply tidy_weaken; [| |exact Ht]; [done|by intros m []].
  - destruct (probes s !! i) as [run|]; cbn in H; [|done]. injection H as <-.
    apply Hn, probe_finish_tidy.
  - injection H as <-. apply Hn, get_cached_tidy.
  - pose proof (create_begin_facts knobs now sr (client s)) as Ht.
    destruct (create_begin _ _ _ _). injection H as <-. by apply Hn, Ht.
  - destruct (attempts s !! i) as [a|] eqn:Ei; cbn in H; [|done].
    pose proof (attempt_datagram_facts now src pkt a (client s)) as Ht.
    destruct (attempt_datagram _ _ _ _ _). injection H as <-.
    eapply tidy_weaken; [| |apply Ht]; [by intros m []|]. intros m Hm. by exists a.
  - destruct (attempts s !! i); cbn in H; [|done]. injection H as <-. apply tidy_same.
  - injection H as <-. by apply tidy_quiet.
Qed.

Lemma attempts_more c c' l (ats : list Attempt) : sends c c' l ->
  Forall (fun a => attempt_asked a c) ats -> Forall (fun a => attempt_asked a c') ats.
Proof. intros Hs H. eapply List.Forall_impl; [|exact H]. intros a. by eapply asked_more. Qed.

Lemma same_request_asked a a' c : same_request a a' -> attempt_asked a c -> attempt_asked a' c.
Proof. intros (Hg & Hi & Hn). unfold attempt_asked. by rewrite Hg, Hi, Hn. Qed.

Lemma step_attempts knobs op s s' : step knobs op s = Some s' ->
  Forall (fun a => attempt_asked a (client s)) (attempts s) ->
  Forall (fun a => attempt_asked a (client s')) (attempts s').
Proof.
  intros H Ha. destruct (fate_sends _ _ _ _ (td_fate _ _ _ _ (step_tidy _ _ _ _ H))) as [l Hl].
  pose proof (attempts_more _ _ _ _ Hl Ha) as Hm.
  destruct op; cbn [step] in H; try (injection H as <-; exact Hm).
  - destruct (probe_begin _ _ _ _ _). by injection H as <-.
  - destruct (probes s !! i); cbn in H; [|done]. destruct (probe_datagram _ _ _ _ _). by injection H as <-.
  - destruct (probes s !! i); cbn in H; [|done]. by injection H as <-.
  - pose proof (create_begin_facts knobs now sr (client s)) as Ht.
    destruct (create_begin _ _ _ _) as [c' r]. injection H as <-. destruct Ht as [_ Ht].
    apply Forall_app. split; [exact Hm|]. destruct r as [x|a]; [constructor|].
    constructor; [by apply Ht|constructor].
  - destruct (attempts s !! i) as [a|] eqn:Ei; cbn in H; [|done].
    pose proof (attempt_datagram_facts now src pkt a (client s)) as Ht.
    destruct (attempt_datagram _ _ _ _ _) as [c' r]. injection H as <-. cbn [attempts client] in *.
    destruct r as [x|a']; cbn [after_datagram]; [by apply Forall_delete|].
    apply Forall_insert; [exact Hm|]. destruct Ht as [_ [[_ Hs]|(m & _ & Ho)]].
    + eapply same_request_asked; [by apply Hs|]. by eapply (Forall_lookup_1 _ _ _ _ Hm).
    + unfold obtain in Ho. by destruct (store_mapping m (client s)).
  - destruct (attempts s !! i); cbn in H; [|done]. injection H as <-. by apply Forall_delete.
Qed.

Lemma reached_held knobs s : reached knobs s -> Held s.
Proof.
  induction 1 as [|op s s' _ [IHc IHm IHa] H]; [by split|].
  pose proof (step_tidy _ _ _ _ H) as Ht. destruct (fate_sends _ _ _ _ (td_fate _ _ _ _ Ht)) as [l Hl].
  split; [by apply Ht| |by eapply step_attempts].
  intros m Hm. destruct (td_fate _ _ _ _ Ht) as [? _ Hk|? ? _ Hk|? ? _ Hk|m0 ? _ Hk _ Hw]; try congruence.
  - destruct (IHm m) as (n & Ha & Hn); [congruence|]. exists n. split; [by eapply asked_more|done].
  - assert (m0 = m) as -> by congruence. destruct op; try done. destruct Hw as (a & Ei & Hg & Hi & Hn).
    exists (at_nonce a). split; [|done]. rewrite Hg, Hi. eapply asked_more; [exact Hl|].
    by eapply (Forall_lookup_1 _ _ _ _ IHa).
Qed.

(** ** Properties *)




(** ** Concrete runs *)

Definition all_protocols : DebugKnobs := mkDebugKnobs false false false false.
Definition home : IpAddr * IpAddr := (V4 (ipv4 192 168 1 1), V4 (ipv4 192 168 1 20)).
Definition quiet_lan (nonce : datagram) : Surroundings :=
  mkSurroundings (Some home) true (Some nonce) (fun _ => SendOk).
Definition gateway : SocketAddr := pxp_addr (fst home).
Definition public_ip : Z := ipv4 203 0 113 9.
Definition T0 : Z := SECONDS 1000000.

Definition run_ops (ops : list Op) : Session := default Session_new (steps all_protocols ops Session_new).

Lemma run_ops_reached ops : steps all_protocols ops Session_new <> None ->
  reached all_protocols (run_ops ops).
Proof.
  unfold run_ops. generalize Session_new (reached_new all_protocols).
  induction ops as [|op ops IH]; intros s Hs; cbn [steps]; [done|].
  destruct (step all_protocols op s) as [s'|] eqn:E; cbn; [|done].
  specialize (IH s' (reached_step _ op s s' Hs E)). destruct (steps all_protocols ops s'); [exact IH|done].
Qed.

(** NAT-PMP answers with an address, then with a port. *)
Definition pmp_answers : list Op :=
  [ OAttemptDatagram 0 T0 gateway (pmp_addr_reply 0 500 public_ip);
    OAttemptDatagram 0 T0 gateway (pmp_map_reply 0 500 41641 50000 7200) ].
Definition mapped_ops : list Op :=
  OSetLocalPort 41641 :: OCreate T0 (quiet_lan (repeat 7 12)) :: pmp_answers.


Definition held_mapping : Mapping :=
  mkMapping Pmp gateway (mkSocketAddr (snd home) 41641) (mkSocketAddr (V4 public_ip) 50000)
    (T0 + SECONDS 3600) (T0 + SECONDS 7200) 500 None.



(** ** Bounds of the claims *)

Lemma gateway_unchanged gw my_ip c : last_gw (st c) = Some gw -> last_my_ip (st c) = Some my_ip ->
  gateway_and_self_ip (Some (gw, my_ip)) c = c.
Proof.
  intros Hg Hi. unfold gateway_and_self_ip. rewrite Hg, Hi.
  rewrite !bool_decide_true by (try reflexivity; by eexists). reflexivity.
Qed.

Lemma probe_begin_reports knobs now gw my_ip c :
  disable_all knobs = false -> last_gw (st c) = Some gw -> last_my_ip (st c) = Some my_ip ->
  exists c' run, probe_begin knobs now (Some (gw, my_ip)) true c = (c', Ok run) /\
    pb_res run = mkProbeResult (saw_pcp_recently now (st c)) (saw_pmp_recently now (st c))
                   (saw_upnp_recently now (st c)).
Proof.
  intros Hk Hg Hi. unfold probe_begin. rewrite Hk, (gateway_unchanged _ _ _ Hg Hi). cbn [negb].
  eexists _, _. split; [reflexivity|reflexivity].
Qed.

(** A PCP ANNOUNCE reply of a service that refuses to map. *)
Definition pcp_refusal (lifetime epoch : Z) (tail : datagram) : datagram :=
  [PCP_VERSION; Z.lor PCP_OP_REPLY PCP_OP_ANNOUNCE; 0; PCP_NOT_AUTHORIZED]
  ++ be32 lifetime ++ be32 epoch ++ tail.

(** A PCP service that refuses to map is reported as willing to by the
    next probe: the refusal makes the probe that hears it answer that PCP is
    not available, but it also counts as having seen the service, so every
    probe of the same gateway within the ten minutes of trust answers, without
    asking, that it is. *)
Theorem refused_pcp_reported_available (knobs : DebugKnobs) (now now' lifetime epoch : Z)
    (tail : datagram) (gw my_ip : IpAddr) (run : ProbeRun) (c : Client) :
  u32 lifetime -> u32 epoch -> (12 <= length tail)%nat ->
  last_gw (st c) = Some gw -> last_my_ip (st c) = Some my_ip -> disable_all knobs = false ->
  now <= now' < now + TRUST_SERVICE_STILL_AVAILABLE ->
  exists c1 run1 c2 run2,
    probe_datagram now (pxp_addr gw) (pcp_refusal lifetime epoch tail) run c = (c1, run1) /\
    pr_pcp (pb_res run1) = false /\
    probe_begin knobs now' (Some (gw, my_ip)) true c1 = (c2, Ok run2) /\
    pr_pcp (pb_res run2) = true.
Proof.
  intros Hl He Ht Hg Hi Hk Hn. unfold probe_datagram, handle_pxp_response. cbn [sa_port pxp_addr].
  change (PXP_PORT =? UPNP_PORT) with false. rewrite Z.eqb_refl. unfold pcp_refusal.
  rewrite parse_pcp_header by done. cbn [pcp_op_code pcp_result_code pcp_epoch].
  rewrite Z.eqb_refl. change (PCP_NOT_AUTHORIZED =? PCP_OK) with false.
  change ((PCP_NOT_AUTHORIZED =? PCP_NOT_AUTHORIZED) || _) with true. cbv beta iota zeta.
  set (s1 := maybe_invalidate_pcp_mapping_locked epoch (st c)).
  assert (H1 : last_gw s1 = Some gw /\ last_my_ip s1 = Some my_ip)
    by (unfold s1, maybe_invalidate_pcp_mapping_locked; by destruct (epoch_lost _ _ _)).
  clearbody s1. destruct H1 as [Hg1 Hi1].
  match goal with |- context [mkClient ?s (sent c)] => set (c1 := mkClient s (sent c)) end.
  destruct (probe_begin_reports knobs now' gw my_ip c1 Hk Hg1 Hi1) as (c2 & run2 & Hp & Hr).
  eexists c1, _, c2, run2. split; [reflexivity|]. split; [reflexivity|]. split; [exact Hp|].
  rewrite Hr. cbn [pr_pcp]. unfold saw_pcp_recently, c1. cbn. apply Z.ltb_lt. lia.
Qed.

Definition before_probe : Client :=
  on_state (fun s => s <| last_gw := Some (fst home) |> <| last_my_ip := Some (snd home) |>) Client_new.
Definition fresh_run : ProbeRun := mkProbeRun (fst home) (mkProbeResult false false false) false [].

Lemma refused_pcp_reported_available_witness :
  exists c1 run1 c2 run2,
    probe_datagram T0 (pxp_addr (fst home)) (pcp_refusal 0 9 (repeat 0 12)) fresh_run before_probe
      = (c1, run1) /\
    pr_pcp (pb_res run1) = false /\
    probe_begin all_protocols (T0 + SECONDS 60) (Some home) true c1 = (c2, Ok run2) /\
    pr_pcp (pb_res run2) = true.
Proof.
  apply (refused_pcp_reported_available all_protocols T0 (T0 + SECONDS 60) 0 9 (repeat 0 12)
           (fst home) (snd home) fresh_run before_probe);
    try reflexivity; try (vm_compute; split; congruence).
Defined.

(** Changing the local port does not undo a mapping attempt under way: the
    attempt read the old port when it began, and the mapping it obtains
    afterwards is stored and handed out although it points at that old port,
    the very thing the port change is meant to invalidate. *)
Theorem port_change_misses_attempt :
  exists s m,
    steps all_protocols
      ([ OSetLocalPort 41641; OCreate T0 (quiet_lan (repeat 7 12)); OSetLocalPort 41642 ] ++ pmp_answers)
      Session_new = Some s /\
    local_port (st (client s)) = 41642 /\ mapping (st (client s)) = Some m /\
    sa_port (m_internal m) = 41641 /\
    snd (get_cached_mapping_or_start_creating_one (T0 + SECONDS 60) (client s)) = Some (m_external m).
Proof.
  exists (run_ops ([ OSetLocalPort 41641; OCreate T0 (quiet_lan (repeat 7 12)); OSetLocalPort 41642 ]
                     ++ pmp_answers)), held_mapping.
  split_and!; vm_compute; reflexivity.
Qed.

(** A half-answered NAT-PMP attempt leaves its mapping on the router: when
    the gateway grants the port but its address answer is lost, the attempt
    gives up at its deadline without having stored anything, and nothing the
    client then does, closing included, ever releases the grant. *)
Theorem half_answered_grant_is_leaked :
  exists s,
    steps all_protocols
      [ OSetLocalPort 41641; OCreate T0 (quiet_lan (repeat 7 12));
        OAttemptDatagram 0 T0 gateway (pmp_map_reply 0 500 41641 50000 7200);
        OAttemptTimeout 0; OClose ] Session_new = Some s /\
    attempts s = [] /\ closed (st (client s)) = true /\
    map snd (sent (client s))
    = [ PMP_REQ_EXTERNAL_ADDR_PACKET; build_pmp_request_mapping_packet 41641 0 MAP_LIFETIME_SEC ].
Proof.
  exists (run_ops [ OSetLocalPort 41641; OCreate T0 (quiet_lan (repeat 7 12));
                    OAttemptDatagram 0 T0 gateway (pmp_map_reply 0 500 41641 50000 7200);
                    OAttemptTimeout 0; OClose ]).
  split_and!; vm_compute; reflexivity.
Qed.
